(* ===== verification/_CoqProject ===== *)
-Q . S2P
Prelude.v
Capability.v
CapTable.v
Authority.v
FrameSpec.v
FrameAlloc.v
Kani.v
Memory.v
Paging.v
Sched.v
Apic.v
Serial.v
Gdt.v
Context.v
BlockDev.v
ObjStore.v
VirtioBlk.v
VirtioDriver.v
Pci.v
VirtioInit.v
Capspace.v
Kernel.v
Idt.v
User.v
Ipc.v
Boot.v
Start.v
