(* ===== verification/Prelude.v ===== *)
(** * Cairn: a verification library for the keystone microkernel

    Cairn is a capability microkernel for x86-64, written in Rust: two small crates that
    hold the capability logic and a reference frame allocator, and a kernel that builds
    protection domains, blocking IPC, earliest-deadline scheduling, a crash-safe object
    store and a virtio disk on top of them, with four demonstration programs in ring 3.
    This library is a shallow embedding of that code: data as the source has it, machine
    integers as [Z] with their wrap-around written out, one definition per function, and
    the theorems that make the parts and their composition correct.

    ** Parts, and where they are

    Capabilities.
    - [Capability]: [crates/cap-core/src/capability.rs], rights, kinds, the 128-bit entry
      with [encode] and [decode].
    - [CapTable]: [crates/cap-core/src/table.rs], the object table and a domain's
      capability table: create, revoke, destroy, mint, invoke, delegate, seal, lookup.
    - [Authority]: any number of tables over one object table as a transition system; the
      four promises of [docs/CAP_ABI.md] over every sequence of operations.
    - [Kani]: the harnesses of the two [verification.rs] files, for all inputs.

    Memory.
    - [FrameSpec]: what a lowest-first frame allocator promises, as a class of laws on a
      set of free frames, and a client theorem proved against it.
    - [FrameAlloc]: [crates/frame-alloc/src/lib.rs], the bitmap. [Memory]:
      [kernel/src/memory.rs], the range list that runs. Both discharge the laws.
    - [Paging]: [kernel/src/paging.rs], page tables in physical memory and the hardware
      walk that gives them meaning.

    Processor.
    - [Sched]: [kernel/src/sched.rs], task table, selection, tick, block and wake, and the
      state a switch publishes ([SState]). [Context]: its assembly, on a small machine.
    - [Apic] ([apic.rs]), [Gdt] ([gdt.rs] and [syscall::init]), [Serial] ([serial.rs]).

    Storage.
    - [BlockDev]: disks with a write-back cache, torn writes and crashes; programs over
      them with a crash weakest precondition. [ObjStore]: [objstore.rs].
    - [VirtioBlk], [VirtioDriver], [VirtioInit]: [virtio_blk.rs], its record, its request
      path and its bring-up. [Pci]: [pci.rs].

    The kernel.
    - [Capspace]: [capspace.rs], the domains' tables and every object's payload
      ([KState]), with all methods, endpoint rendezvous, capability transfer and reaping.
    - [Kernel]: admission and termination of [sched.rs], [syscall.rs] with its assembly
      entry, [supervisor.rs] and the handlers of [interrupts.rs], on [Kern]; and the whole
      as a transition system, [krun], over system calls, faults, ticks and the kernel's
      own operations. [Idt]: [init_idt] and the delivery of exceptions through its table.
    - [User]: [user.rs], the four programs on a user-mode machine whose memory goes
      through the page tables, and [setup_user_task]. [Ipc]: the client and the server
      of [user.rs] with [Kernel] serving the calls they stop at.
    - [Boot]: [main.rs] from [objstore::mount] to [sti], as a program over kernel, store
      and console. [Start]: [main.rs] before that, from the machine the loader leaves.

    A component is called through its definitions ([Capspace] calls [CapTable.invoke] and
    [Sched.unblock], [Kernel] calls [Capspace.cap_invoke_ipc], and so on) as the source
    calls it; components meet at interfaces where the source has one. [ObjStore] is proved
    over any [BlockDev] with [BlockDevLaws]; [VirtioDriver] proves that the driver is one;
    [Boot] runs the store on that driver. [Capspace] steps are shown to be [Authority]
    steps, so that the promises of the tables reach the kernel.

    ** What the theorems show

    - Authority (C2, C3, C13, C15, C20, C32 to C35): confinement over every execution of
      the kernel, no effect without a capability and its right, transfer as a move,
      complete revocation, type safety, the limits of epochs and of id reuse, the encoding.
    - Isolation and recovery (C1, C4, C17, C22, C27, C28): the kernel's invariant under any
      sequence of events, ring-3 faults that touch nobody else, exact reaping, admission
      and supervised restart; and which exceptions do stop the machine.
    - Scheduling and switching (C12, C18, C19, C23 to C26, C40): earliest deadline first,
      rendezvous in either order, wake-ups that deliver, exact saving and restoring of
      contexts, the system-call path from user register to user register, and the one
      input on which the catch-up loop does not end.
    - Storage (C7, C9, C21, C29 to C31): crash safety and durability of [put], a mount that
      never clobbers, the driver as a block device, its bring-up; and the retry that loses
      a root.
    - Memory and hardware (C16, C36 to C39): refinement of the frame set, exact mappings,
      the bus scan and the timer.
    - Composition (C5, C6, C8, C10, C11, C14): from power on through every self-test to the
      invariant of the running kernel; the ring-3 driver, whose assembly publishes byte
      for byte the request of the kernel's own driver, from the granted pages to the
      report the kernel accepts; the client and the server, from the client's registers
      to the frame the server allocates with the capability it was sent.

    Each theorem with hypotheses has a witness at a concrete machine, disk or table.

    ** Code outside the repository

    The [bitflags] and [x86_64] crates, the boot loader, the disk, the interrupt
    controllers, the UART, configuration space and the code the compiler emits around a
    [call] are classes ([Bitflags], [Mapper], [GdtOps], [StarOps], [VirtioDev],
    [VirtioCommon], [PciConf], [ApicHw], [Uart], [CallAbi]) whose laws are their
    documented behaviour, each with an instance. The machine code of the four programs is
    a parameter of [Boot]; [User] has their instructions.

    ** Bounds and fuel

    Array sizes are the source's. A loop with a bound in the source has that bound
    (50 000 000 polls of the disk and of the timer gate, 100 000 000 in the ring-3 driver,
    48 PCI capabilities); [while_pos] runs it with a binary fuel that its lemmas show is
    never the reason it stops. [DRIVER_STEPS] is the bound of the driver's poll times its
    six instructions, plus the rest of the program. [roll_deadlines] has 2^64 rounds, more
    than a 64-bit deadline needs to pass the clock, and is proved to have finished within
    them; at the saturated clock it is proved not to end. The serial wait has no bound in the
    source and is a relation. Times and counters that could overflow are kept in 64 bits
    and the theorems that need it assume a clock that has not saturated ([clock_ok]).

    ** Not modelled

    - Output: what is printed is a value where a theorem speaks of it ([Boot.line],
      [Pci.Line]), and is left out elsewhere; formatting and the console lock are other
      crates' code. [paging::dump_walk], a diagnostic nothing calls, only prints.
    - The heap: [init_heap] hands a static array to an allocator crate, and no modelled
      function allocates from it.
    - TLB contents, caches, segment-register loads, the entry trampoline that switches to
      the boot stack, the loader's request sections, the panic handler, [hlt].
    - Frame contents other than page tables, the virtio rings, user code and stack pages
      and the one frame of a mapped extent.
    - Concurrency: the source is for one processor with interrupts off in the kernel, so
      its locks and atomics are plain state; the device is the one concurrent agent, and
      acts between the driver's accesses.
    - The linker script, build configuration and scripts. *)

From stdpp Require Export base tactics numbers option list relations sets gmap.
From Stdlib Require Export ZArith Lia.

#[global] Open Scope Z_scope.

(** ** Machine integers

    A [w]-bit unsigned integer is a [Z]; [wrap w] is the reduction that
    [wrapping_add], [wrapping_mul] and the [as] casts to a narrower type
    perform, and [fits w] the range of the type. *)

Definition wrap (w x : Z) : Z := x mod 2 ^ w.
Definition fits (w x : Z) : Prop := 0 <= x < 2 ^ w.
#[global] Instance fits_dec w x : Decision (fits w x).
Proof. unfold fits. apply _. Defined.

Definition u32_max : Z := 2 ^ 32 - 1.
Definition u64_max : Z := 2 ^ 64 - 1.

(** [u64::saturating_add], [u64::saturating_sub] and [u64::saturating_mul]. *)
Definition sat_add64 (x y : Z) : Z := Z.min (x + y) u64_max.
Definition sat_sub64 (x y : Z) : Z := Z.max (x - y) 0.
Definition sat_mul64 (x y : Z) : Z := Z.min (x * y) u64_max.

(** Bitwise complement of a [w]-bit integer ([!x] in the source). *)
Definition lnotw (w x : Z) : Z := Z.lxor x (Z.ones w).

(** ** Fixed-size arrays

    A Rust array [[T; N]] is a list of length [N] indexed by a [usize],
    here a [Z]. Every access in the source is dominated by a range check;
    the invariants of each component carry the lengths. *)

Declare Scope cairn_scope.
Delimit Scope cairn_scope with cairn.

Definition aget {A} `{Inhabited A} (l : list A) (i : Z) : A := l !!! Z.to_nat i.
Definition aset {A} (l : list A) (i : Z) (x : A) : list A := <[Z.to_nat i := x]> l.
Definition zlen {A} (l : list A) : Z := Z.of_nat (length l).

Notation "l .[ i ]" := (aget l i)
  (at level 1, left associativity, format "l .[ i ]") : cairn_scope.
Notation "l .[ i := x ]" := (aset l i x)
  (at level 1, left associativity, format "l .[ i := x ]") : cairn_scope.
#[global] Open Scope cairn_scope.

(** ** Results

    [Result<A, E>] of the source. *)

Inductive result (A E : Type) : Type :=
  | Ok (a : A)
  | Err (e : E).
Arguments Ok {A E} a.
Arguments Err {A E} e.

#[global] Instance result_eq_dec {A E} `{EqDecision A, EqDecision E} :
  EqDecision (result A E).
Proof. solve_decision. Defined.

(** [Result::ok]. *)
Definition ok {A E} (r : result A E) : option A :=
  match r with Ok a => Some a | Err _ => None end.

(** [Option::ok_or]. *)
Definition ok_or {A E} (o : option A) (e : E) : result A E :=
  match o with Some a => Ok a | None => Err e end.

(** [Option::is_none]. *)
Definition is_none {A} (o : option A) : bool :=
  match o with None => true | Some _ => false end.

(** ** Automation *)

Create HintDb cairn.
Create Rewrite HintDb arr.

(** Destruct every conjunction and existential of the context. *)
Ltac crush_hyps :=
  repeat match goal with
  | H : _ ∧ _ |- _ => destruct H
  | H : ∃ _, _ |- _ => destruct H
  | H : (_ && _)%bool = true |- _ => apply andb_true_iff in H; destruct H
  | H : (_ || _)%bool = false |- _ => apply orb_false_iff in H; destruct H
  end.

(** Case analysis on the innermost [if] or [match] scrutinee of a hypothesis
    or of the goal, keeping the equation. *)
Ltac split_match_in H :=
  match type of H with
  | context [match ?x with _ => _ end] => destruct x eqn:?
  end.
Ltac split_match :=
  match goal with
  | |- context [match ?x with _ => _ end] => destruct x eqn:?
  end.

(** Turn boolean comparisons of the context into propositions. *)
Ltac bools :=
  repeat match goal with
  | H : Z.eqb _ _ = true |- _ => apply Z.eqb_eq in H
  | H : Z.eqb _ _ = false |- _ => apply Z.eqb_neq in H
  | H : Z.ltb _ _ = true |- _ => apply Z.ltb_lt in H
  | H : Z.ltb _ _ = false |- _ => apply Z.ltb_ge in H
  | H : Z.leb _ _ = true |- _ => apply Z.leb_le in H
  | H : Z.leb _ _ = false |- _ => apply Z.leb_gt in H
  | H : negb _ = true |- _ => apply negb_true_iff in H
  | H : negb _ = false |- _ => apply negb_false_iff in H
  | H : bool_decide _ = true |- _ => apply bool_decide_eq_true in H
  | H : bool_decide _ = false |- _ => apply bool_decide_eq_false in H
  | H : (_ && _)%bool = true |- _ => apply andb_true_iff in H; destruct H
  | H : (_ || _)%bool = false |- _ => apply orb_false_iff in H; destruct H
  end.

(** Propositional goals whose leaves are equations or linear arithmetic. *)
Ltac crush_leaf := first [congruence | lia | solve [eauto]
  | crush_hyps; simplify_eq/=; intuition first [congruence | lia] ].
Ltac crush := solve [crush_hyps; simplify_eq/=; intuition crush_leaf].

(** The witness of an existential over the content of a known option. *)
Lemma ex_Some {A} (a : A) (P : A → Prop) : (∃ x, Some a = Some x ∧ P x) ↔ P a.
Proof. split; [intros (x & [= <-] & HP); done|eauto]. Qed.

Lemma ex_None {A} (P : A → Prop) : (∃ x, None = Some x ∧ P x) ↔ False.
Proof. split; [intros (x & ? & _); done|done]. Qed.

(** ** Arrays: the generic lemmas *)

Section arrays.
Context {A : Type} `{Inhabited A}.
Implicit Types (l : list A) (i j : Z) (x : A).

Lemma zlen_nonneg l : 0 <= zlen l.
Proof. unfold zlen. lia. Qed.

Lemma zlen_aset l i x : zlen l.[i := x] = zlen l.
Proof. unfold zlen, aset. by rewrite length_insert. Qed.

Lemma length_aset l i x : length l.[i := x] = length l.
Proof. apply length_insert. Qed.

Lemma aget_lookup l i x : l !! Z.to_nat i = Some x → l.[i] = x.
Proof. apply list_lookup_total_correct. Qed.

Lemma lookup_aget l i : 0 <= i < zlen l → l !! Z.to_nat i = Some l.[i].
Proof. unfold zlen, aget. intros ?. apply list_lookup_lookup_total_lt. lia. Qed.

Lemma aget_aset_eq l i x : 0 <= i < zlen l → l.[i := x].[i] = x.
Proof.
  unfold zlen, aget, aset. intros ?. apply list_lookup_total_insert_eq. lia.
Qed.

Lemma aget_aset_ne l i j x : 0 <= i → 0 <= j → i ≠ j → l.[i := x].[j] = l.[j].
Proof.
  unfold aget, aset. intros ???. apply list_lookup_total_insert_ne. lia.
Qed.

Lemma aget_aset l i j x :
  0 <= i < zlen l → 0 <= j → l.[i := x].[j] = if decide (i = j) then x else l.[j].
Proof.
  intros ??. case_decide; [subst; by apply aget_aset_eq|].
  apply aget_aset_ne; lia.
Qed.

Lemma aset_aset l i x y : l.[i := x].[i := y] = l.[i := y].
Proof. apply list_insert_insert_eq. Qed.

Lemma Forall_aset (P : A → Prop) l i x : Forall P l → P x → Forall P l.[i := x].
Proof. unfold aset. intros. by apply Forall_insert. Qed.

Lemma Forall_aget (P : A → Prop) l i : Forall P l → 0 <= i < zlen l → P l.[i].
Proof.
  intros HF Hi. eapply Forall_lookup_1; [exact HF|]. by apply lookup_aget.
Qed.

Lemma Forall_aget_iff (P : A → Prop) l :
  Forall P l ↔ ∀ i, 0 <= i < zlen l → P l.[i].
Proof.
  split; [intros; by apply Forall_aget|].
  intros Hall. apply Forall_lookup. intros n x Hn.
  pose proof (lookup_lt_Some _ _ _ Hn).
  rewrite <- (aget_lookup l (Z.of_nat n) x); [|by rewrite Nat2Z.id].
  apply Hall. unfold zlen. lia.
Qed.

Lemma aget_replicate n x i : 0 <= i < Z.of_nat n → (replicate n x).[i] = x.
Proof. unfold aget. intros. apply lookup_total_replicate_2. lia. Qed.

Lemma zlen_replicate n x : zlen (replicate n x) = Z.of_nat n.
Proof. unfold zlen. by rewrite length_replicate. Qed.

Lemma aset_id l i : 0 <= i < zlen l → l.[i := l.[i]] = l.
Proof. intros. apply list_insert_id. by apply lookup_aget. Qed.
End arrays.

#[export] Hint Rewrite @zlen_aset @length_aset @zlen_replicate : arr.
#[export] Hint Resolve Forall_aset zlen_nonneg : cairn.

(** ** First index satisfying a test ([Iterator::position]) *)

Fixpoint position {A} (p : A → bool) (l : list A) : option Z :=
  match l with
  | [] => None
  | x :: l => if p x then Some 0 else Z.succ <$> position p l
  end.

Section position.
Context {A : Type} `{Inhabited A} (p : A → bool).

Lemma position_Some_bound l i : position p l = Some i → 0 <= i < zlen l.
Proof.
  revert i. induction l as [|x l IH]; intros i; simpl; [done|].
  unfold zlen in *. simpl. destruct (p x); intros Hi; simplify_eq; [lia|].
  destruct (position p l) as [k|]; simplify_eq/=. specialize (IH k eq_refl). lia.
Qed.

Lemma position_Some l i :
  position p l = Some i →
  0 <= i < zlen l ∧ p l.[i] = true ∧ ∀ j, 0 <= j < i → p l.[j] = false.
Proof.
  intros Hp. split; [by apply position_Some_bound|]. revert i Hp.
  induction l as [|x l IH]; intros i Hp; simpl in Hp; [done|].
  destruct (p x) eqn:Hx; simplify_eq/=; [split; [done|lia]|].
  destruct (position p l) as [k|] eqn:Hk; simplify_eq/=.
  pose proof (position_Some_bound _ _ Hk). destruct (IH k eq_refl) as [Hpk Hlt].
  unfold aget in *. rewrite Z2Nat.inj_succ by lia. split; [exact Hpk|].
  intros j Hj. destruct (decide (j = 0)) as [->|]; [exact Hx|].
  replace (Z.to_nat j) with (S (Z.to_nat (j - 1))) by lia.
  apply (Hlt (j - 1)). lia.
Qed.

Lemma position_None l : position p l = None ↔ Forall (λ x, p x = false) l.
Proof.
  induction l as [|x l IH]; simpl; [split; auto|].
  rewrite Forall_cons, <- IH. destruct (p x), (position p l); naive_solver.
Qed.

End position.

(** ** Filters *)

Section filters.
Context {A : Type} (P Q : A → Prop) `{∀ x, Decision (P x), ∀ x, Decision (Q x)}.

Lemma filter_ext_in (l : list A) : (∀ x, x ∈ l → P x ↔ Q x) → filter P l = filter Q l.
Proof.
  induction l as [|x l IH]; intros Hx; [done|]. rewrite !filter_cons.
  assert (P x ↔ Q x) by (apply Hx; left). rewrite IH by (intros; apply Hx; by right).
  repeat case_decide; tauto.
Qed.

Lemma filter_none_in (l : list A) : (∀ x, x ∈ l → ¬ P x) → filter P l = [].
Proof.
  induction l as [|x l IH]; intros Hx; [done|]. rewrite filter_cons.
  rewrite decide_False by (apply Hx; left). apply IH. intros. apply Hx. by right.
Qed.
End filters.

(** ** Bitwise reasoning *)

Lemma fits_testbit w x i : fits w x → 0 <= w <= i → Z.testbit x i = false.
Proof.
  intros Hx Hi. rewrite <- (Z.mod_small x (2 ^ w)) by exact Hx.
  by apply Z.mod_pow2_bits_high.
Qed.

Lemma testbit_fits w x :
  0 <= w → 0 <= x → (∀ i, w <= i → Z.testbit x i = false) → fits w x.
Proof.
  intros Hw Hx Hb. split; [done|].
  destruct (decide (x = 0)) as [->|]; [apply Z.pow_pos_nonneg; lia|].
  apply Z.log2_lt_pow2; [lia|]. apply Z.nle_gt. intros Hl.
  specialize (Hb _ Hl). rewrite Z.bit_log2 in Hb; [done|lia].
Qed.

Lemma fits_land w x y : fits w x → 0 <= w → fits w (Z.land x y).
Proof.
  intros Hx Hw. apply testbit_fits; [done| |].
  - apply Z.land_nonneg. left. apply Hx.
  - intros i Hi. rewrite Z.land_spec, (fits_testbit w x) by (done || lia). done.
Qed.

Lemma fits_lor w x y : fits w x → fits w y → 0 <= w → fits w (Z.lor x y).
Proof.
  intros Hx Hy Hw. apply testbit_fits; [done| |].
  - apply Z.lor_nonneg. split; [apply Hx|apply Hy].
  - intros i Hi. rewrite Z.lor_spec, (fits_testbit w x), (fits_testbit w y) by (done || lia).
    done.
Qed.

Lemma fits_ldiff w x y : fits w x → 0 <= w → fits w (Z.ldiff x y).
Proof.
  intros Hx Hw. apply testbit_fits; [done| |].
  - apply Z.ldiff_nonneg. left. apply Hx.
  - intros i Hi. rewrite Z.ldiff_spec, (fits_testbit w x) by (done || lia). done.
Qed.

Lemma fits_wrap w x : 0 <= w → fits w (wrap w x).
Proof. intros. apply Z.mod_pos_bound, Z.pow_pos_nonneg; lia. Qed.

Lemma wrap_id w x : fits w x → wrap w x = x.
Proof. apply Z.mod_small. Qed.

Lemma land_pow2_bits x n : 0 <= n → Z.land x (Z.ones n) = x mod 2 ^ n.
Proof. apply Z.land_ones. Qed.

#[export] Hint Resolve fits_land fits_lor fits_ldiff fits_wrap : cairn.

(** Submask: every bit of [a] is a bit of [b] ([a ⊆ b] as bit sets). *)
Definition submask (a b : Z) : Prop := Z.land a b = a.
#[global] Instance submask_dec a b : Decision (submask a b).
Proof. unfold submask. apply _. Defined.

Lemma submask_spec a b :
  submask a b ↔ ∀ i, 0 <= i → Z.testbit a i = true → Z.testbit b i = true.
Proof.
  unfold submask. split.
  - intros Heq i Hi Ha. rewrite <- Heq, Z.land_spec in Ha.
    by apply andb_true_iff in Ha as [_ ?].
  - intros Hs. apply Z.bits_inj'. intros i Hi. rewrite Z.land_spec.
    specialize (Hs i Hi). destruct (Z.testbit a i), (Z.testbit b i); naive_solver.
Qed.

#[global] Instance submask_preorder : PreOrder submask.
Proof.
  split.
  - intros a. apply Z.land_diag.
  - intros a b c. rewrite !submask_spec. naive_solver.
Qed.

Lemma submask_land_l a b : submask (Z.land a b) a.
Proof.
  apply submask_spec. intros i Hi. rewrite Z.land_spec.
  destruct (Z.testbit a i); naive_solver.
Qed.

Lemma submask_land_r a b : submask (Z.land a b) b.
Proof. rewrite Z.land_comm. apply submask_land_l. Qed.

Lemma submask_ldiff a b : submask (Z.ldiff a b) a.
Proof.
  apply submask_spec. intros i Hi. rewrite Z.ldiff_spec.
  destruct (Z.testbit a i); naive_solver.
Qed.

#[export] Hint Resolve submask_land_l submask_land_r submask_ldiff : cairn.

(** ** While loops

    [while_rel] is the big-step semantics of [while cond { body }]. [while_pos n]
    runs at most [n] iterations; it is executable for any [n] because the
    iterations are halved, not counted down. *)

Section while_loops.
Context {A : Type} (cond : A → bool) (body : A → A).

Inductive while_rel : A → A → Prop :=
  | while_done a : cond a = false → while_rel a a
  | while_step a b : cond a = true → while_rel (body a) b → while_rel a b.

Fixpoint while_pos (n : positive) (a : A) : A :=
  if cond a then
    match n with
    | xH => body a
    | xO n => while_pos n (while_pos n a)
    | xI n => while_pos n (while_pos n (body a))
    end
  else a.

Lemma while_pos_done n a : cond a = false → while_pos n a = a.
Proof. destruct n; simpl; by intros ->. Qed.

Lemma while_pos_inv (P : A → Prop) n a : (∀ x, P x → P (body x)) → P a → P (while_pos n a).
Proof. intros Hf. revert a. induction n; intros a Ha; simpl; destruct (cond a); auto. Qed.

(** A measure that every iteration decreases bounds the number of iterations. *)
Lemma while_pos_measure (P : A → Prop) (m : A → Z) n a :
  P a → (∀ x, P x → cond x = true → P (body x) ∧ m (body x) < m x ∧ 0 < m x) →
  P (while_pos n a) ∧
  (cond (while_pos n a) = false ∨ m (while_pos n a) <= m a - Zpos n) ∧
  (∀ b, while_rel (while_pos n a) b → while_rel a b).
Proof.
  intros HP Hstep. revert a HP. induction n as [n IH|n IH|]; intros a HP; simpl;
    (destruct (cond a) eqn:Hc; [|by split; [|split; [left|]]]);
    destruct (Hstep a HP Hc) as (HP' & Hlt & Hpos).
  - destruct (IH (body a) HP') as (H1 & H2 & H3). destruct (IH _ H1) as (H4 & H5 & H6).
    split; [done|]. split.
    + destruct H5 as [H5|H5]; [by left|]. destruct H2 as [H2|H2]; [|right; lia].
      left. by rewrite while_pos_done.
    + intros b Hb. apply while_step; auto.
  - destruct (IH a HP) as (H1 & H2 & H3). destruct (IH _ H1) as (H4 & H5 & H6).
    split; [done|]. split; [|auto].
    destruct H5 as [H5|H5]; [by left|]. destruct H2 as [H2|H2]; [|right; lia].
    left. by rewrite while_pos_done.
  - split; [done|]. split; [right; lia|]. intros b Hb. by apply while_step.
Qed.

(** Enough iterations: the bounded loop is the loop. *)
Lemma while_pos_enough (P : A → Prop) (m : A → Z) n a :
  P a → (∀ x, P x → cond x = true → P (body x) ∧ m (body x) < m x ∧ 0 < m x) →
  m a <= Zpos n → while_rel a (while_pos n a) ∧ P (while_pos n a).
Proof.
  intros HP Hstep Hm. destruct (while_pos_measure P m n a HP Hstep) as (H1 & H2 & H3).
  split; [|done]. apply H3, while_done.
  destruct (cond (while_pos n a)) eqn:Hc; [|done]. exfalso.
  destruct H2 as [?|H2]; [congruence|]. destruct (Hstep _ H1 Hc). lia.
Qed.

Lemma while_rel_inv (P : A → Prop) a b :
  while_rel a b → P a → (∀ x, P x → cond x = true → P (body x)) → P b ∧ cond b = false.
Proof. induction 1; intros HP Hstep; [done|]. apply IHwhile_rel; auto. Qed.

Lemma while_rel_det a b c : while_rel a b → while_rel a c → b = c.
Proof.
  induction 1 as [a Ha|a b Ha _ IH]; intros Hc; inversion Hc; subst; auto; congruence.
Qed.
(** From [a] the loop ends within [k] iterations, in a state that satisfies [Q]. *)
Inductive reaches (Q : A → Prop) : Z → A → Prop :=
  | reaches_done k a : 0 <= k → cond a = false → Q a → reaches Q k a
  | reaches_step k a : cond a = true → reaches Q (k - 1) (body a) → reaches Q k a.

Lemma reaches_nonneg Q k a : reaches Q k a → 0 <= k.
Proof. induction 1; lia. Qed.

Lemma reaches_mono Q k k' a : reaches Q k a → k <= k' → reaches Q k' a.
Proof.
  intros Hr. revert k'. induction Hr; intros k' Hk; [apply reaches_done; auto with lia|].
  apply reaches_step; [done|]. apply IHHr. lia.
Qed.

Lemma reaches_running Q k a : reaches Q k a → cond a = true → reaches Q (k - 1) (body a).
Proof. intros [] ?; [congruence|done]. Qed.

Lemma while_pos_reaches Q n k a : reaches Q k a → reaches Q (Z.max 0 (k - Zpos n)) (while_pos n a).
Proof.
  revert k a. induction n as [n IH|n IH|]; intros k a Hr; simpl;
    (destruct (cond a) eqn:Hc; [|destruct Hr; [apply reaches_done; auto with lia|congruence]]).
  - apply reaches_running in Hr; [|done]. pose proof (reaches_nonneg _ _ _ Hr).
    eapply reaches_mono; [exact (IH _ _ (IH _ _ Hr))|lia].
  - eapply reaches_mono; [exact (IH _ _ (IH _ _ Hr))|lia].
  - apply reaches_running in Hr; [|done]. eapply reaches_mono; [exact Hr|lia].
Qed.

Lemma while_pos_ends Q n k a :
  reaches Q k a → k <= Zpos n → cond (while_pos n a) = false ∧ Q (while_pos n a).
Proof.
  intros Hr%(while_pos_reaches Q n) Hk. rewrite Z.max_l in Hr by lia.
  destruct (cond (while_pos n a)) eqn:Hc.
  - apply reaches_running, reaches_nonneg in Hr; [lia|done].
  - split; [done|]. destruct Hr; [done|congruence].
Qed.
End while_loops.

#[global] Arguments while_pos : simpl never.
