(* ===== verification/Capability.v ===== *)
(** * Capability entries ([crates/cap-core/src/capability.rs])

    The rights bit set, the object-kind tags, the 128-bit capability entry
    and its wire encoding, with the round trips of [encode] and [decode]. *)

From S2P Require Import Prelude.

(** ** Rights

    [Rights] is the bit set over [u16] that the [bitflags!] block declares; a
    value is its [bits()]. The flags are the constants of the block. The
    operations come from the [bitflags] crate, which is not part of the
    repository, so they are the fields of an interface whose laws are the
    crate's documented behaviour on the underlying bits. *)

Module Rights.
Definition READ : Z := Z.shiftl 1 0.
Definition WRITE : Z := Z.shiftl 1 1.
Definition INVOKE : Z := Z.shiftl 1 2.
Definition DELEGATE : Z := Z.shiftl 1 3.
Definition REVOKE : Z := Z.shiftl 1 4.
Definition MAP : Z := Z.shiftl 1 5.
Definition GRANT_CAP : Z := Z.shiftl 1 6.
Definition SEAL : Z := Z.shiftl 1 7.

(** The declared flags, from which the crate derives [all()]. *)
Definition flags : list Z :=
  [READ; WRITE; INVOKE; DELEGATE; REVOKE; MAP; GRANT_CAP; SEAL].
Definition declared : Z := foldr Z.lor 0 flags.
End Rights.

Class Bitflags : Type := {
  rights_contains : Z → Z → bool;
  rights_remove : Z → Z → Z;
  rights_inter : Z → Z → Z;
  rights_union : Z → Z → Z;
  rights_empty : Z;
  rights_all : Z;
  from_bits_truncate : Z → Z;
  (** "Whether all set bits in [other] are also set in [self]." *)
  rights_contains_spec a b : rights_contains a b = true ↔ submask b a;
  (** "The intersection of [self] with the complement of [other]." *)
  rights_remove_spec a b : rights_remove a b = Z.ldiff a b;
  rights_inter_spec a b : rights_inter a b = Z.land a b;
  rights_union_spec a b : rights_union a b = Z.lor a b;
  rights_empty_spec : rights_empty = 0;
  (** "All known bits set." *)
  rights_all_spec : rights_all = Rights.declared;
  (** "Convert from a bits value, unsetting any unknown bits." *)
  from_bits_truncate_spec b : from_bits_truncate b = Z.land b Rights.declared;
}.

(** The interface is inhabited by the bit operations themselves. *)
#[refine] #[export] Instance bitflags_u16 : Bitflags := {|
  rights_contains a b := bool_decide (submask b a);
  rights_remove := Z.ldiff;
  rights_inter := Z.land;
  rights_union := Z.lor;
  rights_empty := 0;
  rights_all := Rights.declared;
  from_bits_truncate b := Z.land b Rights.declared;
|}.
Proof. all: try reflexivity. intros. apply bool_decide_eq_true. Defined.

(** A rights value built from declared flags only. *)
Definition rights_wf (r : Z) : Prop := submask r Rights.declared.

Lemma declared_eq : Rights.declared = 255.
Proof. reflexivity. Qed.

(** ** Object kinds *)

Record ObjectKind := from_raw { raw : Z }.
#[global] Instance ObjectKind_eq_dec : EqDecision ObjectKind.
Proof. solve_decision. Defined.
#[global] Instance ObjectKind_inhabited : Inhabited ObjectKind := populate (from_raw 0).

Module Kind.
Definition Null := from_raw 0.
Definition Untyped := from_raw 1.
Definition Memory := from_raw 2.
Definition AddressSpace := from_raw 3.
Definition Domain := from_raw 4.
Definition Endpoint := from_raw 5.
Definition Notification := from_raw 6.
Definition TimeSlice := from_raw 7.
Definition Extent := from_raw 8.
Definition DeviceQueue := from_raw 9.
Definition CapTable := from_raw 10.
Definition IrqHandler := from_raw 11.
End Kind.

(** ** Capability entries *)

Record CapEntry := mkCapEntry {
  object_id : Z;          (* u64, 48 bits used *)
  rights : Z;             (* Rights, u16 *)
  epoch : Z;              (* u32 *)
  type_tag : ObjectKind;  (* u16 *)
  badge : Z;              (* u16 *)
}.
#[global] Instance CapEntry_eq_dec : EqDecision CapEntry.
Proof. solve_decision. Defined.

(** The ranges the Rust field types impose. *)
Definition CapEntry_typed (c : CapEntry) : Prop :=
  fits 64 (object_id c) ∧ fits 16 (rights c) ∧ fits 32 (epoch c) ∧
  fits 16 (raw (type_tag c)) ∧ fits 16 (badge c).

(** [CapEntry::encode]. *)
Definition encode (c : CapEntry) : Z :=
  let oid := Z.land (object_id c) 0x0000FFFFFFFFFFFF in
  let r := Z.shiftl (rights c) 48 in
  let ep := Z.shiftl (epoch c) 64 in
  let tt := Z.shiftl (raw (type_tag c)) 96 in
  let bd := Z.shiftl (badge c) 112 in
  Z.lor (Z.lor (Z.lor (Z.lor oid r) ep) tt) bd.

(** [CapEntry::decode]. *)
Definition decode `{Bitflags} (val : Z) : CapEntry :=
  {| object_id := Z.land val 0x0000FFFFFFFFFFFF;
     rights := from_bits_truncate (Z.land (Z.shiftr val 48) 0xFFFF);
     epoch := Z.land (Z.shiftr val 64) 0xFFFFFFFF;
     type_tag := from_raw (Z.land (Z.shiftr val 96) 0xFFFF);
     badge := Z.land (Z.shiftr val 112) 0xFFFF |}.

(** The field of [v] that starts at bit [o] and is [w] bits wide. *)
Definition field (v o w : Z) : Z := Z.land (Z.shiftr v o) (Z.ones w).

Lemma testbit_field v o w i :
  0 <= o → 0 <= w → 0 <= i →
  Z.testbit (field v o w) i = (Z.testbit v (i + o) && (i <? w))%bool.
Proof.
  intros Ho Hw Hi. unfold field. rewrite Z.land_spec, Z.shiftr_spec by lia. f_equal.
  destruct (Z.ltb_spec i w); [apply Z.ones_spec_low|apply Z.ones_spec_high]; lia.
Qed.

Lemma field_fits v o w : 0 <= w → fits w (field v o w).
Proof. intros. unfold field. rewrite Z.land_ones by lia. by apply fits_wrap. Qed.

(** Reading back a field of a value assembled from shifted fields. *)
Lemma field_lor v1 v2 o w : field (Z.lor v1 v2) o w = Z.lor (field v1 o w) (field v2 o w).
Proof. unfold field. by rewrite Z.shiftr_lor, Z.land_lor_distr_l. Qed.

Lemma field_shiftl_here x o w : fits w x → 0 <= w → 0 <= o → field (Z.shiftl x o) o w = x.
Proof.
  intros Hx Hw Ho. unfold field.
  rewrite Z.shiftr_shiftl_l, Z.sub_diag, Z.shiftl_0_r by lia.
  rewrite Z.land_ones by lia. by apply Z.mod_small.
Qed.

Lemma field_shiftl_above x o o' w : 0 <= w → 0 <= o' → o' + w <= o → field (Z.shiftl x o) o' w = 0.
Proof.
  intros Hw Ho' Ho. apply Z.bits_inj'. intros i Hi.
  rewrite testbit_field, Z.bits_0 by lia.
  destruct (Z.ltb_spec i w); [|apply andb_false_r].
  by rewrite Z.shiftl_spec_low by lia.
Qed.

Lemma field_shiftl_below x o o' w w' :
  fits w' x → 0 <= w → 0 <= w' → 0 <= o → o + w' <= o' → field (Z.shiftl x o) o' w = 0.
Proof.
  intros Hx Hw Hw' Ho Ho'. apply Z.bits_inj'. intros i Hi.
  rewrite testbit_field, Z.bits_0 by lia.
  rewrite Z.shiftl_spec by lia. rewrite (fits_testbit w') by (done || lia). done.
Qed.

(** The value assembled from five adjacent fields. *)
Definition assemble (a b c d e : Z) : Z :=
  Z.lor (Z.lor (Z.lor (Z.lor a (Z.shiftl b 48)) (Z.shiftl c 64)) (Z.shiftl d 96))
    (Z.shiftl e 112).

Section assemble.
Variables a b c d e : Z.
Hypotheses (Ha : fits 48 a) (Hb : fits 16 b) (Hc : fits 32 c) (Hd : fits 16 d) (He : fits 16 e).

Ltac fields :=
  unfold assemble; rewrite !field_lor;
  rewrite <- (Z.shiftl_0_r a);
  repeat first
    [ rewrite field_shiftl_here by (done || lia)
    | rewrite field_shiftl_above by lia
    | erewrite field_shiftl_below by (eassumption || lia) ];
  rewrite ?Z.lor_0_l, ?Z.lor_0_r; reflexivity.

Lemma assemble_a : field (assemble a b c d e) 0 48 = a.
Proof. fields. Qed.
Lemma assemble_b : field (assemble a b c d e) 48 16 = b.
Proof. fields. Qed.
Lemma assemble_c : field (assemble a b c d e) 64 32 = c.
Proof. fields. Qed.
Lemma assemble_d : field (assemble a b c d e) 96 16 = d.
Proof. fields. Qed.
Lemma assemble_e : field (assemble a b c d e) 112 16 = e.
Proof. fields. Qed.
End assemble.

Lemma encode_assemble c :
  encode c = assemble (field (object_id c) 0 48) (rights c) (epoch c)
    (raw (type_tag c)) (badge c).
Proof. reflexivity. Qed.

Lemma decode_fields `{Bitflags} v :
  decode v = {| object_id := field v 0 48;
                rights := from_bits_truncate (field v 48 16);
                epoch := field v 64 32;
                type_tag := from_raw (field v 96 16);
                badge := field v 112 16 |}.
Proof. unfold decode, field. by rewrite Z.shiftr_0_r. Qed.

Lemma testbit_assemble_field v i :
  fits 128 v → 0 <= i →
  Z.testbit (assemble (field v 0 48) (field v 48 16) (field v 64 32) (field v 96 16)
    (field v 112 16)) i = Z.testbit v i.
Proof.
  intros Hv Hi. unfold assemble.
  assert (Hf : ∀ o w, 0 <= o → 0 <= w →
    Z.testbit (Z.shiftl (field v o w) o) i = (Z.testbit v i && (o <=? i) && (i <? o + w))%bool).
  { intros o w Ho Hw. rewrite Z.shiftl_spec by lia. destruct (Z.leb_spec o i).
    - rewrite testbit_field by lia. replace (i - o + o) with i by lia.
      destruct (Z.ltb_spec (i - o) w), (Z.ltb_spec i (o + w)); try lia;
        destruct (Z.testbit v i); reflexivity.
    - rewrite Z.testbit_neg_r by lia. by destruct (Z.testbit v i). }
  rewrite <- (Z.shiftl_0_r (field v 0 48)), !Z.lor_spec, !Hf by lia.
  destruct (Z.testbit v i) eqn:E; simpl; [|reflexivity].
  assert (i < 128).
  { apply Z.nle_gt. intros ?. rewrite (fits_testbit 128 v) in E by (done || lia). done. }
  repeat match goal with |- context [?x <=? ?y] => destruct (Z.leb_spec x y) end;
  repeat match goal with |- context [?x <? ?y] => destruct (Z.ltb_spec x y) end;
  simpl; try reflexivity; lia.
Qed.

Section roundtrip.
Context `{Bitflags}.

(** The wire format is lossless. Decoding an encoded entry gives the entry
    back, for every entry whose fields are in their types' ranges, whose object
    id uses 48 bits and whose rights are declared flags. *)
Theorem decode_encode (c : CapEntry) :
  CapEntry_typed c → fits 48 (object_id c) → rights_wf (rights c) →
  decode (encode c) = c.
Proof.
  intros (Hoid & Hr & He & Ht & Hb) H48 Hwf.
  rewrite decode_fields, encode_assemble.
  rewrite assemble_a, assemble_b, assemble_c, assemble_d, assemble_e
    by (done || by apply field_fits).
  rewrite from_bits_truncate_spec, Hwf.
  unfold field. rewrite Z.shiftr_0_r, Z.land_ones, Z.mod_small by (done || lia).
  by destruct c as [? ? ? [?] ?].
Qed.

(** C35: re-encoding a decoded word changes nothing but the reserved rights
    bits 56..63, which [from_bits_truncate] clears: this is the exact loss of
    [decode], for every 128-bit word. *)
Theorem encode_decode (v : Z) :
  fits 128 v → encode (decode v) = Z.ldiff v (Z.shiftl 0xFF00 48).
Proof.
  intros Hv. apply Z.bits_inj'. intros i Hi.
  rewrite decode_fields, encode_assemble, Z.ldiff_spec. simpl.
  rewrite <- (testbit_assemble_field v i) by done. unfold assemble.
  rewrite !Z.lor_spec, from_bits_truncate_spec.
  replace (field (field v 0 48) 0 48) with (field v 0 48).
  2:{ unfold field. rewrite !Z.shiftr_0_r, <- Z.land_assoc. reflexivity. }
  change Rights.declared with (Z.ones 8). change 0xFF00 with (Z.shiftl (Z.ones 8) 8).
  rewrite Z.shiftl_shiftl, Z.shiftl_land, Z.land_spec by lia.
  rewrite !Z.shiftl_spec by lia. change (8 + 48) with 56.
  destruct (decide (56 <= i < 64)).
  - rewrite (Z.ones_spec_low 8 (i - 56)), (Z.ones_spec_high 8 (i - 48)) by lia.
    rewrite (fits_testbit 48 (field v 0 48)) by (lia || by apply field_fits).
    rewrite (Z.testbit_neg_r _ (i - 64)), (Z.testbit_neg_r _ (i - 96)),
      (Z.testbit_neg_r _ (i - 112)) by lia.
    by rewrite !andb_false_r.
  - assert (Z.testbit (Z.ones 8) (i - 56) = false) as ->.
    { destruct (decide (i < 56)); [apply Z.testbit_neg_r; lia|].
      apply Z.ones_spec_high; lia. }
    rewrite andb_true_r. do 4 f_equal.
    destruct (decide (i < 56)).
    + destruct (decide (i < 48)).
      * rewrite !Z.testbit_neg_r by lia. done.
      * rewrite Z.ones_spec_low by lia. apply andb_true_r.
    + rewrite (fits_testbit 16 (field v 48 16)) by (lia || by apply field_fits). done.
Qed.
End roundtrip.

Lemma decode_encode_witness :
  decode (encode (mkCapEntry 123456789 0x89 1 Kind.Memory 0xFFFF))
  = mkCapEntry 123456789 0x89 1 Kind.Memory 0xFFFF.
Proof.
  apply (decode_encode (mkCapEntry 123456789 0x89 1 Kind.Memory 0xFFFF));
    vm_compute; repeat split; congruence.
Defined.

Lemma encode_decode_witness :
  fits 128 (2 ^ 128 - 1) ∧
  encode (decode (2 ^ 128 - 1)) = Z.ldiff (2 ^ 128 - 1) (Z.shiftl 0xFF00 48).
Proof.
  split; [vm_compute; split; congruence|].
  apply (encode_decode (2 ^ 128 - 1)). vm_compute; split; congruence.
Defined.
