(* ===== verification/CapTable.v ===== *)
(** * Object table and capability tables ([crates/cap-core/src/table.rs])

    [ObjectTable] with [create_object], [revoke], [destroy_object], and
    [CapTable] with [mint], [invoke], [delegate], [seal], [lookup]. Each
    operation that takes [&mut self] returns the new table. The theorems give
    the behaviour of every operation on every branch. *)

From S2P Require Import Prelude Capability.

(** ** Data *)

Definition CAP_TABLE_SLOTS : Z := 256.
Definition OBJECT_TABLE_SIZE : Z := 1024.

Record ObjectMeta := mkObjectMeta {
  kind : ObjectKind;
  current_epoch : Z;  (* u32 *)
  present : bool;
}.
#[global] Instance ObjectMeta_eq_dec : EqDecision ObjectMeta.
Proof. solve_decision. Defined.
#[global] Instance ObjectMeta_inhabited : Inhabited ObjectMeta :=
  populate (mkObjectMeta Kind.Null 0 false).

Record ObjectTable := mkObjectTable { metas : list ObjectMeta }.

Inductive Status :=
  | StOk
  | ErrBadCPtr
  | ErrRevoked
  | ErrType
  | ErrRights
  | ErrMethod.
#[global] Instance Status_eq_dec : EqDecision Status.
Proof. solve_decision. Defined.

(** [st as u64]: the discriminants of the enum, in declaration order. *)
Definition status_code (st : Status) : Z :=
  match st with
  | StOk => 0 | ErrBadCPtr => 1 | ErrRevoked => 2
  | ErrType => 3 | ErrRights => 4 | ErrMethod => 5
  end.

#[global] Instance status_code_inj : Inj (=) (=) status_code.
Proof. intros [] []; simpl; congruence. Qed.

Record CapTable := mkCapTable { slots : list (option CapEntry) }.
#[global] Instance CapTable_inhabited : Inhabited CapTable := populate (mkCapTable []).

(** ** The object table *)

(** [ObjectTable::new]. *)
Definition ObjectTable_new : ObjectTable :=
  mkObjectTable (replicate (Z.to_nat OBJECT_TABLE_SIZE) (mkObjectMeta Kind.Null 0 false)).

(** [ObjectTable::create_object]: linear scan for the first absent slot. *)
Definition create_object (ot : ObjectTable) (k : ObjectKind) : ObjectTable * option Z :=
  match position (λ m, negb (present m)) (metas ot) with
  | Some i => (mkObjectTable (metas ot).[i := mkObjectMeta k 0 true], Some i)
  | None => (ot, None)
  end.

(** [ObjectTable::revoke]: the epoch bump. *)
Definition revoke (ot : ObjectTable) (oid : Z) : ObjectTable * Status :=
  let idx := oid in
  if (OBJECT_TABLE_SIZE <=? idx) || negb (present (metas ot).[idx]) then (ot, ErrBadCPtr)
  else
    let m := (metas ot).[idx] in
    (mkObjectTable
       (metas ot).[idx := mkObjectMeta (kind m) (wrap 32 (current_epoch m + 1)) (present m)],
     StOk).

(** [ObjectTable::destroy_object]: the epoch is left as it is. *)
Definition destroy_object (ot : ObjectTable) (oid : Z) : ObjectTable :=
  let idx := oid in
  if idx <? OBJECT_TABLE_SIZE then
    let m := (metas ot).[idx] in
    mkObjectTable (metas ot).[idx := mkObjectMeta Kind.Null (current_epoch m) false]
  else ot.

(** ** Capability tables *)

(** [CapTable::new]. *)
Definition CapTable_new : CapTable :=
  mkCapTable (replicate (Z.to_nat CAP_TABLE_SLOTS) None).

Section ops.
Context `{Bitflags}.

(** [CapTable::mint]: the free slot is looked for before the object is checked. *)
Definition mint (ct : CapTable) (ot : ObjectTable) (oid r bdg : Z) :
    CapTable * result Z Status :=
  match position is_none (slots ct) with
  | None => (ct, Err ErrBadCPtr)
  | Some slot =>
      let idx := oid in
      if (OBJECT_TABLE_SIZE <=? idx) || negb (present (metas ot).[idx])
      then (ct, Err ErrBadCPtr)
      else
        let meta := (metas ot).[idx] in
        let entry := {| object_id := oid; rights := r; epoch := current_epoch meta;
                        type_tag := kind meta; badge := bdg |} in
        (mkCapTable (slots ct).[slot := Some entry], Ok (wrap 16 slot))
  end.

(** [CapTable::invoke]: the check of every [cap_invoke]. *)
Definition invoke (ct : CapTable) (ot : ObjectTable) (cptr _method required : Z) : Status :=
  let idx := cptr in
  if CAP_TABLE_SLOTS <=? idx then ErrBadCPtr
  else match (slots ct).[idx] with
  | None => ErrBadCPtr
  | Some entry =>
      let oid := object_id entry in
      if OBJECT_TABLE_SIZE <=? oid then ErrBadCPtr
      else
        let meta := (metas ot).[oid] in
        if negb (present meta) || negb (bool_decide (type_tag entry = kind meta))
           || negb (epoch entry =? current_epoch meta)
        then if negb (epoch entry =? current_epoch meta) then ErrRevoked else ErrType
        else if negb (rights_contains (rights entry) required) then ErrRights
        else StOk
  end.

(** [CapTable::delegate]: returns the destination table. *)
Definition delegate (ct : CapTable) (ot : ObjectTable) (src_cptr mask bdg : Z)
    (dst : CapTable) : CapTable * result Z Status :=
  let src_idx := src_cptr in
  if CAP_TABLE_SLOTS <=? src_idx then (dst, Err ErrBadCPtr)
  else match (slots ct).[src_idx] with
  | None => (dst, Err ErrBadCPtr)
  | Some entry =>
      if negb (rights_contains (rights entry) Rights.DELEGATE) then (dst, Err ErrRights)
      else
        let oid := object_id entry in
        if OBJECT_TABLE_SIZE <=? oid then (dst, Err ErrBadCPtr)
        else
          let meta := (metas ot).[oid] in
          if negb (present meta) || negb (bool_decide (type_tag entry = kind meta))
             || negb (epoch entry =? current_epoch meta)
          then (dst, Err (if negb (epoch entry =? current_epoch meta)
                          then ErrRevoked else ErrType))
          else
            let child := {| object_id := object_id entry;
                            rights := rights_inter (rights entry) mask;
                            epoch := epoch entry; type_tag := type_tag entry;
                            badge := bdg |} in
            match position is_none (slots dst) with
            | None => (dst, Err ErrBadCPtr)
            | Some dst_slot =>
                (mkCapTable (slots dst).[dst_slot := Some child], Ok (wrap 16 dst_slot))
            end
  end.

(** [CapTable::seal]. *)
Definition seal (ct : CapTable) (cptr : Z) : CapTable * Status :=
  let idx := cptr in
  if CAP_TABLE_SLOTS <=? idx then (ct, ErrBadCPtr)
  else match (slots ct).[idx] with
  | Some e =>
      (mkCapTable (slots ct).[idx :=
         Some {| object_id := object_id e;
                 rights := rights_remove (rights e) Rights.DELEGATE;
                 epoch := epoch e; type_tag := type_tag e; badge := badge e |}],
       StOk)
  | None => (ct, ErrBadCPtr)
  end.

(** [CapTable::lookup]. *)
Definition lookup (ct : CapTable) (cptr : Z) (ot : ObjectTable) : result CapEntry Status :=
  let idx := cptr in
  if CAP_TABLE_SLOTS <=? idx then Err ErrBadCPtr
  else match (slots ct).[idx] with
  | None => Err ErrBadCPtr
  | Some entry =>
      let oid := object_id entry in
      if OBJECT_TABLE_SIZE <=? oid then Err ErrBadCPtr
      else
        let meta := (metas ot).[oid] in
        if negb (present meta) || negb (bool_decide (type_tag entry = kind meta))
           || negb (epoch entry =? current_epoch meta)
        then if negb (epoch entry =? current_epoch meta) then Err ErrRevoked else Err ErrType
        else Ok entry
  end.
End ops.

(** ** Well-formedness: the array lengths and the ranges of the fields *)

Definition meta_wf (m : ObjectMeta) : Prop := fits 32 (current_epoch m).
Definition ot_wf (ot : ObjectTable) : Prop :=
  zlen (metas ot) = OBJECT_TABLE_SIZE ∧ Forall meta_wf (metas ot).

Definition slot_wf (o : option CapEntry) : Prop :=
  match o with Some e => CapEntry_typed e | None => True end.
Definition ct_wf (ct : CapTable) : Prop :=
  zlen (slots ct) = CAP_TABLE_SLOTS ∧ Forall slot_wf (slots ct).

(** ** Validity

    [CAP_ABI.md] section 3: an entry is valid when its object exists, its type
    tag is the object's kind and its epoch is the object's current epoch. *)

Definition valid (ot : ObjectTable) (e : CapEntry) : Prop :=
  object_id e < OBJECT_TABLE_SIZE ∧
  present (metas ot).[object_id e] = true ∧
  type_tag e = kind (metas ot).[object_id e] ∧
  epoch e = current_epoch (metas ot).[object_id e].
#[global] Instance valid_dec ot e : Decision (valid ot e).
Proof. unfold valid. apply _. Defined.

(** The entry a CPtr names, if any. *)
Definition entry_at (ct : CapTable) (cptr : Z) : option CapEntry :=
  if CAP_TABLE_SLOTS <=? cptr then None else (slots ct).[cptr].

(** The status of the validity check shared by [invoke], [delegate] and [lookup]. *)
Definition check_entry (ot : ObjectTable) (e : CapEntry) : Status :=
  let m := (metas ot).[object_id e] in
  if OBJECT_TABLE_SIZE <=? object_id e then ErrBadCPtr
  else if negb (epoch e =? current_epoch m) then ErrRevoked
  else if negb (present m) || negb (bool_decide (type_tag e = kind m)) then ErrType
  else StOk.

Lemma check_entry_ok ot e : check_entry ot e = StOk ↔ valid ot e.
Proof.
  unfold check_entry, valid.
  destruct (Z.leb_spec OBJECT_TABLE_SIZE (object_id e));
    [split; [done|intros (? & _); lia]|].
  destruct (Z.eqb_spec (epoch e) (current_epoch (metas ot).[object_id e])); simpl;
    [|split; [done|intros (_ & _ & _ & ?); done]].
  destruct (present _); simpl; [|split; [done|intros (_ & ? & _); done]].
  destruct (bool_decide_reflect (type_tag e = kind (metas ot).[object_id e]));
    [by split|split; [done|intros (_ & _ & ? & _); done]].
Qed.

(** Helpers that rewrite the nested tests of the source into [check_entry]. *)
Lemma nested_check {A} (ot : ObjectTable) (e : CapEntry) (f : Status → A) (k : A) :
  (if OBJECT_TABLE_SIZE <=? object_id e then f ErrBadCPtr
   else
     let meta := (metas ot).[object_id e] in
     if negb (present meta) || negb (bool_decide (type_tag e = kind meta))
        || negb (epoch e =? current_epoch meta)
     then if negb (epoch e =? current_epoch meta) then f ErrRevoked else f ErrType
     else k)
  = match check_entry ot e with StOk => k | st => f st end.
Proof.
  unfold check_entry. simpl.
  destruct (OBJECT_TABLE_SIZE <=? object_id e); [done|].
  destruct (present _), (bool_decide _), (epoch e =? _); reflexivity.
Qed.

Section alt.
Context `{Bitflags}.

Lemma invoke_alt ct ot cptr method req :
  invoke ct ot cptr method req =
  match entry_at ct cptr with
  | None => ErrBadCPtr
  | Some e => match check_entry ot e with
              | StOk => if rights_contains (rights e) req then StOk else ErrRights
              | st => st
              end
  end.
Proof.
  unfold invoke, entry_at. destruct (CAP_TABLE_SLOTS <=? cptr); [done|].
  destruct ((slots ct).[cptr]) as [e|]; [|done].
  rewrite (nested_check ot e (λ st, st)).
  destruct (check_entry ot e), (rights_contains (rights e) req); reflexivity.
Qed.

Lemma lookup_alt ct ot cptr :
  lookup ct cptr ot =
  match entry_at ct cptr with
  | None => Err ErrBadCPtr
  | Some e => match check_entry ot e with StOk => Ok e | st => Err st end
  end.
Proof.
  unfold lookup, entry_at. destruct (CAP_TABLE_SLOTS <=? cptr); [done|].
  destruct ((slots ct).[cptr]) as [e|]; [|done].
  by rewrite (nested_check ot e (λ st, Err st)).
Qed.

(** The child that [delegate] inserts. *)
Definition child_of (e : CapEntry) (mask bdg : Z) : CapEntry :=
  {| object_id := object_id e; rights := rights_inter (rights e) mask;
     epoch := epoch e; type_tag := type_tag e; badge := bdg |}.

Lemma delegate_alt ct ot cptr mask bdg dst :
  delegate ct ot cptr mask bdg dst =
  match entry_at ct cptr with
  | None => (dst, Err ErrBadCPtr)
  | Some e =>
      if rights_contains (rights e) Rights.DELEGATE then
        match check_entry ot e with
        | StOk => match position is_none (slots dst) with
                  | None => (dst, Err ErrBadCPtr)
                  | Some s => (mkCapTable (slots dst).[s := Some (child_of e mask bdg)],
                               Ok (wrap 16 s))
                  end
        | st => (dst, Err st)
        end
      else (dst, Err ErrRights)
  end.
Proof.
  unfold delegate, entry_at. destruct (CAP_TABLE_SLOTS <=? cptr); [done|].
  destruct ((slots ct).[cptr]) as [e|]; [|done].
  destruct (rights_contains (rights e) Rights.DELEGATE); [simpl|done].
  rewrite <- (nested_check ot e (λ st, (dst, Err st))). simpl.
  destruct (OBJECT_TABLE_SIZE <=? object_id e); [done|].
  destruct (present _), (bool_decide _), (epoch e =? _); reflexivity.
Qed.
End alt.

(** ** Slot allocation *)

Lemma free_slot_bound ct s :
  ct_wf ct → position is_none (slots ct) = Some s →
  0 <= s < CAP_TABLE_SLOTS ∧ (slots ct).[s] = None ∧ wrap 16 s = s.
Proof.
  intros [Hlen _] Hp. apply position_Some in Hp as (Hb & Hn & _).
  rewrite Hlen in Hb. unfold CAP_TABLE_SLOTS in Hb. split; [done|]. split.
  - by destruct ((slots ct).[s]).
  - apply wrap_id. unfold fits. lia.
Qed.

Lemma slots_insert_wf ct s o :
  ct_wf ct → slot_wf o → ct_wf (mkCapTable (slots ct).[s := o]).
Proof.
  intros [Hlen HF] He. split; simpl; [by rewrite zlen_aset|]. by apply Forall_aset.
Qed.

Lemma entry_at_insert ct s e c :
  ct_wf ct → 0 <= s < CAP_TABLE_SLOTS → 0 <= c →
  entry_at (mkCapTable (slots ct).[s := e]) c = if decide (s = c) then e else entry_at ct c.
Proof.
  intros [Hlen _] Hs Hc. unfold entry_at. simpl.
  destruct (Z.leb_spec CAP_TABLE_SLOTS c).
  - case_decide; [lia|done].
  - rewrite aget_aset by (rewrite ?Hlen; lia). done.
Qed.

Lemma entry_at_typed ct c e : ct_wf ct → 0 <= c → entry_at ct c = Some e → CapEntry_typed e.
Proof.
  intros [Hlen HF] Hc. unfold entry_at. destruct (Z.leb_spec CAP_TABLE_SLOTS c); [done|].
  intros He. pose proof (Forall_aget _ _ c HF ltac:(rewrite Hlen; lia)) as Hw.
  simpl in Hw. rewrite He in Hw. exact Hw.
Qed.

Lemma entry_at_range ct c e : entry_at ct c = Some e → c < CAP_TABLE_SLOTS.
Proof. unfold entry_at. destruct (Z.leb_spec CAP_TABLE_SLOTS c); [done|lia]. Qed.

(** ** Object table lemmas *)

Lemma ot_wf_meta ot i : ot_wf ot → 0 <= i < OBJECT_TABLE_SIZE → meta_wf (metas ot).[i].
Proof. intros [Hlen HF] Hi. apply Forall_aget; [done|]. by rewrite Hlen. Qed.

Lemma ot_insert_wf ot i m : ot_wf ot → meta_wf m → ot_wf (mkObjectTable (metas ot).[i := m]).
Proof. intros [Hlen HF] Hm. split; simpl; [by rewrite zlen_aset|by apply Forall_aset]. Qed.

Lemma ot_get_insert ot i j m :
  ot_wf ot → 0 <= i < OBJECT_TABLE_SIZE → 0 <= j →
  (metas (mkObjectTable (metas ot).[i := m])).[j] = if decide (i = j) then m else (metas ot).[j].
Proof. intros [Hlen _] Hi Hj. simpl. apply aget_aset; [by rewrite Hlen|done]. Qed.

Lemma ObjectTable_new_wf : ot_wf ObjectTable_new.
Proof.
  split; [reflexivity|]. apply Forall_replicate. vm_compute. split; congruence.
Qed.

Lemma CapTable_new_wf : ct_wf CapTable_new.
Proof. split; [reflexivity|]. by apply Forall_replicate. Qed.

Lemma entry_at_new c : 0 <= c → entry_at CapTable_new c = None.
Proof.
  intros Hc. unfold entry_at. destruct (Z.leb_spec CAP_TABLE_SLOTS c); [done|].
  unfold CapTable_new. cbn [slots]. apply aget_replicate. unfold CAP_TABLE_SLOTS in *. lia.
Qed.

Lemma create_object_wf ot k : ot_wf ot → ot_wf (create_object ot k).1.
Proof.
  intros Hwf. unfold create_object. destruct (position _ _); simpl; [|done].
  apply ot_insert_wf; [done|]. vm_compute. split; congruence.
Qed.

Lemma revoke_wf ot o : ot_wf ot → ot_wf (revoke ot o).1.
Proof.
  intros Hwf. unfold revoke. destruct (_ || _); simpl; [done|].
  apply ot_insert_wf; [done|]. unfold meta_wf. simpl. apply fits_wrap. lia.
Qed.

Lemma destroy_object_wf ot o : 0 <= o → ot_wf ot → ot_wf (destroy_object ot o).
Proof.
  intros Ho Hwf. unfold destroy_object. destruct (Z.ltb_spec o OBJECT_TABLE_SIZE); [|done].
  apply ot_insert_wf; [done|]. by apply (ot_wf_meta ot o).
Qed.

Lemma revoke_get ot o j :
  ot_wf ot → 0 <= o → 0 <= j →
  (metas (revoke ot o).1).[j] =
  if decide (o = j ∧ o < OBJECT_TABLE_SIZE ∧ present (metas ot).[o] = true)
  then mkObjectMeta (kind (metas ot).[j]) (wrap 32 (current_epoch (metas ot).[j] + 1)) true
  else (metas ot).[j].
Proof.
  intros Hwf Ho Hj. unfold revoke.
  destruct (Z.leb_spec OBJECT_TABLE_SIZE o); simpl; [case_decide; [lia|done]|].
  destruct (present (metas ot).[o]) eqn:Hp; simpl; [|case_decide; naive_solver].
  pose proof (ot_get_insert ot o j) as Hg. simpl in Hg. rewrite Hg by (done || lia).
  repeat case_decide; naive_solver.
Qed.

#[export] Hint Resolve ObjectTable_new_wf CapTable_new_wf create_object_wf revoke_wf
  slots_insert_wf : cairn.

(** ** Inversion of the operations *)

Lemma create_object_Some ot k ot' i :
  ot_wf ot → create_object ot k = (ot', Some i) →
  0 <= i < OBJECT_TABLE_SIZE ∧ present (metas ot).[i] = false ∧
  (∀ j, 0 <= j < i → present (metas ot).[j] = true) ∧
  ot' = mkObjectTable (metas ot).[i := mkObjectMeta k 0 true].
Proof.
  intros [Hlen HF] Hc. unfold create_object in Hc.
  destruct (position _ _) as [i'|] eqn:Hp; simplify_eq.
  apply position_Some in Hp as (Hi & Hn & Hlt). rewrite Hlen in Hi.
  split; [done|]. split; [by apply negb_true_iff|]. split; [|done].
  intros j Hj. apply negb_false_iff. by apply (Hlt j).
Qed.

Lemma create_object_None ot k ot' :
  ot_wf ot → create_object ot k = (ot', None) →
  ot' = ot ∧ ∀ j, 0 <= j < OBJECT_TABLE_SIZE → present (metas ot).[j] = true.
Proof.
  intros [Hlen HF] Hc. unfold create_object in Hc.
  destruct (position _ _) as [i'|] eqn:Hp; simplify_eq. split; [done|].
  intros j Hj. apply position_None in Hp.
  eapply Forall_aget in Hp; [|by rewrite Hlen]. by apply negb_false_iff.
Qed.

Lemma full_table ct :
  ct_wf ct → position is_none (slots ct) = None →
  ∀ j, 0 <= j < CAP_TABLE_SLOTS → entry_at ct j ≠ None.
Proof.
  intros [Hlen _] Hp j Hj. apply position_None in Hp.
  eapply (Forall_aget _ _ j) in Hp; [|by rewrite Hlen].
  unfold entry_at. destruct (Z.leb_spec CAP_TABLE_SLOTS j); [lia|].
  by destruct ((slots ct).[j]).
Qed.

Lemma entry_at_in_range ct c : c < CAP_TABLE_SLOTS → entry_at ct c = (slots ct).[c].
Proof. intros. unfold entry_at. by destruct (Z.leb_spec CAP_TABLE_SLOTS c); [lia|]. Qed.

Section inversion.
Context `{Bitflags}.

(** The entry [mint] writes. *)
Definition minted (ot : ObjectTable) (oid r bdg : Z) : CapEntry :=
  {| object_id := oid; rights := r; epoch := current_epoch (metas ot).[oid];
     type_tag := kind (metas ot).[oid]; badge := bdg |}.

Lemma minted_valid ot oid r bdg :
  oid < OBJECT_TABLE_SIZE → present (metas ot).[oid] = true → valid ot (minted ot oid r bdg).
Proof. intros. by repeat split. Qed.

Lemma mint_Ok ct ot oid r bdg ct' c :
  ct_wf ct → mint ct ot oid r bdg = (ct', Ok c) →
  0 <= c < CAP_TABLE_SLOTS ∧ position is_none (slots ct) = Some c ∧ entry_at ct c = None ∧
  oid < OBJECT_TABLE_SIZE ∧ present (metas ot).[oid] = true ∧
  ct' = mkCapTable (slots ct).[c := Some (minted ot oid r bdg)].
Proof.
  intros Hwf Hm. unfold mint in Hm. destruct (position _ _) as [s|] eqn:Hp; [|done].
  destruct (free_slot_bound ct s Hwf Hp) as (Hs & Hn & Hwr).
  destruct (Z.leb_spec OBJECT_TABLE_SIZE oid); simpl in Hm; [done|].
  destruct (present (metas ot).[oid]) eqn:Hpr; simpl in Hm; [|done].
  rewrite Hwr in Hm. simplify_eq. rewrite entry_at_in_range by lia. done.
Qed.

Lemma mint_Err ct ot oid r bdg ct' st :
  ct_wf ct → mint ct ot oid r bdg = (ct', Err st) →
  ct' = ct ∧ st = ErrBadCPtr ∧
  ((∀ j, 0 <= j < CAP_TABLE_SLOTS → entry_at ct j ≠ None) ∨
   OBJECT_TABLE_SIZE <= oid ∨ present (metas ot).[oid] = false).
Proof.
  intros Hwf Hm. unfold mint in Hm. destruct (position _ _) as [s|] eqn:Hp.
  - destruct (Z.leb_spec OBJECT_TABLE_SIZE oid); simpl in Hm; [simplify_eq; auto|].
    destruct (present (metas ot).[oid]) eqn:Hpr; simpl in Hm; simplify_eq; auto.
  - simplify_eq. split; [done|]. split; [done|]. left. by apply full_table.
Qed.

Lemma delegate_Ok src ot cptr mask bdg dst dst' d :
  ct_wf dst → delegate src ot cptr mask bdg dst = (dst', Ok d) →
  ∃ e, entry_at src cptr = Some e ∧ valid ot e ∧ submask Rights.DELEGATE (rights e) ∧
    0 <= d < CAP_TABLE_SLOTS ∧ entry_at dst d = None ∧
    dst' = mkCapTable (slots dst).[d := Some (child_of e mask bdg)].
Proof.
  intros Hwf Hd. rewrite delegate_alt in Hd. destruct (entry_at src cptr) as [e|]; [|done].
  destruct (rights_contains (rights e) Rights.DELEGATE) eqn:Hc; [|done].
  apply rights_contains_spec in Hc.
  destruct (check_entry ot e) eqn:Hv; try done. apply check_entry_ok in Hv.
  destruct (position is_none (slots dst)) as [s|] eqn:Hp; [|done].
  destruct (free_slot_bound dst s Hwf Hp) as (Hs & Hn & Hwr). rewrite Hwr in Hd.
  simplify_eq. exists e. rewrite entry_at_in_range by lia. done.
Qed.

Lemma delegate_Err src ot cptr mask bdg dst dst' st :
  ct_wf dst → delegate src ot cptr mask bdg dst = (dst', Err st) →
  dst' = dst ∧ st ≠ StOk ∧
  ((∃ e, entry_at src cptr = Some e ∧ valid ot e ∧ submask Rights.DELEGATE (rights e)) →
   st = ErrBadCPtr ∧ ∀ j, 0 <= j < CAP_TABLE_SLOTS → entry_at dst j ≠ None).
Proof.
  intros Hwf Hd. rewrite delegate_alt in Hd. destruct (entry_at src cptr) as [e|].
  2:{ simplify_eq. rewrite ex_None. done. }
  rewrite ex_Some, <- check_entry_ok, <- rights_contains_spec.
  destruct (rights_contains (rights e) Rights.DELEGATE); [|simplify_eq; crush].
  destruct (check_entry ot e); try (simplify_eq; crush).
  destruct (position is_none (slots dst)) as [s|] eqn:Hp; simplify_eq.
  split; [done|]. split; [done|]. intros _. split; [done|]. by apply full_table.
Qed.

(** [lookup] accepts exactly the valid entries, so it succeeds wherever
    [invoke] does. *)
Lemma lookup_ok ct ot cptr e :
  lookup ct cptr ot = Ok e ↔ entry_at ct cptr = Some e ∧ valid ot e.
Proof.
  rewrite lookup_alt, <- check_entry_ok. destruct (entry_at ct cptr) as [e'|]; [|crush].
  destruct (check_entry ot e') eqn:Hc; crush.
Qed.

Lemma invoke_ok ct ot cptr method req :
  invoke ct ot cptr method req = StOk ↔
  ∃ e, entry_at ct cptr = Some e ∧ valid ot e ∧ submask req (rights e).
Proof.
  rewrite invoke_alt. destruct (entry_at ct cptr) as [e|]; [|rewrite ex_None; crush].
  rewrite ex_Some, <- check_entry_ok, <- rights_contains_spec.
  destruct (check_entry ot e), (rights_contains (rights e) req); crush.
Qed.

End inversion.

(** ** Behaviour of the object table *)

(** [create_object] takes the lowest absent slot, starts it at epoch 0 with
    the requested kind, and touches no other object; it fails exactly when every
    slot is present. *)
Theorem create_object_spec (ot : ObjectTable) (k : ObjectKind) :
  ot_wf ot →
  match create_object ot k with
  | (ot', Some i) =>
      0 <= i < OBJECT_TABLE_SIZE ∧ present (metas ot).[i] = false ∧
      (∀ j, 0 <= j < i → present (metas ot).[j] = true) ∧
      (metas ot').[i] = mkObjectMeta k 0 true ∧
      (∀ j, 0 <= j → j ≠ i → (metas ot').[j] = (metas ot).[j])
  | (ot', None) =>
      ot' = ot ∧ ∀ j, 0 <= j < OBJECT_TABLE_SIZE → present (metas ot).[j] = true
  end.
Proof.
  intros Hwf. destruct (create_object ot k) as [ot' [i|]] eqn:Hc;
    [|by apply (create_object_None _ k)].
  apply create_object_Some in Hc as (Hi & Hn & Hl & ->); [|done].
  repeat (split; [done|]). split; [|intros j Hj Hne];
    rewrite ot_get_insert by (done || lia); case_decide; congruence.
Qed.

(** [n] revocations in a row. *)
Fixpoint revoke_n (n : nat) (ot : ObjectTable) (oid : Z) : ObjectTable :=
  match n with O => ot | S n => revoke_n n (revoke ot oid).1 oid end.

Lemma revoke_n_get n ot o :
  ot_wf ot → 0 <= o < OBJECT_TABLE_SIZE → present (metas ot).[o] = true →
  (metas (revoke_n n ot o)).[o] =
  mkObjectMeta (kind (metas ot).[o]) (wrap 32 (current_epoch (metas ot).[o] + Z.of_nat n)) true.
Proof.
  revert ot. induction n as [|n IH]; intros ot Hwf Ho Hp.
  - simpl. pose proof (ot_wf_meta ot o Hwf Ho) as Hm. rewrite Z.add_0_r, wrap_id by exact Hm.
    destruct ((metas ot).[o]); simpl in *; by subst.
  - cbn [revoke_n].
    assert (Hg : (metas (revoke ot o).1).[o] =
      mkObjectMeta (kind (metas ot).[o]) (wrap 32 (current_epoch (metas ot).[o] + 1)) true).
    { rewrite revoke_get by (done || lia). case_decide; [done|]. naive_solver lia. }
    rewrite IH by (auto with cairn; by rewrite Hg). rewrite Hg. cbn [kind current_epoch].
    f_equal. unfold wrap. rewrite Zplus_mod_idemp_l. f_equal. lia.
Qed.

Section claims.
Context `{Bitflags}.

(** The exact meaning of every status [invoke] returns. [Ok] means that the
    slot holds an entry that is valid (object present, type tag matches, live
    epoch) and carries every required right; each error names the first check
    that fails, and the method number plays no part. *)
Theorem invoke_status (ct : CapTable) (ot : ObjectTable) (cptr method req : Z) :
  let st := invoke ct ot cptr method req in
  let e_at e := entry_at ct cptr = Some e in
  let ep e := current_epoch (metas ot).[object_id e] in
  (st = StOk ↔ ∃ e, e_at e ∧ valid ot e ∧ submask req (rights e)) ∧
  (st = ErrBadCPtr ↔
     entry_at ct cptr = None ∨ ∃ e, e_at e ∧ OBJECT_TABLE_SIZE <= object_id e) ∧
  (st = ErrRevoked ↔ ∃ e, e_at e ∧ object_id e < OBJECT_TABLE_SIZE ∧ epoch e ≠ ep e) ∧
  (st = ErrType ↔
     ∃ e, e_at e ∧ object_id e < OBJECT_TABLE_SIZE ∧ epoch e = ep e ∧
          (present (metas ot).[object_id e] = false ∨
           type_tag e ≠ kind (metas ot).[object_id e])) ∧
  (st = ErrRights ↔ ∃ e, e_at e ∧ valid ot e ∧ ¬ submask req (rights e)) ∧
  st ≠ ErrMethod.
Proof.
  cbv zeta. rewrite invoke_alt. destruct (entry_at ct cptr) as [e|].
  2:{ rewrite !ex_None. intuition congruence. }
  rewrite !ex_Some. unfold valid, check_entry.
  destruct (Z.leb_spec OBJECT_TABLE_SIZE (object_id e)); [intuition (congruence || lia)|].
  destruct (Z.eqb_spec (epoch e) (current_epoch (metas ot).[object_id e])); simpl;
    [|intuition (congruence || lia)].
  destruct (present (metas ot).[object_id e]); simpl; [|intuition (congruence || lia)].
  destruct (bool_decide_reflect (type_tag e = kind (metas ot).[object_id e])); simpl;
    [|intuition (congruence || lia)].
  pose proof (rights_contains_spec (rights e) req) as Hc.
  destruct (rights_contains (rights e) req); intuition (congruence || lia).
Qed.

(** [mint] fills the lowest free slot with an entry that captures the
    object's current epoch and kind, and the fresh capability passes [invoke]
    exactly for the rights it was minted with; on a full table or an absent
    object the table is unchanged. *)
Theorem mint_spec (ct : CapTable) (ot : ObjectTable) (oid r bdg : Z) :
  ct_wf ct → 0 <= oid →
  match mint ct ot oid r bdg with
  | (ct', Ok c) =>
      0 <= c < CAP_TABLE_SLOTS ∧ entry_at ct c = None ∧
      (∀ j, 0 <= j < c → entry_at ct j ≠ None) ∧
      entry_at ct' c = Some {| object_id := oid; rights := r;
        epoch := current_epoch (metas ot).[oid]; type_tag := kind (metas ot).[oid];
        badge := bdg |} ∧
      (∀ j, 0 <= j → j ≠ c → entry_at ct' j = entry_at ct j) ∧
      (∀ m req, invoke ct' ot c m req = if decide (submask req r) then StOk else ErrRights)
  | (ct', Err st) =>
      ct' = ct ∧ st = ErrBadCPtr ∧
      ((∀ j, 0 <= j < CAP_TABLE_SLOTS → entry_at ct j ≠ None) ∨
       OBJECT_TABLE_SIZE <= oid ∨ present (metas ot).[oid] = false)
  end.
Proof.
  intros Hwf Hoid. destruct (mint ct ot oid r bdg) as [ct' [c|st]] eqn:Hm;
    [|by apply mint_Err in Hm].
  apply mint_Ok in Hm as (Hc & Hp & Hn & Hlt & Hpr & ->); [|done].
  apply position_Some in Hp as (_ & _ & Hfst).
  split; [done|]. split; [done|]. split.
  { intros j Hj. rewrite entry_at_in_range by lia. specialize (Hfst j Hj).
    by destruct ((slots ct).[j]). }
  split; [rewrite entry_at_insert by (done || lia); by rewrite decide_True|].
  split; [intros j Hj Hne; rewrite entry_at_insert by (done || lia); by rewrite decide_False|].
  intros m req. rewrite invoke_alt, entry_at_insert, decide_True by (done || lia).
  rewrite (proj2 (check_entry_ok _ _) (minted_valid ot oid r bdg Hlt Hpr)).
  cbn [minted rights]. pose proof (rights_contains_spec r req).
  destruct (rights_contains r req); case_decide; crush.
Qed.

(** [delegate] never amplifies. When it succeeds, the source entry is valid
    and carries [DELEGATE], and the one new entry of the destination names the
    same object at the same epoch and type with rights [src & mask]; every
    failure leaves the destination as it was. *)
Theorem delegate_spec (src dst : CapTable) (ot : ObjectTable) (cptr mask bdg : Z) :
  ct_wf dst →
  match delegate src ot cptr mask bdg dst with
  | (dst', Ok d) =>
      ∃ e child,
        entry_at src cptr = Some e ∧ valid ot e ∧ submask Rights.DELEGATE (rights e) ∧
        0 <= d < CAP_TABLE_SLOTS ∧ entry_at dst d = None ∧ entry_at dst' d = Some child ∧
        rights child = Z.land (rights e) mask ∧ submask (rights child) (rights e) ∧
        object_id child = object_id e ∧ epoch child = epoch e ∧
        type_tag child = type_tag e ∧ badge child = bdg ∧ valid ot child ∧
        (∀ j, 0 <= j → j ≠ d → entry_at dst' j = entry_at dst j)
  | (dst', Err st) =>
      dst' = dst ∧ st ≠ StOk ∧
      ((∃ e, entry_at src cptr = Some e ∧ valid ot e ∧ submask Rights.DELEGATE (rights e)) →
       st = ErrBadCPtr ∧ ∀ j, 0 <= j < CAP_TABLE_SLOTS → entry_at dst j ≠ None)
  end.
Proof.
  intros Hwf. destruct (delegate src ot cptr mask bdg dst) as [dst' [d|st]] eqn:Hd;
    [|by apply delegate_Err in Hd].
  apply delegate_Ok in Hd as (e & He & Hv & Hs & Hd & Hn & ->); [|done].
  exists e, (child_of e mask bdg). unfold child_of. cbn. rewrite rights_inter_spec.
  repeat (split; [first [done | solve [eauto with cairn]]|]). split.
  { rewrite entry_at_insert by (done || lia). by rewrite decide_True. }
  repeat (split; [first [done | solve [eauto with cairn]]|]).
  intros j Hj Hne. rewrite entry_at_insert by (done || lia). by rewrite decide_False.
Qed.

(** [seal] clears [DELEGATE] and only [DELEGATE] on the one capability it is
    given; a sealed capability can no longer be delegated, whatever the mask,
    and sealing it again changes nothing. *)
Theorem seal_spec (ct : CapTable) (cptr : Z) :
  ct_wf ct → 0 <= cptr →
  match seal ct cptr with
  | (ct', StOk) =>
      ∃ e e', entry_at ct cptr = Some e ∧ entry_at ct' cptr = Some e' ∧
        rights e' = Z.ldiff (rights e) Rights.DELEGATE ∧ object_id e' = object_id e ∧
        epoch e' = epoch e ∧ type_tag e' = type_tag e ∧ badge e' = badge e ∧
        (∀ j, 0 <= j → j ≠ cptr → entry_at ct' j = entry_at ct j) ∧
        (∀ ot mask bdg dst, delegate ct' ot cptr mask bdg dst = (dst, Err ErrRights)) ∧
        seal ct' cptr = (ct', StOk)
  | (ct', st) => ct' = ct ∧ st = ErrBadCPtr ∧ entry_at ct cptr = None
  end.
Proof.
  intros Hwf Hc. unfold seal at 1.
  destruct (Z.leb_spec CAP_TABLE_SLOTS cptr).
  { repeat split. unfold entry_at. by destruct (Z.leb_spec CAP_TABLE_SLOTS cptr); [|lia]. }
  assert (entry_at ct cptr = (slots ct).[cptr]) as ->.
  { unfold entry_at. by destruct (Z.leb_spec CAP_TABLE_SLOTS cptr); [lia|]. }
  destruct ((slots ct).[cptr]) as [e|] eqn:He; [|done].
  set (e' := mkCapEntry _ _ _ _ _).
  assert (Hat : entry_at (mkCapTable (slots ct).[cptr := Some e']) cptr = Some e').
  { rewrite entry_at_insert by (done || lia). by rewrite decide_True. }
  assert (Hr : rights e' = Z.ldiff (rights e) Rights.DELEGATE) by apply rights_remove_spec.
  exists e, e'. split; [done|]. split; [done|]. split; [done|].
  split; [done|]. split; [done|]. split; [done|]. split; [done|]. split; [|split].
  - intros j Hj Hne. rewrite entry_at_insert by (done || lia). by rewrite decide_False.
  - intros ot mask bdg dst. rewrite delegate_alt, Hat, Hr.
    destruct (rights_contains _ _) eqn:Hcon; [|done].
    apply rights_contains_spec in Hcon. rewrite submask_spec in Hcon.
    specialize (Hcon 3 ltac:(lia) eq_refl).
    rewrite Z.ldiff_spec, andb_false_r in Hcon. done.
  - unfold seal. destruct (Z.leb_spec CAP_TABLE_SLOTS cptr); [lia|]. cbn [slots].
    destruct Hwf as [Hlen _]. rewrite aget_aset_eq by (rewrite Hlen; lia).
    rewrite aset_aset. do 4 f_equal. unfold e'. cbn. f_equal.
    rewrite !rights_remove_spec. apply Z.bits_inj'. intros i Hi.
    rewrite !Z.ldiff_spec. destruct (Z.testbit (rights e) i), (Z.testbit Rights.DELEGATE i);
      reflexivity.
Qed.

(** C32: revocation is exact. A capability that is valid before [n] revocations
    of its object passes [invoke] afterwards if and only if [n] is a multiple of
    2^32; otherwise it is refused with [ErrRevoked]. So one revocation kills every
    outstanding capability, and the epoch counter alone does not retire the object
    when it wraps. *)
Theorem revoke_exact (ct : CapTable) (ot : ObjectTable) (cptr method req : Z) (e : CapEntry)
    (n : nat) :
  ot_wf ot → entry_at ct cptr = Some e → 0 <= object_id e → valid ot e →
  submask req (rights e) →
  invoke ct (revoke_n n ot (object_id e)) cptr method req =
  if decide (Z.of_nat n mod 2 ^ 32 = 0) then StOk else ErrRevoked.
Proof.
  intros Hwf He Ho (Hlt & Hp & Ht & Hep) Hs. rewrite invoke_alt, He.
  unfold check_entry. destruct (Z.leb_spec OBJECT_TABLE_SIZE (object_id e)); [lia|].
  rewrite revoke_n_get by (done || lia). cbn [current_epoch kind present].
  pose proof (ot_wf_meta ot (object_id e) Hwf ltac:(lia)) as Hm. unfold meta_wf, fits in Hm.
  assert (Hw : epoch e = wrap 32 (current_epoch (metas ot).[object_id e] + Z.of_nat n) ↔
    Z.of_nat n mod 2 ^ 32 = 0).
  { rewrite Hep. unfold wrap. rewrite <- Zplus_mod_idemp_r.
    pose proof (Z.mod_pos_bound (Z.of_nat n) (2 ^ 32) ltac:(lia)).
    set (k := Z.of_nat n mod 2 ^ 32) in *. set (c := current_epoch _) in *. split.
    - intros Heq. destruct (decide (c + k < 2 ^ 32)).
      + rewrite Z.mod_small in Heq by lia. lia.
      + rewrite <- (Z_mod_plus_full (c + k) (-1) (2 ^ 32)), Z.mod_small in Heq by lia. lia.
    - intros ->. rewrite Z.add_0_r, Z.mod_small by lia. done. }
  destruct (Z.eqb_spec (epoch e)
    (wrap 32 (current_epoch (metas ot).[object_id e] + Z.of_nat n))) as [Heq|Hne]; simpl.
  - rewrite bool_decide_eq_true_2 by done. simpl.
    rewrite decide_True by tauto. apply rights_contains_spec in Hs. by rewrite Hs.
  - rewrite decide_False by tauto. done.
Qed.

(** C33: destroying an object and creating another of the same kind in its slot
    revives the capabilities minted for the old object at epoch 0: [create_object]
    restarts the epoch at 0, so an old entry is valid again for the new object. *)
Theorem destroy_create_revives (ot : ObjectTable) (ct : CapTable) (cptr method req : Z)
    (e : CapEntry) :
  ot_wf ot → entry_at ct cptr = Some e → 0 <= object_id e → valid ot e → epoch e = 0 →
  submask req (rights e) →
  (∀ j, 0 <= j < object_id e → present (metas ot).[j] = true) →
  let ot1 := destroy_object ot (object_id e) in
  let ot2 := (create_object ot1 (type_tag e)).1 in
  invoke ct ot1 cptr method req = ErrType ∧ invoke ct ot2 cptr method req = StOk ∧
  (create_object ot1 (type_tag e)).2 = Some (object_id e).
Proof.
  intros Hwf He Ho (Hlt & Hp & Ht & Hep) H0 Hs Hlow ot1 ot2.
  assert (Hot1 : ot_wf ot1) by by apply destroy_object_wf.
  assert (Hg : ∀ j, 0 <= j → (metas ot1).[j] = if decide (object_id e = j)
    then mkObjectMeta Kind.Null 0 false else (metas ot).[j]).
  { intros j Hj. unfold ot1, destroy_object. rewrite <- Hep, H0.
    destruct (Z.ltb_spec (object_id e) OBJECT_TABLE_SIZE); [|lia].
    apply (ot_get_insert ot); [done|lia|lia]. }
  unfold ot2. destruct (create_object ot1 (type_tag e)) as [ot' [i|]] eqn:Hc; simpl.
  - apply create_object_Some in Hc as (Hi & Hni & Hl & ->); [|done].
    assert (i = object_id e) as ->.
    { destruct (Ztrichotomy i (object_id e)) as [?|[?|?]]; [|done|].
      - rewrite Hg, decide_False, Hlow in Hni by lia. done.
      - specialize (Hl (object_id e) ltac:(lia)). rewrite Hg, decide_True in Hl by lia. done. }
    split; [|split; [|done]]; rewrite invoke_alt, He; unfold check_entry;
      (destruct (Z.leb_spec OBJECT_TABLE_SIZE (object_id e)); [lia|]).
    + rewrite Hg, decide_True, H0 by done. reflexivity.
    + rewrite ot_get_insert, decide_True, H0 by (done || lia). simpl. rewrite bool_decide_eq_true_2 by done. simpl.
      apply rights_contains_spec in Hs. by rewrite Hs.
  - apply create_object_None in Hc as [_ Hall]; [|done]. specialize (Hall (object_id e) ltac:(lia)).
    rewrite Hg, decide_True in Hall by done. done.
Qed.
End claims.

(** ** Witnesses *)

(** A Memory object at id 0 and a table whose slot 0 holds a full capability to it. *)
Definition demo_ot : ObjectTable := (create_object ObjectTable_new Kind.Memory).1.
Definition demo_rights : Z := 0x2F.
Definition demo_entry : CapEntry := mkCapEntry 0 demo_rights 0 Kind.Memory 7.
Definition demo_ct : CapTable := mkCapTable (slots CapTable_new).[0 := Some demo_entry].

Lemma demo_ot_wf : ot_wf demo_ot.
Proof. apply create_object_wf, ObjectTable_new_wf. Qed.

Lemma demo_ct_wf : ct_wf demo_ct.
Proof.
  apply slots_insert_wf; [apply CapTable_new_wf|].
  vm_compute. repeat split; congruence.
Qed.

Lemma demo_entry_at : entry_at demo_ct 0 = Some demo_entry.
Proof. reflexivity. Qed.

Lemma demo_valid : valid demo_ot demo_entry.
Proof. vm_compute. repeat split; congruence. Qed.

Lemma create_object_spec_witness :
  ∃ i, (create_object demo_ot Kind.Endpoint).2 = Some i ∧ present (metas demo_ot).[i] = false ∧
       (metas (create_object demo_ot Kind.Endpoint).1).[i] = mkObjectMeta Kind.Endpoint 0 true.
Proof.
  pose proof (create_object_spec demo_ot Kind.Endpoint demo_ot_wf) as Hw.
  destruct (create_object demo_ot Kind.Endpoint) as [ot' [i|]] eqn:E.
  - exists i. split; [done|]. split; apply Hw.
  - vm_compute in E. discriminate.
Defined.

Lemma mint_spec_witness :
  ∃ c, (mint demo_ct demo_ot 0 Rights.INVOKE 9).2 = Ok c ∧
       invoke (mint demo_ct demo_ot 0 Rights.INVOKE 9).1 demo_ot c 1 Rights.WRITE = ErrRights.
Proof.
  pose proof (mint_spec demo_ct demo_ot 0 Rights.INVOKE 9 demo_ct_wf ltac:(lia)) as Hw.
  destruct (mint demo_ct demo_ot 0 Rights.INVOKE 9) as [ct' [c|st]] eqn:E.
  - exists c. split; [done|]. simpl. by destruct Hw as (_ & _ & _ & _ & _ & ->).
  - vm_compute in E. discriminate.
Defined.

Lemma delegate_spec_witness :
  ∃ d child, (delegate demo_ct demo_ot 0 (Z.lor Rights.READ Rights.SEAL) 3 CapTable_new).2 = Ok d ∧
    entry_at (delegate demo_ct demo_ot 0 (Z.lor Rights.READ Rights.SEAL) 3 CapTable_new).1 d
      = Some child ∧
    rights child = Z.land demo_rights (Z.lor Rights.READ Rights.SEAL).
Proof.
  pose proof (delegate_spec demo_ct CapTable_new demo_ot 0 (Z.lor Rights.READ Rights.SEAL) 3
    CapTable_new_wf) as Hw.
  destruct (delegate _ _ _ _ _ _) as [dst' [d|st]] eqn:E.
  - destruct Hw as (e & child & He & _ & _ & _ & _ & Hd & Hr & _).
    exists d, child. split; [done|]. split; [exact Hd|].
    rewrite demo_entry_at in He. by injection He as <-.
  - vm_compute in E. discriminate.
Defined.

Lemma seal_spec_witness :
  (seal demo_ct 0).2 = StOk ∧
  delegate (seal demo_ct 0).1 demo_ot 0 0xFF 0 CapTable_new = (CapTable_new, Err ErrRights).
Proof.
  pose proof (seal_spec demo_ct 0 demo_ct_wf ltac:(lia)) as Hw.
  destruct (seal demo_ct 0) as [ct' st] eqn:E. destruct st; try (vm_compute in E; discriminate).
  split; [done|]. destruct Hw as (e & e' & _ & _ & _ & _ & _ & _ & _ & _ & Hd & _). apply Hd.
Defined.

Lemma revoke_exact_witness :
  invoke demo_ct (revoke_n 3 demo_ot 0) 0 1 Rights.INVOKE = ErrRevoked.
Proof.
  apply (revoke_exact demo_ct demo_ot 0 1 Rights.INVOKE demo_entry 3 demo_ot_wf demo_entry_at
    ltac:(simpl; lia) demo_valid eq_refl).
Defined.

Lemma destroy_create_revives_witness :
  invoke demo_ct (create_object (destroy_object demo_ot 0) Kind.Memory).1 0 1 Rights.INVOKE = StOk.
Proof.
  apply (destroy_create_revives demo_ot demo_ct 0 1 Rights.INVOKE demo_entry demo_ot_wf
    demo_entry_at ltac:(simpl; lia) demo_valid eq_refl eq_refl).
  simpl. lia.
Defined.
