(* ===== verification/Authority.v ===== *)
(** * Authority over a system of capability tables

    [docs/CAP_ABI.md] section 6 promises unforgeability, complete revocation,
    no amplification and type safety for every sequence of operations, not only
    for one call. This file states them for arbitrary traces of the operations of
    [table.rs] over one object table and any number of per-domain tables. The
    kernel's capability space is shown to take only such steps in [Capspace]. *)

From S2P Require Import Prelude Capability CapTable.

Record sys := mkSys { s_ot : ObjectTable; s_tables : list CapTable }.

(** The operations of [table.rs], addressed by table index, and the two direct
    writes the kernel makes to the public [slots] field: clearing one slot (the
    source of a MOVE) and resetting a table ([EMPTY_TABLE]). *)
Inductive cap_op :=
  | OpCreate (k : ObjectKind)
  | OpRevoke (oid : Z)
  | OpMint (d oid r bdg : Z)
  | OpDelegate (src dst cptr mask bdg : Z)
  | OpSeal (d cptr : Z)
  | OpClear (d cptr : Z)
  | OpReset (d : Z).
#[global] Instance cap_op_eq_dec : EqDecision cap_op.
Proof. solve_decision. Defined.

Definition set_table (s : sys) (d : Z) (ct : CapTable) : sys :=
  mkSys (s_ot s) (s_tables s).[d := ct].

Definition clear_slot (ct : CapTable) (cptr : Z) : CapTable :=
  mkCapTable (slots ct).[cptr := None].

Section exec.
Context `{Bitflags}.

Definition exec (s : sys) (op : cap_op) : sys :=
  match op with
  | OpCreate k => mkSys (create_object (s_ot s) k).1 (s_tables s)
  | OpRevoke o => mkSys (revoke (s_ot s) o).1 (s_tables s)
  | OpMint d o r b => set_table s d (mint (s_tables s).[d] (s_ot s) o r b).1
  | OpDelegate src dst c m b =>
      set_table s dst (delegate (s_tables s).[src] (s_ot s) c m b (s_tables s).[dst]).1
  | OpSeal d c => set_table s d (seal (s_tables s).[d] c).1
  | OpClear d c => set_table s d (clear_slot (s_tables s).[d] c)
  | OpReset d => set_table s d CapTable_new
  end.

Definition run (s : sys) (ops : list cap_op) : sys := foldl exec s ops.
End exec.

(** The arguments are in the ranges their Rust types and the callers' own range
    checks give them. *)
Definition op_ok (n : Z) (op : cap_op) : Prop :=
  match op with
  | OpCreate k => fits 16 (raw k)
  | OpRevoke o => 0 <= o
  | OpMint d o r b => 0 <= d < n ∧ fits 64 o ∧ fits 16 r ∧ fits 16 b
  | OpDelegate src dst c m b => 0 <= src < n ∧ 0 <= dst < n ∧ 0 <= c ∧ fits 16 b
  | OpSeal d c | OpClear d c => 0 <= d < n ∧ 0 <= c < CAP_TABLE_SLOTS
  | OpReset d => 0 <= d < n
  end.

Definition is_mint (op : cap_op) : bool :=
  match op with OpMint _ _ _ _ => true | _ => false end.

Definition kinds_wf (ot : ObjectTable) : Prop :=
  Forall (λ m, fits 16 (raw (kind m))) (metas ot).

Definition sys_wf (s : sys) : Prop :=
  ot_wf (s_ot s) ∧ kinds_wf (s_ot s) ∧ Forall ct_wf (s_tables s).

(** Domain [d] holds entry [e] in slot [c]. *)
Definition holds (s : sys) (d c : Z) (e : CapEntry) : Prop :=
  0 <= d < zlen (s_tables s) ∧ 0 <= c ∧ entry_at (s_tables s).[d] c = Some e.

(** [e'] carries at most the authority of [e]. *)
Definition derives (e e' : CapEntry) : Prop :=
  object_id e' = object_id e ∧ epoch e' = epoch e ∧ type_tag e' = type_tag e ∧
  submask (rights e') (rights e).

#[global] Instance derives_preorder : PreOrder derives.
Proof.
  split.
  - intros e. repeat split. reflexivity.
  - intros e1 e2 e3 (? & ? & ? & Hs1) (? & ? & ? & Hs2).
    repeat split; [congruence..|]. by transitivity (rights e2).
Qed.

Lemma set_table_wf s d ct : sys_wf s → ct_wf ct → sys_wf (set_table s d ct).
Proof. intros (Ho & Hk & Ht) Hc. repeat split; try apply Ho; [done|]. by apply Forall_aset. Qed.

Lemma holds_set_table s d ct d' c e :
  0 <= d < zlen (s_tables s) → holds (set_table s d ct) d' c e →
  if decide (d = d') then 0 <= c ∧ entry_at ct c = Some e else holds s d' c e.
Proof.
  unfold holds, set_table. simpl. rewrite zlen_aset. intros Hd (Hd' & Hc & He).
  rewrite aget_aset in He by lia. by case_decide.
Qed.

Lemma table_wf s d : sys_wf s → 0 <= d < zlen (s_tables s) → ct_wf (s_tables s).[d].
Proof. intros (_ & _ & HF) Hd. by apply Forall_aget. Qed.

Lemma holds_typed s d c e : sys_wf s → holds s d c e → CapEntry_typed e.
Proof. intros Hwf (Hd & Hc & He). eapply entry_at_typed; eauto using table_wf. Qed.

Lemma kinds_wf_get ot i : ot_wf ot → kinds_wf ot → 0 <= i < OBJECT_TABLE_SIZE →
  fits 16 (raw (kind (metas ot).[i])).
Proof. intros [Hlen _] Hk Hi. apply (Forall_aget _ _ i Hk). by rewrite Hlen. Qed.

Section traces.
Context `{Bitflags}.

Lemma minted_typed s oid r b :
  sys_wf s → fits 64 oid → oid < OBJECT_TABLE_SIZE → fits 16 r → fits 16 b →
  CapEntry_typed (minted (s_ot s) oid r b).
Proof.
  intros (Ho & Hk & _) H64 Hlt Hr Hb. unfold fits in H64. split; [done|]. split; [done|].
  split; [apply (ot_wf_meta (s_ot s) oid); [done|simpl; lia]|].
  split; [apply (kinds_wf_get _ oid Ho Hk); simpl; lia|done].
Qed.

Lemma child_typed e mask b : CapEntry_typed e → fits 16 b → CapEntry_typed (child_of e mask b).
Proof.
  intros (? & ? & ? & ? & ?) Hb. unfold CapEntry_typed. simpl.
  rewrite rights_inter_spec. by auto using fits_land with lia.
Qed.

Lemma seal_table_wf ct c : ct_wf ct → 0 <= c → ct_wf (seal ct c).1.
Proof.
  intros Hwf Hc. unfold seal. destruct (Z.leb_spec CAP_TABLE_SLOTS c); [done|].
  destruct ((slots ct).[c]) as [e|] eqn:He; [|done]. apply slots_insert_wf; [done|].
  destruct (entry_at_typed ct c e Hwf Hc) as (? & ? & ? & ? & ?);
    [by rewrite entry_at_in_range|].
  unfold slot_wf, CapEntry_typed. simpl. rewrite rights_remove_spec.
  by auto using fits_ldiff with lia.
Qed.

Lemma exec_tables_len s op : zlen (s_tables (exec s op)) = zlen (s_tables s).
Proof. destruct op; simpl; by rewrite ?zlen_aset. Qed.

Lemma exec_wf s op : sys_wf s → op_ok (zlen (s_tables s)) op → sys_wf (exec s op).
Proof.
  intros Hwf Hop. pose proof Hwf as (Ho & Hk & Ht). destruct op; simpl in Hop |- *.
  - split; [by apply create_object_wf|]. split; [|done].
    unfold create_object. destruct (position _ _); [|done]. by apply Forall_aset.
  - split; [by apply revoke_wf|]. split; [|done].
    unfold revoke. destruct (Z.leb_spec OBJECT_TABLE_SIZE oid); [done|].
    destruct (present _); [|done]. apply Forall_aset; [done|].
    apply (kinds_wf_get _ oid Ho Hk). lia.
  - destruct Hop as (Hd & Hoid & Hr & Hb). apply set_table_wf; [done|].
    pose proof (table_wf s d Hwf Hd) as Hct.
    destruct (mint _ _ _ _ _) as [ct' [c|st]] eqn:Hm; simpl.
    + apply mint_Ok in Hm as (_ & _ & _ & Hlt & _ & ->); [|done].
      apply slots_insert_wf; [done|]. by apply minted_typed.
    + by apply mint_Err in Hm as [-> _].
  - destruct Hop as (Hs & Hd & Hc & Hb). apply set_table_wf; [done|].
    pose proof (table_wf s dst Hwf Hd) as Hct.
    destruct (delegate _ _ _ _ _ _) as [ct' [c|st]] eqn:Hm; simpl.
    + apply delegate_Ok in Hm as (e & He & _ & _ & _ & _ & ->); [|done].
      apply slots_insert_wf; [done|]. apply child_typed; [|done].
      eapply entry_at_typed; [|exact Hc|exact He]. by apply table_wf.
    + by apply delegate_Err in Hm as [-> _].
  - apply set_table_wf; [done|]. apply seal_table_wf; [|lia]. apply table_wf; [done|lia].
  - apply set_table_wf; [done|]. apply slots_insert_wf; [|done]. apply table_wf; [done|lia].
  - apply set_table_wf; [done|]. apply CapTable_new_wf.
Qed.

Lemma run_wf s ops :
  sys_wf s → Forall (op_ok (zlen (s_tables s))) ops → sys_wf (run s ops).
Proof.
  revert s. induction ops as [|op ops IH]; intros s Hwf Hok; [done|].
  apply Forall_cons in Hok as [Hop Hops]. simpl. apply IH; [by apply exec_wf|].
  by rewrite exec_tables_len.
Qed.

(** One step: every entry held afterwards was minted by this step or derives from
    an entry held before, in the same domain unless that entry carried [DELEGATE]. *)
Lemma exec_ancestor s op d' c' e' :
  sys_wf s → op_ok (zlen (s_tables s)) op → is_mint op = false →
  holds (exec s op) d' c' e' →
  ∃ d c e, holds s d c e ∧ derives e e' ∧ (d = d' ∨ submask Rights.DELEGATE (rights e)).
Proof.
  intros Hwf Hop Hnm Hh.
  assert (Hsame : holds s d' c' e' → ∃ d c e, holds s d c e ∧ derives e e' ∧
    (d = d' ∨ submask Rights.DELEGATE (rights e))).
  { intros. exists d', c', e'. split; [done|]. split; [reflexivity|]. by left. }
  destruct op; simpl in Hop, Hnm, Hh; try done; try (by apply Hsame).
  - destruct Hop as (Hs & Hd & Hc & Hb).
    apply holds_set_table in Hh; [|done]. case_decide; [subst d'|by apply Hsame].
    destruct Hh as [Hc' He']. pose proof (table_wf s dst Hwf Hd) as Hct.
    destruct (delegate _ _ _ _ _ _) as [ct' [k|st]] eqn:Hm; simpl in He'.
    + apply delegate_Ok in Hm as (e & He & _ & Hdel & Hk & _ & ->); [|done].
      rewrite entry_at_insert in He' by (done || lia). case_decide.
      * injection He' as <-. exists src, cptr, e. split; [done|].
        split; [|by right]. repeat split. simpl. rewrite rights_inter_spec.
        apply submask_land_l.
      * by apply Hsame.
    + apply delegate_Err in Hm as [-> _]; [|done]. by apply Hsame.
  - destruct Hop as [Hd Hc]. apply holds_set_table in Hh; [|done].
    case_decide; [subst d'|by apply Hsame]. destruct Hh as [Hc' He'].
    unfold seal in He'. destruct (Z.leb_spec CAP_TABLE_SLOTS cptr); [lia|].
    destruct ((slots (s_tables s).[d]).[cptr]) as [e|] eqn:He; [|by apply Hsame].
    cbn [fst] in He'. rewrite entry_at_insert in He' by (lia || by apply table_wf).
    case_decide; [subst c'|by apply Hsame]. injection He' as <-.
    exists d, cptr, e. split; [split; [done|]; split; [lia|by rewrite entry_at_in_range]|].
    split; [|by left]. repeat split. simpl. rewrite rights_remove_spec. apply submask_ldiff.
  - destruct Hop as [Hd Hc]. apply holds_set_table in Hh; [|done].
    case_decide; [subst d'|by apply Hsame]. destruct Hh as [Hc' He'].
    unfold clear_slot in He'. rewrite entry_at_insert in He' by (lia || by apply table_wf).
    case_decide; [done|by apply Hsame].
  - apply holds_set_table in Hh; [|done]. case_decide; [|by apply Hsame].
    destruct Hh as [Hc' He']. by rewrite entry_at_new in He'.
Qed.

(** The same over a trace without mints. *)
Lemma run_ancestor (s : sys) (ops : list cap_op) (d' c' : Z) (e' : CapEntry) :
  sys_wf s → Forall (op_ok (zlen (s_tables s))) ops →
  Forall (λ op, is_mint op = false) ops →
  holds (run s ops) d' c' e' →
  ∃ d c e, holds s d c e ∧ derives e e' ∧ (d = d' ∨ submask Rights.DELEGATE (rights e)).
Proof.
  revert s. induction ops as [|op ops IH]; intros s Hwf Hok Hnm Hh.
  - exists d', c', e'. split; [done|]. split; [reflexivity|]. by left.
  - apply Forall_cons in Hok as [Hop Hops]. apply Forall_cons in Hnm as [Hn Hns].
    destruct (IH (exec s op)) as (d1 & c1 & e1 & Hh1 & Hd1 & Hx1); [..|done|].
    { by apply exec_wf. } { by rewrite exec_tables_len. } { done. }
    destruct (exec_ancestor s op d1 c1 e1) as (d & c & e & Hh0 & Hd0 & Hx0); [done..|].
    exists d, c, e. split; [done|]. split; [by transitivity e1|].
    destruct Hx0 as [->|]; [|by right]. destruct Hx1 as [->|Hdel]; [by left|].
    right. transitivity (rights e1); [done|apply Hd0].
Qed.

(** Unforgeability and confinement. After any sequence of delegations, seals,
    revocations, object creations, slot clears and table resets (everything but
    [mint]), every capability held by any domain derives from one held at the
    start: same object, same epoch, same type, no more rights; and authority
    crossed into another domain only from a capability that carried [DELEGATE]. *)
Theorem confinement (s : sys) (ops : list cap_op) (d' c' : Z) (e' : CapEntry) :
  sys_wf s → Forall (op_ok (zlen (s_tables s))) ops →
  Forall (λ op, is_mint op = false) ops →
  holds (run s ops) d' c' e' →
  ∃ d c e, holds s d c e ∧ derives e e' ∧ (d = d' ∨ submask Rights.DELEGATE (rights e)).
Proof. apply run_ancestor. Qed.

(** ** Existing objects over traces that mint only new ones *)

Definition exists_in (s : sys) (o : Z) : Prop := present (metas (s_ot s)).[o] = true.

(** [op] mints no capability for object [o]. *)
Definition spares (o : Z) (op : cap_op) : Prop :=
  match op with OpMint _ o' _ _ => o' ≠ o | _ => True end.

Lemma exec_exists s op o :
  sys_wf s → 0 <= o < OBJECT_TABLE_SIZE → exists_in s o → exists_in (exec s op) o.
Proof.
  intros (Hot & _) Ho Hp. unfold exists_in in *. destruct op; try done; simpl.
  - destruct (create_object (s_ot s) k) as [ot' [i|]] eqn:Hc; simpl.
    + apply create_object_Some in Hc as (Hi & Hn & _ & ->); [|done].
      rewrite ot_get_insert by (done || lia). by case_decide.
    + by apply create_object_None in Hc as [-> _].
  - unfold revoke. destruct (Z.leb_spec OBJECT_TABLE_SIZE oid); [done|].
    destruct (present (metas (s_ot s)).[oid]) eqn:Hpo; [|done]. simpl.
    destruct (decide (0 <= oid)) as [|Hneg].
    + rewrite aget_aset by (rewrite ?(proj1 Hot); lia). case_decide; [by subst|done].
    + unfold aset, aget in *. replace (Z.to_nat oid) with 0%nat in * by lia.
      destruct (decide (Z.to_nat o = 0%nat)) as [->|]; [|by rewrite list_lookup_total_insert_ne].
      rewrite list_lookup_total_insert_eq by (destruct Hot as [Hl _]; unfold zlen, OBJECT_TABLE_SIZE in Hl; lia).
      done.
Qed.

Lemma exec_ancestor_of s op d' c' e' :
  sys_wf s → op_ok (zlen (s_tables s)) op → spares (object_id e') op →
  holds (exec s op) d' c' e' →
  ∃ d c e, holds s d c e ∧ derives e e' ∧ (d = d' ∨ submask Rights.DELEGATE (rights e)).
Proof.
  intros Hwf Hop Hsp Hh. destruct (is_mint op) eqn:Hm; [|by apply (exec_ancestor s op d' c' e')].
  destruct op as [| |d o r b| | | |]; try done. simpl in Hop, Hsp, Hh. destruct Hop as (Hd & Hop).
  exists d', c', e'. split; [|split; [reflexivity|by left]].
  apply holds_set_table in Hh; [|done]. case_decide; [subst d'|done]. destruct Hh as [Hc' He'].
  pose proof (table_wf s d Hwf Hd) as Hct. split; [done|]. split; [done|].
  destruct (mint _ _ _ _ _) as [ct' [c|st]] eqn:Hmt; simpl in He'.
  - apply mint_Ok in Hmt as (Hc & _ & _ & _ & _ & ->); [|done].
    rewrite entry_at_insert in He' by (done || lia). case_decide; [|done].
    injection He' as <-. by destruct Hsp.
  - by apply mint_Err in Hmt as [-> _].
Qed.

(** A trace that mints capabilities only for objects it creates itself. *)
Definition evolves (s s' : sys) : Prop :=
  ∃ ops, Forall (op_ok (zlen (s_tables s))) ops ∧ s' = run s ops ∧
    ∀ o, 0 <= o < OBJECT_TABLE_SIZE → exists_in s o → Forall (spares o) ops.

Lemma run_tables_len s ops : zlen (s_tables (run s ops)) = zlen (s_tables s).
Proof. revert s. induction ops as [|op ops IH]; intros s; [done|]. simpl. by rewrite IH, exec_tables_len. Qed.

Lemma run_exists s ops o :
  sys_wf s → Forall (op_ok (zlen (s_tables s))) ops → 0 <= o < OBJECT_TABLE_SIZE →
  exists_in s o → exists_in (run s ops) o.
Proof.
  revert s. induction ops as [|op ops IH]; intros s Hwf Hok Ho Hp; [done|].
  apply Forall_cons in Hok as [Hop Hops]. apply IH; [by apply exec_wf|by rewrite exec_tables_len|done|].
  by apply exec_exists.
Qed.

Lemma evolves_refl s : evolves s s.
Proof. exists []. by repeat split. Qed.

Lemma evolves_trans s1 s2 s3 : sys_wf s1 → evolves s1 s2 → evolves s2 s3 → evolves s1 s3.
Proof.
  intros Hwf (o1 & A1 & -> & C1) (o2 & A2 & -> & C2). exists (o1 ++ o2). rewrite run_tables_len in A2.
  split; [by apply Forall_app|]. split; [unfold run; by rewrite foldl_app|].
  intros o Ho Hp. apply Forall_app. split; [by apply C1|]. apply C2; [done|]. by apply run_exists.
Qed.

Lemma evolves_wf s s' : sys_wf s → evolves s s' → sys_wf s' ∧ zlen (s_tables s') = zlen (s_tables s).
Proof. intros Hwf (ops & Hok & -> & _). split; [by apply run_wf|apply run_tables_len]. Qed.

Lemma evolves_exec s op :
  op_ok (zlen (s_tables s)) op → is_mint op = false → evolves s (exec s op).
Proof.
  intros Hop Hm. exists [op]. split; [by constructor|]. split; [done|]. intros o _ _.
  constructor; [by destruct op|constructor].
Qed.

Lemma evolves_ancestor s s' d' c' e' :
  sys_wf s → evolves s s' → holds s' d' c' e' → object_id e' < OBJECT_TABLE_SIZE → exists_in s (object_id e') →
  ∃ d c e, holds s d c e ∧ derives e e' ∧ (d = d' ∨ submask Rights.DELEGATE (rights e)).
Proof.
  intros Hwf (ops & Hok & -> & Hsp) Hh Ho Hp.
  assert (Ho' : 0 <= object_id e') by apply (holds_typed (run s ops) d' c' e' (run_wf s ops Hwf Hok) Hh).
  specialize (Hsp _ (conj Ho' Ho) Hp). clear Hp Ho Ho'. revert s Hwf Hok Hh.
  induction ops as [|op ops IH]; intros s Hwf Hok Hh.
  - exists d', c', e'. split; [done|]. split; [reflexivity|]. by left.
  - apply Forall_cons in Hok as [Hop Hops]. apply Forall_cons in Hsp as [Hs1 Hs2].
    destruct (IH Hs2 (exec s op)) as (d1 & c1 & e1 & Hh1 & Hd1 & Hx1); [..|done|].
    { by apply exec_wf. } { by rewrite exec_tables_len. }
    destruct (exec_ancestor_of s op d1 c1 e1) as (d & c & e & Hh0 & Hd0 & Hx0); [done|done| |done|].
    { by rewrite <- (proj1 Hd1). }
    exists d, c, e. split; [done|]. split; [by transitivity e1|].
    destruct Hx0 as [->|]; [|by right]. destruct Hx1 as [->|Hdel]; [by left|].
    right. transitivity (rights e1); [done|apply Hd0].
Qed.

(** ** Type safety and revocation over traces that do mint *)

(** Every held entry names a present object of its type, at an epoch the object
    has already had. *)
Definition sys_inv (s : sys) : Prop :=
  sys_wf s ∧
  ∀ d c e, holds s d c e →
    object_id e < OBJECT_TABLE_SIZE ∧ present (metas (s_ot s)).[object_id e] = true ∧
    type_tag e = kind (metas (s_ot s)).[object_id e] ∧
    epoch e <= current_epoch (metas (s_ot s)).[object_id e].

Definition epoch_of (s : sys) (o : Z) : Z := current_epoch (metas (s_ot s)).[o].

Definition count_revokes (o : Z) (ops : list cap_op) : Z :=
  zlen (filter (λ op, op = OpRevoke o) ops).

(** No revocation of [op] wraps the epoch of its object. *)
Definition no_wrap (s : sys) (op : cap_op) : Prop :=
  match op with OpRevoke o => epoch_of s o + 1 < 2 ^ 32 | _ => True end.

Lemma holds_oid s d c e : sys_wf s → holds s d c e → 0 <= object_id e.
Proof. intros Hwf Hh. apply (holds_typed s d c e Hwf Hh). Qed.

(** What one step does to an object that is present. *)
Lemma exec_meta s op o :
  sys_wf s → op_ok (zlen (s_tables s)) op → no_wrap s op → 0 <= o < OBJECT_TABLE_SIZE →
  present (metas (s_ot s)).[o] = true →
  (metas (s_ot (exec s op))).[o] =
  mkObjectMeta (kind (metas (s_ot s)).[o])
    (epoch_of s o + (if decide (op = OpRevoke o) then 1 else 0)) true.
Proof.
  intros Hwf Hop Hnw Ho Hp. pose proof Hwf as (Hot & _ & _).
  assert (Hid : (metas (s_ot s)).[o] = mkObjectMeta (kind (metas (s_ot s)).[o])
    (epoch_of s o + 0) true).
  { rewrite Z.add_0_r. unfold epoch_of. destruct ((metas (s_ot s)).[o]). simpl in *. by subst. }
  destruct op; simpl in Hop; cbn [exec s_ot set_table];
    try (rewrite decide_False by done; exact Hid).
  - rewrite decide_False by done.
    destruct (create_object (s_ot s) k) as [ot' [i|]] eqn:Hc; simpl.
    + apply create_object_Some in Hc as (Hi & Hn & _ & ->); [|done].
      rewrite ot_get_insert by (done || lia). case_decide; [congruence|exact Hid].
    + apply create_object_None in Hc as [-> _]; [exact Hid|done].
  - rewrite revoke_get by (done || lia). destruct (decide (oid = o)) as [->|Hne].
    + rewrite !decide_True by (split_and?; (done || lia)). f_equal. apply wrap_id. simpl in Hnw.
      pose proof (ot_wf_meta (s_ot s) o Hot Ho) as Hm. unfold meta_wf, fits, epoch_of in *. lia.
    + rewrite !decide_False by naive_solver. exact Hid.
Qed.

Lemma exec_inv s op :
  sys_inv s → op_ok (zlen (s_tables s)) op → no_wrap s op → sys_inv (exec s op).
Proof.
  intros [Hwf Hinv] Hop Hnw. split; [by apply exec_wf|].
  assert (Hkeep : ∀ e, 0 <= object_id e → object_id e < OBJECT_TABLE_SIZE →
    present (metas (s_ot s)).[object_id e] = true →
    type_tag e = kind (metas (s_ot s)).[object_id e] →
    epoch e <= current_epoch (metas (s_ot s)).[object_id e] →
    object_id e < OBJECT_TABLE_SIZE ∧ present (metas (s_ot (exec s op))).[object_id e] = true ∧
    type_tag e = kind (metas (s_ot (exec s op))).[object_id e] ∧
    epoch e <= current_epoch (metas (s_ot (exec s op))).[object_id e]).
  { intros e H0 H1 H2 H3 H4. rewrite exec_meta by (done || lia). simpl.
    unfold epoch_of. repeat split; try done. case_decide; lia. }
  intros d' c' e' Hh. destruct (is_mint op) eqn:Hm.
  - destruct op; try done. simpl in Hop, Hh. destruct Hop as (Hd & Hoid & Hr & Hb).
    assert (Hold : holds s d' c' e' → _) by
      (intros Hx; destruct (Hinv _ _ _ Hx) as (? & ? & ? & ?); exact (Hkeep e'
        (holds_oid _ _ _ _ Hwf Hx) ltac:(done) ltac:(done) ltac:(done) ltac:(done))).
    apply holds_set_table in Hh; [|done]. case_decide; [subst d'|by apply Hold].
    destruct Hh as [Hc' He']. pose proof (table_wf s d Hwf Hd) as Hct.
    destruct (mint _ _ _ _ _) as [ct' [k|st]] eqn:Hmt; simpl in He'.
    + apply mint_Ok in Hmt as (Hk & _ & _ & Hlt & Hp & ->); [|done].
      rewrite entry_at_insert in He' by (done || lia). case_decide; [|by apply Hold].
      injection He' as <-. unfold fits in Hoid. by apply Hkeep; simpl; try lia.
    + apply mint_Err in Hmt as [-> _]; [|done]. by apply Hold.
  - destruct (exec_ancestor s op d' c' e') as (d & c & e & Hh0 & (Ho & He & Ht & _) & _);
      [done..|].
    destruct (Hinv _ _ _ Hh0) as (? & ? & ? & ?). pose proof (holds_oid _ _ _ _ Hwf Hh0).
    apply Hkeep; rewrite ?Ho, ?He, ?Ht; done.
Qed.

(** A trace none of whose revocations wraps an epoch. *)
Fixpoint no_wraps (s : sys) (ops : list cap_op) : Prop :=
  match ops with [] => True | op :: ops => no_wrap s op ∧ no_wraps (exec s op) ops end.

Lemma run_inv s ops :
  sys_inv s → Forall (op_ok (zlen (s_tables s))) ops → no_wraps s ops → sys_inv (run s ops).
Proof.
  revert s. induction ops as [|op ops IH]; intros s Hinv Hok Hnw; [done|].
  apply Forall_cons in Hok as [Hop Hops]. destruct Hnw as [Hn Hns]. simpl.
  apply IH; [by apply exec_inv|by rewrite exec_tables_len|done].
Qed.

Lemma run_epoch s ops o :
  sys_inv s → Forall (op_ok (zlen (s_tables s))) ops → no_wraps s ops →
  0 <= o < OBJECT_TABLE_SIZE → present (metas (s_ot s)).[o] = true →
  epoch_of (run s ops) o = epoch_of s o + count_revokes o ops.
Proof.
  revert s. induction ops as [|op ops IH]; intros s Hinv Hok Hnw Ho Hp.
  - unfold count_revokes. rewrite filter_nil. unfold zlen. simpl. lia.
  - apply Forall_cons in Hok as [Hop Hops]. destruct Hnw as [Hn Hns].
    pose proof (exec_meta s op o (proj1 Hinv) Hop Hn Ho Hp) as Hg.
    change (run s (op :: ops)) with (run (exec s op) ops).
    rewrite IH; [|by apply exec_inv|by rewrite exec_tables_len|done|done|by rewrite Hg].
    unfold epoch_of at 1. rewrite Hg. cbn [current_epoch]. unfold count_revokes, zlen.
    rewrite filter_cons. case_decide; simpl; lia.
Qed.


End traces.

(** ** Instances *)

Definition demo_sys : sys := mkSys demo_ot [demo_ct; CapTable_new].
Definition demo_child : CapEntry := mkCapEntry 0 1 0 Kind.Memory 9.
Definition demo_ops : list cap_op := [OpDelegate 0 1 0 1 9; OpSeal 1 0; OpRevoke 0].
Definition boot_ops : list cap_op :=
  [OpCreate Kind.Memory; OpMint 0 0 demo_rights 7; OpDelegate 0 1 0 1 9].

Lemma demo_sys_wf : sys_wf demo_sys.
Proof.
  split; [apply demo_ot_wf|]. split.
  - apply Forall_aset; [apply Forall_replicate|]; by vm_compute.
  - constructor; [apply demo_ct_wf|]. constructor; [apply CapTable_new_wf|constructor].
Qed.

Lemma demo_sys_holds d c e : holds demo_sys d c e → d = 0 ∧ c = 0 ∧ e = demo_entry.
Proof.
  intros (Hd & Hc & He). change (zlen (s_tables demo_sys)) with 2 in Hd.
  assert (d = 0 ∨ d = 1) as [-> | ->] by lia.
  - change (entry_at demo_ct c = Some e) in He. unfold demo_ct in He.
    rewrite entry_at_insert in He by (apply CapTable_new_wf || (vm_compute; done) || done).
    case_decide; [by simplify_eq|]. by rewrite entry_at_new in He.
  - change (entry_at CapTable_new c = Some e) in He. by rewrite entry_at_new in He.
Qed.

Lemma demo_sys_inv : sys_inv demo_sys.
Proof.
  split; [apply demo_sys_wf|]. intros d c e (-> & -> & ->)%demo_sys_holds. by vm_compute.
Qed.

Lemma confinement_witness :
  ∃ d c e, holds demo_sys d c e ∧ derives e demo_child ∧
    (d = 1 ∨ submask Rights.DELEGATE (rights e)).
Proof.
  apply (confinement (H := bitflags_u16) demo_sys demo_ops 1 0 demo_child).
  - exact demo_sys_wf.
  - repeat (apply Forall_cons; split; [by vm_compute|]); by apply Forall_nil.
  - repeat constructor.
  - split; [|split]; by vm_compute.
Defined.


