(* ===== verification/FrameSpec.v ===== *)
(** * What a physical frame allocator promises

    The kernel has two lowest-first allocators: the bitmap of
    [crates/frame-alloc] (the model the project checks on its own) and the range
    list of [kernel/src/memory.rs] (the one that runs). [FrameAllocOps] is their
    common interface, [FrameAllocLaws] its specification on the abstract state, a
    finite set of free frame numbers. The theorem about clients is proved once
    against the interface; [FrameAlloc] and [Memory] discharge the laws. *)

From S2P Require Import Prelude.

Class FrameAllocOps (S : Type) := {
  fa_inv : S → Prop;
  fa_set : S → gset Z;
  fa_frame : S → Z → Prop;
  fa_accepts : S → Z → Prop;
  fa_alloc : S → S * option Z;
  fa_free : S → Z → S;
  fa_count : S → Z;
}.

(** Lowest-first allocation on a set: the abstract specification. *)
Definition lowest (F : gset Z) (f : Z) : Prop := f ∈ F ∧ ∀ g, g ∈ F → f <= g.

Class FrameAllocLaws (S : Type) `{FrameAllocOps S} := {
  fa_alloc_spec s : fa_inv s →
    fa_inv (fa_alloc s).1 ∧
    match (fa_alloc s).2 with
    | Some f => lowest (fa_set s) f ∧ fa_set (fa_alloc s).1 = fa_set s ∖ {[f]}
    | None => fa_set s = ∅ ∧ fa_set (fa_alloc s).1 = ∅
    end;
  fa_free_spec s f : fa_inv s → fa_frame s f →
    fa_inv (fa_free s f) ∧
    (fa_accepts s f → fa_set (fa_free s f) = {[f]} ∪ fa_set s) ∧
    (¬ fa_accepts s f → fa_set (fa_free s f) = fa_set s);
  fa_frame_set s f : fa_inv s → f ∈ fa_set s → fa_frame s f;
  fa_frame_alloc s f : fa_frame s f → fa_frame (fa_alloc s).1 f;
  fa_frame_free s f g : fa_frame s f → fa_frame (fa_free s g) f;
  fa_count_spec s : fa_inv s → fa_count s = Z.of_nat (size (fa_set s));
}.

(** ** Clients

    A client allocates, and frees only frames it holds. *)

Inductive frame_op := FAlloc | FFree (f : Z).

Section client.
Context {S : Type} `{FrameAllocLaws S}.

Definition client_step (c : S * gset Z) (op : frame_op) : S * gset Z :=
  let '(s, owned) := c in
  match op with
  | FAlloc => match fa_alloc s with
              | (s', Some f) => (s', {[f]} ∪ owned)
              | (s', None) => (s', owned)
              end
  | FFree f => if decide (f ∈ owned) then (fa_free s f, owned ∖ {[f]}) else (s, owned)
  end.

Definition client_run (c : S * gset Z) (ops : list frame_op) : S * gset Z :=
  foldl client_step c ops.

(** Every free of the trace is accepted (the range list may drop one when its
    table is full). *)
Fixpoint all_accepted (c : S * gset Z) (ops : list frame_op) : Prop :=
  match ops with
  | [] => True
  | op :: ops =>
      match op with FFree f => fa_accepts c.1 f | FAlloc => True end ∧
      all_accepted (client_step c op) ops
  end.

Record client_inv (F0 : gset Z) (c : S * gset Z) : Prop := {
  ci_inv : fa_inv c.1;
  ci_disj : c.2 ## fa_set c.1;
  ci_sub : (c.2 ∪ fa_set c.1) ⊆ F0;
  ci_frame : ∀ f, f ∈ c.2 → fa_frame c.1 f;
}.

Lemma client_step_inv F0 c op : client_inv F0 c → client_inv F0 (client_step c op).
Proof.
  destruct c as [s owned]. intros [Hi Hd Hs Hf]. simpl in *. destruct op as [|f]; simpl.
  - pose proof (fa_alloc_spec s Hi) as [Hi' Hspec].
    destruct (fa_alloc s) as [s' [f|]] eqn:Ha; simpl in *.
    + destruct Hspec as [[Hin _] Heq]. split; simpl; [done|..].
      * rewrite Heq. set_solver.
      * rewrite Heq. set_solver.
      * intros g Hg. pose proof (fa_frame_alloc s g) as Hfa. rewrite Ha in Hfa. apply Hfa.
        apply elem_of_union in Hg as [->%elem_of_singleton|]; [by apply fa_frame_set|auto].
    + destruct Hspec as [Heq Heq']. split; simpl; [done|set_solver|set_solver|].
      intros g Hg. pose proof (fa_frame_alloc s g) as Hfa. rewrite Ha in Hfa. auto.
  - case_decide as Hin; [|by split].
    destruct (fa_free_spec s f Hi (Hf f Hin)) as (Hi' & Hacc & Hrej).
    assert (Hsub : fa_set (fa_free s f) ⊆ {[f]} ∪ fa_set s).
    { intros g Hg. destruct (decide (g = f)) as [->|Hgf]; [set_solver|].
      apply elem_of_union_r. destruct (decide (g ∈ fa_set s)); [done|].
      exfalso. assert (Hna : ¬ fa_accepts s f). { intros Ha. rewrite Hacc in Hg; set_solver. }
      rewrite Hrej in Hg; done. }
    split; simpl; [done|set_solver|set_solver|].
    intros g Hg. apply fa_frame_free, Hf. set_solver.
Qed.

Lemma client_run_inv F0 c ops : client_inv F0 c → client_inv F0 (client_run c ops).
Proof.
  revert c. induction ops as [|op ops IH]; intros c Hc; [done|].
  apply IH. by apply client_step_inv.
Qed.

Lemma client_step_total F0 c op :
  client_inv F0 c → match op with FFree f => fa_accepts c.1 f | FAlloc => True end →
  (client_step c op).2 ∪ fa_set (client_step c op).1 = c.2 ∪ fa_set c.1.
Proof.
  destruct c as [s owned]. intros [Hi Hd Hs Hf]. simpl in *. destruct op as [|f]; simpl.
  - intros _. pose proof (fa_alloc_spec s Hi) as [Hi' Hspec].
    destruct (fa_alloc s) as [s' [f|]] eqn:Ha; simpl in *.
    + destruct Hspec as [[Hin _] Heq]. rewrite Heq. apply set_eq. intros g.
      destruct (decide (g = f)); set_solver.
    + destruct Hspec as [Heq Heq']. by rewrite Heq, Heq'.
  - intros Ha. case_decide as Hin; [|done].
    destruct (fa_free_spec s f Hi (Hf f Hin)) as (_ & Hacc & _). simpl. rewrite (Hacc Ha).
    apply set_eq. intros g. destruct (decide (g = f)); set_solver.
Qed.

Lemma client_run_total F0 c ops :
  client_inv F0 c → all_accepted c ops →
  (client_run c ops).2 ∪ fa_set (client_run c ops).1 = c.2 ∪ fa_set c.1.
Proof.
  revert c. induction ops as [|op ops IH]; intros c Hc Hacc; [done|].
  destruct Hacc as [Ha Hacc]. simpl. change (foldl client_step (client_step c op) ops)
    with (client_run (client_step c op) ops).
  rewrite IH; [by apply (client_step_total F0)|by apply client_step_inv|done].
Qed.

(** The frames held by clients and the free frames partition the initial pool. *)
Lemma client_exclusive s ops :
  fa_inv s →
  let c := client_run (s, ∅) ops in
  c.2 ## fa_set c.1 ∧ (c.2 ∪ fa_set c.1) ⊆ fa_set s ∧
  (∀ f, (fa_alloc c.1).2 = Some f → (f ∉ c.2) ∧ lowest (fa_set c.1) f) ∧
  (all_accepted (s, ∅) ops →
     fa_count c.1 + Z.of_nat (size c.2) = fa_count s).
Proof.
  intros Hi c.
  assert (Hc0 : client_inv (fa_set s) (s, ∅)) by (split; simpl; [done|set_solver..]).
  pose proof (client_run_inv _ _ ops Hc0) as Hc. fold c in Hc. destruct Hc as [Hi' Hd Hs Hf].
  split; [done|]. split; [done|]. split.
  - intros f Hf'. destruct (fa_alloc_spec c.1 Hi') as [_ Hspec]. rewrite Hf' in Hspec.
    destruct Hspec as [Hl _]. split; [|done]. destruct Hl. set_solver.
  - intros Hacc. pose proof (client_run_total _ _ _ Hc0 Hacc) as Ht. fold c in Ht. simpl in Ht.
    rewrite !fa_count_spec by done. rewrite <- (left_id_L ∅ (∪) (fa_set s)), <- Ht.
    rewrite size_union by done. lia.
Qed.
End client.
