(* ===== verification/FrameAlloc.v ===== *)
(** * Bitmap frame allocator ([crates/frame-alloc/src/lib.rs])

    [BitmapFrameAllocator<FRAMES>] for every number of frames. [words] is the
    bitmap (1 = free); the operations are the methods of the source. They refine
    lowest-first allocation on the set of free frames. *)

From S2P Require Import Prelude FrameSpec.

(** [u64::trailing_zeros] and [u64::count_ones]. *)
Definition trailing_zeros (w : Z) : Z :=
  match position (Z.testbit w) (seqZ 0 64) with Some i => i | None => 64 end.
Definition count_ones (w : Z) : Z := zlen (filter (λ i, Z.testbit w i = true) (seqZ 0 64)).

Record BitmapFrameAllocator := mkBitmap { words : list Z }.

Section ops.
Context (FRAMES : Z).

Definition WORDS : Z := (FRAMES + 63) / 64.

(** [BitmapFrameAllocator::new]: every frame used. *)
Definition bitmap_new : BitmapFrameAllocator := mkBitmap (replicate (Z.to_nat WORDS) 0).

Definition mark_free (s : BitmapFrameAllocator) (frame : Z) : BitmapFrameAllocator :=
  if FRAMES <=? frame then s
  else
    let w := frame / 64 in
    let b := frame mod 64 in
    mkBitmap (words s).[w := Z.lor (words s).[w] (Z.shiftl 1 b)].

Definition mark_used (s : BitmapFrameAllocator) (frame : Z) : BitmapFrameAllocator :=
  if FRAMES <=? frame then s
  else
    let w := frame / 64 in
    let b := frame mod 64 in
    mkBitmap (words s).[w := Z.land (words s).[w] (lnotw 64 (Z.shiftl 1 b))].

(** The loop of [alloc] over [words.iter_mut().enumerate()], from word [wi] on;
    the stray-bit branch cleans the bit and goes on to the next word. *)
Fixpoint alloc_words (wi : Z) (ws : list Z) : list Z * option Z :=
  match ws with
  | [] => ([], None)
  | word :: rest =>
      if word =? 0 then
        let '(rest', r) := alloc_words (wi + 1) rest in (word :: rest', r)
      else
        let bi := trailing_zeros word in
        let frame := wi * 64 + bi in
        let word' := Z.land word (lnotw 64 (Z.shiftl 1 bi)) in
        if frame <? FRAMES then (word' :: rest, Some frame)
        else let '(rest', r) := alloc_words (wi + 1) rest in (word' :: rest', r)
  end.

Definition alloc (s : BitmapFrameAllocator) : BitmapFrameAllocator * option Z :=
  let '(ws, r) := alloc_words 0 (words s) in (mkBitmap ws, r).

Definition free (s : BitmapFrameAllocator) (frame : Z) : BitmapFrameAllocator :=
  mark_free s frame.

Definition is_free (s : BitmapFrameAllocator) (frame : Z) : bool :=
  if FRAMES <=? frame then false
  else
    let w := frame / 64 in
    let b := frame mod 64 in
    negb (Z.land (words s).[w] (Z.shiftl 1 b) =? 0).

Definition free_count (s : BitmapFrameAllocator) : Z :=
  foldl (λ cnt w, cnt + count_ones w) 0 (words s).
End ops.

(** ** Words as bit vectors *)

Lemma shiftl_1_testbit b i : 0 <= b → Z.testbit (Z.shiftl 1 b) i = bool_decide (i = b).
Proof.
  intros Hb. rewrite Z.shiftl_1_l. destruct (decide (i < 0)).
  - rewrite Z.testbit_neg_r by lia. symmetry. apply bool_decide_eq_false. lia.
  - destruct (decide (i = b)) as [->|].
    + rewrite Z.pow2_bits_true by lia. symmetry. by apply bool_decide_eq_true.
    + rewrite Z.pow2_bits_false by lia. symmetry. by apply bool_decide_eq_false.
Qed.

Lemma clear_bit_testbit w b i :
  0 <= b → 0 <= i < 64 →
  Z.testbit (Z.land w (lnotw 64 (Z.shiftl 1 b))) i =
  Z.testbit w i && negb (bool_decide (i = b)).
Proof.
  intros Hb Hi. unfold lnotw. rewrite Z.land_spec, Z.lxor_spec, shiftl_1_testbit by done.
  rewrite Z.ones_spec_low by lia. by rewrite xorb_true_r.
Qed.

Lemma set_bit_testbit w b i :
  0 <= b → Z.testbit (Z.lor w (Z.shiftl 1 b)) i = Z.testbit w i || bool_decide (i = b).
Proof. intros Hb. by rewrite Z.lor_spec, shiftl_1_testbit. Qed.

Lemma test_bit_spec w b :
  0 <= b → negb (Z.land w (Z.shiftl 1 b) =? 0) = Z.testbit w b.
Proof.
  intros Hb. destruct (Z.testbit w b) eqn:Hw.
  - apply negb_true_iff, Z.eqb_neq. intros Heq.
    assert (Hb' : Z.testbit (Z.land w (Z.shiftl 1 b)) b = false) by by rewrite Heq, Z.bits_0.
    rewrite Z.land_spec, shiftl_1_testbit, Hw, bool_decide_eq_true_2 in Hb' by done. done.
  - apply negb_false_iff, Z.eqb_eq, Z.bits_inj'. intros i Hi.
    rewrite Z.land_spec, shiftl_1_testbit, Z.bits_0 by done.
    case_bool_decide; subst; rewrite ?Hw, ?andb_false_r; done.
Qed.

Lemma fits64_zero w : fits 64 w → (∀ i, 0 <= i < 64 → Z.testbit w i = false) → w = 0.
Proof.
  intros Hw Hb. apply Z.bits_inj'. intros i Hi. rewrite Z.bits_0.
  destruct (decide (i < 64)); [apply Hb; lia|]. apply (fits_testbit 64); [done|lia].
Qed.

Lemma seqZ_aget m n i : 0 <= i < n → (seqZ m n).[i] = m + i.
Proof. intros Hi. apply aget_lookup, lookup_seqZ. lia. Qed.

Lemma seqZ_zlen m n : 0 <= n → zlen (seqZ m n) = n.
Proof. intros. unfold zlen. rewrite length_seqZ. lia. Qed.

(** [trailing_zeros] of a non-zero word is its lowest set bit. *)
Lemma trailing_zeros_spec w :
  fits 64 w → w ≠ 0 →
  0 <= trailing_zeros w < 64 ∧ Z.testbit w (trailing_zeros w) = true ∧
  ∀ j, 0 <= j < trailing_zeros w → Z.testbit w j = false.
Proof.
  intros Hw Hnz. unfold trailing_zeros.
  destruct (position (Z.testbit w) (seqZ 0 64)) as [i|] eqn:Hp.
  - apply position_Some in Hp as (Hi & Hb & Hlt). rewrite seqZ_zlen in Hi by lia.
    rewrite seqZ_aget in Hb by lia. split; [done|]. split; [done|].
    intros j Hj. specialize (Hlt j Hj). by rewrite seqZ_aget in Hlt by lia.
  - exfalso. apply Hnz. apply fits64_zero; [done|]. intros i Hi.
    apply position_None in Hp. rewrite Forall_forall in Hp. apply Hp, elem_of_seqZ. lia.
Qed.

(** Bit [i] of the bitmap. *)
Definition bit (ws : list Z) (i : Z) : bool := Z.testbit ws.[i / 64] (i mod 64).

Lemma bit_cons w ws i :
  0 <= i → bit (w :: ws) i = if i <? 64 then Z.testbit w i else bit ws (i - 64).
Proof.
  intros Hi. unfold bit, aget. destruct (Z.ltb_spec i 64).
  - by rewrite Z.div_small, Z.mod_small by lia.
  - replace i with (i - 64 + 1 * 64) at 1 2 by lia. rewrite Z.div_add, Z.mod_add by lia.
    assert (0 <= (i - 64) / 64) by (apply Z.div_pos; lia).
    by replace (Z.to_nat ((i - 64) / 64 + 1)) with (S (Z.to_nat ((i - 64) / 64))) by lia.
Qed.

Section proofs.
Context (FRAMES : Z).
Implicit Types s : BitmapFrameAllocator.

(** [words] has its length, its words are [u64]s and the bits past [FRAMES] are 0. *)
Definition bitmap_inv s : Prop :=
  zlen (words s) = WORDS FRAMES ∧ Forall (fits 64) (words s) ∧
  ∀ i, FRAMES <= i < 64 * WORDS FRAMES → bit (words s) i = false.

Definition bitmap_set s : gset Z :=
  list_to_set (filter (λ f, bit (words s) f = true) (seqZ 0 FRAMES)).

Lemma elem_of_bitmap_set s f :
  f ∈ bitmap_set s ↔ 0 <= f < FRAMES ∧ bit (words s) f = true.
Proof.
  unfold bitmap_set. rewrite elem_of_list_to_set, list_elem_of_filter, elem_of_seqZ.
  intuition lia.
Qed.

(** Membership in the abstract set is what [is_free] answers. *)
Lemma is_free_spec s f : 0 <= f → is_free FRAMES s f = bool_decide (f ∈ bitmap_set s).
Proof.
  intros Hf. unfold is_free. symmetry. destruct (Z.leb_spec FRAMES f).
  - apply bool_decide_eq_false. rewrite elem_of_bitmap_set. lia.
  - rewrite test_bit_spec by (apply Z.mod_pos_bound; lia). fold (bit (words s) f).
    destruct (bit (words s) f) eqn:Hb.
    + apply bool_decide_eq_true. by apply elem_of_bitmap_set.
    + apply bool_decide_eq_false. rewrite elem_of_bitmap_set, Hb. naive_solver.
Qed.

Lemma frame_word f : 0 <= f < FRAMES → 0 <= f / 64 < WORDS FRAMES.
Proof. intros Hf. unfold WORDS. Z.div_mod_to_equations. lia. Qed.

(** Bit [g] of the bitmap after word [f / 64] has been replaced. *)
Lemma bit_aset ws f g w :
  0 <= f / 64 < zlen ws → 0 <= g →
  bit ws.[f / 64 := w] g = if f / 64 =? g / 64 then Z.testbit w (g mod 64) else bit ws g.
Proof.
  intros Hf Hg. unfold bit. assert (0 <= g / 64) by (apply Z.div_pos; lia).
  rewrite aget_aset by done. case_decide as Hd.
  - by rewrite (proj2 (Z.eqb_eq _ _) Hd).
  - by rewrite (proj2 (Z.eqb_neq _ _) Hd).
Qed.

Lemma same_word_bit f g : f / 64 = g / 64 → bool_decide (g mod 64 = f mod 64) = bool_decide (g = f).
Proof. intros. apply bool_decide_ext. Z.div_mod_to_equations. lia. Qed.

Lemma mark_free_bit s f g :
  bitmap_inv s → 0 <= f < FRAMES → 0 <= g →
  bit (words (mark_free FRAMES s f)) g = bit (words s) g || bool_decide (g = f).
Proof.
  intros (Hlen & _ & _) Hf Hg. unfold mark_free. destruct (Z.leb_spec FRAMES f); [lia|]. simpl.
  rewrite bit_aset by (rewrite ?Hlen; auto using frame_word).
  destruct (Z.eqb_spec (f / 64) (g / 64)) as [Heq|Hne].
  - rewrite set_bit_testbit, Heq, same_word_bit by (done || apply Z.mod_pos_bound; lia). done.
  - rewrite bool_decide_eq_false_2, orb_false_r by congruence. done.
Qed.

Lemma mark_used_bit s f g :
  bitmap_inv s → 0 <= f < FRAMES → 0 <= g →
  bit (words (mark_used FRAMES s f)) g = bit (words s) g && negb (bool_decide (g = f)).
Proof.
  intros (Hlen & _ & _) Hf Hg. unfold mark_used. destruct (Z.leb_spec FRAMES f); [lia|]. simpl.
  rewrite bit_aset by (rewrite ?Hlen; auto using frame_word).
  destruct (Z.eqb_spec (f / 64) (g / 64)) as [Heq|Hne].
  - rewrite clear_bit_testbit, Heq, same_word_bit by (done || apply Z.mod_pos_bound; lia). done.
  - rewrite bool_decide_eq_false_2, andb_true_r by congruence. done.
Qed.

Lemma fits_shiftl_1 b : 0 <= b < 64 → fits 64 (Z.shiftl 1 b).
Proof.
  intros Hb. rewrite Z.shiftl_1_l. split; [apply Z.pow_nonneg; lia|].
  apply Z.pow_lt_mono_r; lia.
Qed.

Lemma mark_free_inv s f : 0 <= f → bitmap_inv s → bitmap_inv (mark_free FRAMES s f).
Proof.
  intros H0 Hinv. destruct (decide (FRAMES <= f)).
  { unfold mark_free. by destruct (Z.leb_spec FRAMES f); [|lia]. }
  pose proof Hinv as (Hlen & HF & Hhi). split; [|split].
  - unfold mark_free. destruct (Z.leb_spec FRAMES f); [lia|]. simpl. by rewrite zlen_aset.
  - unfold mark_free. destruct (Z.leb_spec FRAMES f); [lia|]. simpl.
    apply Forall_aset; [done|]. apply fits_lor; [|apply fits_shiftl_1, Z.mod_pos_bound; lia|lia].
    apply Forall_aget; [done|]. rewrite Hlen. apply frame_word. lia.
  - intros i Hi. rewrite mark_free_bit by (done || lia). rewrite Hhi by done.
    rewrite bool_decide_eq_false_2 by lia. done.
Qed.

Lemma mark_used_inv s f : 0 <= f → bitmap_inv s → bitmap_inv (mark_used FRAMES s f).
Proof.
  intros H0 Hinv. destruct (decide (FRAMES <= f)).
  { unfold mark_used. by destruct (Z.leb_spec FRAMES f); [|lia]. }
  pose proof Hinv as (Hlen & HF & Hhi). split; [|split].
  - unfold mark_used. destruct (Z.leb_spec FRAMES f); [lia|]. simpl. by rewrite zlen_aset.
  - unfold mark_used. destruct (Z.leb_spec FRAMES f); [lia|]. simpl.
    apply Forall_aset; [done|]. apply fits_land; [|lia].
    apply Forall_aget; [done|]. rewrite Hlen. apply frame_word. lia.
  - intros i Hi. rewrite mark_used_bit by (done || lia). by rewrite Hhi.
Qed.

Lemma mark_free_set s f :
  bitmap_inv s → 0 <= f < FRAMES → bitmap_set (mark_free FRAMES s f) = {[f]} ∪ bitmap_set s.
Proof.
  intros Hinv Hf. apply set_eq. intros g.
  rewrite elem_of_union, elem_of_singleton, !elem_of_bitmap_set.
  destruct (decide (0 <= g)); [|intuition lia]. rewrite mark_free_bit by (done || lia).
  rewrite orb_true_iff, bool_decide_eq_true. intuition (subst; lia).
Qed.

Lemma mark_used_set s f :
  bitmap_inv s → 0 <= f < FRAMES → bitmap_set (mark_used FRAMES s f) = bitmap_set s ∖ {[f]}.
Proof.
  intros Hinv Hf. apply set_eq. intros g.
  rewrite elem_of_difference, elem_of_singleton, !elem_of_bitmap_set.
  destruct (decide (0 <= g)); [|intuition lia]. rewrite mark_used_bit by (done || lia).
  rewrite andb_true_iff, negb_true_iff, bool_decide_eq_false. intuition.
Qed.

(** ** The scan of [alloc] *)

Lemma alloc_words_spec wi ws ws' r :
  0 <= wi → Forall (fits 64) ws →
  (∀ i, 0 <= i < 64 * zlen ws → bit ws i = true → wi * 64 + i < FRAMES) →
  alloc_words FRAMES wi ws = (ws', r) →
  match r with
  | None => ws' = ws ∧ ∀ i, 0 <= i < 64 * zlen ws → bit ws i = false
  | Some f =>
      ∃ i, f = wi * 64 + i ∧ 0 <= i < 64 * zlen ws ∧ bit ws i = true ∧
        (∀ j, 0 <= j < i → bit ws j = false) ∧
        ws' = ws.[i / 64 := Z.land ws.[i / 64] (lnotw 64 (Z.shiftl 1 (i mod 64)))]
  end.
Proof.
  revert wi ws' r. induction ws as [|w ws IH]; intros wi ws' r Hwi HF Hlow Ha.
  { simplify_eq/=. split; [done|]. unfold zlen. simpl. lia. }
  apply Forall_cons in HF as [Hw HF]. simpl in Ha.
  assert (Hlen : zlen (w :: ws) = 1 + zlen ws) by (unfold zlen; simpl; lia).
  pose proof (zlen_nonneg ws). rewrite Hlen in *.
  destruct (Z.eqb_spec w 0) as [->|Hnz].
  - destruct (alloc_words FRAMES (wi + 1) ws) as [rest' r'] eqn:Hrec. simplify_eq.
    assert (Hlow' : ∀ i, 0 <= i < 64 * zlen ws → bit ws i = true → (wi + 1) * 64 + i < FRAMES).
    { intros i Hi Hb. assert (wi * 64 + (i + 64) < FRAMES); [|lia]. apply Hlow; [lia|].
      rewrite bit_cons by lia. destruct (Z.ltb_spec (i + 64) 64); [lia|].
      by replace (i + 64 - 64) with i by lia. }
    specialize (IH (wi + 1) rest' r ltac:(lia) HF Hlow' Hrec). destruct r as [f|].
    + destruct IH as (i & -> & Hi & Hb & Hlt & ->). exists (i + 64).
      split; [lia|]. split; [lia|]. split; [|split].
      * rewrite bit_cons by lia. destruct (Z.ltb_spec (i + 64) 64); [lia|].
        by replace (i + 64 - 64) with i by lia.
      * intros j Hj. rewrite bit_cons by lia.
        destruct (Z.ltb_spec j 64); [by rewrite Z.bits_0|apply Hlt; lia].
      * replace (i + 64) with (i + 1 * 64) by lia. rewrite Z.div_add, Z.mod_add by lia.
        assert (0 <= i / 64) by (apply Z.div_pos; lia). unfold aset, aget.
        by replace (Z.to_nat (i / 64 + 1)) with (S (Z.to_nat (i / 64))) by lia.
    + destruct IH as [-> IH]. split; [done|]. intros i Hi. rewrite bit_cons by lia.
      destruct (Z.ltb_spec i 64); [by rewrite Z.bits_0|apply IH; lia].
  - destruct (trailing_zeros_spec w Hw Hnz) as (Hr & Hb & Hlt).
    assert (Hbit : bit (w :: ws) (trailing_zeros w) = true).
    { rewrite bit_cons by lia. by destruct (Z.ltb_spec (trailing_zeros w) 64); [|lia]. }
    pose proof (Hlow (trailing_zeros w) ltac:(lia) Hbit) as Hfr.
    destruct (Z.ltb_spec (wi * 64 + trailing_zeros w) FRAMES); [|lia]. simplify_eq.
    exists (trailing_zeros w). split; [done|]. split; [lia|]. split; [done|]. split.
    + intros j Hj. rewrite bit_cons by lia. destruct (Z.ltb_spec j 64); [by apply Hlt|lia].
    + by rewrite Z.div_small, Z.mod_small by lia.
Qed.

Lemma bit_in_range s i :
  bitmap_inv s → 0 <= i < 64 * zlen (words s) → bit (words s) i = true → i < FRAMES.
Proof.
  intros (Hlen & _ & Hhi) Hi Hb. destruct (decide (i < FRAMES)); [done|].
  rewrite Hhi in Hb by (rewrite <- Hlen; lia). done.
Qed.

Lemma frames_covered f : 0 <= f < FRAMES → f < 64 * WORDS FRAMES.
Proof. intros. unfold WORDS. Z.div_mod_to_equations. lia. Qed.

(** [alloc] marks the lowest free frame used. *)
Lemma alloc_lowest s :
  bitmap_inv s →
  match alloc FRAMES s with
  | (s', Some f) => lowest (bitmap_set s) f ∧ 0 <= f < FRAMES ∧ s' = mark_used FRAMES s f
  | (s', None) => bitmap_set s = ∅ ∧ s' = s
  end.
Proof.
  intros Hinv. unfold alloc. destruct (alloc_words FRAMES 0 (words s)) as [ws' r] eqn:Ha.
  pose proof Hinv as (Hlen & HF & _). apply alloc_words_spec in Ha; [|lia|done|].
  2:{ intros i Hi Hb. by apply (bit_in_range s). }
  destruct r as [f|].
  - destruct Ha as (i & -> & Hi & Hb & Hlt & ->). rewrite Z.mul_0_l, Z.add_0_l.
    pose proof (bit_in_range s i Hinv Hi Hb) as Hif. split; [|split; [lia|]].
    + split; [apply elem_of_bitmap_set; split; [lia|done]|]. intros g (Hg & Hgb)%elem_of_bitmap_set.
      destruct (decide (i <= g)); [done|]. rewrite Hlt in Hgb by lia. done.
    + unfold mark_used. by destruct (Z.leb_spec FRAMES i); [lia|].
  - destruct Ha as [-> Hall]. split; [|by destruct s].
    apply set_eq. intros g. rewrite elem_of_bitmap_set. split; [|set_solver].
    intros [Hg Hb]. rewrite Hall in Hb; [done|]. rewrite Hlen. split; [lia|].
    by apply frames_covered.
Qed.

(** ** The population count *)

Lemma filter_seqZ_shift (p : Z → bool) m n k :
  zlen (filter (λ i, p (i - k) = true) (seqZ (m + k) n)) = zlen (filter (λ i, p i = true) (seqZ m n)).
Proof.
  unfold zlen. f_equal. rewrite (Z.add_comm m k), <- (fmap_add_seqZ k m n).
  induction (seqZ m n) as [|x l IH]; [done|]. rewrite fmap_cons, !filter_cons.
  replace (k + x - k) with x by lia. case_decide; simpl; by rewrite IH.
Qed.

Lemma count_ones_bits ws :
  zlen (filter (λ i, bit ws i = true) (seqZ 0 (64 * zlen ws))) =
  foldl (λ cnt w, cnt + count_ones w) 0 ws.
Proof.
  assert (Hgen : ∀ c, foldl (λ cnt w, cnt + count_ones w) c ws =
    c + zlen (filter (λ i, bit ws i = true) (seqZ 0 (64 * zlen ws)))).
  { induction ws as [|w ws IH]; intros c.
    - change (64 * zlen []) with 0. cbn [foldl]. change (zlen (filter _ _)) with 0. lia.
    - cbn [foldl]. rewrite IH. pose proof (zlen_nonneg ws).
      replace (64 * zlen (w :: ws)) with (64 + 64 * zlen ws) by (unfold zlen; cbn [length]; lia).
      rewrite seqZ_app by lia. rewrite filter_app. unfold zlen at 3. rewrite length_app.
      rewrite (filter_ext_in _ (λ i, Z.testbit w i = true) (seqZ 0 64)).
      2:{ intros i Hi%elem_of_seqZ. rewrite bit_cons by lia.
          by destruct (Z.ltb_spec i 64); [|lia]. }
      rewrite (filter_ext_in _ (λ i, bit ws (i - 64) = true) (seqZ (0 + 64) _)).
      2:{ intros i Hi%elem_of_seqZ. rewrite bit_cons by lia.
          by destruct (Z.ltb_spec i 64); [lia|]. }
      pose proof (filter_seqZ_shift (bit ws) 0 (64 * zlen ws) 64) as Hsh.
      unfold zlen in Hsh at 1. unfold count_ones, zlen at 1. lia. }
  rewrite Hgen. lia.
Qed.

Lemma free_count_set s :
  0 <= FRAMES → bitmap_inv s → free_count s = Z.of_nat (size (bitmap_set s)).
Proof.
  intros HF0 (Hlen & HF & Hhi). unfold free_count. rewrite <- count_ones_bits, Hlen.
  unfold bitmap_set. rewrite size_list_to_set by apply NoDup_filter, NoDup_seqZ.
  assert (Hle : FRAMES <= 64 * WORDS FRAMES) by (unfold WORDS; Z.div_mod_to_equations; lia).
  replace (64 * WORDS FRAMES) with (FRAMES + (64 * WORDS FRAMES - FRAMES)) by lia.
  rewrite seqZ_app, filter_app by lia. unfold zlen. rewrite length_app.
  replace (filter _ (seqZ (0 + FRAMES) _)) with (@nil Z); [simpl; lia|].
  symmetry. apply filter_none_in. intros i Hi%elem_of_seqZ. rewrite Hhi by lia. done.
Qed.

Lemma bitmap_new_inv : 0 <= FRAMES → bitmap_inv (bitmap_new FRAMES).
Proof.
  intros HF0. unfold bitmap_new. assert (0 <= WORDS FRAMES) by (apply Z.div_pos; lia).
  split; [simpl; rewrite zlen_replicate; lia|]. split.
  - apply Forall_replicate. unfold fits. lia.
  - intros i Hi. unfold bit. cbn [words].
    rewrite aget_replicate; [by rewrite Z.bits_0|].
    rewrite Z2Nat.id by done. split; [apply Z.div_pos; lia|apply Z.div_lt_upper_bound; lia].
Qed.

Lemma bitmap_new_set : 0 <= FRAMES → bitmap_set (bitmap_new FRAMES) = ∅.
Proof.
  intros HF0. apply set_eq. intros f. rewrite elem_of_bitmap_set. split; [|set_solver].
  intros [Hf Hb]. pose proof (frame_word f Hf). unfold bit, bitmap_new in Hb. cbn [words] in Hb.
  rewrite aget_replicate, Z.bits_0 in Hb; [done|]. lia.
Qed.
End proofs.

(** ** The interface *)

Section interface.
Context (FRAMES : Z) (HF0 : 0 <= FRAMES).

#[local] Instance bitmap_ops : FrameAllocOps BitmapFrameAllocator := {
  fa_inv := bitmap_inv FRAMES;
  fa_set := bitmap_set FRAMES;
  fa_frame _ f := 0 <= f;
  fa_accepts _ f := f < FRAMES;
  fa_alloc := alloc FRAMES;
  fa_free := free FRAMES;
  fa_count := free_count;
}.

Lemma bitmap_alloc_law s :
  bitmap_inv FRAMES s →
  bitmap_inv FRAMES (alloc FRAMES s).1 ∧
  match (alloc FRAMES s).2 with
  | Some f => lowest (bitmap_set FRAMES s) f ∧
              bitmap_set FRAMES (alloc FRAMES s).1 = bitmap_set FRAMES s ∖ {[f]}
  | None => bitmap_set FRAMES s = ∅ ∧ bitmap_set FRAMES (alloc FRAMES s).1 = ∅
  end.
Proof.
  intros Hinv. pose proof (alloc_lowest FRAMES s Hinv) as Ha.
  destruct (alloc FRAMES s) as [s' [f|]]; simpl.
  - destruct Ha as (Hl & Hf & ->). split; [apply mark_used_inv; [lia|done]|].
    split; [done|]. by apply mark_used_set.
  - by destruct Ha as [He ->].
Qed.

Lemma bitmap_free_law s f :
  bitmap_inv FRAMES s → 0 <= f →
  bitmap_inv FRAMES (free FRAMES s f) ∧
  bitmap_set FRAMES (free FRAMES s f) =
    if decide (f < FRAMES) then {[f]} ∪ bitmap_set FRAMES s else bitmap_set FRAMES s.
Proof.
  intros Hinv Hf. split; [by apply mark_free_inv|]. case_decide; [by apply mark_free_set|].
  unfold free, mark_free. by destruct (Z.leb_spec FRAMES f); [|lia].
Qed.

#[local] Instance bitmap_laws : FrameAllocLaws BitmapFrameAllocator.
Proof.
  split; simpl.
  - apply bitmap_alloc_law.
  - intros s f Hinv Hf. destruct (bitmap_free_law s f Hinv Hf) as [Hi Hs].
    split; [done|]. rewrite Hs. split; intros ?; [by rewrite decide_True|by rewrite decide_False].
  - intros s f _ Hf%elem_of_bitmap_set. lia.
  - done.
  - done.
  - intros s Hinv. by apply free_count_set.
Qed.

(** The bitmap allocator refines lowest-first allocation on a set of frames. [alloc]
    returns the least free frame and removes exactly it, answering [None] exactly
    when nothing is free; [free] and [mark_used] add and remove exactly the given
    frame and ignore frames out of range; [is_free] is membership; [free_count] is
    the size of the set; and every operation keeps the bits past [FRAMES] clear. *)
Theorem bitmap_refines (s : BitmapFrameAllocator) (f : Z) :
  bitmap_inv FRAMES s → 0 <= f →
  (bitmap_inv FRAMES (alloc FRAMES s).1 ∧
   match (alloc FRAMES s).2 with
   | Some g => lowest (bitmap_set FRAMES s) g ∧
               bitmap_set FRAMES (alloc FRAMES s).1 = bitmap_set FRAMES s ∖ {[g]}
   | None => bitmap_set FRAMES s = ∅ ∧ bitmap_set FRAMES (alloc FRAMES s).1 = ∅
   end) ∧
  (bitmap_inv FRAMES (free FRAMES s f) ∧
   bitmap_set FRAMES (free FRAMES s f) =
     if decide (f < FRAMES) then {[f]} ∪ bitmap_set FRAMES s else bitmap_set FRAMES s) ∧
  (bitmap_inv FRAMES (mark_used FRAMES s f) ∧
   bitmap_set FRAMES (mark_used FRAMES s f) = bitmap_set FRAMES s ∖ {[f]}) ∧
  is_free FRAMES s f = bool_decide (f ∈ bitmap_set FRAMES s) ∧
  free_count s = Z.of_nat (size (bitmap_set FRAMES s)).
Proof.
  intros Hinv Hf. split; [by apply bitmap_alloc_law|]. split; [by apply bitmap_free_law|].
  split; [|split; [by apply is_free_spec|by apply free_count_set]].
  split; [by apply mark_used_inv|]. destruct (decide (f < FRAMES)); [by apply mark_used_set|].
  unfold mark_used. destruct (Z.leb_spec FRAMES f); [|lia]. apply set_eq. intros g.
  rewrite elem_of_difference, elem_of_singleton, elem_of_bitmap_set. intuition lia.
Qed.

(** No frame is ever handed out twice. Over any sequence of allocations and of
    frees of held frames, the frames held and the frames free stay disjoint and
    within the initial pool, an allocation never returns a held frame, and the
    population count plus the frames held is constant. *)
Theorem bitmap_exclusive (s : BitmapFrameAllocator) (ops : list frame_op) :
  bitmap_inv FRAMES s →
  let c := client_run (s, ∅) ops in
  c.2 ## bitmap_set FRAMES c.1 ∧ (c.2 ∪ bitmap_set FRAMES c.1) ⊆ bitmap_set FRAMES s ∧
  (∀ f, (alloc FRAMES c.1).2 = Some f → (f ∉ c.2) ∧ lowest (bitmap_set FRAMES c.1) f) ∧
  (all_accepted (s, ∅) ops → free_count c.1 + Z.of_nat (size c.2) = free_count s).
Proof. exact (client_exclusive (H0 := bitmap_laws) s ops). Qed.
End interface.

(** ** Instances *)

Definition demo_bitmap : BitmapFrameAllocator :=
  mark_free 70 (mark_free 70 (mark_free 70 (bitmap_new 70) 69) 3) 64.

Lemma demo_bitmap_inv : bitmap_inv 70 demo_bitmap.
Proof. repeat (apply mark_free_inv; [lia|]). apply bitmap_new_inv. lia. Qed.

Lemma bitmap_refines_witness :
  (alloc 70 demo_bitmap).2 = Some 3 ∧ lowest (bitmap_set 70 demo_bitmap) 3 ∧
  free_count demo_bitmap = 3 ∧ Z.of_nat (size (bitmap_set 70 demo_bitmap)) = 3.
Proof.
  destruct (bitmap_refines 70 ltac:(lia) demo_bitmap 5 demo_bitmap_inv ltac:(lia))
    as ([_ Ha] & _ & _ & _ & Hc).
  assert (E : (alloc 70 demo_bitmap).2 = Some 3) by reflexivity.
  assert (Ec : free_count demo_bitmap = 3) by reflexivity.
  rewrite E in Ha. rewrite Ec in Hc. split; [done|]. split; [apply Ha|]. split; [done|].
  symmetry. exact Hc.
Defined.

Lemma bitmap_exclusive_witness :
  let c := client_run (H := bitmap_ops 70) (demo_bitmap, ∅) [FAlloc; FAlloc; FFree 3; FAlloc] in
  (alloc 70 c.1).2 = Some 69 ∧ (69 ∉ c.2).
Proof.
  pose proof (bitmap_exclusive 70 ltac:(lia) demo_bitmap [FAlloc; FAlloc; FFree 3; FAlloc]
    demo_bitmap_inv) as (_ & _ & Hf & _).
  split; [reflexivity|]. apply (Hf 69). reflexivity.
Defined.
