(* ===== verification/Kani.v ===== *)
(** * The proof harnesses ([verification.rs] of cap-core and frame-alloc)

    The repository checks its two crates with bounded model checking: each harness draws
    arbitrary values, runs operations and asserts. A harness is here a Boolean function of
    the values it draws, [true] when every assertion it reaches holds; an early [return]
    or a violated assumption is [true], a failed [expect] is [false]. Each is proved for
    every value; the allocator's, which the tool runs for 8 frames, for every number of
    frames. The exhaustion loop of [alloc_bounds_only] runs with fuel, and is proved to
    need at most one round per frame. *)

From S2P Require Import Prelude Capability CapTable FrameSpec FrameAlloc.

(** ** cap-core *)

Section cap_core.
Context `{Bitflags}.

Definition check_i4_invoke_requires_right (bits_with bits_without : Z) : bool :=
  match create_object ObjectTable_new Kind.Endpoint with
  | (_, None) => true
  | (ot, Some oid) =>
      let r_with := rights_union (from_bits_truncate bits_with) Rights.INVOKE in
      let r_without := rights_remove (from_bits_truncate bits_without) Rights.INVOKE in
      match mint CapTable_new ot oid r_with 0x1234 with
      | (_, Err _) => true
      | (ct, Ok cptr_with) =>
          match mint ct ot oid r_without 0x5678 with
          | (_, Err _) => true
          | (ct, Ok cptr_without) =>
              bool_decide (invoke ct ot cptr_with 42 Rights.INVOKE = StOk) &&
              bool_decide (invoke ct ot cptr_without 42 Rights.INVOKE = ErrRights)
          end
      end
  end.

Definition check_i2_revocation_completeness (rbits method req_bits : Z) : bool :=
  match create_object ObjectTable_new Kind.Memory with
  | (_, None) => true
  | (ot, Some oid) =>
      match mint CapTable_new ot oid (from_bits_truncate rbits) 99 with
      | (_, Err _) => true
      | (ct, Ok cptr) =>
          let pre := current_epoch (metas ot).[oid] in
          let ot := (revoke ot oid).1 in
          bool_decide (invoke ct ot cptr method (from_bits_truncate req_bits) = ErrRevoked) &&
          negb (current_epoch (metas ot).[oid] =? pre)
      end
  end.

Definition check_i3_no_rights_amplification (pbits mask_bits bdg p2 m2 : Z) : bool :=
  match create_object ObjectTable_new Kind.Endpoint with
  | (_, None) => true
  | (ot, Some oid) =>
      let parent_rights := rights_union (from_bits_truncate pbits) Rights.DELEGATE in
      match mint CapTable_new ot oid parent_rights 7 with
      | (_, Err _) => true
      | (src, Ok src_cptr) =>
          match delegate src ot src_cptr (from_bits_truncate mask_bits) bdg CapTable_new with
          | (dst, Ok dst_cptr) =>
              match lookup dst dst_cptr ot with
              | Ok child => Z.land (rights child) parent_rights =? rights child
              | Err _ => true
              end
          | (_, Err _) => true
          end &&
          (let parent2 := from_bits_truncate p2 in
           let child2 := rights_inter parent2 (from_bits_truncate m2) in
           Z.land child2 parent2 =? child2)
      end
  end.

Definition check_encode_decode_roundtrip (oid rbits ep tag_raw bdg : Z) : bool :=
  if oid <? Z.shiftl 1 48 then
    let cap := mkCapEntry oid (from_bits_truncate rbits) ep (from_raw tag_raw) bdg in
    let enc := encode cap in
    let dec := decode enc in
    bool_decide (cap = dec) && (enc =? encode dec)
  else true.
End cap_core.

(** ** frame-alloc *)

Section frame_alloc.
Context (N : Z).

Definition no_double_allocation (f : Z) : bool :=
  if f <? N then
    let a := mark_free N (bitmap_new N) f in
    match alloc N a with
    | (_, None) => false
    | (a, Some f1) =>
        (f1 <? N) && negb (is_free N a f1) &&
        match (alloc N a).2 with Some f2 => negb (f1 =? f2) | None => true end
    end
  else true.

Definition distinct_allocs_no_intervening_free (f1 f2 : Z) : bool :=
  if (f1 <? N) && (f2 <? N) && negb (f1 =? f2) then
    let a := mark_free N (mark_free N (bitmap_new N) f1) f2 in
    match alloc N a with
    | (_, None) => false
    | (a, Some r1) =>
        match alloc N a with
        | (_, None) => false
        | (a, Some r2) => negb (r1 =? r2) && negb (is_free N a r1) && negb (is_free N a r2)
        end
    end
  else true.

Definition free_roundtrip_and_is_free (f : Z) : bool :=
  if f <? N then
    let a := mark_free N (bitmap_new N) f in
    is_free N a f &&
    let '(a, got) := alloc N a in
    bool_decide (got = Some f) && is_free N (free N a f) f
  else true.

(** [while let Some(f) = alloc.alloc() { assert!(f < N) }]; [None] when out of fuel. *)
Fixpoint exhaust (fuel : nat) (a : BitmapFrameAllocator) : option bool :=
  match fuel with
  | O => None
  | S fuel =>
      match alloc N a with
      | (_, None) => Some true
      | (a, Some f) => if f <? N then exhaust fuel a else Some false
      end
  end.

Definition alloc_bounds_only (fuel : nat) (fs : list Z) : option bool :=
  let a := foldl (λ a f, if f <? N then mark_free N a f else a) (bitmap_new N) fs in
  let a := mark_used N (mark_free N (mark_free N a N) (N + 99)) (N + 1) in
  let '(a, r) := alloc N a in
  match r with
  | Some f => if f <? N then exhaust fuel a else Some false
  | None => exhaust fuel a
  end.
End frame_alloc.

(** ** The capability harnesses hold *)

Section cap_core_proofs.
Context `{Bitflags}.

Lemma truncate_bits b : rights_wf (from_bits_truncate b) ∧ fits 16 (from_bits_truncate b).
Proof.
  rewrite from_bits_truncate_spec, declared_eq. split.
  - unfold rights_wf. rewrite declared_eq. apply submask_land_r.
  - change 255 with (Z.ones 8). rewrite Z.land_ones by lia. unfold fits.
    pose proof (Z.mod_pos_bound b (2 ^ 8)). lia.
Qed.

(** A new object and a capability minted for it. *)
Lemma first_object kd :
  create_object ObjectTable_new kd = (mkObjectTable (metas ObjectTable_new).[0 := mkObjectMeta kd 0 true], Some 0).
Proof. reflexivity. Qed.

Lemma i4_holds bw bo : check_i4_invoke_requires_right bw bo = true.
Proof.
  unfold check_i4_invoke_requires_right. rewrite first_object.
  set (rw := rights_union _ _). set (ro := rights_remove _ _).
  set (ot := mkObjectTable _). set (e := mkCapEntry 0 rw 0 Kind.Endpoint 0x1234). set (e' := mkCapEntry 0 ro 0 Kind.Endpoint 0x5678).
  change (mint CapTable_new ot 0 rw 0x1234) with (mkCapTable (slots CapTable_new).[0 := Some e], @Ok Z Status 0). cbv iota.
  change (mint _ ot 0 ro 0x5678) with (mkCapTable ((slots CapTable_new).[0 := Some e]).[1 := Some e'], @Ok Z Status 1). cbv iota.
  assert (Hin : submask Rights.INVOKE rw).
  { unfold rw. rewrite rights_union_spec. apply submask_spec. intros i Hi Hb. by rewrite Z.lor_spec, Hb, orb_true_r. }
  assert (Hout : ¬ submask Rights.INVOKE ro).
  { unfold ro. rewrite rights_remove_spec, submask_spec. intros Hs. specialize (Hs 2 ltac:(lia) eq_refl).
    rewrite Z.ldiff_spec in Hs. by rewrite andb_false_r in Hs. }
  apply andb_true_iff. rewrite !bool_decide_eq_true, !invoke_alt. split.
  - change (entry_at _ 0) with (Some e). cbv iota. change (check_entry ot e) with StOk. cbv iota.
    by rewrite (proj2 (rights_contains_spec rw Rights.INVOKE) Hin).
  - change (entry_at _ 1) with (Some e'). cbv iota. change (check_entry ot e') with StOk. cbv iota.
    cbn [rights e']. destruct (rights_contains ro Rights.INVOKE) eqn:Hc; [|done]. by apply rights_contains_spec in Hc.
Qed.

Lemma i2_holds rb method req : check_i2_revocation_completeness rb method req = true.
Proof.
  unfold check_i2_revocation_completeness. rewrite first_object. set (r := from_bits_truncate rb).
  set (ot := mkObjectTable _). set (e := mkCapEntry 0 r 0 Kind.Memory 99).
  change (mint CapTable_new ot 0 r 99) with (mkCapTable (slots CapTable_new).[0 := Some e], @Ok Z Status 0). cbv iota zeta.
  set (ot' := (revoke ot 0).1). apply andb_true_iff. rewrite bool_decide_eq_true, invoke_alt. split; [|reflexivity].
  change (entry_at _ 0) with (Some e). cbv iota. by change (check_entry ot' e) with ErrRevoked.
Qed.

Lemma i3_holds pb mb b p2 m2 : check_i3_no_rights_amplification pb mb b p2 m2 = true.
Proof.
  unfold check_i3_no_rights_amplification. rewrite first_object. set (r := rights_union _ _).
  set (ot := mkObjectTable _). set (e := mkCapEntry 0 r 0 Kind.Endpoint 7).
  change (mint CapTable_new ot 0 r 7) with (mkCapTable (slots CapTable_new).[0 := Some e], @Ok Z Status 0). cbv iota zeta.
  apply andb_true_iff. split.
  - destruct (delegate _ _ _ _ _ _) as [dst [c|]] eqn:Hd; [|done].
    apply delegate_Ok in Hd as (e' & He' & _ & _ & Hc & _ & ->); [|apply CapTable_new_wf].
    change (entry_at _ 0) with (Some e) in He'. injection He' as <-.
    destruct (lookup _ c ot) as [child|] eqn:Hl; [|done]. apply lookup_ok in Hl as [Hl _].
    rewrite entry_at_insert, decide_True in Hl by (done || lia || apply CapTable_new_wf).
    injection Hl as <-. apply Z.eqb_eq. cbn [rights child_of]. rewrite rights_inter_spec.
    apply (submask_land_l r).
  - apply Z.eqb_eq. rewrite rights_inter_spec. apply submask_land_l.
Qed.

Lemma roundtrip_holds oid rb ep tag b :
  0 <= oid → fits 32 ep → fits 16 tag → fits 16 b → check_encode_decode_roundtrip oid rb ep tag b = true.
Proof.
  intros Ho He Ht Hb. unfold check_encode_decode_roundtrip. destruct (Z.ltb_spec oid (Z.shiftl 1 48)) as [Hlt|]; [|done].
  change (Z.shiftl 1 48) with (2 ^ 48) in Hlt. destruct (truncate_bits rb) as [Hwf Hfit].
  set (cap := mkCapEntry _ _ _ _ _). assert (E : decode (encode cap) = cap).
  { apply decode_encode; [|by split|done]. unfold CapEntry_typed. cbn [object_id rights epoch type_tag badge raw].
    split; [|done]. split; [exact Ho|]. eapply Z.lt_trans; [exact Hlt|by vm_compute]. }
  rewrite E, Z.eqb_refl, bool_decide_true by done. done.
Qed.

(** C34: cap-core's harnesses hold for every input. A capability is invocable exactly when it
    carries INVOKE (I4); after a revocation it fails with [ErrRevoked] and the epoch has
    moved (I2); a delegated child never has a right its parent lacks, and a mask never
    adds one (I3); and the wire encoding is lossless on entries with 48-bit objects. *)
Theorem cap_core_harnesses bits_with bits_without rbits method req_bits pbits mask_bits bdg p2 m2 oid ep tag_raw :
  fits 64 oid → fits 32 ep → fits 16 tag_raw → fits 16 bdg →
  check_i4_invoke_requires_right bits_with bits_without = true ∧
  check_i2_revocation_completeness rbits method req_bits = true ∧
  check_i3_no_rights_amplification pbits mask_bits bdg p2 m2 = true ∧
  check_encode_decode_roundtrip oid rbits ep tag_raw bdg = true.
Proof.
  intros Ho He Ht Hb. split; [apply i4_holds|]. split; [apply i2_holds|]. split; [apply i3_holds|].
  apply roundtrip_holds; [apply Ho|done..].
Qed.
End cap_core_proofs.

(** ** The allocator harnesses hold, for every number of frames *)

Section frame_alloc_proofs.
Context (N : Z) (HN : 0 <= N).
Implicit Types (a : BitmapFrameAllocator).

Abbreviation inv := (bitmap_inv N).
Abbreviation frames := (bitmap_set N).

Lemma mark_free_new f :
  0 <= f < N → inv (mark_free N (bitmap_new N) f) ∧ frames (mark_free N (bitmap_new N) f) = {[f]}.
Proof.
  intros Hf. pose proof (bitmap_new_inv N HN) as Hi. split; [apply mark_free_inv; [lia|done]|].
  rewrite mark_free_set, bitmap_new_set by done. set_solver.
Qed.

(** What one allocation does. *)
Lemma bitmap_alloc_step a :
  inv a →
  match alloc N a with
  | (a', Some f) => inv a' ∧ f ∈ frames a ∧ 0 <= f < N ∧ frames a' = frames a ∖ {[f]}
  | (a', None) => inv a' ∧ frames a = ∅ ∧ frames a' = ∅
  end.
Proof.
  intros Hi. destruct (bitmap_alloc_law N a Hi) as [Hi' Hr]. destruct (alloc N a) as [a' [f|]]; cbn [fst snd] in *.
  - destruct Hr as ([Hin _] & Hs). split; [done|]. split; [done|]. split; [|done].
    by apply elem_of_bitmap_set in Hin as [? _].
  - done.
Qed.

Lemma used_is_free a f : 0 <= f → f ∉ frames a → is_free N a f = false.
Proof. intros Hf Hn. rewrite is_free_spec by done. by apply bool_decide_eq_false. Qed.

Lemma no_double_holds f : 0 <= f → no_double_allocation N f = true.
Proof.
  intros Hf. unfold no_double_allocation. destruct (Z.ltb_spec f N) as [Hlt|]; [|done].
  destruct (mark_free_new f ltac:(lia)) as [Hi Hs]. pose proof (bitmap_alloc_step _ Hi) as Ha. rewrite Hs in Ha.
  destruct (alloc N _) as [a [f1|]]; [|set_solver]. destruct Ha as (Hi1 & Hin & Hr & Hs1).
  rewrite (proj2 (Z.ltb_lt f1 N)), used_is_free by (lia || set_solver). cbn [negb andb].
  pose proof (bitmap_alloc_step a Hi1) as Ha2. destruct (alloc N a) as [a2 [f2|]]; [|done]. set_solver.
Qed.

Lemma distinct_holds f1 f2 : 0 <= f1 → 0 <= f2 → distinct_allocs_no_intervening_free N f1 f2 = true.
Proof.
  intros H1 H2. unfold distinct_allocs_no_intervening_free. destruct (_ && _) eqn:Hb; [|done].
  apply andb_true_iff in Hb as [[Hl1%Z.ltb_lt Hl2%Z.ltb_lt]%andb_true_iff Hne%negb_true_iff%Z.eqb_neq].
  destruct (mark_free_new f1 ltac:(lia)) as [Hi Hs].
  pose proof (mark_free_inv N _ f2 H2 Hi) as Hi2.
  pose proof (mark_free_set N (mark_free N (bitmap_new N) f1) f2) as Hs2. rewrite Hs in Hs2.
  specialize (Hs2 ltac:(done) ltac:(lia)). pose proof (bitmap_alloc_step _ Hi2) as Ha. rewrite Hs2 in Ha.
  destruct (alloc N _) as [a [r1|]]; [|set_solver]. destruct Ha as (Hia & Hin & Hr & Hsa).
  pose proof (bitmap_alloc_step a Hia) as Ha2. destruct (alloc N a) as [a2 [r2|]].
  - destruct Ha2 as (Hi3 & Hin2 & Hr2 & Hs3). rewrite !used_is_free by (lia || set_solver).
    rewrite (proj2 (Z.eqb_neq r1 r2)); [done|]. set_solver.
  - destruct Ha2 as (_ & He & _). rewrite Hsa in He. destruct (decide (r1 = f1)) as [->|].
    + assert (Hf : f2 ∈ (∅ : gset Z)) by (rewrite <- He; set_solver). by apply not_elem_of_empty in Hf.
    + assert (Hf : f1 ∈ (∅ : gset Z)) by (rewrite <- He; set_solver). by apply not_elem_of_empty in Hf.
Qed.

Lemma roundtrip_free_holds f : 0 <= f → free_roundtrip_and_is_free N f = true.
Proof.
  intros Hf. unfold free_roundtrip_and_is_free. destruct (Z.ltb_spec f N) as [Hlt|]; [|done].
  destruct (mark_free_new f ltac:(lia)) as [Hi Hs]. rewrite is_free_spec, Hs, bool_decide_true by (lia || set_solver).
  pose proof (bitmap_alloc_step _ Hi) as Ha. rewrite Hs in Ha. destruct (alloc N _) as [a [f1|]]; [|set_solver].
  destruct Ha as (Hi1 & Hin & _). apply elem_of_singleton in Hin as ->. cbn [andb].
  rewrite bool_decide_true by done. destruct (bitmap_free_law N a f Hi1 Hf) as [_ Hs2]. rewrite decide_True in Hs2 by done.
  rewrite is_free_spec, Hs2, bool_decide_true by (lia || set_solver). done.
Qed.

(** The loop ends after as many rounds as there are free frames. *)
Lemma exhaust_ok fuel a : inv a → (size (frames a) < fuel)%nat → exhaust N fuel a = Some true.
Proof.
  revert a. induction fuel as [|fuel IH]; intros a Hi Hf; [lia|]. simpl. pose proof (bitmap_alloc_step a Hi) as Ha.
  destruct (alloc N a) as [a' [f|]]; [|done]. destruct Ha as (Hi' & Hin & Hr & Hs).
  rewrite (proj2 (Z.ltb_lt f N)) by lia. apply IH; [done|].
  assert (size (frames a) = S (size (frames a'))).
  { rewrite Hs. rewrite (union_difference_L {[f]} (frames a)) at 1 by set_solver.
    rewrite size_union by set_solver. by rewrite size_singleton. }
  lia.
Qed.

Lemma frames_bound a : (size (frames a) <= Z.to_nat N)%nat.
Proof.
  replace (Z.to_nat N) with (size (list_to_set (seqZ 0 N) : gset Z)).
  - apply subseteq_size. intros f [Hf _]%elem_of_bitmap_set. apply elem_of_list_to_set, elem_of_seqZ. lia.
  - rewrite size_list_to_set by apply NoDup_seqZ. rewrite length_seqZ. done.
Qed.

Lemma marks_inv fs a : Forall (λ f, 0 <= f) fs → inv a → inv (foldl (λ a f, if f <? N then mark_free N a f else a) a fs).
Proof.
  intros Hfs. revert a. induction Hfs as [|f fs Hf Hfs IH]; intros a Hi; [done|]. simpl. apply IH.
  destruct (f <? N); [by apply mark_free_inv|done].
Qed.

Lemma bounds_holds fuel fs :
  Forall (λ f, 0 <= f) fs → (Z.to_nat N < fuel)%nat → alloc_bounds_only N fuel fs = Some true.
Proof.
  intros Hfs Hfuel. unfold alloc_bounds_only. set (a0 := foldl _ _ fs).
  assert (Hi : inv (mark_used N (mark_free N (mark_free N a0 N) (N + 99)) (N + 1))).
  { apply mark_used_inv; [lia|]. apply mark_free_inv; [lia|]. apply mark_free_inv; [lia|].
    apply marks_inv; [done|]. by apply bitmap_new_inv. }
  pose proof (bitmap_alloc_step _ Hi) as Ha. destruct (alloc N _) as [a [f|]].
  - destruct Ha as (Hi' & _ & Hr & _). rewrite (proj2 (Z.ltb_lt f N)) by lia. apply exhaust_ok; [done|].
    pose proof (frames_bound a). lia.
  - apply exhaust_ok; [apply Ha|]. pose proof (frames_bound a). lia.
Qed.

(** Frame-alloc's harnesses hold for every number of frames and every input, not only
    for the 8 frames the tool explores: no frame is handed out twice, consecutive
    allocations differ, freeing makes a frame allocatable again, and allocation stays in
    bounds and exhausts after at most one round per frame. *)
Theorem frame_alloc_harnesses f g fs :
  0 <= f → 0 <= g → Forall (λ f, 0 <= f) fs →
  no_double_allocation N f = true ∧ distinct_allocs_no_intervening_free N f g = true ∧
  free_roundtrip_and_is_free N f = true ∧ alloc_bounds_only N (S (Z.to_nat N)) fs = Some true.
Proof.
  intros Hf Hg Hfs. split; [by apply no_double_holds|]. split; [by apply distinct_holds|].
  split; [by apply roundtrip_free_holds|]. apply bounds_holds; [done|lia].
Qed.
End frame_alloc_proofs.

(** ** Instances *)

Lemma cap_core_harnesses_witness :
  check_i4_invoke_requires_right 0 0xffff = true ∧ check_i2_revocation_completeness 0xff 7 1 = true ∧
  check_i3_no_rights_amplification 0 0xff 9 1 2 = true ∧ check_encode_decode_roundtrip 5 0xffff 3 2 1 = true.
Proof.
  destruct (cap_core_harnesses 0 0xffff 0xff 7 1 0 0xff 9 1 2 5 3 2) as (H1 & H2 & H3 & _); [by vm_compute..|].
  destruct (cap_core_harnesses 0 0 0xffff 0 0 0 0 1 0 0 5 3 2) as (_ & _ & _ & H4); [by vm_compute..|].
  exact (conj H1 (conj H2 (conj H3 H4))).
Defined.

Lemma frame_alloc_harnesses_witness :
  no_double_allocation 70 69 = true ∧ distinct_allocs_no_intervening_free 70 69 3 = true ∧
  alloc_bounds_only 70 71 [3; 69; 200] = Some true.
Proof.
  destruct (frame_alloc_harnesses 70 ltac:(lia) 69 3 [3; 69; 200]) as (H1 & H2 & _ & H4); [lia|lia| |exact (conj H1 (conj H2 H4))].
  repeat (apply Forall_cons; split); try lia. by apply Forall_nil.
Defined.
