(* ===== verification/Memory.v ===== *)
(** * The kernel's frame allocator ([kernel/src/memory.rs])

    [FrameAllocator] keeps the free frames as a table of at most 64 ranges.
    [alloc], [free], [coalesce], [add_region] and [free_count] are the methods of the
    source, [init] the construction from the boot loader's memory map. They
    refine the same lowest-first specification as the bitmap of [FrameAlloc]. *)

From stdpp Require Import sorting.
From S2P Require Import Prelude FrameSpec.

(** ** Data *)

Definition MAX_REGIONS : Z := 64.

Record FreeRegion := mkRegion { r_start : Z; r_end : Z }.
#[global] Instance FreeRegion_eq_dec : EqDecision FreeRegion.
Proof. solve_decision. Defined.
#[global] Instance FreeRegion_inhabited : Inhabited FreeRegion := populate (mkRegion 0 0).

Definition region_len (r : FreeRegion) : Z := sat_sub64 (r_end r) (r_start r).

Record FrameAllocator := mkFA { regions : list (option FreeRegion) }.

(** ** Operations *)

(** [FrameAllocator::empty] and [clear]. *)
Definition fa_empty : FrameAllocator := mkFA (replicate (Z.to_nat MAX_REGIONS) None).
Definition clear (fa : FrameAllocator) : FrameAllocator :=
  mkFA (replicate (length (regions fa)) None).

(** The loops [for slot in &mut self.regions { if slot.is_none() { *slot = ..; break } }]. *)
Definition insert_region (fa : FrameAllocator) (r : FreeRegion) : FrameAllocator :=
  match position is_none (regions fa) with
  | Some i => mkFA (regions fa).[i := Some r]
  | None => fa
  end.

Definition add_region (fa : FrameAllocator) (start end_ : Z) : FrameAllocator :=
  if end_ <=? start then fa else insert_region fa (mkRegion start end_).

(** The scan of [alloc]: [(best_idx, best_start)] over [regions.iter().enumerate()]. *)
Fixpoint best_region (i : Z) (rs : list (option FreeRegion)) (best : option Z * Z) :
    option Z * Z :=
  match rs with
  | [] => best
  | slot :: rs =>
      best_region (i + 1) rs
        match slot with
        | Some r => if (r_start r <? r_end r) && (r_start r <? best.2)
                    then (Some i, r_start r) else best
        | None => best
        end
  end.

Definition alloc (fa : FrameAllocator) : FrameAllocator * option Z :=
  match best_region 0 (regions fa) (None, u64_max) with
  | (Some i, _) =>
      match (regions fa).[i] with
      | Some r =>
          let f := r_start r in
          let r' := mkRegion (wrap 64 (r_start r + 1)) (r_end r) in
          (mkFA (regions fa).[i := if r_end r' <=? r_start r' then None else Some r'], Some f)
      | None => (fa, None) (* unreachable: [unwrap] of the slot the scan chose *)
      end
  | (None, _) => (fa, None)
  end.

(** The first loop of [free]: extend the first region adjacent to [frame]. *)
Fixpoint extend_adjacent (frame : Z) (rs : list (option FreeRegion)) :
    option (list (option FreeRegion)) :=
  match rs with
  | [] => None
  | slot :: rest =>
      match slot with
      | Some r =>
          if r_end r =? frame then Some (Some (mkRegion (r_start r) (wrap 64 (r_end r + 1))) :: rest)
          else if r_start r =? wrap 64 (frame + 1) then Some (Some (mkRegion frame (r_end r)) :: rest)
          else cons slot <$> extend_adjacent frame rest
      | None => cons slot <$> extend_adjacent frame rest
      end
  end.

(** [coalesce], first part: the live regions in table order. *)
Definition live_regions (fa : FrameAllocator) : list FreeRegion :=
  filter (λ r, r_start r < r_end r) (omap id (regions fa)).

Definition swap (l : list FreeRegion) (i j : Z) : list FreeRegion :=
  l.[i := l.[j]].[j := l.[i]].

(** The inner [while] of the insertion sort, with [j] counting down. *)
Fixpoint sift (l : list FreeRegion) (j : nat) : list FreeRegion :=
  match j with
  | O => l
  | S j' =>
      if r_start l.[Z.of_nat j] <? r_start l.[Z.of_nat j']
      then sift (swap l (Z.of_nat j') (Z.of_nat j)) j'
      else l
  end.

(** [for i in 1..n]. *)
Definition insertion_sort (l : list FreeRegion) : list FreeRegion :=
  foldl sift l (seq 1 (length l - 1)).

(** The merge loop: the regions already emitted, and the current one. *)
Definition merge_step (st : list FreeRegion * FreeRegion) (r : FreeRegion) :
    list FreeRegion * FreeRegion :=
  let '(out, cur) := st in
  if r_start r <=? r_end cur then
    (out, if r_end cur <? r_end r then mkRegion (r_start cur) (r_end r) else cur)
  else (out ++ [cur], r).

Definition coalesce (fa : FrameAllocator) : FrameAllocator :=
  match insertion_sort (live_regions fa) with
  | [] => clear fa
  | cur :: rest =>
      let '(out, cur) := foldl merge_step ([], cur) rest in
      let out := out ++ [cur] in
      mkFA ((Some <$> out) ++ replicate (length (regions fa) - length out) None)
  end.

Definition free (fa : FrameAllocator) (frame : Z) : FrameAllocator :=
  coalesce
    match extend_adjacent frame (regions fa) with
    | Some rs => mkFA rs
    | None => insert_region fa (mkRegion frame (wrap 64 (frame + 1)))
    end.

Definition free_count (fa : FrameAllocator) : Z :=
  foldl (λ sum slot, match slot with Some r => wrap 64 (sum + region_len r) | None => sum end)
    0 (regions fa).

(** ** [init]

    The boot loader's memory map is a list of entries; [MEMMAP_USABLE] is the loader
    protocol's tag of usable memory. *)
Record MemmapEntry := mkEntry { e_base : Z; e_length : Z; e_type : Z }.

Section init.
Context (MEMMAP_USABLE : Z).

Definition init_entry (fa : FrameAllocator) (e : MemmapEntry) : FrameAllocator :=
  if negb (e_type e =? MEMMAP_USABLE) then fa
  else
    let first := Z.max (wrap 64 (e_base e + 0xfff) / 0x1000) 0x100 in
    let last := wrap 64 (e_base e + e_length e) / 0x1000 in
    if first <? last then add_region fa first last else fa.

Definition init (fa : FrameAllocator) (memmap : list MemmapEntry) : FrameAllocator :=
  coalesce (foldl init_entry (clear fa) memmap).
End init.

(** ** The abstract set of free frames *)

Definition region_frames (r : FreeRegion) : gset Z :=
  list_to_set (seqZ (r_start r) (r_end r - r_start r)).

Definition frames (rs : list FreeRegion) : gset Z := ⋃ (region_frames <$> rs).

Definition mem_set (fa : FrameAllocator) : gset Z := frames (omap id (regions fa)).

Definition region_wf (r : FreeRegion) : Prop :=
  0 <= r_start r ∧ r_start r < r_end r ∧ r_end r <= u64_max.

(** [a] lies strictly below [b], with a gap. *)
Definition below (a b : FreeRegion) : Prop := r_end a < r_start b.

(** The invariant between operations: the live regions are non-empty, sorted in
    table order, disjoint and not adjacent. *)
Definition mem_inv (fa : FrameAllocator) : Prop :=
  zlen (regions fa) = MAX_REGIONS ∧
  Forall region_wf (omap id (regions fa)) ∧ StronglySorted below (omap id (regions fa)).

Lemma elem_of_region_frames r f : f ∈ region_frames r ↔ r_start r <= f < r_end r.
Proof. unfold region_frames. rewrite elem_of_list_to_set, elem_of_seqZ. lia. Qed.

Lemma elem_of_frames rs f : f ∈ frames rs ↔ ∃ r, r ∈ rs ∧ r_start r <= f < r_end r.
Proof.
  unfold frames. rewrite elem_of_union_list. setoid_rewrite list_elem_of_fmap. split.
  - intros (X & (r & -> & Hr) & Hf%elem_of_region_frames). eauto.
  - intros (r & Hr & Hf). exists (region_frames r). split; [eauto|].
    by apply elem_of_region_frames.
Qed.

Lemma frames_cons r rs : frames (r :: rs) = region_frames r ∪ frames rs.
Proof. done. Qed.

(** ** Sorting *)

Lemma elem_of_aget {A} `{Inhabited A} (l : list A) x :
  x ∈ l ↔ ∃ i, 0 <= i < zlen l ∧ l.[i] = x.
Proof.
  rewrite list_elem_of_lookup. split.
  - intros [n Hn]. exists (Z.of_nat n). pose proof (lookup_lt_Some _ _ _ Hn).
    split; [unfold zlen; lia|]. apply aget_lookup. by rewrite Nat2Z.id.
  - intros (i & Hi & <-). exists (Z.to_nat i). by apply lookup_aget.
Qed.

Definition sorted_upto (l : list FreeRegion) (n : Z) : Prop :=
  ∀ a b, 0 <= a <= b → b < n → r_start l.[a] <= r_start l.[b].

Lemma swap_get l i j k :
  0 <= i < zlen l → 0 <= j < zlen l → 0 <= k →
  (swap l i j).[k] = if decide (k = j) then l.[i] else if decide (k = i) then l.[j] else l.[k].
Proof.
  intros Hi Hj Hk. unfold swap. rewrite aget_aset by (rewrite ?zlen_aset; lia).
  destruct (decide (j = k)) as [->|]; [by rewrite decide_True|].
  rewrite aget_aset, (decide_False (P := k = j)) by (done || lia).
  destruct (decide (i = k)) as [->|]; [by rewrite decide_True|by rewrite decide_False].
Qed.

Lemma zlen_swap l i j : zlen (swap l i j) = zlen l.
Proof. unfold swap. by rewrite !zlen_aset. Qed.

Lemma elem_of_swap l i j r :
  0 <= i < zlen l → 0 <= j < zlen l → r ∈ swap l i j ↔ r ∈ l.
Proof.
  intros Hi Hj. rewrite !elem_of_aget, zlen_swap. split; intros (k & Hk & <-).
  - rewrite swap_get by lia. repeat case_decide; eauto.
  - exists (if decide (k = i) then j else if decide (k = j) then i else k).
    split; [repeat case_decide; lia|]. rewrite swap_get by (repeat case_decide; lia).
    repeat case_decide; simplify_eq; done.
Qed.

Lemma zlen_sift l j : zlen (sift l j) = zlen l.
Proof.
  revert l. induction j as [|j IH]; intros l; simpl; [done|].
  destruct (_ <? _); [|done]. by rewrite IH, zlen_swap.
Qed.

Lemma elem_of_sift l j r : Z.of_nat j < zlen l → r ∈ sift l j ↔ r ∈ l.
Proof.
  revert l. induction j as [|j IH]; intros l Hj; [done|]. cbn [sift].
  destruct (_ <? _); [|done]. rewrite IH by (rewrite zlen_swap; lia).
  apply elem_of_swap; lia.
Qed.

(** The inner loop puts element [j] in its place in the sorted prefix. *)
Lemma sift_sorted j l n :
  Z.of_nat j < n <= zlen l →
  (∀ a b, 0 <= a <= b → b < n → a ≠ Z.of_nat j → b ≠ Z.of_nat j →
     r_start l.[a] <= r_start l.[b]) →
  (∀ b, Z.of_nat j < b < n → r_start l.[Z.of_nat j] <= r_start l.[b]) →
  sorted_upto (sift l j) n.
Proof.
  revert l. induction j as [|j IH]; intros l Hn Hs Ht; [|cbn [sift]; case_match eqn:Hc].
  - intros a b Hab Hb. simpl. destruct (decide (b = 0)); [by replace a with b by lia|].
    destruct (decide (a = 0)) as [->|]; [apply Ht; lia|apply Hs; lia].
  - apply Z.ltb_lt in Hc. apply IH; rewrite ?zlen_swap; [lia|..].
    + intros a b Hab Hb Ha' Hb'. rewrite !swap_get by lia.
      repeat case_decide; try lia; apply Hs; lia.
    + intros b Hb. rewrite !swap_get by lia. repeat case_decide; try lia. apply Ht. lia.
  - apply Z.ltb_ge in Hc. intros a b Hab Hb.
    destruct (decide (a = b)) as [->|]; [done|].
    destruct (decide (a = Z.of_nat (S j))) as [->|]; [apply Ht; lia|].
    destruct (decide (b = Z.of_nat (S j))) as [->|]; [|apply Hs; lia].
    transitivity (r_start l.[Z.of_nat j]); [apply Hs; lia|done].
Qed.

Lemma insertion_sort_prefix l m :
  (m <= length l - 1)%nat →
  let l' := foldl sift l (seq 1 m) in
  zlen l' = zlen l ∧ (∀ r, r ∈ l' ↔ r ∈ l) ∧ sorted_upto l' (Z.of_nat m + 1).
Proof.
  intros Hm. induction m as [|m IH]; cbn zeta.
  - split; [done|]. split; [done|]. intros a b Hab Hb. by replace a with b by lia.
  - rewrite seq_S, foldl_app. destruct IH as (Hlen & Hel & Hso); [lia|].
    cbn [foldl]. set (l' := foldl sift l (seq 1 m)) in *.
    assert (Z.of_nat (1 + m) < zlen l') by (rewrite Hlen; unfold zlen; lia).
    split; [by rewrite zlen_sift|]. split; [intros r; by rewrite elem_of_sift|].
    apply sift_sorted; [lia| |lia]. intros a b Hab Hb Ha' Hb'. apply Hso; lia.
Qed.

Lemma sorted_upto_cons r l n :
  0 <= n → sorted_upto (r :: l) (n + 1) → sorted_upto l n ∧ ∀ b, 0 <= b < n → r_start r <= r_start l.[b].
Proof.
  intros Hn Hs. unfold sorted_upto, aget in *. split.
  - intros a b Hab Hb. specialize (Hs (a + 1) (b + 1) ltac:(lia) ltac:(lia)).
    by rewrite !Z2Nat.inj_add, !Nat.add_1_r in Hs by lia.
  - intros b Hb. specialize (Hs 0 (b + 1) ltac:(lia) ltac:(lia)).
    by rewrite !Z2Nat.inj_add, !Nat.add_1_r in Hs by lia.
Qed.

Lemma sorted_upto_all l :
  sorted_upto l (zlen l) → StronglySorted (λ a b, r_start a <= r_start b) l.
Proof.
  induction l as [|r l IH]; intros Hs; [constructor|].
  replace (zlen (r :: l)) with (zlen l + 1) in Hs by (unfold zlen; simpl; lia).
  apply sorted_upto_cons in Hs as [Hs Hr]; [|apply zlen_nonneg].
  constructor; [by apply IH|]. apply Forall_forall. intros x (b & Hb & <-)%elem_of_aget. auto.
Qed.

Lemma insertion_sort_spec l :
  let l' := insertion_sort l in
  zlen l' = zlen l ∧ (∀ r, r ∈ l' ↔ r ∈ l) ∧
  StronglySorted (λ a b, r_start a <= r_start b) l'.
Proof.
  intros l'. destruct (insertion_sort_prefix l (length l - 1)) as (Hlen & Hel & Hs); [lia|].
  fold (insertion_sort l) in Hlen, Hel, Hs. fold l' in Hlen, Hel, Hs.
  split; [done|]. split; [done|]. apply sorted_upto_all.
  intros a b Hab Hb. apply Hs; [done|]. rewrite Hlen in Hb. unfold zlen in Hb. lia.
Qed.

(** ** Merging *)

(** Possibly empty or overlapping regions: what [coalesce] accepts. *)
Definition region_ok (r : FreeRegion) : Prop := 0 <= r_start r ∧ r_end r <= u64_max.

Lemma region_wf_ok r : region_wf r → region_ok r.
Proof. unfold region_wf, region_ok. lia. Qed.

Lemma sorted_snoc {A} (R : A → A → Prop) l x :
  StronglySorted R (l ++ [x]) ↔ StronglySorted R l ∧ Forall (λ y, R y x) l.
Proof.
  induction l as [|y l IH]; simpl.
  - split; [intros; split; constructor|intros; repeat constructor].
  - split.
    + intros [Hs Hf]%StronglySorted_inv. apply IH in Hs as [Hs Hx].
      apply Forall_app in Hf as [Hf [Hy _]%Forall_cons]. by repeat constructor.
    + intros [[Hs Hf]%StronglySorted_inv [Hy Hx]%Forall_cons].
      constructor; [by apply IH|]. apply Forall_app. by repeat constructor.
Qed.

Lemma merge_spec rest out cur :
  StronglySorted (λ a b, r_start a <= r_start b) rest →
  Forall (λ r, r_start cur <= r_start r) rest →
  Forall region_wf rest → Forall region_wf (out ++ [cur]) → StronglySorted below (out ++ [cur]) →
  let '(out', cur') := foldl merge_step (out, cur) rest in
  Forall region_wf (out' ++ [cur']) ∧ StronglySorted below (out' ++ [cur']) ∧
  (length out' <= length out + length rest)%nat ∧
  ∀ f, f ∈ frames (out' ++ [cur']) ↔ f ∈ frames (out ++ [cur]) ∨ f ∈ frames rest.
Proof.
  revert out cur. induction rest as [|r rest IH]; intros out cur Hs Hle Hw Hwo Hso; simpl.
  { split; [done|]. split; [done|]. split; [lia|]. unfold frames. set_solver. }
  apply StronglySorted_inv in Hs as [Hs Hr]. apply Forall_cons in Hle as [Hcr Hle].
  apply Forall_cons in Hw as [Hwr Hw].
  pose proof Hwo as [Hwo' [Hwc _]%Forall_cons]%Forall_app.
  pose proof Hso as [Hso' Hbo]%sorted_snoc.
  destruct (Z.leb_spec (r_start r) (r_end cur)).
  - set (cur' := if r_end cur <? r_end r then _ else _).
    assert (Hst : r_start cur' = r_start cur) by (unfold cur'; by case_match).
    assert (He : r_end cur' = Z.max (r_end cur) (r_end r)).
    { unfold cur'. destruct (Z.ltb_spec (r_end cur) (r_end r)); simpl; lia. }
    specialize (IH out cur' Hs).
    destruct (foldl merge_step (out, cur') rest) as [out' cur''] eqn:E.
    destruct IH as (H1 & H2 & H3 & H4); [by rewrite Hst|done|..].
    { apply Forall_app. split; [done|]. apply Forall_singleton.
      unfold region_wf in *. rewrite Hst, He. lia. }
    { apply sorted_snoc. split; [done|]. unfold below. by rewrite Hst. }
    split; [done|]. split; [done|]. split; [lia|]. intros f.
    rewrite H4, frames_cons, elem_of_union, !elem_of_frames, elem_of_region_frames.
    setoid_rewrite elem_of_app. setoid_rewrite list_elem_of_singleton.
    unfold region_wf in *. split.
    + intros [(x & [Hx| ->] & Hf)|Hx]; [eauto 6| |by auto].
      rewrite Hst, He in Hf. destruct (decide (f < r_end cur)); [left; eauto with lia|].
      right. left. lia.
    + intros [(x & [Hx| ->] & Hf)|[Hf|Hx]]; [left; eauto 6| | |by auto].
      * left. exists cur'. split; [by right|]. rewrite Hst, He. lia.
      * left. exists cur'. split; [by right|]. rewrite Hst, He. lia.
  - specialize (IH (out ++ [cur]) r Hs Hr Hw).
    destruct (foldl merge_step (out ++ [cur], r) rest) as [out' cur''] eqn:E.
    destruct IH as (H1 & H2 & H3 & H4).
    { apply Forall_app. by split; [|apply Forall_singleton]. }
    { apply sorted_snoc. split; [done|]. apply Forall_app. split; [|by apply Forall_singleton].
      eapply Forall_impl; [exact Hbo|]. unfold below, region_wf in *. intros. lia. }
    rewrite length_app in H3. simpl in H3.
    split; [done|]. split; [done|]. split; [lia|]. intros f.
    rewrite H4, frames_cons. unfold frames. rewrite !fmap_app, !union_list_app_L. set_solver.
Qed.

Definition weak_inv (fa : FrameAllocator) : Prop :=
  zlen (regions fa) = MAX_REGIONS ∧ Forall region_ok (omap id (regions fa)).

Lemma mem_inv_weak fa : mem_inv fa → weak_inv fa.
Proof. intros (Hl & Hw & _). split; [done|]. eapply Forall_impl; [done|]. apply region_wf_ok. Qed.

Lemma omap_some_none (l : list FreeRegion) n :
  omap id ((Some <$> l) ++ replicate n None) = l.
Proof.
  rewrite omap_app. replace (omap id (replicate n None)) with (@nil FreeRegion).
  - rewrite app_nil_r. induction l as [|x l IH]; simpl; [done|]. by f_equal.
  - by induction n.
Qed.

Lemma length_omap_id {A} (l : list (option A)) : (length (omap id l) <= length l)%nat.
Proof. induction l as [|[x|] l IH]; csimpl; lia. Qed.

Lemma clear_live fa : omap id (regions (clear fa)) = [].
Proof. unfold clear. cbn [regions]. by induction (length (regions fa)). Qed.

(** [coalesce] sorts and merges without changing the set of free frames. *)
Lemma coalesce_spec fa :
  weak_inv fa → mem_inv (coalesce fa) ∧ mem_set (coalesce fa) = mem_set fa.
Proof.
  intros [Hlen Hok]. unfold coalesce.
  destruct (insertion_sort_spec (live_regions fa)) as (Hl & Hel & Hs).
  assert (Hset : ∀ f, f ∈ frames (insertion_sort (live_regions fa)) ↔ f ∈ mem_set fa).
  { intros f. unfold mem_set. rewrite !elem_of_frames. setoid_rewrite Hel. unfold live_regions.
    setoid_rewrite list_elem_of_filter. split; intros (r & Hr & Hf).
    - exists r. tauto.
    - exists r. split; [|done]. split; [lia|done]. }
  assert (Hwf : Forall region_wf (insertion_sort (live_regions fa))).
  { apply Forall_forall. intros r Hr. apply Hel in Hr. unfold live_regions in Hr.
    apply list_elem_of_filter in Hr as [Hlt Hr]. rewrite Forall_forall in Hok.
    destruct (Hok r Hr). by repeat split. }
  assert (Hll : (length (insertion_sort (live_regions fa)) <= length (regions fa))%nat).
  { unfold zlen in Hl. unfold live_regions in *. pose proof (length_omap_id (regions fa)).
    pose proof (length_filter (λ r, r_start r < r_end r) (omap id (regions fa))). lia. }
  destruct (insertion_sort (live_regions fa)) as [|cur rest].
  - split; [split; [|rewrite clear_live; split; constructor]|].
    + unfold clear. cbn [regions]. by rewrite zlen_replicate.
    + apply set_eq. intros f. rewrite <- Hset. unfold mem_set. by rewrite clear_live.
  - apply StronglySorted_inv in Hs as [Hs Hcur]. apply Forall_cons in Hwf as [Hwc Hwf].
    pose proof (merge_spec rest [] cur Hs Hcur Hwf) as Hm.
    destruct (foldl merge_step ([], cur) rest) as [out' cur'].
    destruct Hm as (H1 & H2 & H3 & H4); [by apply Forall_singleton|repeat constructor|].
    unfold mem_inv, mem_set at 1. cbn [regions]. rewrite !omap_some_none.
    split; [split; [|done]|].
    + unfold zlen. rewrite length_app, length_fmap, length_replicate, length_app.
      simpl in *. unfold zlen in Hlen. lia.
    + apply set_eq. intros f. rewrite <- Hset, H4, (frames_cons cur rest), elem_of_union.
      unfold frames. simpl. set_solver.
Qed.

(** ** Inserting and extending *)

Lemma elem_of_live (rs : list (option FreeRegion)) r : r ∈ omap id rs ↔ Some r ∈ rs.
Proof. rewrite list_elem_of_omap. split; [intros (x & Hx & Heq); by simpl in Heq; subst|eauto]. Qed.

Lemma Forall_live (P : FreeRegion → Prop) (rs : list (option FreeRegion)) :
  Forall P (omap id rs) ↔ ∀ r, Some r ∈ rs → P r.
Proof. rewrite Forall_forall. by setoid_rewrite elem_of_live. Qed.

Lemma elem_of_mem_set fa f :
  f ∈ mem_set fa ↔ ∃ r, Some r ∈ regions fa ∧ r_start r <= f < r_end r.
Proof. unfold mem_set. rewrite elem_of_frames. by setoid_rewrite elem_of_live. Qed.

(** Filling an empty slot adds exactly the region. *)
Lemma elem_of_fill (rs : list (option FreeRegion)) i r x :
  0 <= i < zlen rs → rs.[i] = None → Some x ∈ rs.[i := Some r] ↔ x = r ∨ Some x ∈ rs.
Proof.
  intros Hi Hn. rewrite !elem_of_aget, zlen_aset. split.
  - intros (k & Hk & Hx). rewrite aget_aset in Hx by lia.
    case_decide; [left; congruence|right; eauto].
  - intros [->|(k & Hk & Hx)].
    + exists i. split; [done|]. by apply aget_aset_eq.
    + exists k. split; [done|]. rewrite aget_aset_ne; [done|lia|lia|congruence].
Qed.

Lemma insert_region_spec fa r :
  weak_inv fa → region_ok r →
  weak_inv (insert_region fa r) ∧
  mem_set (insert_region fa r) =
    if decide (None ∈ regions fa) then region_frames r ∪ mem_set fa else mem_set fa.
Proof.
  intros [Hlen Hok] Hr. unfold insert_region.
  destruct (position is_none (regions fa)) as [i|] eqn:Hp.
  - apply position_Some in Hp as (Hi & Hn & _).
    assert (Hnone : (regions fa).[i] = None) by (by destruct ((regions fa).[i])).
    split; [split|].
    + cbn [regions]. by rewrite zlen_aset.
    + cbn [regions]. apply Forall_live. intros x Hx. apply elem_of_fill in Hx; [|done..].
      rewrite Forall_live in Hok. destruct Hx as [->|Hx]; auto.
    + rewrite decide_True by (apply elem_of_aget; eauto). apply set_eq. intros f.
      rewrite elem_of_union, elem_of_region_frames, !elem_of_mem_set. cbn [regions].
      setoid_rewrite elem_of_fill; [|done..]. split.
      * intros (x & [->|Hx] & Hf); eauto.
      * intros [Hf|(x & Hx & Hf)]; eauto.
  - apply position_None in Hp. split; [by split|]. rewrite decide_False; [done|].
    intros Hx. rewrite Forall_forall in Hp. by specialize (Hp _ Hx).
Qed.

Definition adjacent (f : Z) (r : FreeRegion) : Prop := r_end r = f ∨ r_start r = f + 1.

Lemma extend_adjacent_Some f rs rs' :
  0 <= f < u64_max → Forall region_ok (omap id rs) → (∀ r, Some r ∈ rs → r_start r < r_end r) →
  extend_adjacent f rs = Some rs' →
  length rs' = length rs ∧ Forall region_ok (omap id rs') ∧
  ∀ g, g ∈ frames (omap id rs') ↔ g = f ∨ g ∈ frames (omap id rs).
Proof.
  intros Hf. assert (Hw : wrap 64 (f + 1) = f + 1) by (apply wrap_id; unfold fits, u64_max in *; lia).
  revert rs'. induction rs as [|slot rs IH]; intros rs' Hok Hne He; simpl in He; [done|].
  assert (Hrec : ∀ rs'', extend_adjacent f rs = Some rs'' → Forall region_ok (omap id rs) →
    length rs'' = length rs ∧ Forall region_ok (omap id rs'') ∧
    ∀ g, g ∈ frames (omap id rs'') ↔ g = f ∨ g ∈ frames (omap id rs)).
  { intros rs'' Hr Hok'. apply IH; [done| |done]. intros r Hr'. apply Hne. by right. }
  destruct slot as [r|].
  - csimpl in Hok. apply Forall_cons in Hok as [[Hr1 Hr2] Hok].
    assert (Hlt : r_start r < r_end r) by (apply Hne; left).
    destruct (Z.eqb_spec (r_end r) f) as [Heq|]; [|destruct (Z.eqb_spec (r_start r) (wrap 64 (f + 1))) as [Heq|]].
    + simplify_eq. csimpl. split; [done|]. rewrite Hw. split.
      { apply Forall_cons. split; [|done]. split; simpl; lia. }
      intros g. rewrite !frames_cons, !elem_of_union, !elem_of_region_frames. simpl. intuition lia.
    + rewrite Hw in Heq. simplify_eq. csimpl. split; [done|]. split.
      { apply Forall_cons. split; [|done]. split; simpl; lia. }
      intros g. rewrite !frames_cons, !elem_of_union, !elem_of_region_frames. simpl. intuition lia.
    + destruct (extend_adjacent f rs) as [rs''|]; simplify_eq/=.
      destruct (Hrec rs'' eq_refl Hok) as (Hl & Hok' & Hset). split; [by rewrite Hl|]. csimpl. split.
      { apply Forall_cons. by split. }
      intros g. rewrite !frames_cons, !elem_of_union, Hset. tauto.
  - destruct (extend_adjacent f rs) as [rs''|]; simplify_eq/=.
    destruct (Hrec rs'' eq_refl Hok) as (Hl & Hok' & Hset). by rewrite Hl.
Qed.

Lemma extend_adjacent_None f rs :
  0 <= f < u64_max → extend_adjacent f rs = None → ∀ r, Some r ∈ rs → ¬ adjacent f r.
Proof.
  intros Hf. assert (Hw : wrap 64 (f + 1) = f + 1) by (apply wrap_id; unfold fits, u64_max in *; lia).
  induction rs as [|slot rs IH]; intros He r Hr; simpl in He; [by apply elem_of_nil in Hr|].
  apply elem_of_cons in Hr. destruct slot as [x|].
  - destruct (Z.eqb_spec (r_end x) f); [done|].
    destruct (Z.eqb_spec (r_start x) (wrap 64 (f + 1))); [done|]. rewrite Hw in *.
    apply fmap_None in He. destruct Hr as [[= ->]|Hr]; [|by apply IH]. unfold adjacent. lia.
  - apply fmap_None in He. destruct Hr as [Hr|Hr]; [done|by apply IH].
Qed.

Lemma extend_adjacent_found f rs rs' :
  0 <= f < u64_max → extend_adjacent f rs = Some rs' → ∃ r, Some r ∈ rs ∧ adjacent f r.
Proof.
  intros Hf. assert (Hw : wrap 64 (f + 1) = f + 1) by (apply wrap_id; unfold fits, u64_max in *; lia).
  revert rs'. induction rs as [|slot rs IH]; intros rs' He; simpl in He; [done|].
  assert (Hrec : cons slot <$> extend_adjacent f rs = Some rs' →
    ∃ r, Some r ∈ slot :: rs ∧ adjacent f r).
  { intros (rs'' & Hr & _)%fmap_Some. destruct (IH rs'' Hr) as (r & Hr' & Ha).
    exists r. split; [by right|done]. }
  destruct slot as [x|]; [|by apply Hrec].
  destruct (Z.eqb_spec (r_end x) f); [exists x; split; [left|by left]|].
  destruct (Z.eqb_spec (r_start x) (wrap 64 (f + 1))); [|by apply Hrec].
  exists x. split; [left|]. right. lia.
Qed.

(** [free] accepts a frame that is already free, that extends a region, or for which a
    slot is left. *)
Definition accepts (fa : FrameAllocator) (f : Z) : Prop :=
  f ∈ mem_set fa ∨ None ∈ regions fa ∨ ∃ r, Some r ∈ regions fa ∧ adjacent f r.

Lemma free_law fa f :
  mem_inv fa → 0 <= f < u64_max →
  mem_inv (free fa f) ∧
  (accepts fa f → mem_set (free fa f) = {[f]} ∪ mem_set fa) ∧
  (¬ accepts fa f → mem_set (free fa f) = mem_set fa).
Proof.
  intros Hinv Hf. pose proof (mem_inv_weak fa Hinv) as Hweak.
  destruct Hinv as (Hlen & Hwf & Hs). destruct Hweak as [_ Hok]. unfold free.
  destruct (extend_adjacent f (regions fa)) as [rs'|] eqn:He.
  - destruct (extend_adjacent_Some f (regions fa) rs' Hf Hok) as (Hl & Hok' & Hset); [|done|].
    { rewrite Forall_live in Hwf. intros r Hr. apply (Hwf r Hr). }
    destruct (coalesce_spec (mkFA rs')) as [Hi Heq].
    { split; [|done]. unfold zlen in *. simpl. by rewrite Hl. }
    split; [done|]. rewrite Heq. unfold mem_set. cbn [regions].
    assert (Hgoal : frames (omap id rs') = {[f]} ∪ frames (omap id (regions fa))).
    { apply set_eq. intros g. rewrite Hset. set_solver. }
    split; [done|]. intros Hna. exfalso. apply Hna. right. right.
    by apply extend_adjacent_found in He.
  - destruct (insert_region_spec fa (mkRegion f (wrap 64 (f + 1)))) as [Hweak Hset].
    { by split. } { rewrite wrap_id by (unfold fits, u64_max in *; lia). split; simpl; lia. }
    destruct (coalesce_spec _ Hweak) as [Hi Heq]. split; [done|]. rewrite Heq, Hset.
    assert (Hone : region_frames (mkRegion f (wrap 64 (f + 1))) = {[f]}).
    { rewrite wrap_id by (unfold fits, u64_max in *; lia). apply set_eq. intros g.
      rewrite elem_of_region_frames, elem_of_singleton. simpl. lia. }
    rewrite Hone. split.
    + intros Hacc. case_decide as Hn; [done|]. destruct Hacc as [Hin|[?|(r & Hr & Ha)]]; [|done|].
      * set_solver.
      * exfalso. by eapply extend_adjacent_None.
    + intros Hna. rewrite decide_False; [done|]. intros Hn. apply Hna. right. by left.
Qed.

(** ** [alloc] *)

Lemma first_live (rs : list (option FreeRegion)) r tl :
  omap id rs = r :: tl →
  ∃ n rest, rs = replicate n None ++ Some r :: rest ∧ omap id rest = tl.
Proof.
  induction rs as [|[x|] rs IH]; intros Hl; csimpl in Hl; [done|..].
  - injection Hl as -> Htl. by exists 0%nat, rs.
  - destruct (IH Hl) as (n & rest & -> & Htl). by exists (S n), rest.
Qed.

Lemma best_region_none i n rest best :
  best_region i (replicate n None ++ rest) best = best_region (i + Z.of_nat n) rest best.
Proof.
  revert i. induction n as [|n IH]; intros i; [by rewrite Z.add_0_r|].
  cbn [replicate app best_region]. rewrite IH. f_equal. lia.
Qed.

Lemma best_region_keep i rest best :
  Forall (λ r, best.2 <= r_start r) (omap id rest) → best_region i rest best = best.
Proof.
  revert i. induction rest as [|[r|] rest IH]; intros i HF; csimpl in HF; [done|..]; cbn [best_region].
  - apply Forall_cons in HF as [Hr HF]. destruct (Z.ltb_spec (r_start r) best.2); [lia|].
    rewrite andb_false_r. by apply IH.
  - by apply IH.
Qed.

(** The scan finds the first live region, which holds the lowest frame. *)
Lemma best_region_first n r rest :
  region_wf r → Forall (below r) (omap id rest) →
  best_region 0 (replicate n None ++ Some r :: rest) (None, u64_max) = (Some (Z.of_nat n), r_start r).
Proof.
  intros (H1 & H2 & H3) Hb. rewrite best_region_none. cbn [best_region fst snd].
  destruct (Z.ltb_spec (r_start r) (r_end r)); [|lia].
  destruct (Z.ltb_spec (r_start r) u64_max); [|lia]. simpl. apply best_region_keep.
  eapply Forall_impl; [exact Hb|]. unfold below. simpl. intros. lia.
Qed.

Lemma aget_prefix {A} `{Inhabited A} n (x y : A) rest :
  (replicate n x ++ y :: rest).[Z.of_nat n] = y.
Proof.
  apply aget_lookup. rewrite Nat2Z.id. rewrite lookup_app_r by (by rewrite length_replicate).
  by rewrite length_replicate, Nat.sub_diag.
Qed.

Lemma aset_prefix {A} n (x y z : A) rest :
  (replicate n x ++ y :: rest).[Z.of_nat n := z] = replicate n x ++ z :: rest.
Proof.
  unfold aset. rewrite Nat2Z.id. rewrite insert_app_r_alt by (by rewrite length_replicate).
  by rewrite length_replicate, Nat.sub_diag.
Qed.

Lemma omap_prefix n (slot : option FreeRegion) rest :
  omap id (replicate n None ++ slot :: rest) =
  match slot with Some r => r :: omap id rest | None => omap id rest end.
Proof. induction n as [|n IH]; simpl; [by destruct slot|exact IH]. Qed.

(** The shape of an allocation from the first live region. *)
Lemma alloc_shape fa r tl :
  mem_inv fa → omap id (regions fa) = r :: tl →
  ∃ n rest, regions fa = replicate n None ++ Some r :: rest ∧ omap id rest = tl ∧
    alloc fa = (mkFA (replicate n None ++
      (if r_end r <=? r_start r + 1 then None else Some (mkRegion (r_start r + 1) (r_end r))) :: rest),
      Some (r_start r)).
Proof.
  intros (Hlen & Hwf & Hs) Hl. rewrite Hl in Hwf, Hs.
  destruct (first_live _ _ _ Hl) as (n & rest & Hrs & Htl). exists n, rest.
  split; [done|]. split; [done|].
  apply Forall_cons in Hwf as [Hwr Hwf]. apply StronglySorted_inv in Hs as [Hs Hb].
  assert (Hw : wrap 64 (r_start r + 1) = r_start r + 1).
  { apply wrap_id. unfold fits, region_wf, u64_max in *. lia. }
  unfold alloc. rewrite Hrs, best_region_first by (done || by rewrite Htl).
  rewrite aget_prefix, aset_prefix, Hw. done.
Qed.

Lemma alloc_empty fa : omap id (regions fa) = [] → alloc fa = (fa, None).
Proof. intros Hl. unfold alloc. rewrite best_region_keep; [done|]. by rewrite Hl. Qed.

Lemma alloc_law fa :
  mem_inv fa →
  mem_inv (alloc fa).1 ∧
  match (alloc fa).2 with
  | Some f => lowest (mem_set fa) f ∧ mem_set (alloc fa).1 = mem_set fa ∖ {[f]}
  | None => mem_set fa = ∅ ∧ mem_set (alloc fa).1 = ∅
  end.
Proof.
  intros Hinv. destruct (omap id (regions fa)) as [|r tl] eqn:Hl.
  - rewrite alloc_empty by done. unfold mem_set. simpl. by rewrite Hl.
  - destruct (alloc_shape fa r tl Hinv Hl) as (n & rest & Hrs & Htl & Ha).
    destruct Hinv as (Hlen & Hwf & Hs). rewrite Hl in Hwf, Hs.
    apply Forall_cons in Hwf as [Hwr Hwf]. apply StronglySorted_inv in Hs as [Hs Hb].
    pose proof Hwr as (Hr1 & Hr2 & Hr3). rewrite Ha. cbn [fst snd]. split; [|split].
    + split; [|split].
      * rewrite <- Hlen, Hrs. unfold zlen. cbn [regions]. by rewrite !length_app.
      * cbn [regions]. rewrite omap_prefix, Htl. destruct (Z.leb_spec (r_end r) (r_start r + 1)); [done|].
        apply Forall_cons. split; [|done]. unfold region_wf. simpl. lia.
      * cbn [regions]. rewrite omap_prefix, Htl. destruct (Z.leb_spec (r_end r) (r_start r + 1)); [done|].
        constructor; [done|]. exact Hb.
    + unfold mem_set. rewrite Hl. split.
      * rewrite elem_of_frames. exists r. split; [left|lia].
      * intros g (x & Hx & Hg)%elem_of_frames. apply elem_of_cons in Hx as [->|Hx]; [lia|].
        rewrite Forall_forall in Hb. specialize (Hb x Hx). unfold below in Hb. lia.
    + unfold mem_set. cbn [regions]. rewrite omap_prefix, Htl, Hl, frames_cons.
      assert (Hno : r_start r ∉ frames tl).
      { intros (x & Hx & Hg)%elem_of_frames. rewrite Forall_forall in Hb.
        specialize (Hb x Hx). unfold below in Hb. lia. }
      apply set_eq. intros g. rewrite elem_of_difference, elem_of_union, elem_of_region_frames,
        elem_of_singleton.
      destruct (Z.leb_spec (r_end r) (r_start r + 1)).
      * destruct (decide (g = r_start r)) as [->|]; [tauto|]. intuition lia.
      * rewrite frames_cons, elem_of_union, elem_of_region_frames. simpl.
        destruct (decide (g = r_start r)) as [->|]; [|intuition lia]. intuition lia.
Qed.

(** A frame just allocated can always be given back. *)
Lemma alloc_accepts fa f : mem_inv fa → (alloc fa).2 = Some f → accepts (alloc fa).1 f.
Proof.
  intros Hinv Hf. destruct (omap id (regions fa)) as [|r tl] eqn:Hl.
  - by rewrite alloc_empty in Hf.
  - destruct (alloc_shape fa r tl Hinv Hl) as (n & rest & _ & _ & Ha). rewrite Ha in *.
    simpl in Hf. injection Hf as <-. unfold accepts. cbn [fst regions]. right.
    destruct (r_end r <=? r_start r + 1).
    + left. apply elem_of_app. right. left.
    + right. eexists. split; [apply elem_of_app; right; left|]. by right.
Qed.

(** ** [free_count] *)

Definition total_len (rs : list FreeRegion) : Z := foldr (λ r n, region_len r + n) 0 rs.

Lemma region_len_wf r : region_wf r → region_len r = r_end r - r_start r.
Proof. unfold region_wf, region_len, sat_sub64. lia. Qed.

Lemma total_len_bound rs lo :
  Forall region_wf rs → StronglySorted below rs → Forall (λ r, lo <= r_start r) rs →
  lo <= u64_max → 0 <= total_len rs ∧ lo + total_len rs <= u64_max.
Proof.
  revert lo. induction rs as [|r rs IH]; intros lo Hw Hs Hlo Hmax; simpl; [lia|].
  apply Forall_cons in Hw as [Hr Hw]. apply StronglySorted_inv in Hs as [Hs Hb].
  apply Forall_cons in Hlo as [Hl Hlo]. rewrite region_len_wf by done.
  destruct (IH (r_end r)) as [H1 H2]; [done|done| |apply Hr|destruct Hr; lia].
  eapply Forall_impl; [exact Hb|]. unfold below. simpl. intros. lia.
Qed.

Lemma total_len_size rs :
  Forall region_wf rs → StronglySorted below rs → total_len rs = Z.of_nat (size (frames rs)).
Proof.
  induction rs as [|r rs IH]; intros Hw Hs; [done|].
  apply Forall_cons in Hw as [Hr Hw]. apply StronglySorted_inv in Hs as [Hs Hb].
  cbn [total_len foldr]. fold (total_len rs). rewrite IH by done. rewrite frames_cons, size_union.
  - unfold region_frames at 1. rewrite size_list_to_set by apply NoDup_seqZ.
    rewrite length_seqZ, region_len_wf by done. destruct Hr. lia.
  - intros g Hg%elem_of_region_frames (x & Hx & Hg')%elem_of_frames.
    rewrite Forall_forall in Hb. specialize (Hb x Hx). unfold below in Hb. lia.
Qed.

Lemma free_count_sum (rs : list (option FreeRegion)) c :
  Forall region_wf (omap id rs) → 0 <= c → c + total_len (omap id rs) <= u64_max →
  foldl (λ sum slot, match slot with Some r => wrap 64 (sum + region_len r) | None => sum end) c rs
  = c + total_len (omap id rs).
Proof.
  revert c. induction rs as [|[r|] rs IH]; intros c Hw Hc Hb; csimpl in *; [lia| |by apply IH].
  apply Forall_cons in Hw as [Hr Hw]. rewrite region_len_wf in * by done.
  assert (0 <= total_len (omap id rs)).
  { clear -Hw. induction (omap id rs) as [|x l IHl]; simpl; [done|].
    apply Forall_cons in Hw as [Hx Hw]. rewrite region_len_wf by done. destruct Hx.
    specialize (IHl Hw). lia. }
  rewrite wrap_id by (unfold fits, region_wf, u64_max in *; lia).
  rewrite IH; [lia|done|destruct Hr; lia|lia].
Qed.

Lemma free_count_law fa : mem_inv fa → free_count fa = Z.of_nat (size (mem_set fa)).
Proof.
  intros (_ & Hw & Hs). unfold free_count, mem_set. rewrite <- total_len_size by done.
  apply (free_count_sum _ 0); [done|lia|].
  apply (total_len_bound _ 0); [done|done| |unfold u64_max; lia].
  eapply Forall_impl; [exact Hw|]. intros r Hr. apply Hr.
Qed.

(** ** The interface *)

#[global] Instance memory_ops : FrameAllocOps FrameAllocator := {
  fa_inv := mem_inv;
  fa_set := mem_set;
  fa_frame _ f := 0 <= f < u64_max;
  fa_accepts := accepts;
  fa_alloc := alloc;
  fa_free := free;
  fa_count := free_count;
}.

#[global] Instance memory_laws : FrameAllocLaws FrameAllocator.
Proof.
  split; simpl.
  - apply alloc_law.
  - apply free_law.
  - intros fa f (_ & Hw & _) (r & Hr & Hf)%elem_of_mem_set. rewrite Forall_live in Hw.
    destruct (Hw r Hr). lia.
  - done.
  - done.
  - apply free_count_law.
Qed.

(** C16: the kernel's range-list allocator refines lowest-first allocation on a set of
    frames, like the bitmap model it mirrors. [alloc] returns the least free frame and
    removes exactly it, answering [None] exactly when nothing is free; [free] adds
    exactly the given frame (a double free changes nothing), unless the table has no
    slot left and no region is adjacent, when it changes nothing; [free_count] is the
    size of the set, without overflow; the table stays sorted, merged and disjoint. *)
Theorem range_list_refines (fa : FrameAllocator) (f : Z) :
  mem_inv fa → 0 <= f < u64_max →
  (mem_inv (alloc fa).1 ∧
   match (alloc fa).2 with
   | Some g => lowest (mem_set fa) g ∧ mem_set (alloc fa).1 = mem_set fa ∖ {[g]}
   | None => mem_set fa = ∅ ∧ mem_set (alloc fa).1 = ∅
   end) ∧
  (mem_inv (free fa f) ∧
   (accepts fa f → mem_set (free fa f) = {[f]} ∪ mem_set fa) ∧
   (¬ accepts fa f → mem_set (free fa f) = mem_set fa)) ∧
  free_count fa = Z.of_nat (size (mem_set fa)).
Proof.
  intros Hinv Hf. split; [by apply alloc_law|]. split; [by apply free_law|].
  by apply free_count_law.
Qed.

(** No physical frame has two owners. Over any sequence of kernel allocations and of
    frees of held frames, held and free frames stay disjoint and within the initial
    pool, an allocation never returns a held frame, and no frame is lost as long as
    every free is accepted. *)
Theorem range_list_exclusive (fa : FrameAllocator) (ops : list frame_op) :
  mem_inv fa →
  let c := client_run (fa, ∅) ops in
  c.2 ## mem_set c.1 ∧ (c.2 ∪ mem_set c.1) ⊆ mem_set fa ∧
  (∀ f, (alloc c.1).2 = Some f → (f ∉ c.2) ∧ lowest (mem_set c.1) f) ∧
  (all_accepted (fa, ∅) ops → free_count c.1 + Z.of_nat (size c.2) = free_count fa).
Proof. exact (client_exclusive fa ops). Qed.

(** ** [init] *)

Section init_proofs.
Context (MEMMAP_USABLE : Z).

Definition entry_ok (e : MemmapEntry) : Prop :=
  0 <= e_base e ∧ 0 <= e_length e ∧ fits 64 (e_base e + e_length e) ∧
  fits 64 (e_base e + 0xfff).

(** The frame lies wholly inside a usable entry and above the first MiB. *)
Definition usable_frame (e : MemmapEntry) (f : Z) : Prop :=
  e_type e = MEMMAP_USABLE ∧ 0x100 <= f ∧
  e_base e <= f * 0x1000 ∧ (f + 1) * 0x1000 <= e_base e + e_length e.

Lemma init_entry_spec fa e :
  weak_inv fa → entry_ok e →
  weak_inv (init_entry MEMMAP_USABLE fa e) ∧
  (∀ f, f ∈ mem_set (init_entry MEMMAP_USABLE fa e) → f ∈ mem_set fa ∨ usable_frame e f) ∧
  (None ∈ regions fa → ∀ f, f ∈ mem_set fa ∨ usable_frame e f →
     f ∈ mem_set (init_entry MEMMAP_USABLE fa e)).
Proof.
  intros Hweak (Hb & Hl & H1 & H2). unfold init_entry, usable_frame. rewrite !wrap_id by done.
  destruct (Z.eqb_spec (e_type e) MEMMAP_USABLE) as [Ht|Ht]; simpl.
  2:{ split; [done|]. split; [auto|]. intros _ f [?|[? _]]; done. }
  assert (Hdiv : ∀ f, Z.max ((e_base e + 4095) / 4096) 256 <= f < (e_base e + e_length e) / 4096 ↔
    256 <= f ∧ e_base e <= f * 4096 ∧ (f + 1) * 4096 <= e_base e + e_length e).
  { intros f. Z.div_mod_to_equations. lia. }
  destruct (Z.ltb_spec (Z.max ((e_base e + 4095) / 4096) 256) ((e_base e + e_length e) / 4096))
    as [Hlt|Hge].
  - unfold add_region. destruct (Z.leb_spec ((e_base e + e_length e) / 4096)
      (Z.max ((e_base e + 4095) / 4096) 256)); [lia|].
    edestruct (insert_region_spec fa (mkRegion (Z.max ((e_base e + 4095) / 4096) 256)
      ((e_base e + e_length e) / 4096))) as [Hw' Hset]; [done|..].
    { unfold region_ok, fits, u64_max in *. simpl. Z.div_mod_to_equations. lia. }
    split; [done|]. rewrite Hset. split.
    + intros f. case_decide; [|by auto].
      rewrite elem_of_union, elem_of_region_frames. simpl. rewrite Hdiv. tauto.
    + intros Hn f. rewrite decide_True by done.
      rewrite elem_of_union, elem_of_region_frames. simpl. rewrite Hdiv. tauto.
  - split; [done|]. split; [by auto|]. intros _ f [?|(_ & Hu)]; [done|].
    apply Hdiv in Hu. lia.
Qed.

Lemma insert_region_live fa r :
  (length (omap id (regions (insert_region fa r))) <= S (length (omap id (regions fa))))%nat.
Proof.
  unfold insert_region. destruct (position is_none (regions fa)) as [i|] eqn:Hp; [|lia].
  cbn [regions]. unfold aset. generalize (Z.to_nat i) as n. clear.
  induction (regions fa) as [|x l IH]; intros n; csimpl; [lia|].
  destruct n as [|n]; csimpl; [destruct x; simpl; lia|].
  specialize (IH n). destruct x; simpl; lia.
Qed.

Lemma init_entry_live fa e :
  (length (omap id (regions (init_entry MEMMAP_USABLE fa e))) <=
   S (length (omap id (regions fa))))%nat.
Proof.
  unfold init_entry, add_region. repeat case_match; try lia. apply insert_region_live.
Qed.

Lemma has_empty_slot (rs : list (option FreeRegion)) :
  (length (omap id rs) < length rs)%nat → None ∈ rs.
Proof.
  induction rs as [|[x|] rs IH]; csimpl; intros; [lia| |left]. right. apply IH. lia.
Qed.

Lemma init_fold fa es :
  weak_inv fa → Forall entry_ok es →
  let fa' := foldl (init_entry MEMMAP_USABLE) fa es in
  weak_inv fa' ∧
  (∀ f, f ∈ mem_set fa' → f ∈ mem_set fa ∨ ∃ e, e ∈ es ∧ usable_frame e f) ∧
  (Z.of_nat (length (omap id (regions fa))) + zlen es <= MAX_REGIONS →
     ∀ f, f ∈ mem_set fa ∨ (∃ e, e ∈ es ∧ usable_frame e f) → f ∈ mem_set fa').
Proof.
  revert fa. induction es as [|e es IH]; intros fa Hweak Hes; simpl.
  { split; [done|]. split; [auto|]. intros _ f [?|(e & He%elem_of_nil & _)]; done. }
  apply Forall_cons in Hes as [He Hes].
  destruct (init_entry_spec fa e Hweak He) as (Hw' & Hin & Hout).
  destruct (IH _ Hw' Hes) as (Hw'' & Hin' & Hout'). split; [done|]. split.
  - intros f Hf. destruct (Hin' f Hf) as [Hf'|(x & Hx & Hu)].
    + destruct (Hin f Hf') as [?|Hu]; [by left|]. right. exists e. split; [left|done].
    + right. exists x. split; [by right|done].
  - intros Hc f Hf. pose proof (init_entry_live fa e). unfold zlen in Hc. simpl in Hc.
    apply Hout'; [unfold zlen; lia|].
    assert (Hn : None ∈ regions fa).
    { apply has_empty_slot. destruct Hweak as [Hl _]. unfold zlen in Hl. lia. }
    destruct Hf as [Hf|(x & [->|Hx]%elem_of_cons & Hu)]; [left; auto..|]. right. eauto.
Qed.

(** Boot hands out only real memory. After [init], every frame the allocator owns
    lies wholly inside one usable entry of the memory map and above the first MiB,
    and, when the map has at most 64 entries, every such frame is owned; overlapping
    or touching entries are merged, so the set is as exact as the map. *)
Theorem init_exact (fa : FrameAllocator) (memmap : list MemmapEntry) :
  zlen (regions fa) = MAX_REGIONS → Forall entry_ok memmap →
  let fa' := init MEMMAP_USABLE fa memmap in
  mem_inv fa' ∧
  (∀ f, f ∈ mem_set fa' → ∃ e, e ∈ memmap ∧ usable_frame e f) ∧
  (zlen memmap <= MAX_REGIONS → ∀ e f, e ∈ memmap → usable_frame e f → f ∈ mem_set fa').
Proof.
  intros Hlen Hes fa'.
  destruct (init_fold (clear fa) memmap) as (Hw & Hin & Hout); [|done|].
  { split; [unfold clear; cbn [regions]; by rewrite zlen_replicate|by rewrite clear_live]. }
  destruct (coalesce_spec _ Hw) as [Hinv Hset]. unfold fa', init. rewrite Hset.
  split; [done|]. split.
  - intros f Hf. destruct (Hin f Hf) as [Hf'|?]; [|done].
    exfalso. unfold mem_set in Hf'. by rewrite clear_live in Hf'.
  - intros Hc e f He Hu. apply Hout; [by rewrite clear_live|]. eauto.
Qed.
End init_proofs.

(** ** Instances *)

(** A memory map with low memory, a reserved hole and two touching usable entries. *)
Definition demo_memmap : list MemmapEntry :=
  [mkEntry 0 0x9fc00 0; mkEntry 0x100000 0x3000 0; mkEntry 0x103000 0x1000 1;
   mkEntry 0x200000 0x1800 0; mkEntry 0x105800 0x2000 0].

Definition demo_fa : FrameAllocator := init 0 fa_empty demo_memmap.

Lemma demo_memmap_ok : Forall entry_ok demo_memmap.
Proof. repeat (apply Forall_cons; split; [by vm_compute|]). by apply Forall_nil. Qed.

Lemma demo_fa_inv : mem_inv demo_fa.
Proof.
  apply coalesce_spec, (init_fold 0); [|apply demo_memmap_ok].
  split; [reflexivity|]. by rewrite clear_live.
Qed.

Lemma demo_fa_accepts : accepts demo_fa 0x103.
Proof.
  assert (Hn : None ∈ regions demo_fa); [|unfold accepts; auto].
  apply has_empty_slot. apply Nat.ltb_lt. by vm_compute.
Qed.

Lemma range_list_refines_witness :
  (alloc demo_fa).2 = Some 0x100 ∧ lowest (mem_set demo_fa) 0x100 ∧
  Z.of_nat (size (mem_set demo_fa)) = 5 ∧
  mem_set (free demo_fa 0x103) = {[0x103]} ∪ mem_set demo_fa.
Proof.
  destruct (range_list_refines demo_fa 0x103 demo_fa_inv ltac:(by vm_compute))
    as ([_ Ha] & (_ & Hf & _) & Hc).
  assert (E : (alloc demo_fa).2 = Some 0x100) by by vm_compute.
  assert (Ec : free_count demo_fa = 5) by by vm_compute.
  rewrite E in Ha. rewrite Ec in Hc. split; [exact E|]. split; [exact (proj1 Ha)|].
  split; [symmetry; exact Hc|].
  exact (Hf demo_fa_accepts).
Defined.

Lemma range_list_exclusive_witness :
  let c := client_run (demo_fa, ∅) [FAlloc; FAlloc; FFree 0x100] in
  (alloc c.1).2 = Some 0x100 ∧ (0x100 ∉ c.2).
Proof.
  pose proof (range_list_exclusive demo_fa [FAlloc; FAlloc; FFree 0x100] demo_fa_inv)
    as (_ & _ & Hf & _).
  assert (E : (alloc (client_run (demo_fa, ∅) [FAlloc; FAlloc; FFree 0x100]).1).2 = Some 0x100)
    by by vm_compute.
  exact (conj E (proj1 (Hf 0x100 E))).
Defined.

Lemma demo_memmap_last : mkEntry 0x105800 0x2000 0 ∈ demo_memmap.
Proof. apply list_elem_of_lookup. by exists 4%nat. Qed.

Lemma demo_usable : usable_frame 0 (mkEntry 0x105800 0x2000 0) 0x106.
Proof. by vm_compute. Qed.

Lemma demo_memmap_small : zlen demo_memmap <= MAX_REGIONS.
Proof. by vm_compute. Qed.

Lemma init_exact_witness :
  mem_inv demo_fa ∧ 0x106 ∈ mem_set demo_fa.
Proof.
  destruct (init_exact 0 fa_empty demo_memmap eq_refl demo_memmap_ok) as (Hinv & _ & Hall).
  exact (conj Hinv (Hall demo_memmap_small _ _ demo_memmap_last demo_usable)).
Defined.
