(* ===== verification/Paging.v ===== *)
(** * Page tables ([kernel/src/paging.rs])

    The active hierarchy is a tree of 512-entry tables in physical memory, reached
    through the direct map, so a table access is an access to physical memory.
    [manual_map] and [unmap_page] walk and edit it by hand; the other operations go
    through the [Mapper] of the [x86_64] crate, which is a parameter: [Mapper] is what
    the kernel calls, [MapperLaws] the documented effect of those calls in terms of the
    hardware walk. TLB flushes follow every edit in the source and are not modelled. *)

From S2P Require Import Prelude FrameSpec Memory.

(** ** Physical memory and the hardware walk *)

(** CR3 and the 64-bit words of physical memory, by address. *)
Record PState := mkPS { cr3 : Z; pmem : gmap Z Z }.

Definition rd (m : gmap Z Z) (a : Z) : Z := default 0 (m !! a).
Definition wr (st : PState) (a v : Z) : PState := mkPS (cr3 st) (<[a := v]> (pmem st)).

Definition PTE_ADDR : Z := 0x000ffffffffff000.
Definition entry_present (e : Z) : bool := negb (Z.land e 1 =? 0).
Definition entry_huge (e : Z) : bool := Z.land (Z.shiftr e 7) 1 =? 1.
Definition entry_phys (e : Z) : Z := Z.land e PTE_ADDR.

(** The address of the entry for [va] in the table at [table_phys]. *)
Definition pte_at (table_phys va shift : Z) : Z :=
  table_phys + 8 * Z.land (Z.shiftr va shift) 0x1ff.

Definition page_of (va : Z) : Z := Z.land va (lnotw 64 0xfff).

(** L4, L3, L2: each must be a present, non-huge table; the physical address of the
    L1 table. *)
Fixpoint walk_tables (m : gmap Z Z) (table_phys va : Z) (shifts : list Z) : option Z :=
  match shifts with
  | [] => Some table_phys
  | shift :: shifts =>
      let e := rd m (pte_at table_phys va shift) in
      if negb (entry_present e) || entry_huge e then None
      else walk_tables m (entry_phys e) va shifts
  end.

(** The address of the L1 entry of [va]. *)
Definition l1_entry (st : PState) (va : Z) : option Z :=
  (λ t, pte_at t va 12) <$> walk_tables (pmem st) (cr3 st) va [39; 30; 21].

(** What the hardware finds for the page of [va]: its present L1 entry. *)
Definition translate (st : PState) (va : Z) : option Z :=
  match l1_entry st va with
  | Some a => let e := rd (pmem st) a in if entry_present e then Some e else None
  | None => None
  end.

(** The entries the walk of [va] reads above L1. *)
Fixpoint walk_path (m : gmap Z Z) (table_phys va : Z) (shifts : list Z) : list Z :=
  match shifts with
  | [] => []
  | shift :: shifts =>
      let a := pte_at table_phys va shift in
      let e := rd m a in
      a :: if negb (entry_present e) || entry_huge e then []
           else walk_path m (entry_phys e) va shifts
  end.

Definition upper (st : PState) (va : Z) : list Z := walk_path (pmem st) (cr3 st) va [39; 30; 21].

(** The 36 address bits the four levels consume. *)
Definition vpn (va : Z) : Z := Z.land (Z.shiftr va 12) (Z.ones 36).

(** The tables form a tree as far as L1 entries are concerned: an L1 entry is no entry
    of an upper level, and belongs to one page only. *)
Definition table_tree (st : PState) : Prop :=
  ∀ va va' a, l1_entry st va = Some a →
    (a ∉ upper st va') ∧ (l1_entry st va' = Some a → vpn va = vpn va').

(** No table of [st] lies in frame [f]. *)
Definition no_table (st : PState) (f : Z) : Prop :=
  ∀ va a, (a ∈ upper st va ∨ l1_entry st va = Some a) → ¬ (f * 4096 <= a < f * 4096 + 4096).

(** Free frames are below [2^52] (their byte address is a [u64]) and hold no table. *)
Definition tables_apart (st : PState) (fa : FrameAllocator) : Prop :=
  ∀ f, f ∈ mem_set fa → f < 2 ^ 52 ∧ no_table st f.

Definition pt_wf (st : PState) (fa : FrameAllocator) : Prop :=
  mem_inv fa ∧ table_tree st ∧ tables_apart st fa.

(** ** [manual_map] and [unmap_page] *)

(** [write_bytes(va, 0, 4096)] through the new mapping of [frame]. *)
Definition zero_page (st : PState) (frame : Z) : PState :=
  foldl (λ st i, wr st (frame + 8 * i) 0) st (seqZ 0 512).

Definition manual_map (st : PState) (fa : FrameAllocator) (va : Z) :
    PState * FrameAllocator * bool :=
  let va := page_of va in
  match walk_tables (pmem st) (cr3 st) va [39; 30; 21] with
  | None => (st, fa, false)
  | Some table_phys =>
      let a := pte_at table_phys va 12 in
      if entry_present (rd (pmem st) a) then (st, fa, true)
      else match alloc fa with
           | (fa, None) => (st, fa, false)
           | (fa, Some f) =>
               let frame := f * 4096 in
               (zero_page (wr st a (Z.lor frame 0x3)) frame, fa, true)
           end
  end.

Definition unmap_page (st : PState) (va : Z) : PState * bool :=
  let va := page_of va in
  match walk_tables (pmem st) (cr3 st) va [39; 30; 21] with
  | None => (st, false)
  | Some table_phys => (wr st (pte_at table_phys va 12) 0, true)
  end.

(** ** Page-table flags (architectural bits) *)

Definition PRESENT : Z := 1.
Definition WRITABLE : Z := 2.
Definition USER_ACCESSIBLE : Z := 4.
Definition NO_CACHE : Z := 16.
Definition NO_EXECUTE : Z := Z.shiftl 1 63.

Definition mmio_flags : Z := Z.lor PRESENT (Z.lor WRITABLE (Z.lor NO_CACHE NO_EXECUTE)).
Definition parent_flags : Z := Z.lor PRESENT (Z.lor WRITABLE USER_ACCESSIBLE).

(** The leaf flags of [map_user_page] and [map_user_phys]. *)
Definition user_leaf (writable exec no_cache : bool) : Z :=
  let leaf := Z.lor PRESENT USER_ACCESSIBLE in
  let leaf := if writable then Z.lor leaf WRITABLE else leaf in
  let leaf := if negb exec then Z.lor leaf NO_EXECUTE else leaf in
  if no_cache then Z.lor leaf NO_CACHE else leaf.

(** ** The crate's [Mapper] *)

Class Mapper := {
  (** [map_to_with_table_flags(page, frame, leaf, parent, frames)] *)
  map_to_with_table_flags : PState → FrameAllocator → Z → Z → Z → Z → PState * FrameAllocator * bool;
  (** [map_to(page, frame, flags, frames)] *)
  map_to : PState → FrameAllocator → Z → Z → Z → PState * FrameAllocator * bool;
  (** [translate_page(page).is_ok()] *)
  translate_page : PState → Z → bool;
}.

(** The documented effect of a mapping call on a sound hierarchy: it stays sound; on
    success the page, which was not mapped, translates to the frame with the flags and
    every other page translates as before; on failure no translation changes. New tables
    are placed only in frames taken from the allocator. *)
Definition map_effect (st st' : PState) (fa fa' : FrameAllocator) (page frame flags : Z) (ok : bool) : Prop :=
  pt_wf st' fa' ∧ mem_set fa' ⊆ mem_set fa ∧
  (∀ f, f ∉ mem_set fa → no_table st f → no_table st' f) ∧
  (∀ va, vpn va ≠ vpn page → translate st' va = translate st va) ∧
  if ok then translate st page = None ∧ translate st' page = Some (Z.lor frame flags)
  else translate st' page = translate st page.

(** A page, a frame and leaf flags as the crate's types carry them. *)
Definition map_args (page frame flags : Z) : Prop :=
  page_of page = page ∧ page_of frame = frame ∧ Z.testbit flags 0 = true.

Class MapperLaws `{Mapper} := {
  map_with_flags_law st fa page frame leaf parent st' fa' ok :
    pt_wf st fa → map_args page frame leaf →
    map_to_with_table_flags st fa page frame leaf parent = (st', fa', ok) →
    map_effect st st' fa fa' page frame leaf ok;
  map_to_law st fa page frame flags st' fa' ok :
    pt_wf st fa → map_args page frame flags →
    map_to st fa page frame flags = (st', fa', ok) →
    map_effect st st' fa fa' page frame flags ok;
  translate_page_law st page :
    translate_page st page = match translate st page with Some _ => true | None => false end;
}.

Section mapped_ops.
Context `{Mapper}.

Definition map_mmio (st : PState) (fa : FrameAllocator) (virt phys : Z) :
    PState * FrameAllocator * bool :=
  map_to st fa (page_of virt) (page_of phys) mmio_flags.

(** The loop of [map_mmio_range] over [n] pages from [pa]. *)
Fixpoint map_range_loop (st : PState) (fa : FrameAllocator) (hhdm pa : Z) (n : nat) :
    PState * FrameAllocator * bool :=
  match n with
  | O => (st, fa, true)
  | S n =>
      let page := page_of (hhdm + pa) in
      if translate_page st page then map_range_loop st fa hhdm (pa + 0x1000) n
      else
        match map_to st fa page pa mmio_flags with
        | (st, fa, true) => map_range_loop st fa hhdm (pa + 0x1000) n
        | (st, fa, false) => (st, fa, false)
        end
  end.

(** [first] to [last] in steps of a page. *)
Definition map_mmio_range (st : PState) (fa : FrameAllocator) (hhdm phys len : Z) :
    PState * FrameAllocator * option Z :=
  if len =? 0 then (st, fa, Some (hhdm + phys))
  else
    let first := page_of phys in
    let last := page_of (phys + len - 1) in
    let '(st, fa, ok) := map_range_loop st fa hhdm first (Z.to_nat ((last - first) / 0x1000 + 1)) in
    (st, fa, if ok then Some (hhdm + phys) else None).

Definition map_one_page (st : PState) (fa : FrameAllocator) (addr : Z) :
    PState * FrameAllocator * bool :=
  let page := page_of addr in
  if translate_page st page then (st, fa, true)
  else match alloc fa with
       | (fa, Some f) =>
           match map_to st fa page (f * 4096) (Z.lor PRESENT WRITABLE) with
           | (st, fa, true) => (zero_page st (f * 4096), fa, true)
           | (st, fa, false) => (st, fa, false)
           end
       | (fa, None) => (st, fa, false)
       end.

Definition map_user_page (st : PState) (fa : FrameAllocator) (virt : Z) (writable exec : bool) :
    PState * FrameAllocator * option Z :=
  match alloc fa with
  | (fa, None) => (st, fa, None)
  | (fa, Some fnum) =>
      match map_to_with_table_flags st fa (page_of virt) (fnum * 4096)
              (user_leaf writable exec false) parent_flags with
      | (st, fa, true) => (zero_page st (fnum * 4096), fa, Some fnum)
      | (st, fa, false) => (st, fa, None)
      end
  end.

Definition map_user_phys (st : PState) (fa : FrameAllocator) (virt phys : Z)
    (writable exec no_cache : bool) : PState * FrameAllocator * bool :=
  map_to_with_table_flags st fa (page_of virt) (page_of phys)
    (user_leaf writable exec no_cache) parent_flags.
End mapped_ops.

(** ** Address arithmetic *)

Lemma page_of_spec va i :
  0 <= i → Z.testbit (page_of va) i = Z.testbit va i && (12 <=? i) && (i <? 64).
Proof.
  intros Hi. unfold page_of, lnotw. rewrite Z.land_spec, Z.lxor_spec.
  change 0xfff with (Z.ones 12). rewrite !Z.testbit_ones by lia.
  destruct (Z.testbit va i), (Z.leb_spec 12 i), (Z.ltb_spec i 64), (Z.ltb_spec i 12),
    (Z.leb_spec 0 i); simpl; lia.
Qed.

Lemma index_spec va shift i :
  0 <= i → 0 <= shift →
  Z.testbit (Z.land (Z.shiftr va shift) 0x1ff) i = Z.testbit va (i + shift) && (i <? 9).
Proof.
  intros Hi Hs. change 0x1ff with (Z.ones 9).
  rewrite Z.land_spec, Z.shiftr_spec, Z.testbit_ones by lia.
  by rewrite (proj2 (Z.leb_le 0 i)).
Qed.

Lemma index_bound va shift : 0 <= Z.land (Z.shiftr va shift) 0x1ff < 512.
Proof. change 0x1ff with (Z.ones 9). rewrite land_pow2_bits by lia. apply Z.mod_pos_bound. lia. Qed.

Lemma vpn_spec va i : 0 <= i → Z.testbit (vpn va) i = Z.testbit va (i + 12) && (i <? 36).
Proof.
  intros Hi. unfold vpn. rewrite Z.land_spec, Z.shiftr_spec, Z.testbit_ones by lia.
  by rewrite (proj2 (Z.leb_le 0 i)).
Qed.

(** The four indices determine the page, and the page the indices. *)
Lemma vpn_index va va' shift :
  12 <= shift <= 39 → vpn va = vpn va' →
  Z.land (Z.shiftr va shift) 0x1ff = Z.land (Z.shiftr va' shift) 0x1ff.
Proof.
  intros Hs Hv. apply Z.bits_inj'. intros i Hi. rewrite !index_spec by lia.
  destruct (Z.ltb_spec i 9); [|by rewrite !andb_false_r]. f_equal.
  assert (Hb : Z.testbit (vpn va) (i + shift - 12) = Z.testbit (vpn va') (i + shift - 12)) by by rewrite Hv.
  rewrite !vpn_spec, (proj2 (Z.ltb_lt (i + shift - 12) 36)), !andb_true_r in Hb by lia.
  by replace (i + shift - 12 + 12) with (i + shift) in Hb by lia.
Qed.

Lemma index_vpn va va' :
  (∀ shift, shift ∈ [39; 30; 21; 12] →
    Z.land (Z.shiftr va shift) 0x1ff = Z.land (Z.shiftr va' shift) 0x1ff) → vpn va = vpn va'.
Proof.
  intros Hs. apply Z.bits_inj'. intros i Hi. rewrite !vpn_spec by lia.
  destruct (Z.ltb_spec i 36); [|by rewrite !andb_false_r]. f_equal.
  assert (Hall : ∀ shift, shift ∈ [39; 30; 21; 12] → 0 <= i + 12 - shift < 9 →
    Z.testbit va (i + 12) = Z.testbit va' (i + 12)).
  { intros shift Hsh Hr.
    assert (0 <= shift) by (rewrite !elem_of_cons, elem_of_nil in Hsh; lia).
    assert (Hb := f_equal (λ x, Z.testbit x (i + 12 - shift)) (Hs shift Hsh)). cbv beta in Hb.
    rewrite !index_spec, (proj2 (Z.ltb_lt (i + 12 - shift) 9)), !andb_true_r in Hb by lia.
    by replace (i + 12 - shift + shift) with (i + 12) in Hb by lia. }
  destruct (Z.ltb_spec i 9); [apply (Hall 12); [set_solver|lia]|].
  destruct (Z.ltb_spec i 18); [apply (Hall 21); [set_solver|lia]|].
  destruct (Z.ltb_spec i 27); [apply (Hall 30); [set_solver|lia]|].
  apply (Hall 39); [set_solver|lia].
Qed.

Lemma vpn_page_of va : vpn (page_of va) = vpn va.
Proof.
  apply Z.bits_inj'. intros i Hi. rewrite !vpn_spec, page_of_spec by lia.
  destruct (Z.ltb_spec i 36); [|by rewrite !andb_false_r].
  by rewrite (proj2 (Z.leb_le 12 (i + 12))), (proj2 (Z.ltb_lt (i + 12) 64)), !andb_true_r by lia.
Qed.

Lemma page_of_frame f : 0 <= f < 2 ^ 52 → page_of (f * 4096) = f * 4096.
Proof.
  intros Hf. apply Z.bits_inj'. intros i Hi. rewrite page_of_spec by done.
  change 4096 with (2 ^ 12). rewrite <- Z.shiftl_mul_pow2 by lia.
  rewrite Z.shiftl_spec by done.
  destruct (Z.leb_spec 12 i); [|rewrite Z.testbit_neg_r by lia; done].
  destruct (Z.ltb_spec i 64); [by rewrite !andb_true_r|].
  rewrite (fits_testbit 52) by (unfold fits; lia). done.
Qed.

Lemma page_of_idem va : page_of (page_of va) = page_of va.
Proof.
  apply Z.bits_inj'. intros i Hi. rewrite !page_of_spec by done.
  destruct (Z.testbit va i), (12 <=? i), (i <? 64); done.
Qed.

(** ** The walk *)

Lemma rd_insert m a v b : rd (<[a := v]> m) b = if decide (a = b) then v else rd m b.
Proof. unfold rd. destruct (decide (a = b)) as [->|]; by rewrite ?lookup_insert_eq, ?lookup_insert_ne. Qed.

(** A walk depends on the entries it reads, and on the page. *)
Lemma walk_agree m m' t va va' shifts :
  vpn va = vpn va' → Forall (λ s, 12 <= s <= 39) shifts →
  (∀ a, a ∈ walk_path m t va shifts → rd m' a = rd m a) →
  walk_tables m' t va' shifts = walk_tables m t va shifts ∧
  walk_path m' t va' shifts = walk_path m t va shifts.
Proof.
  intros Hv. revert t. induction shifts as [|s shifts IH]; intros t Hs Ha; [done|].
  apply Forall_cons in Hs as [Hs Hss]. simpl in *.
  assert (He : pte_at t va' s = pte_at t va s)
    by (unfold pte_at; by rewrite (vpn_index va va' s)).
  rewrite He, (Ha (pte_at t va s)) by set_solver.
  destruct (negb (entry_present (rd m (pte_at t va s))) || entry_huge (rd m (pte_at t va s)))
    eqn:Hp; [done|].
  destruct (IH (entry_phys (rd m (pte_at t va s))) Hss) as [-> ->]; [|done].
  intros a Hin. apply Ha. by apply elem_of_cons; right.
Qed.

Lemma shifts_ok : Forall (λ s, 12 <= s <= 39) [39; 30; 21].
Proof. repeat constructor; lia. Qed.

Lemma l1_agree st st' va va' :
  cr3 st' = cr3 st → vpn va = vpn va' →
  (∀ a, a ∈ upper st va → rd (pmem st') a = rd (pmem st) a) →
  l1_entry st' va' = l1_entry st va ∧ upper st' va' = upper st va.
Proof.
  intros Hc Hv Ha. unfold l1_entry, upper. rewrite Hc.
  destruct (walk_agree (pmem st) (pmem st') (cr3 st) va va' [39; 30; 21] Hv shifts_ok Ha) as [-> ->].
  split; [|done]. destruct (walk_tables (pmem st) (cr3 st) va [39; 30; 21]); [|done]. simpl.
  unfold pte_at. by rewrite (vpn_index va va' 12).
Qed.

Lemma l1_same_page st va va' :
  vpn va = vpn va' → l1_entry st va' = l1_entry st va ∧ upper st va' = upper st va.
Proof. intros Hv. by apply l1_agree. Qed.

Lemma translate_same_page st va va' : vpn va = vpn va' → translate st va' = translate st va.
Proof. intros Hv. unfold translate. by rewrite (proj1 (l1_same_page st va va' Hv)). Qed.

(** Writing an L1 entry of a sound hierarchy moves no table and changes one page. *)
Lemma wr_l1 st a v va :
  table_tree st → l1_entry st va = Some a →
  (∀ va', l1_entry (wr st a v) va' = l1_entry st va' ∧ upper (wr st a v) va' = upper st va') ∧
  (∀ va', translate (wr st a v) va' =
    if decide (vpn va' = vpn va) then (if entry_present v then Some v else None)
    else translate st va').
Proof.
  intros Ht Hl.
  assert (Hsame : ∀ va', l1_entry (wr st a v) va' = l1_entry st va' ∧ upper (wr st a v) va' = upper st va').
  { intros va'. apply l1_agree; [done..|]. intros b Hb. simpl. rewrite rd_insert.
    destruct (decide (a = b)) as [->|]; [|done]. by destruct (Ht va va' b Hl). }
  split; [done|]. intros va'. unfold translate. rewrite (proj1 (Hsame va')).
  destruct (decide (vpn va' = vpn va)) as [Hv|Hv].
  - rewrite (proj1 (l1_same_page st va va' (eq_sym Hv))), Hl. simpl. rewrite rd_insert.
    by rewrite decide_True.
  - destruct (l1_entry st va') as [b|] eqn:Hb; [|done]. simpl. rewrite rd_insert.
    rewrite decide_False; [done|]. intros <-. destruct (Ht va va' a Hl) as [_ He]. by apply Hv, eq_sym, He.
Qed.

Lemma wr_l1_wf st fa a v va :
  pt_wf st fa → l1_entry st va = Some a → pt_wf (wr st a v) fa.
Proof.
  intros (Hm & Ht & Hf) Hl. destruct (wr_l1 st a v va Ht Hl) as [Hs _].
  split; [done|]. split.
  - intros va1 va2 b. rewrite (proj1 (Hs va1)), (proj1 (Hs va2)), (proj2 (Hs va2)). apply Ht.
  - intros f Hin. destruct (Hf f Hin) as [? Hap]. split; [done|]. intros va1 b.
    rewrite (proj1 (Hs va1)), (proj2 (Hs va1)). apply Hap.
Qed.

Lemma unmap_page_l1 st va :
  unmap_page st va = match l1_entry st va with Some a => (wr st a 0, true) | None => (st, false) end.
Proof.
  unfold unmap_page. rewrite <- (proj1 (l1_same_page st va (page_of va) (eq_sym (vpn_page_of va)))).
  unfold l1_entry. by destruct (walk_tables (pmem st) (cr3 st) (page_of va) [39; 30; 21]).
Qed.

(** [unmap_page] on a sound hierarchy, for the components that use it. *)
Lemma unmap_page_effect st fa va st' ok :
  pt_wf st fa → unmap_page st va = (st', ok) →
  pt_wf st' fa ∧ translate st' va = None ∧
  (∀ va', vpn va' ≠ vpn va → translate st' va' = translate st va').
Proof.
  intros Hwf Hu. rewrite unmap_page_l1 in Hu.
  destruct (l1_entry st va) as [a|] eqn:Hl; simplify_eq.
  - destruct (wr_l1 st a 0 va (proj1 (proj2 Hwf)) Hl) as [_ Htr].
    split; [by eapply wr_l1_wf|]. split; [by rewrite Htr, decide_True|].
    intros va' Hv. by rewrite Htr, decide_False.
  - split; [done|]. split; [|done]. unfold translate. by rewrite Hl.
Qed.

(** ** Zeroing a fresh frame *)

Lemma zero_words_rd st frame l a :
  (Exists (λ i, a = frame + 8 * i) l → rd (pmem (foldl (λ st i, wr st (frame + 8 * i) 0) st l)) a = 0) ∧
  (¬ Exists (λ i, a = frame + 8 * i) l →
    rd (pmem (foldl (λ st i, wr st (frame + 8 * i) 0) st l)) a = rd (pmem st) a).
Proof.
  induction l as [|i l IH] using rev_ind; [split; [by intros ?%Exists_nil|done]|].
  rewrite foldl_app. cbn [foldl wr pmem]. rewrite rd_insert, Exists_app, Exists_cons, Exists_nil.
  destruct IH as [IH1 IH2]. destruct (decide (frame + 8 * i = a)); intuition congruence.
Qed.

Lemma zero_page_cr3 st frame l : cr3 (foldl (λ st i, wr st (frame + 8 * i) 0) st l) = cr3 st.
Proof. revert st. induction l as [|i l IH]; intros st; [done|]. simpl. by rewrite IH. Qed.

(** All 512 words of the frame are zero. *)
Definition zeroed (st : PState) (frame : Z) : Prop :=
  ∀ i, 0 <= i < 512 → rd (pmem st) (frame + 8 * i) = 0.

(** Writing inside a frame without tables moves no table and no translation. *)
Lemma outside_tables st st' f :
  no_table st f → cr3 st' = cr3 st →
  (∀ a, ¬ (f * 4096 <= a < f * 4096 + 4096) → rd (pmem st') a = rd (pmem st) a) →
  ∀ va, l1_entry st' va = l1_entry st va ∧ upper st' va = upper st va ∧ translate st' va = translate st va.
Proof.
  intros Hno Hc Hout va.
  assert (Hrd : ∀ a, (a ∈ upper st va ∨ l1_entry st va = Some a) → rd (pmem st') a = rd (pmem st) a).
  { intros a Ha. apply Hout. by apply (Hno va). }
  destruct (l1_agree st st' va va) as [Hl Hu]; [done|done|by eauto|].
  split; [done|]. split; [done|]. unfold translate. rewrite Hl.
  destruct (l1_entry st va) as [a|] eqn:Ha; [|done]. by rewrite (Hrd a) by by right.
Qed.

Lemma zero_page_effect st f :
  no_table st f →
  zeroed (zero_page st (f * 4096)) (f * 4096) ∧
  ∀ va, l1_entry (zero_page st (f * 4096)) va = l1_entry st va ∧
    upper (zero_page st (f * 4096)) va = upper st va ∧
    translate (zero_page st (f * 4096)) va = translate st va.
Proof.
  intros Hno. unfold zeroed, zero_page. split.
  { intros i Hi. apply zero_words_rd, Exists_exists. exists i. by rewrite elem_of_seqZ. }
  apply (outside_tables st _ f Hno); [apply zero_page_cr3|].
  intros a Ha. apply zero_words_rd. intros (i & Hi%elem_of_seqZ & ->)%Exists_exists. lia.
Qed.

#[global] Opaque zero_page.

(** Soundness depends only on the positions of the tables and on the free set. *)
Lemma pt_wf_ext st st' fa fa' :
  (∀ va, l1_entry st' va = l1_entry st va ∧ upper st' va = upper st va) →
  mem_inv fa' → mem_set fa' ⊆ mem_set fa → pt_wf st fa → pt_wf st' fa'.
Proof.
  intros Hs Hm' Hsub (Hm & Ht & Hf). split; [done|]. split.
  - intros va1 va2 b. rewrite (proj1 (Hs va1)), (proj1 (Hs va2)), (proj2 (Hs va2)). apply Ht.
  - intros f Hin. destruct (Hf f (Hsub f Hin)) as [? Hap]. split; [done|]. intros va1 b.
    rewrite (proj1 (Hs va1)), (proj2 (Hs va1)). apply Hap.
Qed.

(** Taking a frame from a sound state. *)
Lemma alloc_wf st fa fa' r :
  pt_wf st fa → alloc fa = (fa', r) →
  pt_wf st fa' ∧
  match r with
  | Some f => lowest (mem_set fa) f ∧ mem_set fa' = mem_set fa ∖ {[f]} ∧ 0 <= f < 2 ^ 52 ∧ no_table st f
  | None => mem_set fa = ∅ ∧ mem_set fa' = ∅
  end.
Proof.
  intros Hwf Ha. destruct Hwf as (Hm & Ht & Hf). pose proof (alloc_law fa Hm) as [Hm' Hr].
  rewrite Ha in Hm', Hr. simpl in *. split.
  - apply (pt_wf_ext st st fa fa'); [done..| |done]. destruct r; set_solver.
  - destruct r as [f|]; [|done]. destruct Hr as [Hlow Hset]. split; [done|]. split; [done|].
    destruct (Hf f (proj1 Hlow)) as [Hlt Hap]. split; [|done]. split; [|done].
    destruct Hlow as [Hin _]. apply elem_of_mem_set in Hin as (r & Hr & Hrange).
    destruct Hm as (_ & Hw & _). rewrite Forall_live in Hw. specialize (Hw r Hr) as (? & _). lia.
Qed.

(** ** The kernel's own edits *)

(** On a sound hierarchy [manual_map] succeeds exactly when the page is already
    mapped, and then changes nothing, or when the three upper tables exist and a frame is
    free: it then takes the lowest free frame, maps the page to it present and writable
    and leaves it zeroed. A failure changes nothing, and no other page is ever affected. *)
Theorem manual_map_spec st fa va st' fa' ok :
  pt_wf st fa → manual_map st fa va = (st', fa', ok) →
  pt_wf st' fa' ∧
  (∀ va', vpn va' ≠ vpn va → translate st' va' = translate st va') ∧
  match translate st va with
  | Some e => ok = true ∧ st' = st ∧ fa' = fa
  | None =>
      if ok then ∃ f, lowest (mem_set fa) f ∧ mem_set fa' = mem_set fa ∖ {[f]} ∧
        translate st' va = Some (Z.lor (f * 4096) 0x3) ∧ zeroed st' (f * 4096)
      else st' = st ∧ mem_set fa' = mem_set fa ∧ (l1_entry st va = None ∨ mem_set fa = ∅)
  end.
Proof.
  intros Hwf Hm. unfold manual_map in Hm.
  pose proof (l1_same_page st (page_of va) va (vpn_page_of va)) as [Hl _].
  assert (Htv : translate st va = match l1_entry st (page_of va) with
    | Some a => if entry_present (rd (pmem st) a) then Some (rd (pmem st) a) else None
    | None => None end) by (unfold translate; by rewrite Hl).
  unfold l1_entry in Hl, Htv at 1.
  destruct (walk_tables (pmem st) (cr3 st) (page_of va) [39; 30; 21]) as [t|] eqn:Hw;
    simpl in Hm, Hl, Htv; [|simplify_eq; rewrite Htv; by auto 10].
  set (a := pte_at t (page_of va) 12) in *.
  destruct (entry_present (rd (pmem st) a)); [simplify_eq; by rewrite Htv|].
  rewrite Htv. assert (Hla : l1_entry st va = Some a) by done. clear Hl. clearbody a.
  destruct (alloc fa) as [fa1 r] eqn:Ha. destruct (alloc_wf st fa fa1 r Hwf Ha) as [Hwf1 Hr].
  destruct r as [f|]; injection Hm as <- <- <-.
  2: { destruct Hr as [-> ->]. auto 10. }
  destruct Hr as (Hlow & Hset & Hrange & Hno).
  destruct (wr_l1 st a (Z.lor (f * 4096) 0x3) va (proj1 (proj2 Hwf)) Hla) as [Hsame Htr].
  set (st1 := wr st a (Z.lor (f * 4096) 0x3)) in *.
  assert (Hno1 : no_table st1 f).
  { intros va1 b. rewrite (proj1 (Hsame va1)), (proj2 (Hsame va1)). apply Hno. }
  destruct (zero_page_effect st1 f Hno1) as [Hz Hzs].
  split; [|split].
  - apply (pt_wf_ext st1 _ fa1 fa1); [|by apply Hwf1|done|by apply (wr_l1_wf _ _ _ _ va)].
    intros va1. destruct (Hzs va1) as (H1 & H2 & _). exact (conj H1 H2).
  - intros va1 Hv. rewrite (proj2 (proj2 (Hzs va1))), Htr, decide_False by done. done.
  - exists f. split; [done|]. split; [done|]. split; [|done].
    rewrite (proj2 (proj2 (Hzs va))), Htr, decide_True by done.
    assert (Hp : entry_present (Z.lor (f * 4096) 3) = true); [|by rewrite Hp].
    unfold entry_present. apply negb_true_iff, Z.eqb_neq. intros H0.
    assert (Hb := f_equal (λ x, Z.testbit x 0) H0). cbv beta in Hb.
    rewrite Z.land_spec, Z.lor_spec, orb_true_r in Hb. done.
Qed.

(** ** Mappings made through the crate *)

(** The bits of the leaf flags: present, user, and W, NX and PCD as asked. *)
Lemma user_leaf_bits w x nc :
  let e := user_leaf w x nc in
  Z.testbit e 0 = true ∧ Z.testbit e 1 = w ∧ Z.testbit e 2 = true ∧ Z.testbit e 4 = nc ∧
  Z.testbit e 63 = negb x ∧ Z.land e PTE_ADDR = 0.
Proof. by destruct w, x, nc. Qed.

Lemma page_of_bit phys i : 0 <= i < 12 ∨ 64 <= i → Z.testbit (page_of phys) i = false.
Proof.
  intros Hi. rewrite page_of_spec by lia.
  destruct (Z.leb_spec 12 i), (Z.ltb_spec i 64), (Z.testbit phys i); simpl; lia.
Qed.

Lemma entry_phys_lor phys flags :
  fits 52 phys → Z.land flags PTE_ADDR = 0 → entry_phys (Z.lor (page_of phys) flags) = page_of phys.
Proof.
  intros Hp Hf. unfold entry_phys. rewrite Z.land_lor_distr_l, Hf, Z.lor_0_r.
  change PTE_ADDR with (Z.shiftl (Z.ones 40) 12).
  apply Z.bits_inj'. intros i Hi. rewrite Z.land_spec, Z.shiftl_spec, Z.testbit_ones by lia.
  destruct (Z.ltb_spec i 12); [by rewrite (page_of_bit phys i) by lia|].
  destruct (Z.ltb_spec i 52).
  - rewrite (proj2 (Z.leb_le 0 (i - 12))), (proj2 (Z.ltb_lt (i - 12) 40)) by lia. by rewrite andb_true_r.
  - rewrite page_of_spec, (fits_testbit 52) by (done || lia). done.
Qed.

(** What a leaf entry grants ring 3. *)
Definition grants (e phys : Z) (writable exec no_cache : bool) : Prop :=
  entry_phys e = page_of phys ∧ Z.testbit e 2 = true ∧ Z.testbit e 1 = writable ∧
  Z.testbit e 63 = negb exec ∧ Z.testbit e 4 = no_cache.

Lemma user_leaf_grants phys w x nc :
  fits 52 phys → grants (Z.lor (page_of phys) (user_leaf w x nc)) phys w x nc.
Proof.
  intros Hp. destruct (user_leaf_bits w x nc) as (_ & H1 & H2 & H4 & H63 & Ha).
  split; [by apply entry_phys_lor|].
  rewrite !Z.lor_spec, (page_of_bit phys 1), (page_of_bit phys 2), (page_of_bit phys 4) by lia.
  rewrite (page_of_spec phys 63), (fits_testbit 52 phys 63), H1, H2, H4, H63 by (done || lia). done.
Qed.

Lemma vpn_frame n : vpn (n * 4096) = n mod 2 ^ 36.
Proof.
  unfold vpn. rewrite land_pow2_bits by lia. f_equal.
  rewrite Z.shiftr_div_pow2 by lia. by rewrite Z.div_mul.
Qed.

Lemma vpn_frame_inj n i :
  0 < i < 2 ^ 36 → vpn ((n + i) * 4096) ≠ vpn (n * 4096).
Proof.
  rewrite !vpn_frame. intros Hi Heq.
  assert (Hd : i mod 2 ^ 36 = 0).
  { replace i with (n + i - n) by lia. rewrite Zminus_mod, Heq, Z.sub_diag. done. }
  rewrite Z.mod_small in Hd; lia.
Qed.

Lemma page_of_div va : fits 64 va → page_of va = va / 4096 * 4096.
Proof.
  intros Hv. apply Z.bits_inj'. intros i Hi. rewrite page_of_spec by done.
  change 4096 with (2 ^ 12). rewrite <- Z.shiftr_div_pow2, <- Z.shiftl_mul_pow2 by lia.
  rewrite Z.shiftl_spec by done.
  destruct (Z.leb_spec 12 i); [|rewrite (Z.testbit_neg_r _ (i - 12)), andb_false_r by lia; done].
  rewrite Z.shiftr_spec by lia. replace (i - 12 + 12) with i by lia.
  destruct (Z.ltb_spec i 64); [by rewrite !andb_true_r|].
  by rewrite (fits_testbit 64) by (done || lia).
Qed.

Section mapper_laws.
Context `{MapperLaws}.

(** [map_user_phys] on a sound state, for the components that use it. *)
Lemma map_user_phys_effect st fa virt phys w x nc st' fa' ok :
  pt_wf st fa → fits 52 phys → map_user_phys st fa virt phys w x nc = (st', fa', ok) →
  pt_wf st' fa' ∧ mem_set fa' ⊆ mem_set fa ∧
  (∀ va, vpn va ≠ vpn virt → translate st' va = translate st va) ∧
  if ok then translate st virt = None ∧ ∃ e, translate st' virt = Some e ∧ grants e phys w x nc
  else translate st' virt = translate st virt.
Proof.
  intros Hwf Hp Hm. destruct (map_with_flags_law _ _ _ _ _ _ _ _ _ Hwf
    (conj (page_of_idem virt) (conj (page_of_idem phys) (proj1 (user_leaf_bits w x nc)))) Hm)
    as (Hwf' & Hsub & _ & Hoth & Hok).
  rewrite vpn_page_of, !(translate_same_page _ _ _ (eq_sym (vpn_page_of virt))) in *.
  split; [done|]. split; [done|]. split; [done|].
  destruct ok; [|done]. destruct Hok as [? ?]. split; [done|]. eexists. split; [done|].
  by apply user_leaf_grants.
Qed.


(** [map_user_page] hands out the lowest free frame, zeroed and mapped user-accessible
    with the asked W and X bits; when the mapping step fails, no translation has changed
    but the frame is gone from the allocator. *)
Theorem map_user_page_spec st fa virt w x st' fa' r :
  pt_wf st fa → map_user_page st fa virt w x = (st', fa', r) →
  pt_wf st' fa' ∧
  (∀ va, vpn va ≠ vpn virt → translate st' va = translate st va) ∧
  match r with
  | Some f => lowest (mem_set fa) f ∧ (f ∉ mem_set fa') ∧ zeroed st' (f * 4096) ∧
      translate st virt = None ∧
      translate st' virt = Some (Z.lor (f * 4096) (user_leaf w x false))
  | None => translate st' virt = translate st virt ∧
      (mem_set fa = ∅ ∨ ∃ f, lowest (mem_set fa) f ∧ mem_set fa' ⊆ mem_set fa ∖ {[f]})
  end.
Proof.
  intros Hwf Hm. unfold map_user_page in Hm.
  destruct (alloc fa) as [fa1 [f|]] eqn:Ha;
    destruct (alloc_wf st fa fa1 _ Hwf Ha) as [Hwf1 Hr]; [|by simplify_eq; intuition].
  destruct Hr as (Hlow & Hset & Hrange & Hno).
  destruct (map_to_with_table_flags st fa1 (page_of virt) (f * 4096) (user_leaf w x false) parent_flags)
    as [[st1 fa2] ok] eqn:Hmap.
  destruct (map_with_flags_law _ _ _ _ _ _ _ _ _ Hwf1 (conj (page_of_idem virt)
    (conj (page_of_frame f Hrange) (proj1 (user_leaf_bits w x false)))) Hmap)
    as (Hwf2 & Hsub & Hnew & Hoth & Hok).
  rewrite vpn_page_of, !(translate_same_page _ _ _ (eq_sym (vpn_page_of virt))) in *.
  destruct ok; injection Hm as <- <- <-.
  - assert (Hno1 : no_table st1 f) by (apply Hnew; [set_solver|done]).
    destruct (zero_page_effect st1 f Hno1) as [Hz Hzs]. split; [|split].
    + apply (pt_wf_ext st1 _ fa2 fa2); [|by apply Hwf2|done..].
      intros va. destruct (Hzs va) as (H1 & H2 & _). exact (conj H1 H2).
    + intros va Hv. rewrite (proj2 (proj2 (Hzs va))). by apply Hoth.
    + rewrite (proj2 (proj2 (Hzs virt))). destruct Hok as [H1 H2].
      split; [exact Hlow|]. split; [set_solver|]. split; [exact Hz|]. split; [exact H1|exact H2].
  - split; [done|]. split; [done|]. split; [done|]. right. exists f. split; [done|]. set_solver.
Qed.

(** Where [map_user_page] leaves tables: only in frames it took, and never in the page. *)
Lemma map_user_page_tables st fa virt w x st' fa' r :
  pt_wf st fa → map_user_page st fa virt w x = (st', fa', r) →
  mem_set fa' ⊆ mem_set fa ∧ (∀ g, g ∉ mem_set fa → no_table st g → no_table st' g) ∧
  ∀ f, r = Some f → no_table st' f ∧ 0 <= f < 2 ^ 52.
Proof.
  intros Hwf Hm. unfold map_user_page in Hm.
  destruct (alloc fa) as [fa1 [f|]] eqn:Ha;
    destruct (alloc_wf st fa fa1 _ Hwf Ha) as [Hwf1 Hr]; [|simplify_eq; set_solver].
  destruct Hr as (Hlow & Hset & Hrange & Hno).
  destruct (map_to_with_table_flags st fa1 (page_of virt) (f * 4096) (user_leaf w x false) parent_flags)
    as [[st1 fa2] ok] eqn:Hmap.
  destruct (map_with_flags_law _ _ _ _ _ _ _ _ _ Hwf1 (conj (page_of_idem virt)
    (conj (page_of_frame f Hrange) (proj1 (user_leaf_bits w x false)))) Hmap)
    as (_ & Hsub & Hnew & _).
  destruct ok; injection Hm as <- <- <-; [|split; [set_solver|]; split; [set_solver|done]].
  assert (Hno1 : no_table st1 f) by (apply Hnew; [set_solver|done]).
  destruct (zero_page_effect st1 f Hno1) as [_ Hz].
  assert (Hkeep : ∀ g, no_table st1 g → no_table (zero_page st1 (f * 4096)) g).
  { intros g Hg va a. destruct (Hz va) as (-> & -> & _). apply Hg. }
  split; [set_solver|]. split; [|intros ? [= <-]; auto]. intros g Hg Hgt. apply Hkeep, Hnew; [set_solver|done].
Qed.

(** [n] pages from frame [p], seen through the direct map based at page [h]. *)
Lemma map_range_effect h p n st fa st' fa' :
  pt_wf st fa → 0 <= h → 0 <= p → h + p + Z.of_nat n <= 2 ^ 52 → Z.of_nat n <= 2 ^ 36 →
  map_range_loop st fa (h * 4096) (p * 4096) n = (st', fa', true) →
  pt_wf st' fa' ∧ (∀ va e, translate st va = Some e → translate st' va = Some e) ∧
  ∀ i, 0 <= i < Z.of_nat n →
    translate st' ((h + p + i) * 4096) =
      Some (default (Z.lor ((p + i) * 4096) mmio_flags) (translate st ((h + p + i) * 4096))).
Proof.
  intros Hwf Hh. revert p st fa Hwf. induction n as [|n IH]; intros p st fa Hwf Hp Hlim Hn Hm.
  { simpl in Hm. simplify_eq. split; [done|]. split; [done|]. lia. }
  cbn [map_range_loop] in Hm.
  replace (h * 4096 + p * 4096) with ((h + p) * 4096) in Hm by lia.
  replace (p * 4096 + 4096) with ((p + 1) * 4096) in Hm by lia.
  rewrite page_of_frame, translate_page_law in Hm by lia.
  assert (Hstep : ∀ st1 fa1, pt_wf st1 fa1 →
    map_range_loop st1 fa1 (h * 4096) ((p + 1) * 4096) n = (st', fa', true) →
    (∀ va, vpn va ≠ vpn ((h + p) * 4096) → translate st1 va = translate st va) →
    translate st1 ((h + p) * 4096) =
      Some (default (Z.lor (p * 4096) mmio_flags) (translate st ((h + p) * 4096))) →
    pt_wf st' fa' ∧ (∀ va e, translate st va = Some e → translate st' va = Some e) ∧
    ∀ i, 0 <= i < Z.of_nat (S n) →
    translate st' ((h + p + i) * 4096) =
      Some (default (Z.lor ((p + i) * 4096) mmio_flags) (translate st ((h + p + i) * 4096)))).
  { intros st1 fa1 Hwf1 Hl Hoth Hpage.
    destruct (IH (p + 1) st1 fa1 Hwf1 ltac:(lia) ltac:(lia) ltac:(lia) Hl) as (Hwf' & Hmono & Hall).
    split; [done|]. split.
    - intros va e He. apply Hmono. destruct (decide (vpn va = vpn ((h + p) * 4096))) as [Hv|Hv].
      + rewrite (translate_same_page st _ _ (eq_sym Hv)) in He.
        by rewrite (translate_same_page st1 _ _ (eq_sym Hv)), Hpage, He.
      + by rewrite Hoth.
    - intros i Hi. destruct (decide (i = 0)) as [->|Hne].
      + rewrite !Z.add_0_r. by apply Hmono.
      + specialize (Hall (i - 1) ltac:(lia)).
        replace (h + (p + 1) + (i - 1)) with (h + p + i) in Hall by lia.
        replace (p + 1 + (i - 1)) with (p + i) in Hall by lia.
        rewrite Hall, Hoth; [done|]. apply vpn_frame_inj. lia. }
  destruct (translate st ((h + p) * 4096)) as [e|] eqn:He.
  - by apply (Hstep st fa).
  - destruct (map_to st fa ((h + p) * 4096) (p * 4096) mmio_flags) as [[st1 fa1] ok] eqn:Hmap.
    assert (Hargs : map_args ((h + p) * 4096) (p * 4096) mmio_flags)
      by (repeat split; apply page_of_frame; lia).
    destruct (map_to_law _ _ _ _ _ _ _ _ Hwf Hargs Hmap) as (Hwf1 & _ & _ & Hoth & Hok).
    destruct ok; [|done]. apply (Hstep st1 fa1); [done..|]. by destruct Hok.
Qed.

(** When [map_mmio_range] succeeds it returns the direct-map address of [phys], and
    every byte of the range is mapped there: to its own physical page, uncached and
    non-executable, unless the page was already mapped, in which case that mapping is
    kept. No existing mapping anywhere is disturbed. *)
Theorem map_mmio_range_spec h phys len st fa st' fa' v :
  pt_wf st fa → 0 <= h → 0 <= phys → 0 < len <= 2 ^ 47 → h * 4096 + phys + len <= 2 ^ 64 →
  map_mmio_range st fa (h * 4096) phys len = (st', fa', Some v) →
  v = h * 4096 + phys ∧ pt_wf st' fa' ∧
  (∀ va e, translate st va = Some e → translate st' va = Some e) ∧
  ∀ x, phys <= x < phys + len →
    translate st' (h * 4096 + x) =
      Some (default (Z.lor (page_of x) mmio_flags) (translate st (h * 4096 + x))).
Proof.
  intros Hwf Hh Hp Hlen Hlim. unfold map_mmio_range. rewrite (proj2 (Z.eqb_neq len 0)) by lia.
  rewrite !page_of_div by (unfold fits; lia).
  set (p := phys / 4096). set (q := (phys + len - 1) / 4096).
  assert (Hpq : p <= q) by (apply Z.div_le_mono; lia).
  assert (Hq : q * 4096 <= phys + len - 1) by (unfold q; pose proof (Z.mul_div_le (phys + len - 1) 4096); lia).
  assert (Hp1 : phys < p * 4096 + 4096) by (pose proof (Z.mul_succ_div_gt phys 4096); unfold p; lia).
  replace (q * 4096 - p * 4096) with ((q - p) * 4096) by lia. rewrite Z.div_mul by lia.
  destruct (map_range_loop st fa (h * 4096) (p * 4096) (Z.to_nat (q - p + 1))) as [[st1 fa1] ok] eqn:Hl.
  intros Hm. destruct ok; [|done]. injection Hm as <- <- <-.
  assert (Hp0 : 0 <= p) by (unfold p; apply Z.div_pos; lia).
  assert (Hb : h + p + Z.of_nat (Z.to_nat (q - p + 1)) <= 2 ^ 52 ∧
    Z.of_nat (Z.to_nat (q - p + 1)) <= 2 ^ 36) by (clearbody p q; rewrite Z2Nat.id by lia; lia).
  destruct Hb as [Hb1 Hb2].
  destruct (map_range_effect h p _ _ _ _ _ Hwf Hh Hp0 Hb1 Hb2 Hl) as (Hwf' & Hmono & Hall).
  split; [done|]. split; [done|]. split; [done|]. intros x Hx.
  assert (Hxp : p <= x / 4096 <= q) by (split; apply Z.div_le_mono; lia).
  specialize (Hall (x / 4096 - p) ltac:(lia)).
  replace (h + p + (x / 4096 - p)) with (h + x / 4096) in Hall by lia.
  replace (p + (x / 4096 - p)) with (x / 4096) in Hall by lia.
  assert (Hv : vpn ((h + x / 4096) * 4096) = vpn (h * 4096 + x)).
  { rewrite <- (vpn_page_of (h * 4096 + x)), page_of_div by (unfold fits; lia).
    rewrite (Z.add_comm (h * 4096)), Z.div_add by lia. f_equal. lia. }
  rewrite !(translate_same_page _ _ _ Hv), page_of_div by (unfold fits; lia). done.
Qed.
End mapper_laws.

(** ** A concrete mapper

    It installs L1 entries in the tables there are and reports failure where a table is
    missing: a mapper whose allocator never yields a table frame. *)

Definition l1_map (st : PState) (fa : FrameAllocator) (page frame flags : Z) :
    PState * FrameAllocator * bool :=
  match l1_entry st page with
  | Some a => if entry_present (rd (pmem st) a) then (st, fa, false)
              else (wr st a (Z.lor frame flags), fa, true)
  | None => (st, fa, false)
  end.

Definition l1_mapper : Mapper := {|
  map_to_with_table_flags st fa page frame leaf _ := l1_map st fa page frame leaf;
  map_to := l1_map;
  translate_page st page := match translate st page with Some _ => true | None => false end;
|}.

Lemma present_bit e : Z.testbit e 0 = true → entry_present e = true.
Proof.
  intros Hb. unfold entry_present. apply negb_true_iff, Z.eqb_neq. intros H0.
  apply (f_equal (λ x, Z.testbit x 0)) in H0. cbv beta in H0. by rewrite Z.land_spec, Hb in H0.
Qed.

Lemma l1_map_law st fa page frame flags st' fa' ok :
  pt_wf st fa → map_args page frame flags →
  l1_map st fa page frame flags = (st', fa', ok) → map_effect st st' fa fa' page frame flags ok.
Proof.
  intros Hwf (_ & _ & Hbit) Hm. unfold l1_map in Hm. unfold map_effect.
  destruct (l1_entry st page) as [a|] eqn:Hl; [|by simplify_eq].
  destruct (entry_present (rd (pmem st) a)) eqn:Hp; [by simplify_eq|].
  injection Hm as <- <- <-. destruct (wr_l1 st a (Z.lor frame flags) page (proj1 (proj2 Hwf)) Hl) as [Hs Htr].
  split; [by eapply wr_l1_wf|]. split; [done|]. split; [|split; [|split]].
  - intros f _ Hno va b. rewrite (proj1 (Hs va)), (proj2 (Hs va)). apply Hno.
  - intros va Hv. by rewrite Htr, decide_False.
  - unfold translate. by rewrite Hl, Hp.
  - rewrite Htr, decide_True by done. rewrite present_bit; [done|]. by rewrite Z.lor_spec, Hbit, orb_true_r.
Qed.

Lemma l1_mapper_laws : @MapperLaws l1_mapper.
Proof. split; [intros *; apply l1_map_law|apply l1_map_law|done]. Qed.

(** One chain of tables, for the pages [0x1000000 .. 0x1200000). *)
Definition demo_ps : PState :=
  mkPS 0x1000 (<[0x1000 := 0x2007]> (<[0x2000 := 0x3007]> (<[0x3040 := 0x4007]> ∅))).

Lemma demo_rd a :
  rd (pmem demo_ps) a = if decide (0x1000 = a) then 0x2007 else if decide (0x2000 = a) then 0x3007
    else if decide (0x3040 = a) then 0x4007 else 0.
Proof. unfold demo_ps. cbn [pmem]. by rewrite !rd_insert. Qed.

(** The present entry of each table of the chain. *)
Lemma demo_entry t k e va shift :
  (t, k, e) ∈ [(0x1000, 0, 0x2007); (0x2000, 0, 0x3007); (0x3000, 8, 0x4007)] →
  rd (pmem demo_ps) (pte_at t va shift) =
    if decide (Z.land (Z.shiftr va shift) 0x1ff = k) then e else 0.
Proof.
  intros Ht. rewrite demo_rd. unfold pte_at. pose proof (index_bound va shift).
  rewrite !elem_of_cons, elem_of_nil in Ht.
  destruct Ht as [[= -> -> ->]|[[= -> -> ->]|[[= -> -> ->]|[]]]]; repeat case_decide; lia.
Qed.

Lemma demo_walk va :
  (∀ a, a ∈ upper demo_ps va → a < 0x4000) ∧
  ∀ a, l1_entry demo_ps va = Some a →
    Z.land (Z.shiftr va 39) 0x1ff = 0 ∧ Z.land (Z.shiftr va 30) 0x1ff = 0 ∧
    Z.land (Z.shiftr va 21) 0x1ff = 8 ∧ a = 0x4000 + 8 * Z.land (Z.shiftr va 12) 0x1ff.
Proof.
  assert (Hb : ∀ t shift, t <= 0x3000 → pte_at t va shift < 0x4000)
    by (intros t shift ?; unfold pte_at; pose proof (index_bound va shift); lia).
  assert (Hno : negb (entry_present 0) || entry_huge 0 = true) by done.
  unfold upper, l1_entry. change (cr3 demo_ps) with 0x1000. generalize (pmem demo_ps) (demo_entry).
  intros m Hm. cbn [walk_path walk_tables].
  rewrite (Hm 0x1000 0 0x2007 va 39) by set_solver.
  case_decide; [|rewrite Hno; set_solver by (apply Hb; lia)].
  change (negb (entry_present 0x2007) || entry_huge 0x2007) with false. change (entry_phys 0x2007) with 0x2000.
  rewrite (Hm 0x2000 0 0x3007 va 30) by set_solver.
  case_decide; [|rewrite Hno; set_solver by (apply Hb; lia)].
  change (negb (entry_present 0x3007) || entry_huge 0x3007) with false. change (entry_phys 0x3007) with 0x3000.
  rewrite (Hm 0x3000 8 0x4007 va 21) by set_solver.
  case_decide; [|rewrite Hno; set_solver by (apply Hb; lia)].
  split; [set_solver by (apply Hb; lia)|]. intros a [= <-]. done.
Qed.

Lemma demo_fa_range f : f ∈ mem_set demo_fa → 0x100 <= f < 0x1000.
Proof.
  intros (r & Hr & Hf)%elem_of_mem_set.
  assert (Hall : forallb (λ o, match o with
    | Some r => (0x100 <=? r_start r) && (r_end r <=? 0x1000) | None => true end) (regions demo_fa) = true)
    by by vm_compute.
  rewrite forallb_forall in Hall. specialize (Hall _ (proj1 (list_elem_of_In _ _) Hr)).
  cbv beta iota in Hall. bools. lia.
Qed.

Lemma demo_pt_wf : pt_wf demo_ps demo_fa.
Proof.
  split; [exact demo_fa_inv|]. split.
  - intros va va' a Ha. destruct (demo_walk va) as [_ Hl]. destruct (Hl a Ha) as (H4 & H3 & H2 & Hae).
    destruct (demo_walk va') as [Hu' Hl']. pose proof (index_bound va 12). split.
    + intros Hin. specialize (Hu' a Hin). lia.
    + intros Ha'. destruct (Hl' a Ha') as (H4' & H3' & H2' & Hae'). apply index_vpn.
      intros s. rewrite !elem_of_cons, elem_of_nil. intros [->|[->|[->|[->|[]]]]]; lia.
  - intros f Hf%demo_fa_range. split; [lia|]. intros va a Ha.
    destruct (demo_walk va) as [Hu Hl]. pose proof (index_bound va 12).
    destruct Ha as [Ha|Ha]; [specialize (Hu a Ha)|destruct (Hl a Ha) as (_ & _ & _ & Ha')]; lia.
Qed.

Lemma manual_map_spec_witness :
  translate demo_ps 0x1003123 = None ∧
  translate (manual_map demo_ps demo_fa 0x1003123).1.1 0x1003123 = Some 0x100003.
Proof.
  destruct (manual_map demo_ps demo_fa 0x1003123) as [[st' fa'] ok] eqn:E.
  destruct (manual_map_spec demo_ps demo_fa 0x1003123 st' fa' ok demo_pt_wf E) as (_ & _ & H).
  assert (Et : translate demo_ps 0x1003123 = None) by by vm_compute.
  assert (Eo : ok = true).
  { transitivity (manual_map demo_ps demo_fa 0x1003123).2; [by rewrite E|by vm_compute]. }
  rewrite Et, Eo in H. split; [exact Et|]. destruct H as (f & Hf & _ & Hr & _).
  assert (El : lowest (mem_set demo_fa) 0x100).
  { pose proof (alloc_law demo_fa demo_fa_inv) as [_ Ha].
    assert (Er : (alloc demo_fa).2 = Some 0x100) by by vm_compute. rewrite Er in Ha. exact (proj1 Ha). }
  assert (f = 0x100) as -> by (destruct Hf as [Hf1 Hf2], El as [El1 El2];
    specialize (Hf2 _ El1); specialize (El2 _ Hf1); lia).
  exact Hr.
Defined.


(** Mapping over an existing page: no address, no translation changed, one frame lost. *)
Lemma map_user_page_spec_witness :
  let st := wr demo_ps 0x4000 0x9007 in
  let m := @map_user_page l1_mapper st demo_fa 0x1000000 true false in
  m.2 = None ∧ translate m.1.1 0x1000000 = Some 0x9007 ∧
  (mem_set demo_fa = ∅ ∨ ∃ f, lowest (mem_set demo_fa) f ∧ mem_set m.1.2 ⊆ mem_set demo_fa ∖ {[f]}).
Proof.
  cbv zeta.
  assert (Hwf : pt_wf (wr demo_ps 0x4000 0x9007) demo_fa).
  { apply (wr_l1_wf _ _ _ _ 0x1000000); [exact demo_pt_wf|by vm_compute]. }
  destruct (@map_user_page l1_mapper (wr demo_ps 0x4000 0x9007) demo_fa 0x1000000 true false)
    as [[st' fa'] r] eqn:E.
  destruct (@map_user_page_spec l1_mapper l1_mapper_laws _ demo_fa 0x1000000 true false st' fa' r Hwf E)
    as (_ & _ & H).
  assert (Er : r = None).
  { transitivity (@map_user_page l1_mapper (wr demo_ps 0x4000 0x9007) demo_fa 0x1000000 true false).2;
      [by rewrite E|by vm_compute]. }
  rewrite Er in H. split; [exact Er|]. split; [|exact (proj2 H)].
  transitivity (translate (wr demo_ps 0x4000 0x9007) 0x1000000); [exact (proj1 H)|by vm_compute].
Defined.

(** Two pages at the identity base, the first already mapped elsewhere. *)
Lemma map_mmio_range_spec_witness :
  let st := wr demo_ps 0x4000 0x9007 in
  let m := @map_mmio_range l1_mapper st demo_fa 0 0x1000800 0x1000 in
  m.2 = Some 0x1000800 ∧ translate m.1.1 0x1000800 = Some 0x9007 ∧
  translate m.1.1 0x1001000 = Some (Z.lor 0x1001000 mmio_flags).
Proof.
  cbv zeta.
  assert (Hwf : pt_wf (wr demo_ps 0x4000 0x9007) demo_fa).
  { apply (wr_l1_wf _ _ _ _ 0x1000000); [exact demo_pt_wf|by vm_compute]. }
  destruct (@map_mmio_range l1_mapper (wr demo_ps 0x4000 0x9007) demo_fa 0 0x1000800 0x1000)
    as [[st' fa'] r] eqn:E.
  assert (Er : r = Some 0x1000800).
  { transitivity (@map_mmio_range l1_mapper (wr demo_ps 0x4000 0x9007) demo_fa 0 0x1000800 0x1000).2;
      [by rewrite E|by vm_compute]. }
  rewrite Er in E.
  destruct (@map_mmio_range_spec l1_mapper l1_mapper_laws 0 0x1000800 0x1000 _ demo_fa st' fa' 0x1000800 Hwf
    ltac:(lia) ltac:(lia) ltac:(lia) ltac:(lia) E) as (_ & _ & _ & Hall).
  split; [exact Er|]. cbn [fst]. split.
  - transitivity (translate st' (0 * 4096 + 0x1000800)); [reflexivity|].
    rewrite (Hall 0x1000800 ltac:(lia)). by vm_compute.
  - transitivity (translate st' (0 * 4096 + 0x1001000)); [reflexivity|].
    rewrite (Hall 0x1001000 ltac:(lia)). by vm_compute.
Defined.
