(* ===== verification/Sched.v ===== *)
(** * The scheduler ([kernel/src/sched.rs])

    Task table, EDF selection ([pick_next]), release of periodic jobs
    ([roll_deadlines]), the timer tick, blocking and waking. The context switch
    itself is in [Context]; admission and termination, which go through the
    capability space, are in [Kernel].

    [SCHED], the tick counter of [apic.rs] and the two kernel-stack references
    and the published domain that a switch updates are one state, [SState]. *)

From S2P Require Import Prelude.

Definition MAX_TASKS : Z := 5.
Definition TASK_STACK_SIZE : Z := 64 * 1024.

Record Task := mkTask {
  t_rsp : Z;
  t_present : bool;
  t_runnable : bool;
  t_period_ns : Z;
  t_rel_deadline_ns : Z;
  t_abs_deadline_ns : Z;
  t_budget_ns : Z;
  t_activations : Z;
  t_deadline_misses : Z;
  t_kstack_top : Z;
  t_domain : Z;
  t_blocked : bool;
  t_block_reason : Z;
  t_wait_ep : Z;
  t_ipc_status : Z;
  t_ipc_reply : Z;
  t_ipc_reply_cptr : Z;
}.

(** [Task::EMPTY]. *)
Definition Task_EMPTY : Task :=
  mkTask 0 false false 0 0 u64_max 0 0 0 0 0 false 0 0 0 0 0.
#[global] Instance Task_inhabited : Inhabited Task := populate Task_EMPTY.

(** Assignments to the fields the code writes one at a time. *)
Definition set_rsp (x : Z) (t : Task) : Task :=
  mkTask x (t_present t) (t_runnable t) (t_period_ns t) (t_rel_deadline_ns t)
    (t_abs_deadline_ns t) (t_budget_ns t) (t_activations t) (t_deadline_misses t)
    (t_kstack_top t) (t_domain t) (t_blocked t) (t_block_reason t) (t_wait_ep t)
    (t_ipc_status t) (t_ipc_reply t) (t_ipc_reply_cptr t).
Definition set_blocked (x : bool) (t : Task) : Task :=
  mkTask (t_rsp t) (t_present t) (t_runnable t) (t_period_ns t) (t_rel_deadline_ns t)
    (t_abs_deadline_ns t) (t_budget_ns t) (t_activations t) (t_deadline_misses t)
    (t_kstack_top t) (t_domain t) x (t_block_reason t) (t_wait_ep t) (t_ipc_status t)
    (t_ipc_reply t) (t_ipc_reply_cptr t).
Definition set_park (reason ep : Z) (t : Task) : Task :=
  mkTask (t_rsp t) (t_present t) (t_runnable t) (t_period_ns t) (t_rel_deadline_ns t)
    (t_abs_deadline_ns t) (t_budget_ns t) (t_activations t) (t_deadline_misses t)
    (t_kstack_top t) (t_domain t) true reason ep (t_ipc_status t) (t_ipc_reply t)
    (t_ipc_reply_cptr t).
Definition set_ipc (st rep rc : Z) (t : Task) : Task :=
  mkTask (t_rsp t) (t_present t) (t_runnable t) (t_period_ns t) (t_rel_deadline_ns t)
    (t_abs_deadline_ns t) (t_budget_ns t) (t_activations t) (t_deadline_misses t)
    (t_kstack_top t) (t_domain t) (t_blocked t) (t_block_reason t) (t_wait_ep t) st
    rep rc.
Definition set_release (n d : Z) (r : bool) (t : Task) : Task :=
  mkTask (t_rsp t) (t_present t) r (t_period_ns t) (t_rel_deadline_ns t) d
    (t_budget_ns t) n (t_deadline_misses t) (t_kstack_top t) (t_domain t) (t_blocked
    t) (t_block_reason t) (t_wait_ep t) (t_ipc_status t) (t_ipc_reply t)
    (t_ipc_reply_cptr t).
Definition set_dead (t : Task) : Task :=
  mkTask (t_rsp t) false false (t_period_ns t) (t_rel_deadline_ns t)
    (t_abs_deadline_ns t) (t_budget_ns t) (t_activations t) (t_deadline_misses t)
    (t_kstack_top t) (t_domain t) false (t_block_reason t) (t_wait_ep t) (t_ipc_status
    t) (t_ipc_reply t) (t_ipc_reply_cptr t).

Record Scheduler := mkSched { tasks : list Task; num : Z; current : Z }.

Definition upd_task (s : Scheduler) (i : Z) (f : Task → Task) : Scheduler :=
  mkSched (tasks s).[i := f (tasks s).[i]] (num s) (current s).
Definition set_current (s : Scheduler) (n : Z) : Scheduler := mkSched (tasks s) (num s) n.

(** [static mut SCHED]. *)
Definition SCHED0 : Scheduler := mkSched (replicate (Z.to_nat MAX_TASKS) Task_EMPTY) 0 0.

(** [init]: [boot_stack] is [crate::stack_top()], the top of the boot stack. *)
Definition sched_init (boot_stack : Z) (s : Scheduler) : Scheduler :=
  mkSched (tasks s).[0 := mkTask 0 true true 0 0 u64_max 0 0 0 boot_stack 0 false 0 0 0 0 0] 1 0.

(** [free_slot]: the first absent task in [1..MAX_TASKS]. *)
Definition free_slot (s : Scheduler) : option Z :=
  head (filter (λ i, negb (t_present (tasks s).[i]) = true) (seqZ 1 (MAX_TASKS - 1))).

(** The task that [admit] and [admit_user] publish: [frame_ptr] is the frame
    [build_task_frame_inner] has written, [ktop] is [task_kstack_top(i)]. *)
Definition new_task (frame_ptr ktop dom period rel budget now : Z) : Task :=
  mkTask frame_ptr true true period rel (sat_add64 now rel) budget 0 0 ktop dom
    false 0 0 0 0 0.

Definition publish_task (s : Scheduler) (i : Z) (t : Task) : Scheduler :=
  mkSched (tasks s).[i := t] (num s + 1) (current s).

(** ** [roll_deadlines] *)

Definition roll_cond (now : Z) (t : Task) : bool := t_abs_deadline_ns t <=? now.
Definition roll_body (t : Task) : Task :=
  set_release (wrap 64 (t_activations t + 1)) (sat_add64 (t_abs_deadline_ns t) (t_period_ns t))
    (if negb (t_blocked t) then true else t_runnable t) t.

(** The [while] of one task; a [u64] deadline passes [now] in at most [2^64] steps. *)
Definition roll_task (now : Z) (t : Task) : Task :=
  if negb (t_present t) || (t_period_ns t =? 0) then t
  else while_pos (roll_cond now) roll_body (2 ^ 64) t.

Definition roll_deadlines (s : Scheduler) (now : Z) : Scheduler :=
  foldl (λ s i, upd_task s i (roll_task now)) s (seqZ 1 (MAX_TASKS - 1)).

(** ** [pick_next] *)

Record pick := mkPick { best : Z; best_dl : Z; found_real : bool }.

Definition pick_step (s : Scheduler) (p : pick) (i : Z) : pick :=
  let t := (tasks s).[i] in
  if negb (t_present t) || negb (t_runnable t) || t_blocked t then p
  else if negb (found_real p) || (t_abs_deadline_ns t <? best_dl p)
  then mkPick i (t_abs_deadline_ns t) true
  else p.

Definition pick_next (s : Scheduler) : Z :=
  best (foldl (pick_step s) (mkPick 0 u64_max false) (seqZ 1 (MAX_TASKS - 1))).

(** ** The state a switch updates *)

Record SState := mkSS {
  sched : Scheduler;
  tss_rsp0 : Z;        (* gdt.rs: TSS.privilege_stack_table[0] *)
  kernel_rsp0 : Z;     (* syscall.rs: PER_CPU.kernel_rsp0 *)
  current_dom : Z;     (* capspace.rs: CURRENT_DOMAIN *)
  ticks : Z;           (* apic.rs: TICKS *)
  tick_ns : Z;         (* apic.rs: nanoseconds per tick *)
}.

Definition with_sched (st : SState) (s : Scheduler) : SState :=
  mkSS s (tss_rsp0 st) (kernel_rsp0 st) (current_dom st) (ticks st) (tick_ns st).

Definition now_ns (st : SState) : Z := sat_mul64 (ticks st) (tick_ns st).

(** [set_kernel_stack] and [capspace::set_current_domain] for task [n]. *)
Definition publish_current (st : SState) (n : Z) : SState :=
  let t := (tasks (sched st)).[n] in
  mkSS (sched st) (t_kstack_top t) (t_kstack_top t) (t_domain t) (ticks st) (tick_ns st).

(** The tail shared by [schedule_tick], [block_current] and [terminate_current]:
    release jobs, select, make current, publish. *)
Definition switch_next (st : SState) : SState :=
  let s := roll_deadlines (sched st) (now_ns st) in
  let n := pick_next s in
  publish_current (with_sched st (set_current s n)) n.

(** [schedule_tick]: the new state and the saved-context pointer to restore. *)
Definition schedule_tick (st : SState) (current_rsp : Z) : SState * Z :=
  let st := mkSS (sched st) (tss_rsp0 st) (kernel_rsp0 st) (current_dom st)
              (wrap 64 (ticks st + 1)) (tick_ns st) in
  let s := sched st in
  if num s <=? 1 then (publish_current st (current s), current_rsp)
  else
    let st := switch_next (with_sched st (upd_task s (current s) (set_rsp current_rsp))) in
    (st, t_rsp (tasks (sched st)).[current (sched st)]).

(** [block_current]: [saved] is the saved-context pointer [block_and_switch] stores
    through [save_slot]; the result carries the pointer it switches to. *)
Definition block_current (st : SState) (saved reason ep_oid : Z) : SState * Z :=
  let cur := current (sched st) in
  let st := switch_next (with_sched st (upd_task (sched st) cur (set_park reason ep_oid))) in
  let next := t_rsp (tasks (sched st)).[current (sched st)] in
  (with_sched st (upd_task (sched st) cur (set_rsp saved)), next).

Definition unblock (s : Scheduler) (task status reply reply_cptr : Z) : Scheduler :=
  if MAX_TASKS <=? task then s
  else upd_task (upd_task s task (set_ipc status reply reply_cptr)) task (set_blocked false).

Definition current_task (s : Scheduler) : Z := current s.
Definition current_domain_id (s : Scheduler) : Z := t_domain (tasks s).[current s].

Definition take_ipc_result (s : Scheduler) (i : Z) : Z * Z * Z :=
  if MAX_TASKS <=? i then (0, 0, 0)
  else let t := (tasks s).[i] in (t_ipc_status t, t_ipc_reply t, t_ipc_reply_cptr t).

(** ** Generic facts *)

Lemma tasks_upd s i f j :
  0 <= i < zlen (tasks s) → 0 <= j →
  (tasks (upd_task s i f)).[j] = if decide (i = j) then f (tasks s).[i] else (tasks s).[j].
Proof. intros Hi Hj. unfold upd_task. cbn [tasks]. by apply aget_aset. Qed.

Lemma zlen_upd s i f : zlen (tasks (upd_task s i f)) = zlen (tasks s).
Proof. unfold upd_task. cbn [tasks]. apply zlen_aset. Qed.

Lemma current_upd s i f : current (upd_task s i f) = current s.
Proof. done. Qed.

Definition real_tasks : list Z := [1; 2; 3; 4].
Lemma seqZ_real : seqZ 1 (MAX_TASKS - 1) = real_tasks.
Proof. reflexivity. Qed.

(** ** EDF selection *)

(** A task that may be given the CPU. *)
Definition ready (t : Task) : bool := t_present t && t_runnable t && negb (t_blocked t).

(** Task [i] has priority over task [j]: earlier deadline, lower index on ties. *)
Definition edf_le (s : Scheduler) (i j : Z) : Prop :=
  t_abs_deadline_ns (tasks s).[i] < t_abs_deadline_ns (tasks s).[j] ∨
  t_abs_deadline_ns (tasks s).[i] = t_abs_deadline_ns (tasks s).[j] ∧ i <= j.

Lemma pick_step_alt s p i :
  pick_step s p i =
  if ready (tasks s).[i] then
    if negb (found_real p) || (t_abs_deadline_ns (tasks s).[i] <? best_dl p)
    then mkPick i (t_abs_deadline_ns (tasks s).[i]) true else p
  else p.
Proof.
  unfold pick_step, ready.
  destruct (t_present _), (t_runnable _), (t_blocked _); reflexivity.
Qed.

(** The scan after looking at tasks [1..n]. *)
Definition pick_inv (s : Scheduler) (n : Z) (p : pick) : Prop :=
  if found_real p then
    1 <= best p <= n ∧ ready (tasks s).[best p] = true ∧
    best_dl p = t_abs_deadline_ns (tasks s).[best p] ∧
    ∀ j, 1 <= j <= n → ready (tasks s).[j] = true → edf_le s (best p) j
  else best p = 0 ∧ ∀ j, 1 <= j <= n → ready (tasks s).[j] = false.

Lemma pick_step_inv s n p :
  0 <= n → pick_inv s n p → pick_inv s (n + 1) (pick_step s p (n + 1)).
Proof.
  intros Hn Hp. rewrite pick_step_alt.
  assert (Hsplit : ∀ j, 1 <= j <= n + 1 → j = n + 1 ∨ 1 <= j <= n) by lia.
  destruct (ready (tasks s).[n + 1]) eqn:Hr.
  2:{ unfold pick_inv in *. destruct (found_real p).
      - destruct Hp as (H1 & H2 & H3 & H4). split; [lia|]. split; [done|]. split; [done|].
        intros j [->|Hj]%Hsplit Hjr; [congruence|auto].
      - destruct Hp as [H1 H2]. split; [done|]. intros j [->|Hj]%Hsplit; auto. }
  unfold pick_inv in Hp. destruct (found_real p) eqn:Hf; simpl.
  - destruct Hp as (H1 & H2 & H3 & H4). unfold pick_inv.
    destruct (Z.ltb_spec (t_abs_deadline_ns (tasks s).[n + 1]) (best_dl p)); simpl.
    + split; [lia|]. split; [done|]. split; [done|].
      intros j [->|Hj]%Hsplit Hjr; [right; lia|]. specialize (H4 j Hj Hjr).
      unfold edf_le in *. lia.
    + rewrite Hf. split; [lia|]. split; [done|]. split; [done|].
      intros j [->|Hj]%Hsplit Hjr; [unfold edf_le; lia|auto].
  - destruct Hp as [H1 H2]. unfold pick_inv. simpl. split; [lia|]. split; [done|].
    split; [done|]. intros j [->|Hj]%Hsplit Hjr; [right; lia|]. by rewrite H2 in Hjr.
Qed.

Lemma pick_inv_all s :
  pick_inv s 4 (foldl (pick_step s) (mkPick 0 u64_max false) (seqZ 1 (MAX_TASKS - 1))).
Proof.
  rewrite seqZ_real. unfold real_tasks. cbn [foldl].
  apply (pick_step_inv s 3); [lia|]. apply (pick_step_inv s 2); [lia|].
  apply (pick_step_inv s 1); [lia|]. apply (pick_step_inv s 0); [lia|].
  split; [done|]. lia.
Qed.

Lemma pick_next_cases s :
  (1 <= pick_next s <= 4 ∧ ready (tasks s).[pick_next s] = true ∧
   ∀ j, 1 <= j <= 4 → ready (tasks s).[j] = true → edf_le s (pick_next s) j) ∨
  (pick_next s = 0 ∧ ∀ j, 1 <= j <= 4 → ready (tasks s).[j] = false).
Proof.
  pose proof (pick_inv_all s) as Hp. unfold pick_next.
  destruct (foldl _ _ _) as [b d []]; unfold pick_inv in Hp; simpl in *; [left|right]; tauto.
Qed.

(** C18: EDF. [pick_next] returns a ready task whose absolute deadline is the earliest,
    the lowest index among equals, whatever its value (a deadline saturated at
    [u64::MAX] still beats idle); it returns the idle task 0 exactly when no real task
    is ready. *)
Theorem pick_next_edf (s : Scheduler) :
  (pick_next s = 0 ↔ ∀ j, 1 <= j < MAX_TASKS → ready (tasks s).[j] = false) ∧
  (pick_next s ≠ 0 →
     1 <= pick_next s < MAX_TASKS ∧ ready (tasks s).[pick_next s] = true ∧
     ∀ j, 1 <= j < MAX_TASKS → ready (tasks s).[j] = true → edf_le s (pick_next s) j).
Proof.
  unfold MAX_TASKS. destruct (pick_next_cases s) as [(H1 & H2 & H3)|[H1 H2]].
  - split; [split; [lia|]|].
    + intros Hno. rewrite Hno in H2 by lia. done.
    + intros _. split; [lia|]. split; [done|]. intros j Hj. apply H3. lia.
  - split; [|done]. split; [|done]. intros _ j Hj. apply H2. lia.
Qed.

(** ** Release of periodic jobs *)

Definition task_wf (t : Task) : Prop :=
  fits 64 (t_abs_deadline_ns t) ∧ fits 64 (t_period_ns t) ∧ fits 64 (t_activations t).

(** How many periods [roll_deadlines] releases at time [now]. *)
Definition releases (now : Z) (t : Task) : Z :=
  if negb (t_present t) || (t_period_ns t =? 0) || (now <? t_abs_deadline_ns t) then 0
  else (now - t_abs_deadline_ns t) / t_period_ns t + 1.

(** The task after [k] releases. *)
Definition advance (k : Z) (t : Task) : Task :=
  set_release (wrap 64 (t_activations t + k))
    (Z.min (t_abs_deadline_ns t + k * t_period_ns t) u64_max)
    ((negb (k =? 0) && negb (t_blocked t)) || t_runnable t) t.

Lemma advance_0 t : task_wf t → advance 0 t = t.
Proof.
  intros (H1 & H2 & H3). unfold advance. rewrite Z.add_0_r, wrap_id by done.
  rewrite Z.mul_0_l, Z.add_0_r, Z.min_l by (unfold fits, u64_max in *; lia). by destruct t.
Qed.

Lemma advance_body k t :
  task_wf t → 0 <= k → t_abs_deadline_ns t + k * t_period_ns t < u64_max →
  roll_body (advance k t) = advance (k + 1) t.
Proof.
  intros (H1 & H2 & H3) Hk Hlt. unfold roll_body, advance, set_release, sat_add64. simpl.
  f_equal.
  - destruct (t_blocked t); simpl; [by rewrite !andb_false_r|].
    destruct (Z.eqb_spec (k + 1) 0); [lia|done].
  - rewrite (Z.min_l (_ + k * _)) by lia. f_equal. lia.
  - unfold wrap. rewrite Z.add_mod_idemp_l by lia. f_equal. lia.
Qed.

Section roll.
Context (now : Z) (Hnow : 0 <= now < u64_max) (t : Task) (Hwf : task_wf t)
  (Hper : 0 < t_period_ns t).

(** Reached after some number of iterations, none of them past [now]. *)
Let reached (x : Task) : Prop :=
  ∃ k, 0 <= k ∧ x = advance k t ∧
    (k = 0 ∨ t_abs_deadline_ns t + (k - 1) * t_period_ns t <= now).

Lemma reached_step x :
  reached x → roll_cond now x = true →
  reached (roll_body x) ∧
  now - t_abs_deadline_ns (roll_body x) + 1 < now - t_abs_deadline_ns x + 1 ∧
  0 < now - t_abs_deadline_ns x + 1.
Proof.
  intros (k & Hk & -> & _) Hc%Z.leb_le. unfold advance in Hc. simpl in Hc.
  assert (Hlt : t_abs_deadline_ns t + k * t_period_ns t <= now) by lia.
  rewrite advance_body by (done || lia). split.
  - exists (k + 1). split; [lia|]. split; [done|]. right. lia.
  - unfold advance. simpl. lia.
Qed.

Lemma roll_while :
  while_rel (roll_cond now) roll_body t (while_pos (roll_cond now) roll_body (2 ^ 64) t) ∧
  reached (while_pos (roll_cond now) roll_body (2 ^ 64) t).
Proof.
  apply (while_pos_enough _ _ _ (λ x, now - t_abs_deadline_ns x + 1)).
  - exists 0. split; [lia|]. split; [by rewrite advance_0|by left].
  - apply reached_step.
  - destruct Hwf as [H1 _]. unfold fits, u64_max in *. lia.
Qed.

Lemma roll_closed k :
  0 <= k → (k = 0 ∨ t_abs_deadline_ns t + (k - 1) * t_period_ns t <= now) →
  roll_cond now (advance k t) = false → t_present t = true → k = releases now t.
Proof.
  intros Hk Hle Hc%Z.leb_gt Hp. unfold advance in Hc. simpl in Hc. unfold releases. rewrite Hp.
  destruct (Z.eqb_spec (t_period_ns t) 0); [lia|]. simpl.
  destruct (Z.ltb_spec now (t_abs_deadline_ns t)).
  - destruct Hle as [?|Hle]; [done|]. nia.
  - assert (k ≠ 0) by (intros ->; lia).
    assert ((now - t_abs_deadline_ns t) / t_period_ns t = k - 1); [|lia].
    symmetry. apply (Z.div_unique _ _ _ (now - t_abs_deadline_ns t - (k - 1) * t_period_ns t)); lia.
Qed.
End roll.

Lemma roll_task_closed now t :
  0 <= now < u64_max → task_wf t → roll_task now t = advance (releases now t) t.
Proof.
  intros Hnow Hwf. unfold roll_task. destruct (t_present t) eqn:Hp; simpl.
  2:{ unfold releases. rewrite Hp. simpl. by rewrite advance_0. }
  destruct (Z.eqb_spec (t_period_ns t) 0) as [E|E].
  { unfold releases. rewrite Hp, E. simpl. by rewrite advance_0. }
  assert (Hper : 0 < t_period_ns t) by (destruct Hwf as (_ & H & _); unfold fits in H; lia).
  destruct (roll_while now Hnow t Hwf Hper) as [Hrel (k & Hk & Hadv & Hle)].
  rewrite Hadv in *. f_equal. apply (roll_closed now t Hper); [done..| |done].
  by destruct (while_rel_inv _ _ (λ _, True) _ _ Hrel) as [_ ?].
Qed.

(** [roll_deadlines] rolls every real task and nothing else. *)
Lemma roll_deadlines_tasks s now i :
  zlen (tasks s) = MAX_TASKS → 0 <= i →
  (tasks (roll_deadlines s now)).[i] =
  if decide (1 <= i < MAX_TASKS) then roll_task now (tasks s).[i] else (tasks s).[i].
Proof.
  intros Hlen Hi. unfold roll_deadlines. rewrite seqZ_real. unfold real_tasks. cbn [foldl].
  rewrite !tasks_upd by (rewrite ?zlen_upd, ?Hlen; unfold MAX_TASKS; lia).
  unfold MAX_TASKS. repeat (case_decide; subst; try lia; try done).
Qed.

Lemma roll_deadlines_rest s now :
  zlen (tasks (roll_deadlines s now)) = zlen (tasks s) ∧
  num (roll_deadlines s now) = num s ∧ current (roll_deadlines s now) = current s.
Proof.
  unfold roll_deadlines. rewrite seqZ_real. unfold real_tasks. cbn [foldl].
  by rewrite !zlen_upd.
Qed.

(** [roll_deadlines] terminates and is exact. Before the clock saturates, the [while]
    loop of every periodic task ends, and it leaves the task released
    [k = (now - deadline) / period + 1] times (0 when the deadline is still ahead): its
    deadline is the first [deadline + k * period] after [now] (saturated at [u64::MAX]),
    its activation count has grown by [k], and it is runnable if it was or if a job was
    released while it was not parked. Absent and aperiodic tasks, the idle task, the
    task count and the current task do not change. *)
Theorem roll_deadlines_exact (s : Scheduler) (now i : Z) :
  zlen (tasks s) = MAX_TASKS → Forall task_wf (tasks s) → 0 <= now < u64_max →
  0 <= i < MAX_TASKS →
  let t := (tasks s).[i] in
  let t' := (tasks (roll_deadlines s now)).[i] in
  num (roll_deadlines s now) = num s ∧ current (roll_deadlines s now) = current s ∧
  (i = 0 → t' = t) ∧
  (i ≠ 0 → t' = advance (releases now t) t) ∧
  (i ≠ 0 → t_present t = true → t_period_ns t ≠ 0 →
     while_rel (roll_cond now) roll_body t t' ∧ now < t_abs_deadline_ns t' ∧
     (t_abs_deadline_ns t <= now → t_abs_deadline_ns t' <= now + t_period_ns t)).
Proof.
  intros Hlen HF Hnow Hi t t'. destruct (roll_deadlines_rest s now) as (_ & Hn & Hc).
  assert (Ht : task_wf t) by (apply Forall_aget; [done|by rewrite Hlen]).
  assert (Ht' : t' = if decide (1 <= i < MAX_TASKS) then roll_task now t else t)
    by (apply roll_deadlines_tasks; [done|lia]).
  split; [done|]. split; [done|]. split; [|split].
  - intros ->. by rewrite decide_False in Ht' by lia.
  - intros Hne. rewrite decide_True in Ht' by lia. by rewrite Ht', roll_task_closed.
  - intros Hne Hp Hper. rewrite decide_True in Ht' by lia.
    assert (Hpos : 0 < t_period_ns t) by (destruct Ht as (_ & H & _); unfold fits in H; lia).
    assert (Hroll : t' = while_pos (roll_cond now) roll_body (2 ^ 64) t).
    { rewrite Ht'. unfold roll_task. rewrite Hp. simpl.
      by destruct (Z.eqb_spec (t_period_ns t) 0). }
    destruct (roll_while now Hnow t Ht Hpos) as [Hrel (k & Hk & Hadv & Hle)].
    rewrite <- Hroll in Hrel, Hadv. split; [done|].
    destruct (while_rel_inv _ _ (λ _, True) _ _ Hrel) as [_ Hend]; [done..|].
    apply Z.leb_gt in Hend. split; [done|]. intros Hdue. rewrite Hadv in Hend |- *.
    unfold advance in *. simpl in *. destruct Hle as [->|Hle]; [lia|]. lia.
Qed.

(** C40: [roll_deadlines] hangs once the clock has saturated. At [now = u64::MAX] (where
    [now_ns] stays, being a saturating product) a present periodic task whose deadline
    is due never leaves its [while] loop: the deadline saturates at [u64::MAX] too, and
    the test is [deadline <= now]. The timer interrupt does not return. *)
Theorem roll_deadlines_diverges (t t' : Task) :
  fits 64 (t_abs_deadline_ns t) → 0 <= t_period_ns t →
  ~ while_rel (roll_cond u64_max) roll_body t t'.
Proof.
  intros Hwf Hper Hrel.
  destruct (while_rel_inv _ _ (λ x, t_abs_deadline_ns x <= u64_max) _ _ Hrel) as [Hle Hend].
  - unfold fits, u64_max in *. lia.
  - intros x _ _. unfold roll_body, set_release, sat_add64. simpl. lia.
  - apply Z.leb_gt in Hend. lia.
Qed.

(** From here on the loop is known through [roll_task_closed] only. *)
#[global] Opaque roll_task roll_deadlines pick_next.

(** ** The scheduler invariant *)

Definition count_present (l : list Task) : Z := foldr (λ t n, Z.b2z (t_present t) + n) 0 l.

Lemma count_present_aset l i t :
  0 <= i < zlen l →
  count_present l.[i := t] = count_present l - Z.b2z (t_present l.[i]) + Z.b2z (t_present t).
Proof.
  unfold aset, aget, zlen. intros Hi.
  assert (Hn : (Z.to_nat i < length l)%nat) by lia. clear Hi.
  revert Hn. generalize (Z.to_nat i) as n. induction l as [|x l IH]; intros n Hn; simpl in *; [lia|].
  destruct n as [|n]; simpl; [lia|]. rewrite IH by lia. lia.
Qed.

Record sched_pre (s : Scheduler) : Prop := {
  sp_len : zlen (tasks s) = MAX_TASKS;
  sp_wf : Forall task_wf (tasks s);
  sp_idle : ready (tasks s).[0] = true;
  sp_num : num s = count_present (tasks s);
}.

(** The running task exists and is not parked. *)
Definition current_ok (s : Scheduler) : Prop :=
  0 <= current s < MAX_TASKS ∧ t_present (tasks s).[current s] = true ∧
  t_blocked (tasks s).[current s] = false.

(** The kernel-stack references and the published domain are the running task's. *)
Definition coherent (st : SState) : Prop :=
  let t := (tasks (sched st)).[current (sched st)] in
  tss_rsp0 st = t_kstack_top t ∧ kernel_rsp0 st = t_kstack_top t ∧ current_dom st = t_domain t.

Record sched_ok (st : SState) : Prop := {
  so_pre : sched_pre (sched st);
  so_cur : current_ok (sched st);
  so_coh : coherent st;
}.

(** The clock does not saturate within the next [n] ticks. *)
Definition clock_ok (st : SState) (n : Z) : Prop :=
  0 <= ticks st ∧ 0 < tick_ns st ∧ (ticks st + n) * tick_ns st < u64_max.

Lemma clock_now st n : 0 <= n → clock_ok st n → 0 <= now_ns st < u64_max.
Proof. unfold clock_ok, now_ns, sat_mul64. intros Hn (H1 & H2 & H3). nia. Qed.

(** What a task keeps while others are scheduled. *)
Definition same_context (t t' : Task) : Prop :=
  t_rsp t' = t_rsp t ∧ t_present t' = t_present t ∧ t_kstack_top t' = t_kstack_top t ∧
  t_domain t' = t_domain t ∧ t_blocked t' = t_blocked t ∧
  t_ipc_status t' = t_ipc_status t ∧ t_ipc_reply t' = t_ipc_reply t ∧
  t_ipc_reply_cptr t' = t_ipc_reply_cptr t ∧
  t_block_reason t' = t_block_reason t ∧ t_wait_ep t' = t_wait_ep t.

#[global] Instance same_context_preorder : PreOrder same_context.
Proof. split; [intros t; by repeat split|]. intros t1 t2 t3. unfold same_context. naive_solver congruence. Qed.

Lemma advance_context k t : same_context t (advance k t).
Proof. by repeat split. Qed.

Lemma advance_wf k t : 0 <= k → task_wf t → task_wf (advance k t).
Proof.
  intros Hk (H1 & H2 & H3). unfold task_wf, advance. simpl. split; [|split; [done|by apply fits_wrap]].
  unfold fits, u64_max in *. nia.
Qed.

Lemma releases_nonneg now t : task_wf t → 0 <= releases now t.
Proof.
  intros (_ & H2 & _). unfold releases, fits in *.
  destruct (_ || _) eqn:Hc; [lia|]. bools.
  assert (0 <= (now - t_abs_deadline_ns t) / t_period_ns t) by (apply Z.div_pos; lia). lia.
Qed.

Lemma count_present_ext l l' :
  zlen l = zlen l' → (∀ i, 0 <= i < zlen l → t_present l.[i] = t_present l'.[i]) →
  count_present l = count_present l'.
Proof.
  revert l'. induction l as [|x l IH]; intros [|y l'] Hlen Heq; unfold zlen in *; simpl in *; try lia.
  f_equal.
  - f_equal. by apply (Heq 0).
  - apply IH; [lia|]. intros i Hi. specialize (Heq (i + 1) ltac:(lia)). unfold aget in Heq.
    replace (Z.to_nat (i + 1)) with (S (Z.to_nat i)) in Heq by lia. exact Heq.
Qed.

Lemma roll_context s now i :
  sched_pre s → 0 <= now < u64_max → 0 <= i < MAX_TASKS →
  same_context (tasks s).[i] (tasks (roll_deadlines s now)).[i] ∧
  task_wf (tasks (roll_deadlines s now)).[i].
Proof.
  intros [Hlen HF _ _] Hnow Hi.
  assert (Ht : task_wf (tasks s).[i]) by (apply Forall_aget; [done|by rewrite Hlen]).
  rewrite roll_deadlines_tasks by (done || lia). case_decide; [|by split].
  rewrite roll_task_closed by done. split; [apply advance_context|].
  apply advance_wf; [by apply releases_nonneg|done].
Qed.

Lemma roll_pre s now : sched_pre s → 0 <= now < u64_max → sched_pre (roll_deadlines s now).
Proof.
  intros Hpre Hnow. pose proof Hpre as [Hlen HF Hidle Hnum].
  destruct (roll_deadlines_rest s now) as (Hl & Hn & _). split.
  - by rewrite Hl.
  - apply Forall_aget_iff. intros i Hi. rewrite Hl, Hlen in Hi. by apply roll_context.
  - rewrite roll_deadlines_tasks by (done || lia). by rewrite decide_False by lia.
  - rewrite Hn, Hnum. apply count_present_ext; [done|]. intros i Hi. rewrite Hlen in Hi.
    destruct (roll_context s now i Hpre Hnow Hi) as [(_ & Hp & _) _]. by rewrite Hp.
Qed.

(** Replacing a task by one with the same presence keeps the invariant. *)
Lemma upd_pre s i f :
  sched_pre s → 0 <= i < MAX_TASKS → task_wf (f (tasks s).[i]) →
  t_present (f (tasks s).[i]) = t_present (tasks s).[i] →
  (i = 0 → ready (f (tasks s).[0]) = true) → sched_pre (upd_task s i f).
Proof.
  intros [Hlen HF Hidle Hnum] Hi Hwf Hp Hr. split.
  - by rewrite zlen_upd.
  - unfold upd_task. cbn [tasks]. by apply Forall_aset.
  - rewrite tasks_upd by (rewrite ?Hlen; lia). case_decide; [subst; by apply Hr|done].
  - unfold upd_task. cbn [tasks num]. rewrite count_present_aset by (by rewrite Hlen).
    rewrite Hp. lia.
Qed.

Lemma pick_next_range s : 0 <= pick_next s < MAX_TASKS.
Proof. unfold MAX_TASKS. destruct (pick_next_cases s) as [(H1 & _)|[H1 _]]; lia. Qed.

Lemma pick_next_ready s : ready (tasks s).[0] = true → ready (tasks s).[pick_next s] = true.
Proof. intros Hi. destruct (pick_next_cases s) as [(_ & H2 & _)|[-> _]]; done. Qed.

Lemma switch_next_ok st :
  sched_pre (sched st) → 0 <= now_ns st < u64_max →
  sched_ok (switch_next st) ∧
  ready (tasks (sched (switch_next st))).[current (sched (switch_next st))] = true ∧
  ∀ i, 0 <= i < MAX_TASKS →
    same_context (tasks (sched st)).[i] (tasks (sched (switch_next st))).[i].
Proof.
  intros Hpre Hnow. pose proof (roll_pre _ _ Hpre Hnow) as Hpre'.
  unfold switch_next, publish_current. cbn [sched with_sched set_current tasks current].
  set (s := roll_deadlines (sched st) (now_ns st)) in *.
  pose proof (pick_next_ready s (sp_idle s Hpre')) as Hr.
  split; [split|split].
  - destruct Hpre'. by split.
  - unfold current_ok. cbn [sched set_current tasks current]. split; [apply pick_next_range|].
    unfold ready in Hr. apply andb_true_iff in Hr as [[? ?]%andb_true_iff ?%negb_true_iff]. done.
  - done.
  - done.
  - intros i Hi. by apply roll_context.
Qed.

(** ** Traces of ticks, blocks and wake-ups *)

Inductive sched_op :=
  | Tick (rsp : Z)                          (* timer interrupt; interrupted context *)
  | Block (saved reason ep : Z)             (* [block_current] by the running task *)
  | Wake (task status reply rcptr : Z).     (* [unblock] *)

Definition sched_step (st : SState) (op : sched_op) : SState :=
  match op with
  | Tick rsp => (schedule_tick st rsp).1
  | Block saved reason ep => (block_current st saved reason ep).1
  | Wake t status reply rcptr => with_sched st (unblock (sched st) t status reply rcptr)
  end.

Definition sched_run (st : SState) (ops : list sched_op) : SState := foldl sched_step st ops.

(** The idle task makes no system call, so it never blocks. *)
Definition op_allowed (st : SState) (op : sched_op) : Prop :=
  match op with
  | Tick _ => True
  | Block _ _ _ => current (sched st) ≠ 0
  | Wake t _ _ _ => 0 <= t
  end.

Fixpoint ops_allowed (st : SState) (ops : list sched_op) : Prop :=
  match ops with
  | [] => True
  | op :: ops => op_allowed st op ∧ ops_allowed (sched_step st op) ops
  end.

Definition wakes (i : Z) (op : sched_op) : bool :=
  match op with Wake t _ _ _ => t =? i | _ => false end.

Lemma set_rsp_wf x t : task_wf t → task_wf (set_rsp x t).
Proof. done. Qed.

Lemma tick_now st n rsp :
  0 <= n → clock_ok st (n + 1) → clock_ok (sched_step st (Tick rsp)) n ∧
  0 <= sat_mul64 (wrap 64 (ticks st + 1)) (tick_ns st) < u64_max.
Proof.
  unfold clock_ok, sat_mul64. intros Hn (H1 & H2 & H3).
  assert (Hw : wrap 64 (ticks st + 1) = ticks st + 1).
  { apply wrap_id. unfold fits, u64_max in *. nia. }
  rewrite Hw. split; [|nia].
  unfold sched_step, schedule_tick. cbn [sched]. destruct (num (sched st) <=? 1); simpl;
    rewrite Hw; (split; [lia|split; [lia|]]); nia.
Qed.

Lemma step_clock st op n : 0 <= n → clock_ok st (n + 1) → clock_ok (sched_step st op) n.
Proof.
  intros Hn Hc. destruct op; [by apply tick_now|unfold clock_ok in *; simpl; nia..].
Qed.

Lemma unblock_task s t status reply rc i :
  zlen (tasks s) = MAX_TASKS → 0 <= t → 0 <= i →
  (tasks (unblock s t status reply rc)).[i] =
  if decide (t = i ∧ t < MAX_TASKS) then set_blocked false (set_ipc status reply rc (tasks s).[i])
  else (tasks s).[i].
Proof.
  intros Hlen Ht Hi. unfold unblock. destruct (Z.leb_spec MAX_TASKS t).
  - rewrite decide_False by lia. done.
  - rewrite !tasks_upd by (rewrite ?zlen_upd, ?Hlen; lia).
    destruct (decide (t = i)) as [->|].
    + rewrite decide_True by done. by rewrite decide_True by lia.
    + by rewrite decide_False by tauto.
Qed.

Lemma unblock_pre s t status reply rc : 0 <= t → sched_pre s → sched_pre (unblock s t status reply rc).
Proof.
  intros Ht Hpre. unfold unblock. destruct (Z.leb_spec MAX_TASKS t); [done|].
  assert (Hi : 0 <= t < MAX_TASKS) by lia.
  assert (Hw : task_wf (tasks s).[t]).
  { apply Forall_aget; [apply Hpre|]. by rewrite (sp_len s Hpre). }
  assert (Hone : sched_pre (upd_task s t (set_ipc status reply rc))).
  { apply upd_pre; [done|done|exact Hw|done|]. intros ->. apply (sp_idle s Hpre). }
  apply upd_pre; [done|done| |done|].
  - rewrite tasks_upd by (rewrite ?(sp_len s Hpre); lia). by rewrite decide_True.
  - intros ->. rewrite tasks_upd by (rewrite ?(sp_len s Hpre); lia). rewrite decide_True by done.
    pose proof (sp_idle s Hpre) as Hr. unfold ready in *. simpl.
    by apply andb_true_iff in Hr as [-> _].
Qed.

(** The tasks other than [c] keep their contexts from [s] to [s']. *)
Definition others_kept (s s' : Scheduler) (c : Z) : Prop :=
  ∀ i, 0 <= i < MAX_TASKS → i ≠ c → same_context (tasks s).[i] (tasks s').[i].

Lemma upd_kept s i f c :
  zlen (tasks s) = MAX_TASKS → 0 <= i < MAX_TASKS → i = c → others_kept s (upd_task s i f) c.
Proof.
  intros Hlen Hi -> j Hj Hne. rewrite tasks_upd by (rewrite ?Hlen; lia).
  by rewrite decide_False by lia.
Qed.

Lemma current_wf s : sched_pre s → current_ok s → task_wf (tasks s).[current s].
Proof. intros Hpre (Hc & _). apply Forall_aget; [apply Hpre|]. by rewrite (sp_len s Hpre). Qed.

Lemma tick_ok st n rsp :
  sched_ok st → 0 <= n → clock_ok st (n + 1) →
  sched_ok (sched_step st (Tick rsp)) ∧
  others_kept (sched st) (sched (sched_step st (Tick rsp))) (current (sched st)).
Proof.
  intros [Hpre Hcur Hcoh] Hn Hclk. destruct (tick_now st n rsp Hn Hclk) as [_ Hnow].
  pose proof (current_wf _ Hpre Hcur) as Hcw. destruct Hcur as (Hc & Hcp & Hcb).
  unfold sched_step, schedule_tick. cbn [sched].
  destruct (num (sched st) <=? 1); [split; [by split|by intros i ?]|].
  cbn [fst]. set (st1 := with_sched _ _).
  assert (Hpre1 : sched_pre (sched st1)).
  { apply upd_pre; [done|done|by apply set_rsp_wf|done|]. intros _. apply (sp_idle _ Hpre). }
  destruct (switch_next_ok st1 Hpre1 Hnow) as (Hok & _ & Hctx). split; [done|].
  intros i Hi Hne. etransitivity; [|by apply Hctx].
  by apply (upd_kept _ _ _ _ (sp_len _ Hpre) Hc eq_refl).
Qed.

Lemma block_current_eq st saved reason ep :
  block_current st saved reason ep =
  let c := current (sched st) in
  let st2 := switch_next (with_sched st (upd_task (sched st) c (set_park reason ep))) in
  (with_sched st2 (upd_task (sched st2) c (set_rsp saved)),
   t_rsp (tasks (sched st2)).[current (sched st2)]).
Proof. reflexivity. Qed.

Lemma now_with_sched st s : now_ns (with_sched st s) = now_ns st.
Proof. reflexivity. Qed.

(** Storing the saved-context pointer of a task that is not running. *)
Lemma save_slot_ok st c saved :
  sched_ok st → 0 <= c < MAX_TASKS → current (sched st) ≠ c → c ≠ 0 →
  let s' := upd_task (sched st) c (set_rsp saved) in
  sched_ok (with_sched st s') ∧ others_kept (sched st) s' c ∧
  (tasks s').[c] = set_rsp saved (tasks (sched st)).[c].
Proof.
  intros [Hpre Hcur Hcoh] Hc Hne Hc0 s'. pose proof (sp_len _ Hpre) as Hlen.
  assert (Hget : (tasks s').[current (sched st)] = (tasks (sched st)).[current (sched st)]).
  { unfold s'. destruct Hcur. rewrite tasks_upd by (rewrite ?Hlen; lia). by rewrite decide_False. }
  split; [split|split].
  - apply upd_pre; [done|done| |done|done]. apply set_rsp_wf, Forall_aget; [apply Hpre|].
    by rewrite Hlen.
  - unfold current_ok, s' in *. cbn [sched with_sched]. by rewrite current_upd, Hget.
  - unfold coherent, s' in *. cbn [sched with_sched tss_rsp0 kernel_rsp0 current_dom].
    by rewrite current_upd, Hget.
  - by apply upd_kept.
  - unfold s'. rewrite tasks_upd by (rewrite ?Hlen; lia). by rewrite decide_True.
Qed.

(** The caller of [block_current] is parked at [saved], and another task runs. *)
Lemma block_ok st n saved reason ep :
  sched_ok st → current (sched st) ≠ 0 → 0 <= n → clock_ok st n →
  let st' := (block_current st saved reason ep).1 in
  sched_ok st' ∧ others_kept (sched st) (sched st') (current (sched st)) ∧
  current (sched st') ≠ current (sched st) ∧
  same_context (set_rsp saved (set_park reason ep (tasks (sched st)).[current (sched st)]))
    (tasks (sched st')).[current (sched st)] ∧
  (block_current st saved reason ep).2 = t_rsp (tasks (sched st')).[current (sched st')].
Proof.
  intros [Hpre Hcur Hcoh] Hne0 Hn Hclk. pose proof (sp_len _ Hpre) as Hlen.
  pose proof (current_wf _ Hpre Hcur) as Hcw. destruct Hcur as (Hc & Hcp & Hcb).
  rewrite block_current_eq. cbn zeta. cbn [fst snd]. set (c := current (sched st)) in *.
  set (st1 := with_sched st _).
  assert (Hpre1 : sched_pre (sched st1)) by (apply upd_pre; [done|done|exact Hcw|done|done]).
  destruct (switch_next_ok st1 Hpre1) as ([Hpre2 Hcur2 Hcoh2] & Hr2 & Hctx).
  { unfold st1. rewrite now_with_sched. by apply (clock_now st n). }
  set (st2 := switch_next st1) in *. clearbody st2. pose proof (sp_len _ Hpre2) as Hlen2.
  assert (Hb2 : same_context (set_park reason ep (tasks (sched st)).[c]) (tasks (sched st2)).[c]).
  { pose proof (Hctx c Hc) as Hk. unfold st1 in Hk. cbn [sched with_sched] in Hk.
    rewrite tasks_upd in Hk by (rewrite ?Hlen; lia). by rewrite decide_True in Hk. }
  assert (Hne2 : current (sched st2) ≠ c).
  { intros E. destruct Hcur2 as (_ & _ & Hb), Hb2 as (_ & _ & _ & _ & Hb' & _).
    rewrite E in Hb. simpl in Hb'. congruence. }
  destruct (save_slot_ok st2 c saved) as (Hok & Hk & Hgetc); [by split|done..|].
  split; [done|]. cbn [with_sched sched]. rewrite current_upd, Hgetc. split; [|split; [done|]].
  - intros i Hi Hne. etransitivity; [|by apply Hk]. etransitivity; [|by apply Hctx].
    by apply (upd_kept _ _ _ _ Hlen Hc eq_refl).
  - split; [|symmetry; by apply (Hk _ (proj1 Hcur2) Hne2)].
    destruct Hb2 as (_ & H1). split; [done|exact H1].
Qed.

Lemma wake_ok st t status reply rc :
  sched_ok st → 0 <= t →
  let st' := sched_step st (Wake t status reply rc) in
  sched_ok st' ∧ current (sched st') = current (sched st) ∧
  others_kept (sched st) (sched st') t.
Proof.
  intros [Hpre (Hc & Hcp & Hcb) Hcoh] Ht. pose proof (sp_len _ Hpre) as Hlen.
  unfold sched_step. cbn [sched with_sched].
  assert (Hcu : current (unblock (sched st) t status reply rc) = current (sched st)).
  { unfold unblock. by destruct (_ <=? _). }
  split; [split|split; [done|]].
  - by apply unblock_pre.
  - unfold current_ok. cbn [sched with_sched]. rewrite Hcu, unblock_task by (done || lia).
    case_decide; done.
  - unfold coherent. cbn [sched with_sched tss_rsp0 kernel_rsp0 current_dom].
    rewrite Hcu, unblock_task by (done || lia). case_decide; done.
  - intros i Hi Hne. rewrite unblock_task by (done || lia). by rewrite decide_False by naive_solver.
Qed.

(** One step keeps the invariant, and a task that is neither running nor woken keeps
    its context. *)
Lemma sched_step_ok st op n :
  sched_ok st → op_allowed st op → 0 <= n → clock_ok st (n + 1) →
  sched_ok (sched_step st op) ∧
  ∀ i, 0 <= i < MAX_TASKS → i ≠ current (sched st) → wakes i op = false →
    same_context (tasks (sched st)).[i] (tasks (sched (sched_step st op))).[i].
Proof.
  intros Hok Hop Hn Hclk. destruct op as [rsp|saved reason ep|t status reply rc]; simpl in Hop.
  - destruct (tick_ok st n rsp Hok Hn Hclk). eauto.
  - destruct (block_ok st (n + 1) saved reason ep Hok Hop ltac:(lia) Hclk) as (? & ? & _). eauto.
  - destruct (wake_ok st t status reply rc Hok Hop) as (? & _ & Hk). split; [done|].
    intros i Hi _ Hw%Z.eqb_neq. by apply Hk.
Qed.

(** The scheduler invariant over any trace. After any sequence of timer ticks, blocking
    calls of the running (non-idle) task and wake-ups the state is good: the task count
    is the number of present tasks, idle stays ready, the running task is present and not
    parked, and [TSS.rsp0], [PER_CPU.kernel_rsp0] and the published protection domain are
    the running task's own, so no system call or interrupt lands on another task's stack
    or resolves against another task's capabilities. *)
Lemma sched_run_ok st ops :
  sched_ok st → ops_allowed st ops → clock_ok st (zlen ops) → sched_ok (sched_run st ops).
Proof.
  revert st. induction ops as [|op ops IH]; intros st Hok Hall Hclk; [done|].
  destruct Hall as [Hop Hall]. replace (zlen (op :: ops)) with (zlen ops + 1) in Hclk by (unfold zlen; simpl; lia).
  simpl. apply IH; [|done|].
  - by apply (sched_step_ok st op (zlen ops) Hok Hop (zlen_nonneg _)).
  - apply step_clock; [apply zlen_nonneg|done].
Qed.

(** Task [i] is not given the CPU at any point of the trace. *)
Fixpoint never_current (i : Z) (st : SState) (ops : list sched_op) : Prop :=
  current (sched st) ≠ i ∧
  match ops with [] => True | op :: ops => never_current i (sched_step st op) ops end.

Lemma zlen_cons {A} (x : A) l : zlen (x :: l) = zlen l + 1.
Proof. unfold zlen. simpl. lia. Qed.

Lemma context_kept st ops i :
  sched_ok st → ops_allowed st ops → clock_ok st (zlen ops) → 0 <= i < MAX_TASKS →
  Forall (λ op, wakes i op = false) ops → never_current i st ops →
  same_context (tasks (sched st)).[i] (tasks (sched (sched_run st ops))).[i] ∧
  current (sched (sched_run st ops)) ≠ i.
Proof.
  revert st. induction ops as [|op ops IH]; intros st Hok Hall Hclk Hi Hw Hnc; [by destruct Hnc|].
  destruct Hall as [Hop Hall]. rewrite zlen_cons in Hclk. destruct Hnc as [Hne Hnc].
  apply Forall_cons in Hw as [Hw Hws].
  destruct (sched_step_ok st op (zlen ops) Hok Hop (zlen_nonneg _) Hclk) as [Hok' Hctx].
  destruct (IH (sched_step st op)) as [Hctx' Hne']; [done|done| |done|done|done|].
  { apply step_clock; [apply zlen_nonneg|done]. }
  split; [|done]. etransitivity; [|exact Hctx']. apply Hctx; [done|congruence|done].
Qed.

(** A parked task is never given the CPU before it is woken. *)
Lemma parked_never_current st ops i :
  sched_ok st → ops_allowed st ops → clock_ok st (zlen ops) → 0 <= i < MAX_TASKS →
  t_blocked (tasks (sched st)).[i] = true → Forall (λ op, wakes i op = false) ops →
  never_current i st ops.
Proof.
  revert st. induction ops as [|op ops IH]; intros st Hok Hall Hclk Hi Hb Hw.
  - split; [|done]. intros <-. destruct (so_cur _ Hok) as (_ & _ & ?). congruence.
  - assert (Hne : current (sched st) ≠ i).
    { intros <-. destruct (so_cur _ Hok) as (_ & _ & ?). congruence. }
    destruct Hall as [Hop Hall]. rewrite zlen_cons in Hclk. apply Forall_cons in Hw as [Hw Hws].
    destruct (sched_step_ok st op (zlen ops) Hok Hop (zlen_nonneg _) Hclk) as [Hok' Hctx].
    split; [done|]. apply IH; [done|done| |done| |done].
    { apply step_clock; [apply zlen_nonneg|done]. }
    destruct (Hctx i Hi) as (_ & _ & _ & _ & -> & _); [congruence|done|done].
Qed.

(** A parked task stays parked. Whatever ticks, blocks and wake-ups of other tasks
    happen, a task blocked in a system call is never selected, its periodic deadline
    does not resurrect it, and its saved context is untouched until it is woken. *)
Theorem parked_stable (st : SState) (ops : list sched_op) (i : Z) :
  sched_ok st → ops_allowed st ops → clock_ok st (zlen ops) → 0 <= i < MAX_TASKS →
  t_blocked (tasks (sched st)).[i] = true → Forall (λ op, wakes i op = false) ops →
  never_current i st ops ∧
  t_blocked (tasks (sched (sched_run st ops))).[i] = true ∧
  t_rsp (tasks (sched (sched_run st ops))).[i] = t_rsp (tasks (sched st)).[i].
Proof.
  intros Hok Hall Hclk Hi Hb Hw.
  pose proof (parked_never_current st ops i Hok Hall Hclk Hi Hb Hw) as Hnc.
  split; [done|]. destruct (context_kept st ops i Hok Hall Hclk Hi Hw Hnc) as [Hctx _].
  destruct Hctx as (-> & _ & _ & _ & -> & _). done.
Qed.


(** ** Instances *)

(** Boot state with two periodic tasks, in domains 1 and 2. *)
Definition demo_sched : Scheduler :=
  publish_task
    (publish_task (sched_init 0x1000 SCHED0) 1 (new_task 0x2000 0x3000 1 5000000 5000000 1000000 0))
    2 (new_task 0x4000 0x5000 2 5000000 7000000 1000000 0).
Definition demo_ss : SState := mkSS demo_sched 0x1000 0x1000 0 0 1000000.
(** Task 1 is selected and then parks in a system call. *)
Definition demo_parked : SState := sched_run demo_ss [Tick 0x900; Block 0x2100 2 7].

Lemma demo_sched_ok : sched_ok demo_ss.
Proof.
  split; [split| |].
  - reflexivity.
  - repeat (apply Forall_cons; split; [by vm_compute|]). by apply Forall_nil.
  - reflexivity.
  - reflexivity.
  - by vm_compute.
  - by vm_compute.
Qed.

Lemma demo_clock n : n <= 1000 → clock_ok demo_ss n.
Proof. intros Hn. unfold clock_ok, u64_max. simpl. lia. Qed.

Lemma demo_parked_ok : sched_ok demo_parked.
Proof.
  apply sched_run_ok; [apply demo_sched_ok| |by apply demo_clock; vm_compute].
  split; [done|]. split; [|done]. by vm_compute.
Qed.

Lemma roll_deadlines_exact_witness :
  let t := (tasks demo_sched).[1] in
  (tasks (roll_deadlines demo_sched 12000000)).[1] = advance 2 t.
Proof.
  destruct (roll_deadlines_exact demo_sched 12000000 1) as (_ & _ & _ & Hadv & _).
  - reflexivity.
  - exact (sp_wf _ (so_pre _ demo_sched_ok)).
  - by vm_compute.
  - by vm_compute.
  - apply Hadv. done.
Defined.

Lemma roll_deadlines_diverges_witness :
  ~ while_rel (roll_cond u64_max) roll_body (tasks demo_sched).[1] (tasks demo_sched).[1].
Proof. apply roll_deadlines_diverges; by vm_compute. Defined.

Lemma parked_stable_witness :
  t_blocked (tasks (sched (sched_run demo_parked [Tick 0x4100; Tick 0x4200]))).[1] = true ∧
  t_rsp (tasks (sched (sched_run demo_parked [Tick 0x4100; Tick 0x4200]))).[1] = 0x2100.
Proof.
  destruct (parked_stable demo_parked [Tick 0x4100; Tick 0x4200] 1) as (_ & Hb & Hr).
  - exact demo_parked_ok.
  - by repeat split.
  - by vm_compute.
  - by vm_compute.
  - by vm_compute.
  - by repeat constructor.
  - split; [exact Hb|]. rewrite Hr. by vm_compute.
Defined.

