(* ===== verification/Apic.v ===== *)
(** * The local APIC timer ([kernel/src/apic.rs])

    The tick that drives the scheduler: the legacy interrupt controllers are masked, the
    local APIC enabled and its timer calibrated against channel 2 of the interval timer.
    Ports, model-specific registers and the APIC's window are hardware: [ApicHw] is their
    interface, [ApicLaws] that the registers the driver programs hold what is written and
    that nothing else it touches disturbs them. *)

From S2P Require Import Prelude FrameSpec Memory Paging.

Definition IA32_APIC_BASE : Z := 0x1B.
Definition APIC_BASE_GLOBAL_ENABLE : Z := Z.shiftl 1 11.
Definition APIC_BASE_ADDR_MASK : Z := 0x000ffffffffff000.

Definition REG_ID : Z := 0x020.
Definition REG_EOI : Z := 0x0B0.
Definition REG_SVR : Z := 0x0F0.
Definition REG_LVT_TIMER : Z := 0x320.
Definition REG_TIMER_INIT : Z := 0x380.
Definition REG_TIMER_CURR : Z := 0x390.
Definition REG_TIMER_DIV : Z := 0x3E0.

Definition PIT_HZ : Z := 1193182.
Definition QUANTUM_NS : Z := 1000000.

Definition SVR_APIC_SOFTWARE_ENABLE : Z := Z.shiftl 1 8.
Definition LVT_TIMER_PERIODIC : Z := Z.shiftl 1 17.
Definition TIMER_DIVIDE_BY_16 : Z := 3.
Definition TIMER_VECTOR : Z := 0x20.
Definition SPURIOUS_VECTOR : Z := 0xFF.
Definition FALLBACK_PER_MS : Z := 62500.
Definition GUARD_BOUND : Z := 50000000.

Class ApicHw (H : Type) := {
  hw_rdmsr : H → Z → Z;
  hw_wrmsr : H → Z → Z → H;
  hw_inb : H → Z → H * Z;
  hw_outb : H → Z → Z → H;
  hw_read32 : H → Z → H * Z;          (* the window, by virtual address *)
  hw_write32 : H → Z → Z → H;
}.

(** The statics and what the driver reaches. *)
Record Apic {H : Type} := mkApic { LAPIC_VIRT : Z; TICK_NS : Z; hw : H; ap_ps : PState; ap_fa : FrameAllocator }.
Arguments Apic H : clear implicits.

Section apic.
Context {H : Type} `{ApicHw H}.
Implicit Types (s : Apic H).

Definition with_hw s (h : H) : Apic H := mkApic H (LAPIC_VIRT s) (TICK_NS s) h (ap_ps s) (ap_fa s).

Definition rdmsr s (reg : Z) : Z := hw_rdmsr (hw s) reg.
Definition wrmsr s (reg val : Z) : Apic H := with_hw s (hw_wrmsr (hw s) reg val).
Definition inb s (port : Z) : Apic H * Z := let '(h, v) := hw_inb (hw s) port in (with_hw s h, v).
Definition outb s (port val : Z) : Apic H := with_hw s (hw_outb (hw s) port val).

Definition reg_read s (off : Z) : Apic H * Z :=
  let '(h, v) := hw_read32 (hw s) (LAPIC_VIRT s + off) in (with_hw s h, v).
Definition reg_write s (off val : Z) : Apic H := with_hw s (hw_write32 (hw s) (LAPIC_VIRT s + off) val).

Definition tick_ns s : Z := TICK_NS s.
Definition timer_curr s : Apic H * Z := reg_read s REG_TIMER_CURR.

(** One round of the wait for OUT2: the state, [guard], and whether it [fired] once left. *)
Definition gate_round (y : Apic H * Z * option bool) : Apic H * Z * option bool :=
  let '(s, guard, _) := y in
  let '(s, v) := inb s 0x61 in
  if negb (Z.land v 0x20 =? 0) then (s, guard, Some true)
  else let guard := wrap 32 (guard + 1) in
       if GUARD_BOUND <? guard then (s, guard, Some false) else (s, guard, None).
Definition gate_open (y : Apic H * Z * option bool) : bool := match y.2 with None => true | Some _ => false end.
Definition gate_wait s : Apic H * bool :=
  let '(s, _, r) := while_pos gate_open gate_round 50000001 (s, 0, None) in (s, default false r).

(** Arm channel 2 for 10 ms; the value of the gate port. *)
Definition arm_pit s : Apic H * Z :=
  let '(s, v) := inb s 0x61 in
  let gate := Z.lor (Z.land v 0xFC) 0x01 in
  let s := outb s 0x61 (Z.land gate (lnotw 8 0x01)) in
  let s := outb s 0x43 0xB0 in
  let count := wrap 16 (PIT_HZ / 100) in
  let s := outb s 0x42 (wrap 8 (Z.land count 0xFF)) in
  let s := outb s 0x42 (wrap 8 (Z.shiftr count 8)) in
  (s, gate).

Definition per_ms_of (fired : bool) (start end_ : Z) : Z :=
  if negb fired then FALLBACK_PER_MS
  else
    let elapsed := wrap 32 (start - end_) in
    let apic_hz := sat_mul64 elapsed 100 in
    let per_ms := wrap 32 (apic_hz / 1000) in
    if per_ms <? 100 then FALLBACK_PER_MS else per_ms.

Definition calibrate_apic_per_ms s : Apic H * Z :=
  let s := reg_write s REG_TIMER_DIV TIMER_DIVIDE_BY_16 in
  let s := reg_write s REG_LVT_TIMER (Z.shiftl 1 16) in
  let s := reg_write s REG_TIMER_INIT 0xFFFFFFFF in
  let '(s, gate) := arm_pit s in
  let '(s, start) := timer_curr s in
  let s := outb s 0x61 (Z.lor gate 0x01) in
  let '(s, fired) := gate_wait s in
  let '(s, end_) := timer_curr s in
  let s := reg_write s REG_LVT_TIMER (Z.shiftl 1 16) in
  (s, per_ms_of fired start end_).

Definition mask_legacy_pic s : Apic H := outb (outb s 0x21 0xFF) 0xA1 0xFF.

(** Software-enable, calibrate and start the periodic timer. *)
Definition arm_timer s : Apic H :=
  let s := reg_write s REG_SVR (Z.lor SVR_APIC_SOFTWARE_ENABLE SPURIOUS_VECTOR) in
  let '(s, per_ms) := calibrate_apic_per_ms s in
  let s := mkApic H (LAPIC_VIRT s) QUANTUM_NS (hw s) (ap_ps s) (ap_fa s) in
  let s := reg_write s REG_TIMER_DIV TIMER_DIVIDE_BY_16 in
  let s := reg_write s REG_LVT_TIMER (Z.lor LVT_TIMER_PERIODIC TIMER_VECTOR) in
  let s := reg_write s REG_TIMER_INIT per_ms in
  let '(s, _) := reg_read s REG_ID in
  s.

Definition init_timer `{Mapper} s (hhdm : Z) : Apic H * bool :=
  let s := mask_legacy_pic s in
  let base_msr := rdmsr s IA32_APIC_BASE in
  let phys_base := Z.land base_msr APIC_BASE_ADDR_MASK in
  let s := wrmsr s IA32_APIC_BASE (Z.lor base_msr APIC_BASE_GLOBAL_ENABLE) in
  let virt_base := hhdm + phys_base in
  match map_mmio (ap_ps s) (ap_fa s) virt_base phys_base with
  | (ps, fa, false) => (mkApic H (LAPIC_VIRT s) (TICK_NS s) (hw s) ps fa, false)
  | (ps, fa, true) =>
      let s := mkApic H virt_base (TICK_NS s) (hw s) ps fa in
      (arm_timer s, true)
  end.

Definition eoi s : Apic H := reg_write s REG_EOI 0.
End apic.

(** ** The hardware *)

Class ApicLaws (H : Type) `{ApicHw H} := {
  hw_reg : H → Z → Z;        (* what a register of the window holds, by address *)
  hw_pic : H → Z → Z;        (* the mask behind a PIC data port *)
  hw_reg_write h a v a' : hw_reg (hw_write32 h a v) a' = if decide (a' = a) then v else hw_reg h a';
  hw_reg_read h a a' : hw_reg (hw_read32 h a).1 a' = hw_reg h a';
  hw_reg_in h p a' : hw_reg (hw_inb h p).1 a' = hw_reg h a';
  hw_reg_out h p v a' : hw_reg (hw_outb h p v) a' = hw_reg h a';
  hw_reg_msr h r v a' : hw_reg (hw_wrmsr h r v) a' = hw_reg h a';
  hw_pic_out h p v p' : p' ∈ [0x21; 0xA1] → hw_pic (hw_outb h p v) p' = if decide (p' = p) then v else hw_pic h p';
  hw_pic_in h p p' : hw_pic (hw_inb h p).1 p' = hw_pic h p';
  hw_pic_write h a v p' : hw_pic (hw_write32 h a v) p' = hw_pic h p';
  hw_pic_read h a p' : hw_pic (hw_read32 h a).1 p' = hw_pic h p';
  hw_pic_msr h r v p' : hw_pic (hw_wrmsr h r v) p' = hw_pic h p';
  hw_msr_write h r v r' : hw_rdmsr (hw_wrmsr h r v) r' = if decide (r' = r) then v else hw_rdmsr h r';
  hw_msr_out h p v r' : hw_rdmsr (hw_outb h p v) r' = hw_rdmsr h r';
  hw_msr_in h p r' : hw_rdmsr (hw_inb h p).1 r' = hw_rdmsr h r';
  hw_msr_write32 h a v r' : hw_rdmsr (hw_write32 h a v) r' = hw_rdmsr h r';
  hw_msr_read h a r' : hw_rdmsr (hw_read32 h a).1 r' = hw_rdmsr h r';
}.

Create Rewrite HintDb apic.
#[export] Hint Rewrite @hw_reg_read @hw_reg_in @hw_reg_out @hw_reg_msr @hw_pic_in @hw_pic_write @hw_pic_read @hw_pic_msr
  @hw_msr_out @hw_msr_in @hw_msr_write32 @hw_msr_read : apic.

(** ** Calibration *)

(** The rate is a tenth of the ticks of the 10 ms window, when there were enough. *)
Lemma per_ms_of_exact fired start end_ :
  per_ms_of fired start end_ =
  if fired && (1000 <=? (start - end_) mod 2 ^ 32) then (start - end_) mod 2 ^ 32 / 10 else 62500.
Proof.
  unfold per_ms_of. destruct fired; [|done]. cbn [negb andb]. change (wrap 32 (start - end_)) with ((start - end_) mod 2 ^ 32).
  set (e := (start - end_) mod 2 ^ 32). assert (He : 0 <= e < 2 ^ 32) by (apply Z.mod_pos_bound; lia). cbv zeta.
  assert (E : wrap 32 (sat_mul64 e 100 / 1000) = e / 10).
  { unfold sat_mul64. rewrite Z.min_l by (unfold u64_max; lia). change 1000 with (10 * 100).
    rewrite Z.div_mul_cancel_r by lia. apply wrap_id. split; [apply Z.div_pos; lia|]. apply Z.div_lt_upper_bound; lia. }
  rewrite E. destruct (Z.ltb_spec (e / 10) 100), (Z.leb_spec 1000 e); [|done|done|]; pose proof (Z.div_mod e 10 ltac:(lia)); pose proof (Z.mod_pos_bound e 10 ltac:(lia)); lia.
Qed.

Lemma per_ms_of_bounds fired start end_ : 100 <= per_ms_of fired start end_ <= 429496729.
Proof.
  rewrite per_ms_of_exact. pose proof (Z.mod_pos_bound (start - end_) (2 ^ 32) ltac:(lia)).
  destruct (fired && _) eqn:E; [|lia]. apply andb_true_iff in E as [_ E%Z.leb_le].
  split; [apply Z.div_le_lower_bound; lia|]. apply Z.lt_succ_r, Z.div_lt_upper_bound; lia.
Qed.

Section calibration.
Context {H : Type} `{ApicLaws H}.
Implicit Types (s : Apic H).

(** [s'] is [s] but for the timer's registers. *)
Record timer_only s s' : Prop := {
  to_virt : LAPIC_VIRT s' = LAPIC_VIRT s;
  to_tick : TICK_NS s' = TICK_NS s;
  to_ps : ap_ps s' = ap_ps s;
  to_fa : ap_fa s' = ap_fa s;
  to_pic p : p ∈ [0x21; 0xA1] → hw_pic (hw s') p = hw_pic (hw s) p;
  to_msr r : hw_rdmsr (hw s') r = hw_rdmsr (hw s) r;
  to_reg off : off ∉ [REG_TIMER_DIV; REG_LVT_TIMER; REG_TIMER_INIT] →
    hw_reg (hw s') (LAPIC_VIRT s + off) = hw_reg (hw s) (LAPIC_VIRT s + off);
}.

#[export] Instance timer_only_preorder : PreOrder timer_only.
Proof.
  split; [by split|]. intros s1 s2 s3 [A1 A2 A3 A4 A5 A6 A7] [B1 B2 B3 B4 B5 B6 B7].
  split; [congruence..| | |]; intros.
  - by rewrite B5, A5.
  - by rewrite B6, A6.
  - rewrite <- A7 by done. rewrite A1 in B7. by apply B7.
Qed.

Lemma timer_write s off v : off ∈ [REG_TIMER_DIV; REG_LVT_TIMER; REG_TIMER_INIT] → timer_only s (reg_write s off v).
Proof.
  intros Ho. split; cbn; try done; intros; autorewrite with apic; try done.
  rewrite hw_reg_write, decide_False; [done|]. intros E. assert (off0 = off) as -> by lia. done.
Qed.

Lemma timer_out s p v : p ∉ [0x21; 0xA1] → timer_only s (outb s p v).
Proof.
  intros Hp. split; cbn; try done; intros; autorewrite with apic; try done.
  rewrite hw_pic_out by done. rewrite decide_False; [done|]. by intros ->.
Qed.

Lemma timer_in s p : timer_only s (inb s p).1.
Proof.
  unfold inb. destruct (hw_inb (hw s) p) as [h v] eqn:E. assert (Hh : h = (hw_inb (hw s) p).1) by by rewrite E.
  split; cbn; try done; intros; rewrite Hh; autorewrite with apic; done.
Qed.

Lemma timer_read s off : timer_only s (reg_read s off).1.
Proof.
  unfold reg_read. destruct (hw_read32 (hw s) _) as [h v] eqn:E. assert (Hh : h = (hw_read32 (hw s) (LAPIC_VIRT s + off)).1) by by rewrite E.
  split; cbn; try done; intros; rewrite Hh; autorewrite with apic; done.
Qed.

(** The wait ends within its bound, whatever the port reads. *)
Lemma gate_wait_ends s : timer_only s (gate_wait s).1.
Proof.
  set (P := λ y : Apic H * Z * option bool, timer_only s y.1.1 ∧ 0 <= y.1.2 <= GUARD_BOUND + 1 ∧ (y.2 = None → y.1.2 <= GUARD_BOUND)).
  set (m := λ y : Apic H * Z * option bool, match y.2 with None => GUARD_BOUND + 1 - y.1.2 | Some _ => 0 end).
  assert (Hstep : ∀ y, P y → gate_open y = true → P (gate_round y) ∧ m (gate_round y) < m y ∧ 0 < m y).
  { intros [[s1 guard] [|]]; [done|]. intros (Ht & Hg & Hb) _. cbn in Ht, Hg, Hb. specialize (Hb eq_refl). unfold gate_round, m.
    pose proof (timer_in s1 0x61) as Hi. destruct (inb s1 0x61) as [s2 v]. cbn in Hi.
    assert (timer_only s s2) by by etransitivity. destruct (negb _); cbn.
    { split; [|lia]. split; [done|]. cbn. split; [lia|done]. }
    rewrite wrap_id by (unfold fits, GUARD_BOUND in *; lia).
    destruct (Z.ltb_spec GUARD_BOUND (guard + 1)); cbn; (split; [|lia]); (split; [done|]); cbn; (split; [lia|]); intros; first [done|lia]. }
  assert (Hstart : P (s, 0, None)) by (split; [done|]; cbn; unfold GUARD_BOUND; lia).
  destruct (while_pos_enough gate_open gate_round P m 50000001 _ Hstart Hstep) as [_ [Ht _]]; [done|].
  unfold gate_wait. destruct (while_pos _ _ _ _) as [[s' g] r]. exact Ht.
Qed.

Lemma arm_pit_timer s : timer_only s (arm_pit s).1.
Proof.
  unfold arm_pit. pose proof (timer_in s 0x61) as Hi. destruct (inb s 0x61) as [s1 v]. cbn in Hi |- *.
  do 4 (etransitivity; [|apply timer_out; set_solver]). done.
Qed.

(** Calibration returns a rate of at least 100 ticks per millisecond, leaves the timer
    masked and touches only the timer. *)
Lemma calibrate_spec s :
  let '(s', per_ms) := calibrate_apic_per_ms s in
  timer_only s s' ∧ ∃ fired start end_, per_ms = per_ms_of fired start end_.
Proof.
  unfold calibrate_apic_per_ms. set (s1 := reg_write _ REG_TIMER_INIT _).
  assert (T1 : timer_only s s1).
  { unfold s1. do 3 (etransitivity; [|apply timer_write; set_solver]). done. }
  pose proof (arm_pit_timer s1) as T2. destruct (arm_pit s1) as [s2 gate]. cbn in T2.
  pose proof (timer_read s2 REG_TIMER_CURR) as T3. unfold timer_curr. destruct (reg_read s2 REG_TIMER_CURR) as [s3 start]. cbn in T3.
  set (s4 := outb s3 0x61 _). assert (T4 : timer_only s3 s4) by (apply timer_out; set_solver).
  pose proof (gate_wait_ends s4) as T5. destruct (gate_wait s4) as [s5 fired]. cbn in T5.
  pose proof (timer_read s5 REG_TIMER_CURR) as T6. destruct (reg_read s5 REG_TIMER_CURR) as [s6 end_]. cbn in T6.
  split; [|by exists fired, start, end_]. do 6 (etransitivity; [eassumption|]). apply timer_write. set_solver.
Qed.
End calibration.

(** ** Initialisation *)

Section init.
Context {H : Type} `{ApicLaws H}.
Implicit Types (s : Apic H).

Lemma reg_read_keeps s off : let s' := (reg_read s off).1 in
  timer_only s s' ∧ ∀ a, hw_reg (hw s') a = hw_reg (hw s) a.
Proof.
  split; [apply timer_read|]. intros a. unfold reg_read. destruct (hw_read32 (hw s) _) as [h v] eqn:E. cbn.
  replace h with (hw_read32 (hw s) (LAPIC_VIRT s + off)).1 by by rewrite E. apply hw_reg_read.
Qed.

Lemma arm_timer_spec s :
  let s' := arm_timer s in
  LAPIC_VIRT s' = LAPIC_VIRT s ∧ TICK_NS s' = QUANTUM_NS ∧ ap_ps s' = ap_ps s ∧ ap_fa s' = ap_fa s ∧
  (∀ p, p ∈ [0x21; 0xA1] → hw_pic (hw s') p = hw_pic (hw s) p) ∧
  (∀ r, hw_rdmsr (hw s') r = hw_rdmsr (hw s) r) ∧
  hw_reg (hw s') (LAPIC_VIRT s + REG_SVR) = 0x1FF ∧ hw_reg (hw s') (LAPIC_VIRT s + REG_TIMER_DIV) = 3 ∧
  hw_reg (hw s') (LAPIC_VIRT s + REG_LVT_TIMER) = 0x20020 ∧
  ∃ fired start end_, hw_reg (hw s') (LAPIC_VIRT s + REG_TIMER_INIT) = per_ms_of fired start end_.
Proof.
  unfold arm_timer. set (s3 := reg_write s REG_SVR _). pose proof (calibrate_spec s3) as Hc.
  destruct (calibrate_apic_per_ms s3) as [s4 per_ms]. destruct Hc as [[C1 C2 C3 C4 C5 C6 C7] Hper]. cbn in C1, C3, C4.
  assert (C8 : hw_reg (hw s4) (LAPIC_VIRT s + REG_SVR) = 0x1FF).
  { etransitivity; [exact (C7 REG_SVR ltac:(set_solver))|]. cbn. by rewrite hw_reg_write, decide_True. }
  set (s6 := reg_write _ REG_TIMER_INIT per_ms). destruct (reg_read_keeps s6 REG_ID) as [[T1 T2 T3 T4 T5 T6 _] Hr].
  destruct (reg_read s6 REG_ID) as [s7 v]. cbn in T1, T2, T3, T4, T5, T6, Hr |- *.
  assert (Hreg : ∀ off, hw_reg (hw s7) (LAPIC_VIRT s + off) =
    if decide (off = REG_TIMER_INIT) then per_ms else if decide (off = REG_LVT_TIMER) then 0x20020
    else if decide (off = REG_TIMER_DIV) then 3 else hw_reg (hw s4) (LAPIC_VIRT s + off)).
  { intros off. rewrite Hr, !hw_reg_write, C1. repeat case_decide; (done || lia). }
  rewrite !Hreg. split; [congruence|]. split; [done|]. split; [congruence|]. split; [congruence|]. split; [|split; [|split; [|split; [|split]]]].
  - intros p Hp. rewrite T5 by done. autorewrite with apic. rewrite C5 by done. cbn. by autorewrite with apic.
  - intros r. rewrite T6, !hw_msr_write32, C6. apply hw_msr_write32.
  - exact C8.
  - done.
  - done.
  - destruct Hper as (f & a & b & ->). by exists f, a, b.
Qed.

(** The legacy controllers masked and the MSR written. *)
Lemma masked_spec s :
  let msr := hw_rdmsr (hw s) IA32_APIC_BASE in
  hw_rdmsr (hw (mask_legacy_pic s)) IA32_APIC_BASE = msr ∧
  let s1 := wrmsr (mask_legacy_pic s) IA32_APIC_BASE (Z.lor msr APIC_BASE_GLOBAL_ENABLE) in
  hw_pic (hw s1) 0x21 = 0xFF ∧ hw_pic (hw s1) 0xA1 = 0xFF ∧ hw_rdmsr (hw s1) IA32_APIC_BASE = Z.lor msr (2 ^ 11) ∧
  ∀ a, hw_reg (hw s1) a = hw_reg (hw s) a.
Proof.
  cbn. split; [by autorewrite with apic|]. autorewrite with apic. rewrite !hw_pic_out by set_solver.
  split; [by repeat case_decide|]. split; [by repeat case_decide|]. split; [by rewrite hw_msr_write, decide_True|].
  intros a. by autorewrite with apic.
Qed.

(** What the mapping of the window and the tick period come to, whatever the outcome. *)
Lemma init_timer_keeps `{Mapper} {ML : MapperLaws} s hhdm :
  pt_wf (ap_ps s) (ap_fa s) →
  let '(s', ok) := init_timer s hhdm in
  pt_wf (ap_ps s') (ap_fa s') ∧ TICK_NS s' = (if ok then QUANTUM_NS else TICK_NS s) ∧
  ∀ va, vpn va ≠ vpn (hhdm + Z.land (hw_rdmsr (hw s) IA32_APIC_BASE) APIC_BASE_ADDR_MASK) →
    translate (ap_ps s') va = translate (ap_ps s) va.
Proof.
  intros Hwf. unfold init_timer, rdmsr. rewrite (proj1 (masked_spec s)).
  set (phys := Z.land _ APIC_BASE_ADDR_MASK). set (s1 := wrmsr _ _ _). change (ap_ps s1) with (ap_ps s). change (ap_fa s1) with (ap_fa s).
  destruct (map_mmio (ap_ps s) (ap_fa s) (hhdm + phys) phys) as [[ps fa] ok] eqn:Hmap.
  assert (Hargs : map_args (page_of (hhdm + phys)) (page_of phys) mmio_flags) by (split; [apply page_of_idem|split; [apply page_of_idem|done]]).
  destruct (map_to_law _ _ _ _ _ _ _ _ Hwf Hargs Hmap) as (Hwf' & _ & _ & Ho & _). rewrite vpn_page_of in Ho.
  destruct ok; [|done]. destruct (arm_timer_spec (mkApic H (hhdm + phys) (TICK_NS s1) (hw s1) ps fa)) as (_ & A2 & A3 & A4 & _).
  by rewrite A2, A3, A4.
Qed.

End init.

(** ** A machine

    Its timer counts a thousand ticks at each access to the gate port. *)

Record demo_hw := mkHW { dh_reg : Z → Z; dh_msr : Z → Z; dh_pic : Z → Z; dh_time : Z }.

Definition upd (f : Z → Z) (a v : Z) : Z → Z := λ y, if decide (y = a) then v else f y.

#[export] Instance demo_apic : ApicHw demo_hw := {
  hw_rdmsr h r := dh_msr h r;
  hw_wrmsr h r v := mkHW (dh_reg h) (upd (dh_msr h) r v) (dh_pic h) (dh_time h);
  hw_inb h p := (mkHW (dh_reg h) (dh_msr h) (dh_pic h) (dh_time h + 1), if 620 <=? dh_time h then 0x20 else 0);
  hw_outb h p v := mkHW (dh_reg h) (dh_msr h) (upd (dh_pic h) p v) (dh_time h);
  hw_read32 h a := (h, 0xFFFFFFFF - 1000 * dh_time h);
  hw_write32 h a v := mkHW (upd (dh_reg h) a v) (dh_msr h) (dh_pic h) (dh_time h);
}.

#[export] Instance demo_apic_laws : ApicLaws demo_hw.
Proof. by refine {| hw_reg := dh_reg; hw_pic := dh_pic |}. Defined.

Definition demo_machine : Apic demo_hw :=
  mkApic demo_hw 0 QUANTUM_NS (mkHW (λ _, 0) (λ _, 0x1000100) (λ _, 0) 0) demo_ps demo_fa.

