(* ===== verification/Serial.v ===== *)
(** * The serial console ([kernel/src/serial.rs])

    The driver of the 16550 UART at COM1. The chip is hardware: [Uart] is its ports and
    [UartLaws] the data sheet's behaviour of the registers the driver uses. The wait for
    the transmitter has no bound in the source, so sending is a relation, built on the
    big-step semantics of the loop; that it terminates is a theorem about a transmitter
    that drains. *)

From S2P Require Import Prelude.

Definition COM1 : Z := 0x3F8.

(** Line settings: divisor, line control, interrupt enable, FIFO and modem control. *)
Record UartRegs := mkUR { ur_divisor : Z; ur_lcr : Z; ur_ier : Z; ur_fcr : Z; ur_mcr : Z }.

Class Uart (U : Type) := {
  u_in : U → Z → U * Z;
  u_out : U → Z → Z → U;
  u_regs : U → UartRegs;
  u_sent : U → list Z;              (* bytes transmitted *)
  u_rank : U → nat;                 (* status reads until the holding register is empty *)
}.

(** A write to a configuration port: the divisor latch answers at ports 0 and 1 while bit
    7 of line control is set. *)
Definition uart_write (r : UartRegs) (p v : Z) : UartRegs :=
  let '(mkUR d lcr ier fcr mcr) := r in
  if p =? COM1 + 3 then mkUR d v ier fcr mcr
  else if p =? COM1 + 2 then mkUR d lcr ier v mcr
  else if p =? COM1 + 4 then mkUR d lcr ier fcr v
  else if p =? COM1 + 1 then
    if Z.testbit lcr 7 then mkUR (d mod 256 + 256 * v) lcr ier fcr mcr else mkUR d lcr v fcr mcr
  else if (p =? COM1) && Z.testbit lcr 7 then mkUR (d / 256 * 256 + v) lcr ier fcr mcr
  else r.

Class UartLaws (U : Type) `{Uart U} := {
  (** Configuration: any port but the holding register. *)
  u_config u p v :
    fits 8 v → p ∈ [COM1 + 1; COM1 + 2; COM1 + 3; COM1 + 4] ∨ p = COM1 ∧ Z.testbit (ur_lcr (u_regs u)) 7 = true →
    u_regs (u_out u p v) = uart_write (u_regs u) p v ∧ u_sent (u_out u p v) = u_sent u;
  (** Reading the line status: bit 5 says whether the holding register is empty. *)
  u_status u :
    let '(u', v) := u_in u (COM1 + 5) in
    u_regs u' = u_regs u ∧ u_sent u' = u_sent u ∧
    (Z.testbit v 5 = true ∧ u_rank u' = O ∨ Z.testbit v 5 = false ∧ (u_rank u' < u_rank u)%nat);
  (** An empty holding register takes a byte. *)
  u_send u b :
    fits 8 b → Z.testbit (ur_lcr (u_regs u)) 7 = false → u_rank u = O →
    u_regs (u_out u COM1 b) = u_regs u ∧ u_sent (u_out u COM1 b) = u_sent u ++ [b];
}.

Section serial.
Context {U : Type} `{Uart U}.
Implicit Types (u : U).

Definition inb u (port : Z) : U * Z := u_in u port.
Definition outb u (port val : Z) : U := u_out u port val.

Definition init u : U :=
  let u := outb u (COM1 + 1) 0x00 in
  let u := outb u (COM1 + 3) 0x80 in
  let u := outb u (COM1 + 0) 0x03 in
  let u := outb u (COM1 + 1) 0x00 in
  let u := outb u (COM1 + 3) 0x03 in
  let u := outb u (COM1 + 2) 0xC7 in
  outb u (COM1 + 4) 0x0B.

(** Reading the loop's condition: the port is read, the loop goes on while bit 5 is 0. *)
Definition poll (x : U * Z) : U * Z := inb x.1 (COM1 + 5).
Definition waiting (x : U * Z) : bool := Z.land x.2 0x20 =? 0.

Definition write_byte u (b : Z) (u' : U) : Prop :=
  ∃ x, while_rel waiting poll (poll (u, 0)) x ∧ u' = outb x.1 COM1 b.

(** [for byte in s.bytes() { if byte == b'\n' { .. } .. }] *)
Inductive write_str : U → list Z → U → Prop :=
  | write_nil u : write_str u [] u
  | write_newline u s u1 u2 u' :
      write_byte u 13 u1 → write_byte u1 10 u2 → write_str u2 s u' → write_str u (10 :: s) u'
  | write_other u b s u1 u' : b ≠ 10 → write_byte u b u1 → write_str u1 s u' → write_str u (b :: s) u'.

(** What goes over the line. *)
Definition crlf (s : list Z) : list Z := b ← s; if decide (b = 10) then [13; 10] else [b].
End serial.

(** Decide the comparisons of port numbers. *)
Ltac ports := repeat match goal with |- context [?a =? ?b] => let r := eval vm_compute in (a =? b) in change (a =? b) with r end; cbv iota.
#[local] Ltac Zify.zify_post_hook ::= Z.to_euclidean_division_equations.

Section proofs.
Context {U : Type} `{UartLaws U}.
Implicit Types (u : U).

Definition ready u : Prop := Z.testbit (ur_lcr (u_regs u)) 7 = false.

Lemma config_step u p v r :
  u_regs u = r → fits 8 v → p ∈ [COM1 + 1; COM1 + 2; COM1 + 3; COM1 + 4] ∨ p = COM1 ∧ Z.testbit (ur_lcr r) 7 = true →
  u_regs (outb u p v) = uart_write r p v ∧ u_sent (outb u p v) = u_sent u.
Proof. intros <- Hv Hp. by apply u_config. Qed.

(** [init] sets the line to 38400 baud (divisor 3), eight bits, no parity, one stop bit,
    with the divisor latch closed again and the FIFOs enabled, and transmits nothing. It
    disables the chip's interrupts unless the divisor latch was open when it started. *)
Theorem serial_init_spec u :
  u_regs (init u) = mkUR 3 0x03 (if Z.testbit (ur_lcr (u_regs u)) 7 then ur_ier (u_regs u) else 0) 0xC7 0x0B ∧
  u_sent (init u) = u_sent u.
Proof.
  unfold init. change (COM1 + 0) with COM1. destruct (u_regs u) as [d lcr ier fcr mcr] eqn:E0. cbn [ur_lcr ur_ier].
  destruct (config_step u (COM1 + 1) 0 _ E0 ltac:(done) ltac:(left; set_solver)) as [E1 S1]. set (u1 := outb u _ _) in *.
  destruct (config_step u1 (COM1 + 3) 0x80 _ E1 ltac:(done) ltac:(left; set_solver)) as [E2 S2]. set (u2 := outb u1 _ _) in *.
  assert (H80 : Z.testbit (ur_lcr (u_regs u2)) 7 = true) by (rewrite E2; unfold uart_write; ports; by destruct (Z.testbit lcr 7)).
  destruct (config_step u2 COM1 3 _ eq_refl ltac:(done) ltac:(by right)) as [E3 S3]. set (u3 := outb u2 _ _) in *.
  destruct (config_step u3 (COM1 + 1) 0 _ E3 ltac:(done) ltac:(left; set_solver)) as [E4 S4]. set (u4 := outb u3 _ _) in *.
  destruct (config_step u4 (COM1 + 3) 3 _ E4 ltac:(done) ltac:(left; set_solver)) as [E5 S5]. set (u5 := outb u4 _ _) in *.
  destruct (config_step u5 (COM1 + 2) 0xC7 _ E5 ltac:(done) ltac:(left; set_solver)) as [E6 S6]. set (u6 := outb u5 _ _) in *.
  destruct (config_step u6 (COM1 + 4) 0x0B _ E6 ltac:(done) ltac:(left; set_solver)) as [E7 S7].
  split; [|congruence]. rewrite E7, E2. unfold uart_write. ports. cbn [andb].
  change (Z.testbit 0x80 7) with true. destruct (Z.testbit lcr 7); f_equal; cbn [andb]; lia.
Qed.

Lemma land_bit5 v : (Z.land v 0x20 =? 0) = negb (Z.testbit v 5).
Proof.
  change 0x20 with (2 ^ 5). destruct (Z.testbit v 5) eqn:E; cbn.
  - apply Z.eqb_neq. intros E0. apply (f_equal (λ x, Z.testbit x 5)) in E0. by rewrite Z.land_spec, Z.bits_0, E in E0.
  - apply Z.eqb_eq, Z.bits_inj'. intros n Hn. rewrite Z.land_spec, Z.bits_0. destruct (decide (n = 5)) as [->|]; [by rewrite E|].
    by rewrite Z.pow2_bits_false, andb_false_r by lia.
Qed.

(** The wait ends, with the holding register empty and nothing else changed. *)
Lemma wait_ends n u v :
  (u_rank u < n)%nat →
  ∃ x, while_rel waiting poll (poll (u, v)) x ∧ u_rank x.1 = O ∧ u_regs x.1 = u_regs u ∧ u_sent x.1 = u_sent u.
Proof.
  revert u v. induction n as [|n IH]; intros u v Hn; [lia|]. unfold poll at 2. cbn [fst]. unfold inb.
  pose proof (u_status u) as Hs. destruct (u_in u (COM1 + 5)) as [u' w]. destruct Hs as (Hr & Hse & [[Hb Hk]|[Hb Hk]]).
  - exists (u', w). split; [|done]. apply while_done. unfold waiting. cbn. by rewrite land_bit5, Hb.
  - destruct (IH u' w ltac:(lia)) as (x & Hx & Hx0 & Hxr & Hxs). exists x. split; [|by rewrite Hxr, Hxs].
    apply while_step; [|exact Hx]. unfold waiting. cbn. by rewrite land_bit5, Hb.
Qed.

Lemma write_byte_spec u b :
  ready u → fits 8 b → ∃ u', write_byte u b u' ∧ ready u' ∧ u_sent u' = u_sent u ++ [b].
Proof.
  intros Hr Hb. destruct (wait_ends (S (u_rank u)) u 0 ltac:(lia)) as (x & Hx & Hk & Hregs & Hs).
  assert (Hr' : Z.testbit (ur_lcr (u_regs x.1)) 7 = false) by by rewrite Hregs.
  destruct (u_send x.1 b Hb Hr' Hk) as [E1 E2]. exists (outb x.1 COM1 b). split; [by exists x|].
  split; [unfold ready, outb; by rewrite E1|]. unfold outb. by rewrite E2, Hs.
Qed.

Lemma write_byte_det u b u1 u2 : write_byte u b u1 → write_byte u b u2 → u1 = u2.
Proof. intros (x & Hx & ->) (y & Hy & ->). by rewrite (while_rel_det _ _ _ _ _ Hx Hy). Qed.

Lemma write_str_det u s u1 u2 : write_str u s u1 → write_str u s u2 → u1 = u2.
Proof.
  intros H1. revert u2. induction H1 as [u|u s a b u' Ha Hb Hs IH|u c s a u' Hc Ha Hs IH]; intros u2 H2; inversion H2; subst; try done.
  - assert (a = u1) as <- by by eapply write_byte_det. assert (b = u3) as <- by by eapply write_byte_det. by apply IH.
  - assert (a = u1) as <- by by eapply write_byte_det. by apply IH.
Qed.

(** Printing terminates and prints what it is given. On a line that [init] set up and a
    transmitter that drains, [write_str] reaches exactly one final state, in which the
    string has been transmitted with each newline preceded by a carriage return. *)
Theorem write_str_spec u s :
  ready u → Forall (fits 8) s →
  ∃ u', write_str u s u' ∧ ready u' ∧ u_sent u' = u_sent u ++ crlf s ∧ ∀ u2, write_str u s u2 → u2 = u'.
Proof.
  intros Hr Hs. assert (Hex : ∃ u', write_str u s u' ∧ ready u' ∧ u_sent u' = u_sent u ++ crlf s).
  { revert u Hr. induction Hs as [|b s Hb Hs IH]; intros u Hr.
    - exists u. split; [constructor|]. split; [done|]. by rewrite app_nil_r.
    - destruct (decide (b = 10)) as [->|Hne].
      + destruct (write_byte_spec u 13 Hr ltac:(done)) as (u1 & W1 & R1 & S1).
        destruct (write_byte_spec u1 10 R1 ltac:(done)) as (u2 & W2 & R2 & S2). destruct (IH u2 R2) as (u3 & W3 & R3 & S3).
        exists u3. split; [by eapply write_newline|]. split; [done|]. rewrite S3, S2, S1. by rewrite <- !app_assoc.
      + destruct (write_byte_spec u b Hr Hb) as (u1 & W1 & R1 & S1). destruct (IH u1 R1) as (u3 & W3 & R3 & S3).
        exists u3. split; [by eapply write_other|]. split; [done|]. rewrite S3, S1, <- app_assoc. unfold crlf. cbn [mbind list_bind].
        by rewrite decide_False. }
  destruct Hex as (u' & W & R & S). exists u'. split; [done|]. split; [done|]. split; [done|].
  intros u2 W2. by eapply write_str_det.
Qed.
End proofs.

(** ** A chip that takes three reads to drain a byte *)

Record demo_uart := mkDU { du_regs : UartRegs; du_sent : list Z; du_busy : nat }.

#[export] Instance demo_uart_ports : Uart demo_uart := {
  u_in u p := match du_busy u with O => (u, 0x60) | S n => (mkDU (du_regs u) (du_sent u) n, 0x00) end;
  u_out u p v :=
    if (p =? COM1) && negb (Z.testbit (ur_lcr (du_regs u)) 7) then mkDU (du_regs u) (du_sent u ++ [v]) 3
    else mkDU (uart_write (du_regs u) p v) (du_sent u) (du_busy u);
  u_regs := du_regs;
  u_sent := du_sent;
  u_rank := du_busy;
}.

#[export] Instance demo_uart_laws : UartLaws demo_uart.
Proof.
  split.
  - intros u p v _ Hp. cbn [u_regs u_out u_sent demo_uart_ports] in *. assert (E : (p =? COM1) && negb (Z.testbit (ur_lcr (du_regs u)) 7) = false).
    { destruct Hp as [Hp|[_ Hb]]; apply andb_false_iff; [left|right; apply negb_false_iff; exact Hb].
      apply Z.eqb_neq. unfold COM1 in *. set_solver by lia. }
    by rewrite E.
  - intros [r se [|n]]; cbn; (split; [done|]; split; [done|]); [left|right]; (split; [done|lia]).
  - intros u b _ Hl _. cbn [u_regs u_out u_sent demo_uart_ports] in *. by rewrite Hl, Z.eqb_refl.
Qed.

Lemma serial_init_spec_witness :
  u_regs (init (mkDU (mkUR 0x60 0x83 0x0F 0 0) [] 0)) = mkUR 3 0x03 0x0F 0xC7 0x0B ∧
  u_regs (init (mkDU (mkUR 0x60 0x03 0x0F 0 0) [] 0)) = mkUR 3 0x03 0x00 0xC7 0x0B.
Proof.
  split; [exact (proj1 (serial_init_spec (mkDU (mkUR 0x60 0x83 0x0F 0 0) [] 0)))|
          exact (proj1 (serial_init_spec (mkDU (mkUR 0x60 0x03 0x0F 0 0) [] 0)))].
Defined.

(** "ok" and a newline. *)
Lemma write_str_spec_witness :
  ∃ u', write_str (mkDU (mkUR 3 3 0 0xC7 0x0B) [] 2) [111; 107; 10] u' ∧ du_sent u' = [111; 107; 13; 10].
Proof.
  destruct (write_str_spec (mkDU (mkUR 3 3 0 0xC7 0x0B) [] 2) [111; 107; 10]) as (u' & W & _ & S & _);
    [reflexivity|repeat constructor; vm_compute; congruence|]. exists u'. split; [exact W|exact S].
Defined.
