(* ===== verification/Gdt.v ===== *)
(** * Segments and system-call registers ([kernel/src/gdt.rs], [syscall::init])

    The descriptor table and the task-state segment that [gdt::init] builds, and the
    model-specific registers that [syscall::init] programs from it. The [x86_64]
    crate's [GlobalDescriptorTable::append] and [Star::write] are parameters, with the
    behaviour their documentation gives; what the processor does with the registers on
    [syscall] and [sysretq] is [syscall_lands] and [sysret_lands]. *)

From S2P Require Import Prelude.

(** ** [gdt.rs] *)

Inductive Descriptor :=
  kernel_code_segment | kernel_data_segment | user_data_segment | user_code_segment | tss_segment.

(** Privilege level, and size in eight-byte slots. *)
Definition dpl (d : Descriptor) : Z :=
  match d with user_data_segment | user_code_segment => 3 | _ => 0 end.
Definition slots_of (d : Descriptor) : Z := match d with tss_segment => 2 | _ => 1 end.

(** [GlobalDescriptorTable::new] and [append]. *)
Class GdtOps (G : Type) := {
  gdt_new : G;
  append : G → Descriptor → G * Z;
}.

(** A new table holds the null descriptor; [append] fills the next free slots and returns
    a selector for them: the byte offset, and the descriptor's privilege level as RPL. *)
Class GdtLaws (G : Type) `{GdtOps G} := {
  next_slot : G → Z;
  next_slot_new : next_slot gdt_new = 1;
  append_law g d : next_slot g + slots_of d <= 8 →
    (append g d).2 = Z.lor (8 * next_slot g) (dpl d) ∧
    next_slot (append g d).1 = next_slot g + slots_of d;
}.

Record GdtSelectors := mkSel {
  code_selector : Z;
  data_selector : Z;
  user_code_selector : Z;
  user_data_selector : Z;
  tss_selector : Z;
}.

Definition DOUBLE_FAULT_IST_INDEX : Z := 0.
Definition PAGE_FAULT_IST_INDEX : Z := 1.
Definition IST_STACK_SIZE : Z := 4096 * 5.

Record TaskStateSegment := mkTss {
  interrupt_stack_table : list Z;
  privilege_stack_table : list Z;
}.
(** [TaskStateSegment::new()]. *)
Definition tss_new : TaskStateSegment := mkTss (replicate 7 0) (replicate 3 0).

Definition set_rsp0 (t : TaskStateSegment) (top : Z) : TaskStateSegment :=
  mkTss (interrupt_stack_table t) (privilege_stack_table t).[0 := top].

(** The first half of [init]: [df] and [pf] are the addresses of the two IST stacks. *)
Definition init_tss (t : TaskStateSegment) (df pf stack_top : Z) : TaskStateSegment :=
  let t := mkTss (interrupt_stack_table t).[DOUBLE_FAULT_IST_INDEX := df + IST_STACK_SIZE]
             (privilege_stack_table t) in
  let t := mkTss (interrupt_stack_table t).[PAGE_FAULT_IST_INDEX := pf + IST_STACK_SIZE]
             (privilege_stack_table t) in
  mkTss (interrupt_stack_table t) (privilege_stack_table t).[0 := stack_top].

Definition kernel_selectors (s : GdtSelectors) : Z * Z := (code_selector s, data_selector s).
Definition user_selectors (s : GdtSelectors) : Z * Z :=
  (Z.lor (user_code_selector s) 3, Z.lor (user_data_selector s) 3).

Section gdt.
Context {G : Type} `{GdtOps G}.

(** The second half: the descriptors, in the order [sysretq] dictates. *)
Definition init_gdt : G * GdtSelectors :=
  let '(gdt, code) := append gdt_new kernel_code_segment in
  let '(gdt, data) := append gdt kernel_data_segment in
  let '(gdt, user_data) := append gdt user_data_segment in
  let '(gdt, user_code) := append gdt user_code_segment in
  let '(gdt, tss) := append gdt tss_segment in
  (gdt, mkSel code data user_code user_data tss).

Lemma init_gdt_selectors `{!GdtLaws G} : init_gdt.2 = mkSel 0x08 0x10 0x23 0x1b 0x28.
Proof.
  unfold init_gdt. pose proof next_slot_new as Hn.
  assert (Hstep : ∀ g d n, next_slot g = n → n + slots_of d <= 8 →
    ∃ g', append g d = (g', Z.lor (8 * n) (dpl d)) ∧ next_slot g' = n + slots_of d).
  { intros g d n <- Hle. destruct (append_law g d Hle) as [H1 H2].
    destruct (append g d) as [g' s]. simpl in *. subst s. by exists g'. }
  destruct (Hstep _ kernel_code_segment _ Hn ltac:(done)) as (g1 & -> & H1).
  destruct (Hstep _ kernel_data_segment _ H1 ltac:(done)) as (g2 & -> & H2).
  destruct (Hstep _ user_data_segment _ H2 ltac:(done)) as (g3 & -> & H3).
  destruct (Hstep _ user_code_segment _ H3 ltac:(done)) as (g4 & -> & H4).
  by destruct (Hstep _ tss_segment _ H4 ltac:(done)) as (g5 & -> & _).
Qed.
End gdt.

(** ** [syscall::init] *)

(** RFLAGS bits. *)
Definition TRAP_FLAG : Z := Z.shiftl 1 8.
Definition INTERRUPT_FLAG : Z := Z.shiftl 1 9.
Definition DIRECTION_FLAG : Z := Z.shiftl 1 10.
Definition NESTED_TASK : Z := Z.shiftl 1 14.
Definition ALIGNMENT_CHECK : Z := Z.shiftl 1 18.
(** EFER bits. *)
Definition SYSTEM_CALL_EXTENSIONS : Z := Z.shiftl 1 0.
Definition NO_EXECUTE_ENABLE : Z := Z.shiftl 1 11.

Record Msrs := mkMsrs {
  star : Z;
  lstar : Z;
  sfmask : Z;
  kernel_gs_base : Z;
  gs_base : Z;
  efer : Z;
}.

(** [Star::write(cs_sysret, ss_sysret, cs_syscall, ss_syscall)]: the new register, or an
    error for selectors the instructions cannot use. *)
Class StarOps := star_write : Z → Z → Z → Z → option Z.

Definition star_valid (cs_sysret ss_sysret cs_syscall ss_syscall : Z) : Prop :=
  cs_sysret - 16 = ss_sysret - 8 ∧ cs_syscall = ss_syscall - 8 ∧
  Z.land ss_sysret 3 = 3 ∧ Z.land ss_syscall 3 = 0.

(** A valid write puts the [sysret] base in bits 63:48 and the [syscall] base in 47:32. *)
Class StarLaws `{StarOps} := {
  star_write_ok a b c d : fits 16 a → fits 16 b → fits 16 c → fits 16 d → star_valid a b c d →
    star_write a b c d = Some (Z.lor (Z.shiftl (b - 8) 48) (Z.shiftl c 32));
  star_write_err a b c d : ¬ star_valid a b c d → star_write a b c d = None;
}.

(** [init]; [None] is the panic of [expect]. [per_cpu] and [entry] are the addresses of
    [PER_CPU] and [syscall_entry]. *)
Definition syscall_init `{StarOps} (s : GdtSelectors) (per_cpu entry : Z) (m : Msrs) : option Msrs :=
  let '(ucs, uss) := user_selectors s in
  let '(kcs, kss) := kernel_selectors s in
  match star_write ucs uss kcs kss with
  | None => None
  | Some st =>
      Some (mkMsrs st entry
        (Z.lor INTERRUPT_FLAG (Z.lor DIRECTION_FLAG (Z.lor TRAP_FLAG (Z.lor ALIGNMENT_CHECK NESTED_TASK))))
        per_cpu 0 (Z.lor (efer m) (Z.lor SYSTEM_CALL_EXTENSIONS NO_EXECUTE_ENABLE)))
  end.

(** What [syscall] loads: RIP, CS, SS, RFLAGS. *)
Definition syscall_lands (m : Msrs) (rflags : Z) : Z * Z * Z * Z :=
  let cs := Z.land (Z.shiftr (star m) 32) 0xffff in
  (lstar m, cs, cs + 8, Z.land rflags (lnotw 64 (sfmask m))).

(** What [sysretq] loads for CS and SS. *)
Definition sysret_lands (m : Msrs) : Z * Z :=
  let base := Z.land (Z.shiftr (star m) 48) 0xffff in
  (Z.lor (base + 16) 3, Z.lor (base + 8) 3).

(** The segment layout and the system-call registers agree. With the table [gdt::init]
    builds, [syscall::init] does not panic; [syscall] enters [syscall_entry] on the
    kernel's code and data segments with interrupts masked (and IF, DF, TF, AC, NT all
    clear), whatever the caller's flags; [sysretq] loads exactly the ring-3 selectors the
    scheduler writes into user frames; GS is the user's and the kernel's is armed; and no
    EFER bit that was set is lost. *)
Theorem syscall_init_spec {G} `{!GdtOps G, !GdtLaws G, !StarOps, !StarLaws} (per_cpu entry : Z) (m : Msrs) :
  ∃ m', syscall_init (init_gdt (G := G)).2 per_cpu entry m = Some m' ∧
    (∀ rflags, ∃ fl, syscall_lands m' rflags =
        (entry, (kernel_selectors (init_gdt (G := G)).2).1, (kernel_selectors (init_gdt (G := G)).2).2, fl) ∧
      submask fl rflags ∧
      Forall (λ i, Z.testbit fl i = false) [8; 9; 10; 14; 18]) ∧
    sysret_lands m' = user_selectors (init_gdt (G := G)).2 ∧
    Z.land (user_selectors (init_gdt (G := G)).2).1 3 = 3 ∧
    Z.land (kernel_selectors (init_gdt (G := G)).2).1 3 = 0 ∧
    kernel_gs_base m' = per_cpu ∧ gs_base m' = 0 ∧ submask (efer m) (efer m').
Proof.
  rewrite init_gdt_selectors. unfold syscall_init. cbn [user_selectors kernel_selectors
    user_code_selector user_data_selector code_selector data_selector].
  change (Z.lor 0x23 3) with 0x23. change (Z.lor 0x1b 3) with 0x1b.
  rewrite star_write_ok by (by vm_compute).
  eexists. split; [reflexivity|]. split; [|split; [by vm_compute|]; do 2 (split; [done|]); do 2 (split; [done|])].
  - intros fl. eexists. unfold syscall_lands. cbn [star lstar sfmask].
    split; [by f_equal; f_equal; vm_compute|]. split; [apply submask_land_l|].
    repeat constructor; rewrite Z.land_spec; apply andb_false_iff; right; by vm_compute.
  - apply submask_spec. intros i Hi Hb. cbn [efer]. by rewrite Z.lor_spec, Hb.
Qed.

(** ** An instance *)

Definition slot_gdt : GdtOps Z := {|
  gdt_new := 1;
  append g d := (g + slots_of d, Z.lor (8 * g) (dpl d));
|}.

Lemma slot_gdt_laws : @GdtLaws Z slot_gdt.
Proof. by exists id. Defined.

Definition checked_star : StarOps := λ a b c d,
  if (a - 16 =? b - 8) && (c =? d - 8) && (Z.land b 3 =? 3) && (Z.land d 3 =? 0)
  then Some (Z.lor (Z.shiftl (b - 8) 48) (Z.shiftl c 32)) else None.

Lemma checked_star_laws : @StarLaws checked_star.
Proof.
  split; unfold star_write, checked_star, star_valid.
  - intros a b c d _ _ _ _ (H1 & H2 & H3 & H4). by rewrite !(proj2 (Z.eqb_eq _ _)).
  - intros a b c d Hn. destruct (_ && _) eqn:E; [|done]. exfalso. apply Hn. bools. lia.
Qed.

Lemma syscall_init_spec_witness :
  (@append Z slot_gdt 4 user_code_segment).2 = 0x23 ∧
  ∃ m', @syscall_init checked_star (@init_gdt Z slot_gdt).2 0xa000 0xb000 (mkMsrs 0 0 0 0 0 0x500) = Some m' ∧
    sysret_lands m' = (0x23, 0x1b) ∧ efer m' = 0xd01.
Proof.
  split; [reflexivity|].
  destruct (@syscall_init_spec Z slot_gdt slot_gdt_laws checked_star checked_star_laws 0xa000 0xb000
    (mkMsrs 0 0 0 0 0 0x500)) as (m' & Hm & _ & Hs & _).
  exists m'. split; [exact Hm|]. split; [exact Hs|]. by injection Hm as <-.
Defined.
