(* ===== verification/Context.v ===== *)
(** * Context switching (the assembly of [kernel/src/sched.rs])

    An interpreter for the straight-line assembly the kernel contains, and the routines
    of [sched.rs] written in it: [timer_isr], [block_and_switch] with its resumption
    point, [jump_to_task], and [build_task_frame_inner], which writes the first frame of
    a task. [syscall_entry] is in [Kernel].

    The machine has the fifteen general registers, RSP, the two GS bases, the 64-bit
    words of kernel memory, and an environment [E], the state the called Rust functions
    work on. A [call] runs a function of the model and follows the System V convention:
    callee-saved registers survive, the other registers are arbitrary ([clobber]), and
    the callee's own stack use ([scratch]) changes words below RSP only. Accesses that
    are not aligned, or read an absent word, are stuck. *)

From S2P Require Import Prelude Sched Gdt.

(** ** Registers *)

Inductive reg := RAX | RBX | RCX | RDX | RSI | RDI | RBP | R8 | R9 | R10 | R11 | R12 | R13 | R14 | R15.
#[global] Instance reg_eq_dec : EqDecision reg.
Proof. solve_decision. Defined.

Record Regs := mkRegs {
  rax : Z; rbx : Z; rcx : Z; rdx : Z; rsi : Z; rdi : Z; rbp : Z; r8 : Z;
  r9 : Z; r10 : Z; r11 : Z; r12 : Z; r13 : Z; r14 : Z; r15 : Z;
}.

Definition get_reg (g : Regs) (r : reg) : Z :=
  match r with
  | RAX => rax g | RBX => rbx g | RCX => rcx g | RDX => rdx g | RSI => rsi g
  | RDI => rdi g | RBP => rbp g | R8 => r8 g | R9 => r9 g | R10 => r10 g
  | R11 => r11 g | R12 => r12 g | R13 => r13 g | R14 => r14 g | R15 => r15 g
  end.

Definition tabulate (f : reg → Z) : Regs :=
  mkRegs (f RAX) (f RBX) (f RCX) (f RDX) (f RSI) (f RDI) (f RBP) (f R8)
    (f R9) (f R10) (f R11) (f R12) (f R13) (f R14) (f R15).

Definition set_reg (g : Regs) (r : reg) (v : Z) : Regs := tabulate (λ r', if decide (r = r') then v else get_reg g r').

Definition zero_regs : Regs := tabulate (λ _, 0).

Lemma get_tabulate f r : get_reg (tabulate f) r = f r.
Proof. by destruct r. Qed.
Lemma get_set_reg g r v r' : get_reg (set_reg g r v) r' = if decide (r = r') then v else get_reg g r'.
Proof. apply get_tabulate. Qed.
Lemma regs_ext g g' : (∀ r, get_reg g r = get_reg g' r) → g = g'.
Proof.
  intros Hg. destruct g, g'.
  f_equal; [apply (Hg RAX)|apply (Hg RBX)|apply (Hg RCX)|apply (Hg RDX)|apply (Hg RSI)|apply (Hg RDI)
    |apply (Hg RBP)|apply (Hg R8)|apply (Hg R9)|apply (Hg R10)|apply (Hg R11)|apply (Hg R12)
    |apply (Hg R13)|apply (Hg R14)|apply (Hg R15)].
Qed.

Definition callee_saved : list reg := [RBX; RBP; R12; R13; R14; R15].

(** ** The machine *)

Record Mach {E : Type} := mkM {
  regs : Regs;
  rsp : Z;
  gs : Z;       (* active GS base *)
  kgs : Z;      (* the base [swapgs] exchanges it with *)
  mem : gmap Z Z;
  env : E;
}.
Arguments Mach E : clear implicits.

Inductive instr :=
  | Push (r : reg) | PushI (v : Z) | PushGs (off : Z) | Pop (r : reg)
  | Mov (dst src : reg) | MovFromRsp (dst : reg) | MovToRsp (src : reg)
  | StoreRsp (a : reg)            (* mov [a], rsp *)
  | AndRsp (mask : Z) | AddRsp (n : Z)
  | Lea (r : reg) (addr : Z)      (* lea r, [rip + label] *)
  | Xor (r : reg)                 (* xor r32, r32 *)
  | GsStoreRsp (off : Z) | GsLoadRsp (off : Z) | GsLoad (r : reg) (off : Z)
  | Swapgs | Call | Iretq | Ret | Sysretq.

(** How a sequence ends: the machine and what the last instruction loads. *)
Inductive outcome (E : Type) :=
  | Iretted (m : Mach E) (rip cs rflags ss : Z)
  | Returned (m : Mach E) (rip : Z)
  | Sysretted (m : Mach E) (rip rflags : Z)
  | Switched (m : Mach E).
Arguments Iretted {E}. Arguments Returned {E}. Arguments Sysretted {E}. Arguments Switched {E}.

Definition word (m : gmap Z Z) (a : Z) : option Z := if a mod 8 =? 0 then m !! a else None.

(** The per-CPU block behind the kernel's GS base. *)
Class PerCpuEnv (E : Type) := {
  pc_base : Z;
  pc_get : E → Z → Z;
  pc_set : E → Z → Z → E;
}.

(** Compiled Rust code under the System V convention. *)
Class CallAbi := {
  clobber : Regs → Regs;
  scratch : Z → gmap Z Z → gmap Z Z;
  stack_use : Z;
}.
Class CallAbiLaws `{CallAbi} := {
  clobber_saved g r : r ∈ callee_saved → get_reg (clobber g) r = get_reg g r;
  scratch_outside sp m a : ¬ (sp - stack_use <= a < sp) → scratch sp m !! a = m !! a;
  stack_use_pos : 8 <= stack_use;
}.

(** What a called function does: its effect on the environment, given the argument
    registers and the word at the top of the stack, and the values it returns in RAX and,
    for a two-word result, RDX. A function that switches away does not return. *)
Inductive called (E : Type) := Back (e : E) (a : Z) (d : option Z) | Away (e : E).
Arguments Back {E}. Arguments Away {E}.

Section machine.
Context {E : Type} `{PerCpuEnv E} `{CallAbi}.
Implicit Types (m : Mach E).

Definition with_regs m g := mkM E g (rsp m) (gs m) (kgs m) (mem m) (env m).
Definition with_rsp m x := mkM E (regs m) x (gs m) (kgs m) (mem m) (env m).
Definition with_mem m x := mkM E (regs m) (rsp m) (gs m) (kgs m) x (env m).
Definition with_env m x := mkM E (regs m) (rsp m) (gs m) (kgs m) (mem m) x.
Definition with_gs m x y := mkM E (regs m) (rsp m) x y (mem m) (env m).

Definition store m (a v : Z) : option (Mach E) :=
  if a mod 8 =? 0 then Some (with_mem m (<[a := v]> (mem m))) else None.
Definition push m (v : Z) : option (Mach E) :=
  (λ m, with_rsp m (rsp m - 8)) <$> store m (rsp m - 8) v.

(** Straight-line instructions, other than [call]. *)
Definition step_instr m (i : instr) : option (Mach E) :=
  match i with
  | Push r => push m (get_reg (regs m) r)
  | PushI v => push m v
  | PushGs off => if gs m =? pc_base then push m (pc_get (env m) off) else None
  | Pop r => match word (mem m) (rsp m) with
             | Some v => Some (with_rsp (with_regs m (set_reg (regs m) r v)) (rsp m + 8))
             | None => None
             end
  | Mov dst src => Some (with_regs m (set_reg (regs m) dst (get_reg (regs m) src)))
  | MovFromRsp dst => Some (with_regs m (set_reg (regs m) dst (rsp m)))
  | MovToRsp src => Some (with_rsp m (get_reg (regs m) src))
  | StoreRsp a => store m (get_reg (regs m) a) (rsp m)
  | AndRsp mask => Some (with_rsp m (Z.land (rsp m) mask))
  | AddRsp n => Some (with_rsp m (rsp m + n))
  | Lea r addr => Some (with_regs m (set_reg (regs m) r addr))
  | Xor r => Some (with_regs m (set_reg (regs m) r 0))
  | GsStoreRsp off => if gs m =? pc_base then Some (with_env m (pc_set (env m) off (rsp m))) else None
  | GsLoadRsp off => if gs m =? pc_base then Some (with_rsp m (pc_get (env m) off)) else None
  | GsLoad r off => if gs m =? pc_base then Some (with_regs m (set_reg (regs m) r (pc_get (env m) off))) else None
  | Swapgs => Some (with_gs m (kgs m) (gs m))
  | Call | Iretq | Ret | Sysretq => None
  end.

Variable fn : E → Regs → Z → called E.

Fixpoint exec_asm (p : list instr) m : option (outcome E) :=
  match p with
  | [] => None
  | Iretq :: _ =>
      match word (mem m) (rsp m), word (mem m) (rsp m + 8), word (mem m) (rsp m + 16),
            word (mem m) (rsp m + 24), word (mem m) (rsp m + 32) with
      | Some rip, Some cs, Some fl, Some sp, Some ss => Some (Iretted (with_rsp m sp) rip cs fl ss)
      | _, _, _, _, _ => None
      end
  | Ret :: _ => (λ rip, Returned (with_rsp m (rsp m + 8)) rip) <$> word (mem m) (rsp m)
  | Sysretq :: _ => Some (Sysretted m (get_reg (regs m) RCX) (get_reg (regs m) R11))
  | Call :: p =>
      if rsp m mod 16 =? 0 then
        match fn (env m) (regs m) (default 0 (mem m !! rsp m)) with
        | Back e a d =>
            let g := set_reg (clobber (regs m)) RAX a in
            exec_asm p (mkM E (from_option (set_reg g RDX) g d) (rsp m) (gs m) (kgs m)
                      (scratch (rsp m) (mem m)) e)
        | Away e => Some (Switched (with_env m e))
        end
      else None
  | i :: p => match step_instr m i with Some m => exec_asm p m | None => None end
  end.
End machine.

(** ** Frames *)

(** What a saved context holds. *)
Record Context := mkCtx { c_regs : Regs; c_rip : Z; c_cs : Z; c_rflags : Z; c_rsp : Z; c_ss : Z }.

Definition save_order : list reg :=
  [RAX; RBX; RCX; RDX; RSI; RDI; RBP; R8; R9; R10; R11; R12; R13; R14; R15].
Definition restore_order : list reg :=
  [R15; R14; R13; R12; R11; R10; R9; R8; RBP; RDI; RSI; RDX; RCX; RBX; RAX].

(** f[0] = r15 .. f[14] = rax, f[15..20] = RIP, CS, RFLAGS, RSP, SS. *)
Definition frame_words (c : Context) : list Z :=
  (get_reg (c_regs c) <$> restore_order) ++ [c_rip c; c_cs c; c_rflags c; c_rsp c; c_ss c].

Definition words_at (m : gmap Z Z) (p : Z) (ws : list Z) : Prop :=
  ∀ k w, ws !! k = Some w → m !! (p + 8 * Z.of_nat k) = Some w.

Definition FRAME_BYTES : Z := 20 * 8.
Definition frame_at (m : gmap Z Z) (p : Z) (c : Context) : Prop :=
  p mod 8 = 0 ∧ words_at m p (frame_words c).

(** Words at increasing addresses from [p]. *)
Fixpoint write_words (m : gmap Z Z) (p : Z) (ws : list Z) : gmap Z Z :=
  match ws with
  | [] => m
  | w :: ws => <[p := w]> (write_words m (p + 8) ws)
  end.

(** ** The routines of [sched.rs] *)

Definition restore_tail : list instr := (Pop <$> restore_order) ++ [Iretq].

Definition timer_isr : list instr :=
  (Push <$> save_order) ++ [MovFromRsp RDI; AndRsp (-16); Call; MovToRsp RAX] ++ restore_tail.

(** [resume] is the address of the label [2:]. *)
Definition block_and_switch (resume : Z) : list instr :=
  [MovFromRsp RAX; PushI 0x10; Push RAX; PushI 0x2; PushI 0x8; Lea RAX resume; Push RAX] ++
  (Push <$> save_order) ++ [StoreRsp RDI; Swapgs; MovToRsp RSI] ++ restore_tail.
(** The code at the label. *)
Definition resume_point : list instr := [Swapgs; Ret].

Definition jump_to_task : list instr := MovToRsp RDI :: restore_tail.

(** [task_kstack_top]: [stacks] is the address of [TASK_STACKS]. *)
Definition task_kstack_top (stacks i : Z) : Z :=
  Z.land (stacks + i * TASK_STACK_SIZE + TASK_STACK_SIZE) (-16).

(** The assignments to [f] in turn: zeros, RDI at index 9, then the iretq words. *)
Definition build_task_frame_inner (sel : GdtSelectors) (stacks : Z) (m : gmap Z Z) (i entry_va : Z)
    (user : bool) (user_rsp initial_rdi : Z) : gmap Z Z * Z :=
  let '(cs, ss) := if user then user_selectors sel else kernel_selectors sel in
  let top := task_kstack_top stacks i in
  let frame_ptr := top - 20 * 8 in
  let m := write_words m frame_ptr (replicate 15 0) in
  let m := <[frame_ptr + 8 * 9 := initial_rdi]> m in
  let m := <[frame_ptr + 8 * 15 := entry_va]> m in
  let m := <[frame_ptr + 8 * 16 := cs]> m in
  let m := <[frame_ptr + 8 * 17 := 0x202]> m in
  let m := <[frame_ptr + 8 * 18 := if user then user_rsp - 8 else top - 8]> m in
  let m := <[frame_ptr + 8 * 19 := ss]> m in
  (m, frame_ptr).

Definition build_task_frame (sel : GdtSelectors) (stacks : Z) (m : gmap Z Z) (i entry : Z) : gmap Z Z * Z :=
  build_task_frame_inner sel stacks m i entry false 0 0.

(** What the processor does on an interrupt: push the interrupted context's iretq words on
    the kernel stack, RSP0 when coming from ring 3, the current one otherwise. *)
Definition interrupt_stack (c : Context) (rsp0 : Z) : Z :=
  Z.land (if Z.land (c_cs c) 3 =? 3 then rsp0 else c_rsp c) (-16).
Definition interrupted {E} (m : Mach E) (c : Context) (rsp0 : Z) : Mach E :=
  let top := interrupt_stack c rsp0 in
  mkM E (c_regs c) (top - 40) (gs m) (kgs m)
    (write_words (mem m) (top - 40) [c_rip c; c_cs c; c_rflags c; c_rsp c; c_ss c]) (env m).

(** [schedule_tick] as [timer_isr] calls it. *)
Definition tick (st : SState) (g : Regs) (_ : Z) : called SState :=
  let '(st, next) := schedule_tick st (rdi g) in Back st next None.

(** ** Memory lemmas *)

Lemma write_words_out m p ws a :
  ¬ (p <= a < p + 8 * zlen ws) → write_words m p ws !! a = m !! a.
Proof.
  revert p. induction ws as [|w ws IH]; intros p Ha; [done|]. unfold zlen in *. simpl in *.
  rewrite lookup_insert_ne by lia. apply IH. lia.
Qed.

Lemma write_words_in m p ws : words_at (write_words m p ws) p ws.
Proof.
  revert p. induction ws as [|w ws IH]; intros p k x Hk; [done|]. destruct k as [|k]; simpl in *.
  - injection Hk as ->. rewrite Z.add_0_r. apply lookup_insert_eq.
  - rewrite lookup_insert_ne by lia. replace (p + _) with (p + 8 + 8 * Z.of_nat k) by lia. by apply IH.
Qed.

Lemma write_words_app m p ws ws' :
  write_words m p (ws ++ ws') = write_words (write_words m (p + 8 * zlen ws) ws') p ws.
Proof.
  revert p. induction ws as [|w ws IH]; intros p; simpl.
  - f_equal. unfold zlen. simpl. lia.
  - rewrite IH. f_equal. f_equal. f_equal. unfold zlen. simpl. lia.
Qed.

Lemma words_at_agree m m' p ws :
  (∀ a, p <= a < p + 8 * zlen ws → m' !! a = m !! a) → words_at m p ws → words_at m' p ws.
Proof.
  intros Hag Hw k w Hk. pose proof (lookup_lt_Some _ _ _ Hk). rewrite Hag; [by apply Hw|].
  unfold zlen. lia.
Qed.

Lemma words_at_app m p ws ws' :
  words_at m p (ws ++ ws') ↔ words_at m p ws ∧ words_at m (p + 8 * zlen ws) ws'.
Proof.
  split.
  - intros Hw. split; intros k w Hk.
    + apply Hw. by apply lookup_app_l_Some.
    + replace (p + _ + _) with (p + 8 * Z.of_nat (length ws + k)) by (unfold zlen; lia). apply Hw.
      rewrite lookup_app_r by lia. by replace (length ws + k - length ws)%nat with k by lia.
  - intros [H1 H2] k w [Hk|[Hl Hk]]%lookup_app_Some; [by apply H1|].
    apply H2 in Hk. by replace (p + 8 * Z.of_nat k) with (p + 8 * zlen ws + 8 * Z.of_nat (k - length ws))
      by (unfold zlen; lia).
Qed.

Lemma zlen_frame c : zlen (frame_words c) = 20.
Proof. done. Qed.

Lemma frame_at_agree m m' p c :
  (∀ a, p <= a < p + FRAME_BYTES → m' !! a = m !! a) → frame_at m p c → frame_at m' p c.
Proof. intros Hag [Hp Hw]. split; [done|]. eapply words_at_agree; [|done]. by rewrite zlen_frame. Qed.

Lemma word_aligned m p k : p mod 8 = 0 → word m (p + 8 * k) = m !! (p + 8 * k).
Proof.
  intros Hp. unfold word. replace ((p + 8 * k) mod 8) with 0; [done|].
  rewrite Z.add_comm, Z.mul_comm, Z.add_comm, Z.mod_add by lia. done.
Qed.

Lemma aligned_sub p k : p mod 8 = 0 → (p - 8 * k) mod 8 = 0.
Proof. intros Hp. replace (p - 8 * k) with (p + (- k) * 8) by lia. by rewrite Z.mod_add. Qed.

Lemma land_minus16 x : Z.land x (-16) mod 16 = 0 ∧ (x mod 16 = 0 → Z.land x (-16) = x).
Proof.
  assert (Hl : Z.land x (-16) = x - x mod 16).
  { change (-16) with (Z.lnot (Z.ones 4)). rewrite <- Z.ldiff_land, Z.ldiff_ones_r by lia.
    rewrite Z.shiftl_mul_pow2, Z.shiftr_div_pow2 by lia. change (2 ^ 4) with 16.
    pose proof (Z.div_mod x 16). lia. }
  rewrite Hl. split; [|lia]. rewrite Zminus_mod_idemp_r, Z.sub_diag. done.
Qed.

#[global] Opaque write_words.

(** ** Pushing and popping *)

Section runs.
Context {E : Type} `{PerCpuEnv E} `{CallAbi}.
Implicit Types (m : Mach E) (fn : E → Regs → Z → called E).

Lemma exec_step fn i p m m' : step_instr m i = Some m' → exec_asm fn (i :: p) m = exec_asm fn p m'.
Proof. intros Hs. by destruct i; simpl in *; rewrite ?Hs; simplify_eq. Qed.

Lemma exec_call fn p m e a d :
  rsp m mod 16 = 0 → fn (env m) (regs m) (default 0 (mem m !! rsp m)) = Back e a d →
  exec_asm fn (Call :: p) m =
  exec_asm fn p (mkM E (from_option (set_reg (set_reg (clobber (regs m)) RAX a) RDX)
      (set_reg (clobber (regs m)) RAX a) d) (rsp m) (gs m) (kgs m) (scratch (rsp m) (mem m)) e).
Proof. intros Ha Hf. simpl. by rewrite Ha, Hf. Qed.

Lemma exec_call_away fn p m e :
  rsp m mod 16 = 0 → fn (env m) (regs m) (default 0 (mem m !! rsp m)) = Away e →
  exec_asm fn (Call :: p) m = Some (Switched (with_env m e)).
Proof. intros Ha Hf. simpl. by rewrite Ha, Hf. Qed.

Lemma exec_ret fn p m ra :
  rsp m mod 8 = 0 → mem m !! rsp m = Some ra →
  exec_asm fn (Ret :: p) m = Some (Returned (with_rsp m (rsp m + 8)) ra).
Proof. intros Ha Hw. simpl. unfold word. by rewrite Ha, Hw. Qed.

Lemma exec_sysret fn p m :
  exec_asm fn (Sysretq :: p) m = Some (Sysretted m (get_reg (regs m) RCX) (get_reg (regs m) R11)).
Proof. done. Qed.

(** The machine with [ws] on top of its stack. *)
Definition pushed m (ws : list Z) : Mach E :=
  let p := rsp m - 8 * zlen ws in with_rsp (with_mem m (write_words (mem m) p ws)) p.

Lemma push_pushed m v : rsp m mod 8 = 0 → push m v = Some (pushed m [v]).
Proof.
  intros Hm. unfold push, store, pushed, zlen. change (Z.of_nat (length [v])) with 1.
  pose proof (aligned_sub (rsp m) 1 Hm) as Ha. rewrite Z.mul_1_r in *. by rewrite Ha.
Qed.

Lemma pushed_pushed m ws ws' : pushed (pushed m ws) ws' = pushed m (ws' ++ ws).
Proof.
  unfold pushed. cbn [rsp with_rsp with_mem mem regs gs kgs env].
  assert (Hp : rsp m - 8 * zlen ws - 8 * zlen ws' = rsp m - 8 * zlen (ws' ++ ws))
    by (unfold zlen; rewrite length_app; lia).
  rewrite Hp. unfold with_rsp, with_mem. cbn. f_equal. rewrite write_words_app. f_equal. f_equal.
  unfold zlen. rewrite length_app. lia.
Qed.

Lemma pushed_aligned m ws : rsp m mod 8 = 0 → rsp (pushed m ws) mod 8 = 0.
Proof. intros Hm. simpl. by apply aligned_sub. Qed.

Lemma exec_pushes fn rs p m :
  rsp m mod 8 = 0 →
  exec_asm fn ((Push <$> rs) ++ p) m = exec_asm fn p (pushed m (rev (get_reg (regs m) <$> rs))).
Proof.
  revert m. induction rs as [|r rs IH]; intros m Hm; simpl.
  - f_equal. unfold pushed. destruct m. unfold with_rsp, with_mem, zlen. simpl. f_equal. lia.
  - rewrite push_pushed, IH, pushed_pushed by (done || by apply pushed_aligned). done.
Qed.

Fixpoint set_regs (g : Regs) (rs : list reg) (ws : list Z) : Regs :=
  match rs, ws with
  | r :: rs, w :: ws => set_regs (set_reg g r w) rs ws
  | _, _ => g
  end.

Lemma exec_pops fn rs ws p m :
  rsp m mod 8 = 0 → length ws = length rs → words_at (mem m) (rsp m) ws →
  exec_asm fn ((Pop <$> rs) ++ p) m =
  exec_asm fn p (with_rsp (with_regs m (set_regs (regs m) rs ws)) (rsp m + 8 * zlen ws)).
Proof.
  revert ws m. induction rs as [|r rs IH]; intros [|w ws] m Hm Hl Hw; simpl in *; try lia.
  - f_equal. destruct m. unfold with_rsp, with_regs, zlen. simpl. f_equal. lia.
  - assert (Hw0 : word (mem m) (rsp m) = Some w).
    { rewrite <- (Z.add_0_r (rsp m)). change 0 with (8 * 0) at 1. rewrite word_aligned by done.
      apply (Hw 0%nat w eq_refl). }
    rewrite Hw0, (IH ws); [|by rewrite <- (aligned_sub _ (-1) Hm); f_equal; simpl; lia|lia|].
    + f_equal. unfold with_rsp, with_regs, zlen. simpl. f_equal. lia.
    + simpl. intros k x Hk. specialize (Hw (S k) x Hk). rewrite <- Hw. f_equal. lia.
Qed.

(** [m] after [iretq] into context [c]. *)
Definition resumed m (c : Context) : outcome E :=
  Iretted (mkM E (c_regs c) (c_rsp c) (gs m) (kgs m) (mem m) (env m)) (c_rip c) (c_cs c) (c_rflags c) (c_ss c).

(** The restore tail resumes exactly the context of the frame at RSP. *)
Lemma exec_restore fn m c : frame_at (mem m) (rsp m) c → exec_asm fn restore_tail m = Some (resumed m c).
Proof.
  intros [Ha Hw]. unfold frame_words in Hw. apply words_at_app in Hw as [Hw1 Hw2].
  unfold restore_tail. rewrite (exec_pops fn restore_order (get_reg (c_regs c) <$> restore_order) _ m Ha (length_fmap _ _) Hw1).
  assert (Hz : 8 * zlen (get_reg (c_regs c) <$> restore_order) = 120) by (unfold zlen; by rewrite length_fmap).
  rewrite Hz in *.
  assert (Hk : ∀ k w, [c_rip c; c_cs c; c_rflags c; c_rsp c; c_ss c] !! k = Some w →
    word (mem m) (rsp m + 120 + 8 * Z.of_nat k) = Some w).
  { intros k w Hk. rewrite word_aligned; [by apply Hw2|].
    replace (rsp m + 120) with (rsp m - 8 * (-15)) by lia. by apply aligned_sub. }
  assert (Hr : set_regs (regs m) restore_order (get_reg (c_regs c) <$> restore_order) = c_regs c)
    by (apply regs_ext; intros []; reflexivity).
  rewrite Hr. clear Hr Hw1 Hw2 Hz. cbn [exec_asm rsp with_rsp with_regs mem].
  pose proof (Hk 0%nat _ eq_refl) as H0'. pose proof (Hk 1%nat _ eq_refl) as H1'.
  pose proof (Hk 2%nat _ eq_refl) as H2'. pose proof (Hk 3%nat _ eq_refl) as H3'.
  pose proof (Hk 4%nat _ eq_refl) as H4'.
  change (8 * Z.of_nat 0) with 0 in H0'. rewrite Z.add_0_r in H0'.
  change (8 * Z.of_nat 1) with 8 in H1'. change (8 * Z.of_nat 2) with 16 in H2'.
  change (8 * Z.of_nat 3) with 24 in H3'. change (8 * Z.of_nat 4) with 32 in H4'.
  by rewrite H0', H1', H2', H3', H4'.
Qed.
End runs.

(** ** Preemption *)

#[global] Opaque exec_asm.

Section preemption.
Context `{PerCpuEnv SState} `{CallAbi} `{!CallAbiLaws}.
Implicit Types (m : Mach SState).

Lemma interrupt_stack_aligned c rsp0 : interrupt_stack c rsp0 mod 16 = 0.
Proof. apply land_minus16. Qed.

Lemma mod16_sub x k : x mod 16 = 0 → (x - 16 * k) mod 16 = 0.
Proof. intros Hx. replace (x - 16 * k) with (x + (- k) * 16) by lia. by rewrite Z.mod_add. Qed.

Lemma mod16_mod8 x : x mod 16 = 0 → x mod 8 = 0.
Proof. intros Hx. apply Z.mod_divide in Hx as [k ->]; [|lia]. replace (k * 16) with ((k * 2) * 8) by lia. by rewrite Z.mod_mul. Qed.

#[local] Opaque schedule_tick.

(** The registers of the interrupted context above its iretq words. *)
Lemma pushed_frame m c rsp0 :
  let P := pushed (interrupted m c rsp0) (rev (get_reg (c_regs c) <$> save_order)) in
  let p := interrupt_stack c rsp0 - FRAME_BYTES in
  rsp P = p ∧ frame_at (mem P) p c ∧
  (∀ a, ¬ (p <= a < interrupt_stack c rsp0) → mem P !! a = mem m !! a).
Proof.
  intros P p. set (top := interrupt_stack c rsp0) in *.
  assert (Hrev : rev (get_reg (c_regs c) <$> save_order) = get_reg (c_regs c) <$> restore_order) by done.
  assert (HP : mem P = write_words (mem m) p (frame_words c)).
  { unfold P, pushed, frame_words. rewrite write_words_app, Hrev. unfold interrupted.
    cbn [rsp mem with_rsp with_mem]. fold top. unfold zlen. rewrite length_fmap.
    change (8 * Z.of_nat (length restore_order)) with 120.
    replace (top - 40 - 120) with p by (unfold p, FRAME_BYTES; lia).
    by replace (p + 120) with (top - 40) by (unfold p, FRAME_BYTES; lia). }
  split; [unfold P, p; simpl; fold top; unfold zlen, FRAME_BYTES; simpl; lia|]. rewrite HP. split.
  - split; [|apply write_words_in]. apply mod16_mod8. replace p with (top - 16 * 10) by (unfold p, FRAME_BYTES; lia).
    apply mod16_sub, interrupt_stack_aligned.
  - intros a Ha. apply write_words_out. rewrite zlen_frame. unfold p, FRAME_BYTES in *. lia.
Qed.

(** C25: preemption. [timer_isr], entered by a timer interrupt in any context [c], saves
    exactly [c] as a frame on the interrupted task's kernel stack, hands the frame's
    address to [schedule_tick], and leaves by [iretq] into exactly the context held by
    the frame [schedule_tick] selects: all fifteen registers, RIP, CS, RFLAGS, RSP and
    SS. The stack is aligned when the scheduler is called, no other memory is touched
    but the callee's stack below the frame, and GS is left alone. Whenever the saved
    frame, if still intact, is restored, the task continues in exactly the context in
    which it was interrupted. *)
Theorem timer_isr_switches m c rsp0 :
  let top := interrupt_stack c rsp0 in
  let p := top - FRAME_BYTES in
  ∃ mem', frame_at mem' p c ∧
    (∀ a, ¬ (p - stack_use <= a < top) → mem' !! a = mem m !! a) ∧
    (∀ c', frame_at mem' (schedule_tick (env m) p).2 c' →
      exec_asm tick timer_isr (interrupted m c rsp0) =
      Some (resumed (mkM SState (c_regs c) p (gs m) (kgs m) mem' (schedule_tick (env m) p).1) c')) ∧
    ∀ m2, (∀ a, p <= a < top → mem m2 !! a = mem' !! a) →
      exec_asm tick restore_tail (with_rsp m2 p) = Some (resumed m2 c).
Proof.
  intros top p. destruct (pushed_frame m c rsp0) as (Hsp & Hfr & Hout). fold top p in Hsp, Hfr, Hout.
  set (P := pushed _ _) in *. exists (scratch p (mem P)). pose proof stack_use_pos as Hsu.
  assert (Hpt : p + FRAME_BYTES = top) by (unfold p; lia). unfold FRAME_BYTES in Hpt.
  assert (Htop : top mod 16 = 0) by apply interrupt_stack_aligned.
  assert (Hp16 : p mod 16 = 0).
  { unfold p, FRAME_BYTES. replace (top - 20 * 8) with (top - 16 * 10) by lia. by apply mod16_sub. }
  assert (Hfr' : frame_at (scratch p (mem P)) p c).
  { eapply frame_at_agree; [|exact Hfr]. intros a Ha. apply scratch_outside. lia. }
  split; [done|split].
  - intros a Ha. rewrite scratch_outside by lia. apply Hout. lia.
  - split.
    2:{ intros m2 Hag. etransitivity; [apply (exec_restore tick _ c)|reflexivity].
        eapply frame_at_agree; [|exact Hfr']. intros a Ha. cbn [rsp with_rsp] in Ha. apply Hag.
        unfold FRAME_BYTES in Ha. lia. }
    intros c' Hc'. unfold timer_isr.
    rewrite exec_pushes
      by (simpl; fold top; replace (top - 40) with (top - 8 * 5) by lia; by apply aligned_sub, mod16_mod8).
    change (regs (interrupted m c rsp0)) with (c_regs c). fold P. cbn [app].
    erewrite exec_step by reflexivity. erewrite exec_step by reflexivity.
    cbn [rsp with_regs]. rewrite Hsp, (proj2 (land_minus16 p) Hp16).
    erewrite exec_call; [|exact Hp16|].
    2:{ unfold tick. cbn [regs with_rsp with_regs env]. change (rdi (set_reg _ RDI p)) with p.
        change (env P) with (env m). rewrite (surjective_pairing (schedule_tick (env m) p)). reflexivity. }
    erewrite exec_step by reflexivity. etransitivity; [apply exec_restore; exact Hc'|reflexivity].
Qed.
End preemption.

(** ** Blocking *)

Section blocking.
Context {E : Type} `{PerCpuEnv E} `{CallAbi}.
Implicit Types (m : Mach E) (fn : E → Regs → Z → called E).

(** The context [block_and_switch] saves: its own resumption point, on kernel segments
    with interrupts masked, RSP at the return address. *)
Definition blocked_ctx (g : Regs) (resume r0 : Z) : Context :=
  mkCtx (set_reg g RAX resume) resume 0x8 0x2 r0 0x10.

Lemma exec_block fn m resume :
  rsp m mod 8 = 0 → rdi (regs m) mod 8 = 0 →
  let p := rsp m - FRAME_BYTES in
  let c := blocked_ctx (regs m) resume (rsp m) in
  exec_asm fn (block_and_switch resume) m =
  exec_asm fn restore_tail (mkM E (c_regs c) (rsi (regs m)) (kgs m) (gs m)
    (<[rdi (regs m) := p]> (write_words (mem m) p (frame_words c))) (env m)).
Proof.
  intros Hm Hslot p c. unfold block_and_switch. cbn [app].
  set (m1 := with_regs m (set_reg (regs m) RAX (rsp m))).
  assert (Hm1 : rsp m1 mod 8 = 0) by done.
  rewrite (exec_step _ _ _ m m1) by done.
  do 4 (erewrite exec_step by (apply push_pushed; repeat apply pushed_aligned; done)).
  erewrite exec_step by reflexivity.
  erewrite exec_step by (apply push_pushed; repeat apply (pushed_aligned m1); repeat apply pushed_aligned; done).
  change (get_reg (regs (pushed m1 [16])) RAX) with (rsp m). rewrite !pushed_pushed.
  cbn [app]. set (ws := [8; 2; rsp m; 16]).
  assert (Hg : set_reg (regs (pushed m1 ws)) RAX resume = c_regs c)
    by (apply regs_ext; by intros []).
  rewrite Hg. change (get_reg (c_regs c) RAX) with resume.
  change (with_regs (pushed m1 ws) (c_regs c)) with (pushed (with_regs m (c_regs c)) ws).
  rewrite pushed_pushed, exec_pushes, pushed_pushed by by apply pushed_aligned.
  change (regs (pushed _ _)) with (c_regs c).
  change (rev _ ++ _) with (frame_words c).
  unfold pushed. rewrite zlen_frame. change (rsp (with_regs m (c_regs c)) - 8 * 20) with p.
  set (M := with_rsp _ p).
  assert (Hst : step_instr M (StoreRsp RDI) = Some (with_mem M (<[rdi (regs m) := rsp M]> (mem M)))).
  { unfold step_instr, store. change (get_reg (regs M) RDI) with (rdi (regs m)). by rewrite Hslot. }
  rewrite (exec_step _ _ _ _ _ Hst). do 2 (erewrite exec_step by reflexivity). reflexivity.
Qed.

(** C26: blocking is an ordinary call. [block_and_switch(save_slot, next)], called on the
    kernel stack with the return address on top, stores a frame below it and the frame's
    address in the slot, exchanges GS, and leaves by [iretq] into exactly the context of
    the frame at [next]. When that saved frame is later restored, by whichever of the
    three restore tails and in whatever state the machine is then, control reaches the
    resumption point with interrupts masked and returns to the caller of
    [block_and_switch]: RSP as after a return, callee-saved registers as at the call, GS
    exchanged back. *)
Theorem block_and_switch_returns fn m resume ra :
  rsp m mod 8 = 0 → rdi (regs m) mod 8 = 0 → mem m !! rsp m = Some ra →
  ¬ (rsp m - FRAME_BYTES <= rdi (regs m) <= rsp m) →
  let p := rsp m - FRAME_BYTES in
  ∃ mem', mem' !! rdi (regs m) = Some p ∧
    (∀ a, ¬ (p <= a < rsp m) → a ≠ rdi (regs m) → mem' !! a = mem m !! a) ∧
    (∀ c', frame_at mem' (rsi (regs m)) c' →
      exec_asm fn (block_and_switch resume) m =
      Some (resumed (mkM E (regs m) p (kgs m) (gs m) mem' (env m)) c')) ∧
    ∀ m2, (∀ a, p <= a <= rsp m → mem m2 !! a = mem' !! a) →
      ∃ m3 m4, exec_asm fn restore_tail (with_rsp m2 p) = Some (Iretted m3 resume 0x8 0x2 0x10) ∧
        exec_asm fn resume_point m3 = Some (Returned m4 ra) ∧
        rsp m4 = rsp m + 8 ∧ (∀ r, r ∈ callee_saved → get_reg (regs m4) r = get_reg (regs m) r) ∧
        gs m4 = kgs m2 ∧ kgs m4 = gs m2 ∧ mem m4 = mem m2 ∧ env m4 = env m2.
Proof.
  intros Hm Hslot Hra Hdis p. set (c := blocked_ctx (regs m) resume (rsp m)).
  set (mem' := <[rdi (regs m) := p]> (write_words (mem m) p (frame_words c))).
  assert (Hp : p + FRAME_BYTES = rsp m) by (unfold p; lia). unfold FRAME_BYTES in *.
  assert (Hfr : frame_at mem' p c).
  { split; [unfold p; replace (20 * 8) with (8 * 20) by lia; by apply aligned_sub|].
    eapply words_at_agree; [|apply write_words_in]. intros a Ha. rewrite zlen_frame in Ha.
    apply lookup_insert_ne. lia. }
  exists mem'. split; [apply lookup_insert_eq|]. split; [|split].
  - intros a Ha Hne. unfold mem'. rewrite lookup_insert_ne by done. apply write_words_out.
    rewrite zlen_frame. lia.
  - intros c' Hc'. rewrite exec_block by done. etransitivity; [apply exec_restore; exact Hc'|done].
  - intros m2 Hag. eexists _, _. split; [|split; [|split; [|split]]].
    + rewrite (exec_restore fn _ c); [reflexivity|]. eapply frame_at_agree; [|exact Hfr].
      intros a Ha. apply Hag. cbn [rsp with_rsp] in Ha. unfold FRAME_BYTES in Ha. lia.
    + unfold resume_point. erewrite exec_step by reflexivity. apply exec_ret; [exact Hm|].
      cbn [with_gs mem rsp with_rsp]. change (c_rsp c) with (rsp m). rewrite Hag by lia. unfold mem'.
      rewrite lookup_insert_ne, write_words_out by (rewrite ?zlen_frame; lia). exact Hra.
    + done.
    + intros r Hr. cbn [with_rsp with_gs regs]. unfold callee_saved in Hr. by destruct r; set_solver.
    + done.
Qed.
End blocking.

(** ** New tasks *)

(** The context a new task starts in. *)
Definition initial_ctx (sel : GdtSelectors) (stacks i entry_va : Z) (user : bool) (user_rsp initial_rdi : Z) : Context :=
  let s := if user then user_selectors sel else kernel_selectors sel in
  mkCtx (set_reg zero_regs RDI initial_rdi) entry_va s.1 0x202
    (if user then user_rsp - 8 else task_kstack_top stacks i - 8) s.2.

Lemma kstack_top_eq stacks i :
  stacks mod 16 = 0 → task_kstack_top stacks i = stacks + (i + 1) * TASK_STACK_SIZE.
Proof.
  intros Hs. unfold task_kstack_top.
  replace (stacks + i * TASK_STACK_SIZE + TASK_STACK_SIZE) with (stacks + (i + 1) * TASK_STACK_SIZE) by lia.
  apply land_minus16. unfold TASK_STACK_SIZE.
  replace (stacks + _) with (stacks + ((i + 1) * 4096) * 16) by lia. by rewrite Z.mod_add.
Qed.

Lemma build_frame_words sel stacks m i entry_va user user_rsp initial_rdi :
  let '(m', p) := build_task_frame_inner sel stacks m i entry_va user user_rsp initial_rdi in
  p = task_kstack_top stacks i - FRAME_BYTES ∧
  words_at m' p (frame_words (initial_ctx sel stacks i entry_va user user_rsp initial_rdi)) ∧
  ∀ a, ¬ (p <= a < p + FRAME_BYTES) → m' !! a = m !! a.
Proof.
  unfold build_task_frame_inner, initial_ctx.
  destruct (if user then user_selectors sel else kernel_selectors sel) as [cs ss]. cbn [fst snd].
  set (sp := if user then user_rsp - 8 else _). set (p := task_kstack_top stacks i - 20 * 8).
  split; [done|]. split.
  - intros k w Hk. rewrite !lookup_insert.
    do 20 (destruct k as [|k]; [injection Hk as <-; repeat (case_decide; [lia || done|]);
      first [lia|apply (write_words_in m p (replicate 15 0) _ 0); reflexivity]|]).
    by destruct k.
  - intros a Ha. unfold FRAME_BYTES in Ha. rewrite !lookup_insert_ne by lia.
    apply write_words_out. unfold zlen. simpl. lia.
Qed.

(** The first frame of a task. The frame [build_task_frame_inner] writes lies in the
    task's own kernel stack and nothing else is touched; restoring it enters the task at
    its entry point with RDI as given and every other register zero, interrupts enabled,
    on its own stack, whose alignment is that of a function entry; and with the selectors
    of [gdt::init] the task runs in ring 3 exactly when it is a user task. *)
Theorem task_frame_enters {E} `{PerCpuEnv E} `{CallAbi} {G} `{!GdtOps G, !GdtLaws G} (fn : E → Regs → Z → called E)
    (m : Mach E) stacks i entry_va user user_rsp initial_rdi :
  stacks mod 16 = 0 → 0 <= i →
  let sel := (init_gdt (G := G)).2 in
  let '(mem', p) := build_task_frame_inner sel stacks (mem m) i entry_va user user_rsp initial_rdi in
  let c := initial_ctx sel stacks i entry_va user user_rsp initial_rdi in
  (∀ a, ¬ (stacks + i * TASK_STACK_SIZE <= a < stacks + (i + 1) * TASK_STACK_SIZE) →
    mem' !! a = mem m !! a) ∧
  (∀ M, rdi (regs M) = p → (∀ a, p <= a < p + FRAME_BYTES → mem M !! a = mem' !! a) →
    exec_asm fn jump_to_task M = Some (resumed M c)) ∧
  Z.testbit (c_rflags c) 9 = true ∧
  Z.land (c_cs c) 3 = (if user then 3 else 0) ∧
  ((if user then user_rsp mod 16 = 0 else True) → c_rsp c mod 16 = 8).
Proof.
  intros Hst Hi sel.
  pose proof (build_frame_words sel stacks (mem m) i entry_va user user_rsp initial_rdi) as Hb.
  destruct (build_task_frame_inner _ _ _ _ _ _ _ _) as [mem' p]. destruct Hb as (Hp & Hw & Hout).
  rewrite kstack_top_eq in Hp by done. cbv zeta. set (c := initial_ctx _ _ _ _ _ _ _) in *.
  assert (Ht : (stacks + (i + 1) * TASK_STACK_SIZE) mod 16 = 0).
  { unfold TASK_STACK_SIZE. replace (stacks + _) with (stacks + ((i + 1) * 4096) * 16) by lia.
    by rewrite Z.mod_add. }
  split; [|split; [|split; [done|split]]].
  - intros a Ha. apply Hout. unfold FRAME_BYTES, TASK_STACK_SIZE in *. lia.
  - intros M Hr Hag. unfold jump_to_task. erewrite exec_step by reflexivity.
    etransitivity; [apply (exec_restore fn _ c)|reflexivity]. cbn [mem rsp with_rsp].
    change (get_reg (regs M) RDI) with (rdi (regs M)). rewrite Hr. eapply frame_at_agree; [exact Hag|].
    split; [|done]. rewrite Hp. unfold FRAME_BYTES. apply (aligned_sub _ 20).
    by apply mod16_mod8.
  - unfold c, initial_ctx, sel. rewrite init_gdt_selectors. by destruct user.
  - unfold c, initial_ctx. cbn [c_rsp]. rewrite kstack_top_eq by done.
    destruct user; [intros Hu|intros _; revert Ht; generalize (stacks + (i + 1) * TASK_STACK_SIZE); intros top Hu].
    all: rewrite Zminus_mod, Hu; done.
Qed.

(** ** Instances

    A callee that touches nothing, the idle task interrupted in the kernel, and a user
    task's frame at 0x2000. *)

Definition quiet : CallAbi := {| clobber := id; scratch _ m := m; stack_use := 8 |}.
Lemma quiet_laws : @CallAbiLaws quiet.
Proof. by split. Qed.
Definition sched_percpu : PerCpuEnv SState :=
  {| pc_base := 0xa000; pc_get e _ := kernel_rsp0 e; pc_set e _ _ := e |}.

#[local] Existing Instance quiet.
#[local] Existing Instance quiet_laws.
#[local] Existing Instance sched_percpu.

Definition demo_idle : Context := mkCtx zero_regs 0x100 0x8 0x202 0x900 0x10.
Definition demo_user : Context := mkCtx (set_reg zero_regs RDI 7) 0x400000 0x23 0x202 0x7ffff8 0x1b.
Definition demo_mach : Mach SState :=
  mkM SState zero_regs 0x900 0 0xa000 (write_words ∅ 0x2000 (frame_words demo_user)) demo_ss.

Lemma demo_frame : frame_at (mem demo_mach) 0x2000 demo_user.
Proof. split; [done|apply write_words_in]. Qed.

Lemma timer_isr_switches_witness :
  ∃ mem', frame_at mem' 0x860 demo_idle ∧
    exec_asm tick timer_isr (interrupted demo_mach demo_idle 0x1000) =
    Some (resumed (mkM SState zero_regs 0x860 0 0xa000 mem' (schedule_tick demo_ss 0x860).1) demo_user).
Proof.
  assert (Hn : (schedule_tick demo_ss 0x860).2 = 0x2000) by by vm_compute.
  destruct (timer_isr_switches demo_mach demo_idle 0x1000) as (mem' & Hf & Hout & Hex & _).
  exists mem'. split; [exact Hf|]. apply Hex.
  change (frame_at mem' (schedule_tick demo_ss 0x860).2 demo_user). rewrite Hn.
  eapply frame_at_agree; [|apply demo_frame]. intros a Ha. apply Hout.
  change (interrupt_stack demo_idle 0x1000) with 0x900. unfold FRAME_BYTES in *. simpl. lia.
Defined.

(** A task parked in a system call: return address 0x77 at 0x2f00, save slot at 0xb000. *)
Definition demo_caller : Mach SState :=
  mkM SState (set_reg (set_reg (set_reg zero_regs RBX 5) RDI 0xb000) RSI 0x2000) 0x2f00 0xa000 0
    (<[0x2f00 := 0x77]> (write_words ∅ 0x2000 (frame_words demo_user))) demo_ss.

Lemma block_and_switch_returns_witness :
  ∃ mem' m3 m4,
    exec_asm tick (block_and_switch 0x55) demo_caller =
      Some (resumed (mkM SState (regs demo_caller) 0x2e60 0 0xa000 mem' demo_ss) demo_user) ∧
    exec_asm tick restore_tail (mkM SState zero_regs 0x2e60 0 0xa000 mem' demo_ss) =
      Some (Iretted m3 0x55 0x8 0x2 0x10) ∧
    exec_asm tick resume_point m3 = Some (Returned m4 0x77) ∧ rbx (regs m4) = 5 ∧ rsp m4 = 0x2f08.
Proof.
  destruct (block_and_switch_returns tick demo_caller 0x55 0x77) as (mem' & _ & Hout & Hex & Hback).
  - reflexivity.
  - reflexivity.
  - apply lookup_insert_eq.
  - simpl. unfold FRAME_BYTES. lia.
  - destruct (Hback (mkM SState zero_regs 0x2e60 0 0xa000 mem' demo_ss)) as (m3 & m4 & H1 & H2 & H3 & H4 & _);
      [done|].
    exists mem', m3, m4. split; [|split; [exact H1|]; split; [exact H2|]; split; [|exact H3]].
    + apply Hex. eapply frame_at_agree; [|apply demo_frame]. intros a Ha. unfold FRAME_BYTES in Ha.
      change (rsi (regs demo_caller)) with 0x2000 in Ha. rewrite Hout.
      * simpl. apply lookup_insert_ne. lia.
      * simpl. unfold FRAME_BYTES. lia.
      * simpl. lia.
    + apply (H4 RBX). set_solver.
Defined.

Lemma task_frame_enters_witness :
  ∃ mem', exec_asm tick jump_to_task
      (mkM SState (set_reg zero_regs RDI 0x3ff60) 0 0 0xa000 mem' demo_ss) =
    Some (resumed (mkM SState zero_regs 0 0 0xa000 mem' demo_ss)
      (mkCtx (set_reg zero_regs RDI 3) 0x400000 0x23 0x202 0x7ffff8 0x1b)).
Proof.
  pose proof (@task_frame_enters SState sched_percpu quiet Z slot_gdt slot_gdt_laws tick demo_mach
    0x20000 1 0x400000 true 0x800000 3 eq_refl ltac:(lia)) as Ht.
  cbv zeta in Ht.
  destruct (build_task_frame_inner _ _ _ 1 _ _ _ _) as [mem' p] eqn:Hb.
  assert (p = 0x3ff60) as -> by (injection Hb as _ <-; reflexivity).
  destruct Ht as (_ & Hj & _). exists mem'.
  apply (Hj (mkM SState (set_reg zero_regs RDI 0x3ff60) 0 0 0xa000 mem' demo_ss) eq_refl). done.
Defined.
