(* ===== verification/BlockDev.v ===== *)
(** * Block devices and programs over them

    The kernel talks to its disk through three calls of [kernel/src/virtio_blk.rs]:
    [read_sector], [write_sector] and [flush]. What the disk does with them is
    outside the repository; [BlockDev] is the interface and [BlockDevLaws] the
    documented behaviour of a disk with a volatile write-back cache: any call may
    fail, a write may tear, and power loss may leave old or new contents of any
    sector written since the last successful flush.

    A store operation is a program over those calls ([io]), so that a crash can be
    placed between any two of them; [wp] is a weakest precondition with a crash
    invariant, in the style of crash Hoare logic. *)

From S2P Require Import Prelude.

Definition SECTOR : Z := 512.

(** Sector contents by LBA. *)
Definition disk := Z → list Z.
Definition disk_upd (x : disk) (lba : Z) (s : list Z) : disk := λ l, if l =? lba then s else x l.

(** What a write of [new] over [old] may leave: nothing, everything, or the first
    [k] bytes. *)
Definition partial (old new c : list Z) : Prop :=
  ∃ k : nat, (0 < k < 512)%nat ∧ c = take k new ++ drop k old.
Definition torn (old new c : list Z) : Prop := c = old ∨ c = new ∨ partial old new c.

Class BlockDev (D : Type) := {
  bd_read : D → Z → D * option (list Z);
  bd_write : D → Z → list Z → D * bool;
  bd_flush : D → D * bool;
  (** what reads return *)
  bd_view : D → disk;
  (** the contents power loss may leave behind *)
  bd_crash : D → disk → Prop;
}.

Class BlockDevLaws (D : Type) `{BlockDev D} := {
  bd_read_law d lba :
    (∀ l, bd_view (bd_read d lba).1 l = bd_view d l) ∧
    (∀ x, bd_crash (bd_read d lba).1 x → bd_crash d x) ∧
    (∀ s, (bd_read d lba).2 = Some s → s = bd_view d lba);
  bd_write_law d lba s : length s = 512%nat →
    (∀ l, l ≠ lba → bd_view (bd_write d lba s).1 l = bd_view d l) ∧
    ((bd_write d lba s).2 = true → bd_view (bd_write d lba s).1 lba = s) ∧
    torn (bd_view d lba) s (bd_view (bd_write d lba s).1 lba) ∧
    (∀ x, bd_crash (bd_write d lba s).1 x →
       ∃ x0, bd_crash d x0 ∧ (∀ l, l ≠ lba → x l = x0 l) ∧ torn (x0 lba) s (x lba));
  bd_flush_law d :
    (∀ l, bd_view (bd_flush d).1 l = bd_view d l) ∧
    (∀ x, bd_crash (bd_flush d).1 x → bd_crash d x) ∧
    ((bd_flush d).2 = true → ∀ x, bd_crash (bd_flush d).1 x → ∀ l, x l = bd_view d l);
  (** the current contents are among the possible ones *)
  bd_view_crash d : bd_crash d (bd_view d);
}.

(** ** Programs *)

Inductive io (A : Type) : Type :=
  | Ret (a : A)
  | ReadSector (lba : Z) (k : option (list Z) → io A)
  | WriteSector (lba : Z) (s : list Z) (k : bool → io A)
  | Flush (k : bool → io A).
Arguments Ret {A} a.
Arguments ReadSector {A} lba k.
Arguments WriteSector {A} lba s k.
Arguments Flush {A} k.

Fixpoint io_bind {A B} (p : io A) (f : A → io B) : io B :=
  match p with
  | Ret a => f a
  | ReadSector lba k => ReadSector lba (λ r, io_bind (k r) f)
  | WriteSector lba s k => WriteSector lba s (λ r, io_bind (k r) f)
  | Flush k => Flush (λ r, io_bind (k r) f)
  end.

Definition read_sector (lba : Z) : io (option (list Z)) := ReadSector lba Ret.
Definition write_sector (lba : Z) (s : list Z) : io bool := WriteSector lba s Ret.
Definition flush : io bool := Flush Ret.

Declare Scope io_scope.
Delimit Scope io_scope with io.
Notation "'let*' x := p 'in' q" := (io_bind p (λ x, q))
  (at level 10, x name, p at level 100, q at level 200) : io_scope.
#[global] Open Scope io_scope.

Section run.
Context {D : Type} `{BlockDev D}.

Fixpoint run {A} (p : io A) (d : D) : D * A :=
  match p with
  | Ret a => (d, a)
  | ReadSector lba k => let '(d', r) := bd_read d lba in run (k r) d'
  | WriteSector lba s k => let '(d', r) := bd_write d lba s in run (k r) d'
  | Flush k => let '(d', r) := bd_flush d in run (k r) d'
  end.

(** The device states at which power may be lost while [p] runs. *)
Inductive during {A} : io A → D → D → Prop :=
  | during_now p d : during p d d
  | during_read lba k d d' :
      during (k (bd_read d lba).2) (bd_read d lba).1 d' → during (ReadSector lba k) d d'
  | during_write lba s k d d' :
      during (k (bd_write d lba s).2) (bd_write d lba s).1 d' → during (WriteSector lba s k) d d'
  | during_flush k d d' :
      during (k (bd_flush d).2) (bd_flush d).1 d' → during (Flush k) d d'.

(** Weakest precondition of [Q] with [I] holding at every intermediate state. *)
Fixpoint wp {A} (I : D → Prop) (p : io A) (Q : A → D → Prop) (d : D) : Prop :=
  I d ∧
  match p with
  | Ret a => Q a d
  | ReadSector lba k => wp I (k (bd_read d lba).2) Q (bd_read d lba).1
  | WriteSector lba s k => wp I (k (bd_write d lba s).2) Q (bd_write d lba s).1
  | Flush k => wp I (k (bd_flush d).2) Q (bd_flush d).1
  end.

Lemma wp_run {A} I (p : io A) Q d : wp I p Q d → Q (run p d).2 (run p d).1.
Proof.
  revert d. induction p as [a|lba k IH|lba s k IH|k IH]; intros d [HI Hp]; simpl; [done|..].
  - specialize (IH _ _ Hp). by destruct (bd_read d lba).
  - specialize (IH _ _ Hp). by destruct (bd_write d lba s).
  - specialize (IH _ _ Hp). by destruct (bd_flush d).
Qed.

Lemma wp_during {A} I (p : io A) Q d d' : wp I p Q d → during p d d' → I d'.
Proof.
  intros Hwp Hd. induction Hd as [p d|lba k d d' _ IH|lba s k d d' _ IH|k d d' _ IH].
  - destruct p; apply Hwp.
  - apply IH, Hwp.
  - apply IH, Hwp.
  - apply IH, Hwp.
Qed.

Lemma wp_bind {A B} I (p : io A) (f : A → io B) Q d :
  wp I p (λ a d', wp I (f a) Q d') d → wp I (io_bind p f) Q d.
Proof.
  revert d. induction p as [a|lba k IH|lba s k IH|k IH]; intros d [HI Hp]; simpl; [done|..];
    (split; [done|]); by apply IH.
Qed.

Lemma wp_mono {A} (I I' : D → Prop) (p : io A) (Q Q' : A → D → Prop) d :
  (∀ d, I d → I' d) → (∀ a d, Q a d → Q' a d) → wp I p Q d → wp I' p Q' d.
Proof.
  intros HI HQ. revert d. induction p as [a|lba k IH|lba s k IH|k IH]; intros d [Hi Hp]; simpl;
    (split; [by apply HI|]); auto.
Qed.

Lemma wp_ret {A} I (a : A) Q d : I d → Q a d → wp I (Ret a) Q d.
Proof. by split. Qed.

Lemma run_bind {A B} (p : io A) (f : A → io B) d :
  run (io_bind p f) d = run (f (run p d).2) (run p d).1.
Proof.
  revert d. induction p as [a|lba k IH|lba s k IH|k IH]; intros d; simpl; [done|..].
  - destruct (bd_read d lba). apply IH.
  - destruct (bd_write d lba s). apply IH.
  - destruct (bd_flush d). apply IH.
Qed.
End run.

(** After power loss with contents [x]: reads see [x], and nothing is pending. *)
Definition rebooted {D} `{BlockDev D} (d : D) (x : disk) : Prop :=
  (∀ l, bd_view d l = x l) ∧ (∀ y, bd_crash d y → ∀ l, y l = x l).

(** ** A concrete disk

    Each call consumes one scripted outcome ([true] when the script is over); the
    sectors written since the last flush are remembered, oldest first. A failed write
    has no effect. *)

Record adisk := mkAdisk {
  stable : gmap Z (list Z);
  cache : list (Z * list Z);
  script : list bool;
}.

Definition zero_sector : list Z := replicate 512 0.
Definition stable_at (m : gmap Z (list Z)) : disk := λ l, default zero_sector (m !! l).
Definition replay (x : disk) (c : list (Z * list Z)) : disk :=
  foldl (λ x w, disk_upd x w.1 w.2) x c.

Definition next_outcome (l : list bool) : bool * list bool :=
  match l with [] => (true, []) | b :: l => (b, l) end.

(** Power loss keeps any prefix-torn subset of the cached writes, in order. *)
Inductive lose : disk → list (Z * list Z) → disk → Prop :=
  | lose_nil x y : (∀ l, y l = x l) → lose x [] y
  | lose_cons x lba s c y t :
      torn (x lba) s t → lose (disk_upd x lba t) c y → lose x ((lba, s) :: c) y.

#[global] Instance adisk_dev : BlockDev adisk := {
  bd_read d lba :=
    let '(b, sc) := next_outcome (script d) in
    (mkAdisk (stable d) (cache d) sc,
     if b then Some (replay (stable_at (stable d)) (cache d) lba) else None);
  bd_write d lba s :=
    let '(b, sc) := next_outcome (script d) in
    (mkAdisk (stable d) (if b then cache d ++ [(lba, s)] else cache d) sc, b);
  bd_flush d :=
    let '(b, sc) := next_outcome (script d) in
    (if b then mkAdisk (foldl (λ m w, <[w.1 := w.2]> m) (stable d) (cache d)) [] sc
     else mkAdisk (stable d) (cache d) sc, b);
  bd_view d := replay (stable_at (stable d)) (cache d);
  bd_crash d x := lose (stable_at (stable d)) (cache d) x;
}.

Lemma replay_snoc x c lba s : replay x (c ++ [(lba, s)]) = disk_upd (replay x c) lba s.
Proof. unfold replay. by rewrite foldl_app. Qed.

Lemma disk_upd_eq x lba s : disk_upd x lba s lba = s.
Proof. unfold disk_upd. by rewrite Z.eqb_refl. Qed.

Lemma disk_upd_ne x lba s l : l ≠ lba → disk_upd x lba s l = x l.
Proof. intros Hne. unfold disk_upd. by destruct (Z.eqb_spec l lba). Qed.

Lemma replay_stable m c l :
  stable_at (foldl (λ m w, <[w.1 := w.2]> m) m c) l = replay (stable_at m) c l.
Proof.
  assert (Hgen : ∀ x, (∀ l, x l = stable_at m l) →
    stable_at (foldl (λ m w, <[w.1 := w.2]> m) m c) l = replay x c l).
  { revert m. induction c as [|[lba s] c IH]; intros m x Hx; simpl; [done|].
    apply IH. intros l'. unfold disk_upd, stable_at. destruct (Z.eqb_spec l' lba) as [->|Hne].
    - by rewrite lookup_insert_eq.
    - rewrite lookup_insert_ne by done. apply Hx. }
  by apply Hgen.
Qed.

Lemma lose_replay x c : lose x c (replay x c).
Proof.
  revert x. induction c as [|[lba s] c IH]; intros x; [by constructor|].
  apply (lose_cons _ _ _ _ _ s); [right; by left|]. apply IH.
Qed.

(** Losing power with one more cached write. *)
Lemma lose_snoc x c lba s y :
  lose x (c ++ [(lba, s)]) y →
  ∃ y0, lose x c y0 ∧ (∀ l, l ≠ lba → y l = y0 l) ∧ torn (y0 lba) s (y lba).
Proof.
  revert x. induction c as [|[lba' s'] c IH]; intros x Hl; simpl in Hl.
  - inversion Hl as [|? ? ? ? ? t Ht Hl']; subst. inversion Hl' as [? ? Hy|]; subst.
    exists x. split; [by constructor|]. split.
    + intros l Hne. rewrite Hy. by apply disk_upd_ne.
    + by rewrite Hy, disk_upd_eq.
  - inversion Hl as [|? ? ? ? ? t Ht Hl']; subst. destruct (IH _ Hl') as (y0 & H1 & H2 & H3).
    exists y0. split; [|done]. by apply (lose_cons _ _ _ _ _ t).
Qed.

#[global] Instance adisk_laws : BlockDevLaws adisk.
Proof.
  split.
  - intros d lba. simpl. destruct (next_outcome (script d)) as [b sc]. simpl.
    split; [done|]. split; [done|]. intros s. destruct b; congruence.
  - intros d lba s Hs. simpl. destruct (next_outcome (script d)) as [b sc]. simpl.
    destruct b; simpl.
    + rewrite replay_snoc. split; [intros; by apply disk_upd_ne|]. rewrite disk_upd_eq.
      split; [done|]. split; [right; by left|]. intros x. apply lose_snoc.
    + split; [done|]. split; [done|]. split; [by left|]. intros x Hx. exists x.
      split; [done|]. split; [done|]. by left.
  - intros d. simpl. destruct (next_outcome (script d)) as [b sc]. destruct b; simpl.
    + split; [intros; apply replay_stable|]. split.
      * intros x Hx. inversion Hx as [? ? Hy|]; subst.
        assert (Heq : ∀ l, x l = replay (stable_at (stable d)) (cache d) l)
          by (intros; by rewrite Hy, replay_stable).
        clear Hx Hy. revert x Heq. generalize (stable_at (stable d)) as z.
        induction (cache d) as [|[lba s] c IH]; intros z x Heq; [by constructor|].
        apply (lose_cons _ _ _ _ _ s); [right; by left|]. apply IH. exact Heq.
      * intros _ x Hx l. inversion Hx as [? ? Hy|]; subst. by rewrite Hy, replay_stable.
    + done.
  - intros d. apply lose_replay.
Qed.
