(* ===== verification/ObjStore.v ===== *)
(** * The object store ([kernel/src/objstore.rs])

    An append log with two superblock slots: content hashing, the byte layouts,
    [mount], [put], [extent_content_hash], [recover] and [load_extent] as programs over
    the three block calls. The theorems show the layouts round-trip, a [put] that
    returns is durable, earlier extents are never overwritten, and a crash between
    any two block calls of a [put] recovers to the old or to the new root. *)

From S2P Require Import Prelude BlockDev FrameSpec Memory.

Definition SB_MAGIC : Z := 0x43616972_6E4C67.
Definition SB_VERSION : Z := 1.
Definition LBA_SB_A : Z := 0.
Definition LBA_SB_B : Z := 1.
Definition LBA_LOG_START : Z := 2.

Definition O_MAGIC : Z := 0.
Definition O_VERSION : Z := 8.
Definition O_SEQ : Z := 16.
Definition O_LOG_HEAD : Z := 24.
Definition O_ROOT_LBA : Z := 32.
Definition O_ROOT_LEN : Z := 40.
Definition O_ROOT_HASH : Z := 48.
Definition O_SB_HASH : Z := 56.

Definition REC_MAGIC : Z := 0x43616972_6E5265.
Definition RH_MAGIC : Z := 0.
Definition RH_LEN : Z := 8.
Definition RH_HASH : Z := 16.
Definition RH_PREV : Z := 24.
Definition RH_HDR_HASH : Z := 32.

Record Superblock := mkSB {
  seq_ : Z; log_head_lba : Z; root_lba : Z; root_len : Z; root_hash : Z;
}.
#[global] Instance Superblock_eq_dec : EqDecision Superblock.
Proof. solve_decision. Defined.

(** [MOUNTED], [MOUNTED_OK], [MOUNTED_SLOT]. *)
Record Store := mkStore { mounted : Superblock; mounted_ok : bool; mounted_slot : Z }.
Definition store0 : Store := mkStore (mkSB 0 0 0 0 0) false LBA_SB_A.

(** ** FNV-1a *)

Definition FNV1A_BASIS : Z := 0xcbf29ce484222325.
Definition FNV1A_PRIME : Z := 0x00000100000001b3.

Definition fnv1a_step (h : Z) (data : list Z) : Z :=
  foldl (λ h b, wrap 64 (Z.lxor h b * FNV1A_PRIME)) h data.
Definition fnv1a (data : list Z) : Z := fnv1a_step FNV1A_BASIS data.

(** ** Little-endian fields

    [rd_u64]/[rd_u32] and [wr_u64]/[wr_u32] are the same loop over 8 or 4 bytes. *)

Definition rd_le (n : nat) (b : list Z) (o : Z) : Z :=
  foldl (λ v i, Z.lor v (Z.shiftl b.[o + i] (i * 8))) 0 (seqZ 0 (Z.of_nat n)).
Definition wr_le (n : nat) (b : list Z) (o v : Z) : list Z :=
  foldl (λ b i, b.[o + i := wrap 8 (Z.shiftr v (i * 8))]) b (seqZ 0 (Z.of_nat n)).

Definition rd_u64 : list Z → Z → Z := rd_le 8.
Definition rd_u32 : list Z → Z → Z := rd_le 4.
Definition wr_u64 : list Z → Z → Z → list Z := wr_le 8.
Definition wr_u32 : list Z → Z → Z → list Z := wr_le 4.

(** ** Superblocks *)

(** The sector [write_superblock] writes. *)
Definition sb_sector (sb : Superblock) : list Z :=
  let s := zero_sector in
  let s := wr_u64 s O_MAGIC SB_MAGIC in
  let s := wr_u32 s O_VERSION SB_VERSION in
  let s := wr_u64 s O_SEQ (seq_ sb) in
  let s := wr_u64 s O_LOG_HEAD (log_head_lba sb) in
  let s := wr_u64 s O_ROOT_LBA (root_lba sb) in
  let s := wr_u32 s O_ROOT_LEN (root_len sb) in
  let s := wr_u64 s O_ROOT_HASH (root_hash sb) in
  let h := fnv1a (take (Z.to_nat O_SB_HASH) s) in
  wr_u64 s O_SB_HASH h.

Definition write_superblock (slot_lba : Z) (sb : Superblock) : io bool :=
  let* ok := write_sector slot_lba (sb_sector sb) in
  if ok then flush else Ret false.

Inductive SlotRead := Io | Invalid | Valid (sb : Superblock).

(** The checks of [read_superblock] on a sector that was read. *)
Definition parse_superblock (s : list Z) : SlotRead :=
  if negb (rd_u64 s O_MAGIC =? SB_MAGIC) then Invalid
  else if negb (fnv1a (take (Z.to_nat O_SB_HASH) s) =? rd_u64 s O_SB_HASH) then Invalid
  else Valid (mkSB (rd_u64 s O_SEQ) (rd_u64 s O_LOG_HEAD) (rd_u64 s O_ROOT_LBA)
                (rd_u32 s O_ROOT_LEN) (rd_u64 s O_ROOT_HASH)).

Definition read_superblock (slot_lba : Z) : io SlotRead :=
  let* r := read_sector slot_lba in
  match r with
  | None => Ret Io
  | Some s => Ret (parse_superblock s)
  end.

(** The choice of [mount]: the higher valid sequence number, slot A on a tie. *)
Definition pick_slot (a b : SlotRead) : option (Superblock * Z) :=
  match a, b with
  | Valid x, Valid y => Some (if seq_ y <=? seq_ x then (x, LBA_SB_A) else (y, LBA_SB_B))
  | Valid x, _ => Some (x, LBA_SB_A)
  | _, Valid y => Some (y, LBA_SB_B)
  | _, _ => None
  end.

Definition fresh_sb : Superblock := mkSB 1 LBA_LOG_START 0 0 0.

Definition mount (st : Store) : io Store :=
  let* a := read_superblock LBA_SB_A in
  let* b := read_superblock LBA_SB_B in
  match pick_slot a b with
  | Some (sb, slot) => Ret (mkStore sb true slot)
  | None =>
      match a, b with
      | Invalid, Invalid =>
          let* ok := write_superblock LBA_SB_A fresh_sb in
          Ret (if ok then mkStore fresh_sb true LBA_SB_A else st)
      | _, _ => Ret st
      end
  end.

(** ** [put] *)

(** [usize::div_ceil(512)]. *)
Definition nsectors (len : Z) : Z := (len + 511) / 512.

(** The data loop: [n] sectors left, sector [s] next, [written] bytes done. *)
Fixpoint put_data (bytes : list Z) (data_lba : Z) (n : nat) (s written : Z) : io bool :=
  match n with
  | O => Ret true
  | S n =>
      let remaining := zlen bytes - written in
      let k := if 512 <=? remaining then 512 else remaining in
      let sect := take (Z.to_nat k) (drop (Z.to_nat written) bytes)
                  ++ replicate (512 - Z.to_nat k) 0 in
      let* ok := write_sector (wrap 64 (data_lba + s)) sect in
      if ok then put_data bytes data_lba n (s + 1) (written + k) else Ret false
  end.

(** The record header sector. *)
Definition record_header (len h prev : Z) : list Z :=
  let hdr := zero_sector in
  let hdr := wr_u64 hdr RH_MAGIC REC_MAGIC in
  let hdr := wr_u32 hdr RH_LEN len in
  let hdr := wr_u64 hdr RH_HASH h in
  let hdr := wr_u64 hdr RH_PREV prev in
  let hh := fnv1a (take (Z.to_nat RH_HDR_HASH) hdr) in
  wr_u64 hdr RH_HDR_HASH hh.

(** Steps 1 to 3: data, header, flush. *)
Definition put_log (cur : Superblock) (bytes : list Z) : io bool :=
  let len := zlen bytes in
  let ndata := nsectors len in
  let data_lba := log_head_lba cur in
  let* ok := put_data bytes data_lba (Z.to_nat ndata) 0 0 in
  if negb ok then Ret false
  else
    let* ok := write_sector (wrap 64 (data_lba + ndata))
                 (record_header len (fnv1a bytes) (root_lba cur)) in
    if negb ok then Ret false else flush.

(** The superblock [put] commits. *)
Definition next_sb (cur : Superblock) (bytes : list Z) : Superblock :=
  mkSB (wrap 64 (seq_ cur + 1)) (wrap 64 (log_head_lba cur + nsectors (zlen bytes) + 1))
    (log_head_lba cur) (zlen bytes) (fnv1a bytes).

Definition other_slot (slot : Z) : Z := if slot =? LBA_SB_A then LBA_SB_B else LBA_SB_A.

Definition put (st : Store) (bytes : list Z) : io (Store * option (Z * Z * Z)) :=
  let cur := mounted st in
  if negb (mounted_ok st) then Ret (st, None)
  else if u32_max <? zlen bytes then Ret (st, None)
  else
    let* ok := put_log cur bytes in
    if negb ok then Ret (st, None)
    else
      let new_sb := next_sb cur bytes in
      let other := other_slot (mounted_slot st) in
      let* ok := write_superblock other new_sb in
      if negb ok then Ret (st, None)
      else Ret (mkStore new_sb (mounted_ok st) other,
                Some (log_head_lba cur, zlen bytes, fnv1a bytes)).

(** ** Reading back *)

Fixpoint hash_loop (lba len : Z) (n : nat) (h consumed s : Z) : io (option Z) :=
  match n with
  | O => Ret (Some h)
  | S n =>
      let* r := read_sector (wrap 64 (lba + s)) in
      match r with
      | None => Ret None
      | Some sect =>
          let remaining := len - consumed in
          let k := if 512 <=? remaining then 512 else remaining in
          hash_loop lba len n (fnv1a_step h (take (Z.to_nat k) sect)) (consumed + k) (s + 1)
      end
  end.

Definition extent_content_hash (lba len : Z) : io (option Z) :=
  hash_loop lba len (Z.to_nat (nsectors len)) FNV1A_BASIS 0 0.

Definition recover (st : Store) : io (option (Z * Z * Z)) :=
  let cur := mounted st in
  if negb (mounted_ok st) || (root_len cur =? 0) then Ret None
  else
    let* r := extent_content_hash (root_lba cur) (root_len cur) in
    Ret match r with
        | Some h => if h =? root_hash cur
                    then Some (root_lba cur, root_len cur, root_hash cur) else None
        | None => None
        end.

(** ** [load_extent]

    The frame is its 4096 bytes; the result is the new allocator state, the frame's
    physical address and its contents. *)

Definition zeros (n : Z) : list Z := replicate (Z.to_nat n) 0.

Fixpoint load_loop (lba len : Z) (n : nat) (s : Z) (frame : list Z) : io (option (list Z)) :=
  match n with
  | O => Ret (Some frame)
  | S n =>
      let* r := read_sector (wrap 64 (lba + s)) in
      match r with
      | None => Ret None
      | Some sect =>
          let off := s * 512 in
          let k := if 512 <=? len - off then 512 else len - off in
          load_loop lba len n (s + 1)
            (take (Z.to_nat off) frame ++ take (Z.to_nat k) sect ++
             drop (Z.to_nat (off + k)) frame)
      end
  end.

Definition load_extent (fa : FrameAllocator) (lba len : Z) :
    io (FrameAllocator * option (Z * list Z)) :=
  if (len =? 0) || (4096 <? len) then Ret (fa, None)
  else
    match alloc fa with
    | (fa, None) => Ret (fa, None)
    | (fa, Some fnum) =>
        let phys := wrap 64 (fnum * 4096) in
        let* r := load_loop lba len (Z.to_nat (nsectors len)) 0 (zeros 4096) in
        Ret match r with
            | None => (free fa fnum, None)
            | Some frame => (fa, Some (phys, frame))
            end
    end.

(** ** Round trips of the layouts *)

Lemma seqZ_snoc n : seqZ 0 (Z.of_nat (S n)) = seqZ 0 (Z.of_nat n) ++ [Z.of_nat n].
Proof. by rewrite seqZ_S. Qed.

Lemma rd_le_ext n b b' o o' :
  (∀ i, 0 <= i < Z.of_nat n → b.[o + i] = b'.[o' + i]) → rd_le n b o = rd_le n b' o'.
Proof.
  unfold rd_le. induction n as [|n IH]; intros Heq; [done|].
  rewrite !seqZ_snoc, !foldl_app. cbn [foldl]. rewrite IH by (intros; apply Heq; lia).
  by rewrite Heq by lia.
Qed.

Lemma lor_byte v m :
  0 <= m → Z.lor (v mod 2 ^ m) (Z.shiftl (wrap 8 (Z.shiftr v m)) m) = v mod 2 ^ (m + 8).
Proof.
  intros Hm. apply Z.bits_inj'. intros i Hi. rewrite Z.lor_spec, Z.shiftl_spec by done.
  unfold wrap. destruct (decide (i < m)) as [Hlt|Hge].
  - rewrite !Z.mod_pow2_bits_low by lia. rewrite (Z.testbit_neg_r _ (i - m)) by lia.
    by rewrite orb_false_r.
  - rewrite Z.mod_pow2_bits_high by lia. simpl. destruct (decide (i - m < 8)).
    + rewrite !Z.mod_pow2_bits_low by lia. rewrite Z.shiftr_spec by lia. f_equal. lia.
    + by rewrite !Z.mod_pow2_bits_high by lia.
Qed.

Lemma rd_le_bytes n b o v :
  (∀ i, 0 <= i < Z.of_nat n → b.[o + i] = wrap 8 (Z.shiftr v (i * 8))) →
  rd_le n b o = v mod 2 ^ (Z.of_nat n * 8).
Proof.
  unfold rd_le. induction n as [|n IH]; intros Hb.
  - simpl. by rewrite Z.mod_1_r.
  - rewrite seqZ_snoc, foldl_app. cbn [foldl]. rewrite IH by (intros; apply Hb; lia).
    rewrite Hb by lia. rewrite lor_byte by lia. f_equal. f_equal. lia.
Qed.

Lemma wr_le_len n b o v : zlen (wr_le n b o v) = zlen b.
Proof.
  unfold wr_le. induction n as [|n IH]; [done|].
  rewrite seqZ_snoc, foldl_app. cbn [foldl]. by rewrite zlen_aset.
Qed.

Lemma wr_le_get n b o v j :
  0 <= o → o + Z.of_nat n <= zlen b → 0 <= j →
  (wr_le n b o v).[j] =
  if decide (o <= j < o + Z.of_nat n) then wrap 8 (Z.shiftr v ((j - o) * 8)) else b.[j].
Proof.
  intros Ho. induction n as [|n IH]; intros Hlen Hj; [by rewrite decide_False by lia|].
  assert (Hl : zlen (wr_le n b o v) = zlen b) by apply wr_le_len.
  unfold wr_le in *. rewrite seqZ_snoc, foldl_app. cbn [foldl].
  rewrite aget_aset by (rewrite ?Hl; lia). rewrite IH by lia.
  destruct (decide (o + Z.of_nat n = j)) as [<-|].
  - rewrite decide_True by lia. do 3 f_equal. lia.
  - repeat case_decide; done || lia.
Qed.

Lemma rd_wr_same n b o v :
  0 <= o → o + Z.of_nat n <= zlen b → rd_le n (wr_le n b o v) o = v mod 2 ^ (Z.of_nat n * 8).
Proof.
  intros Ho Hl. apply rd_le_bytes. intros i Hi. rewrite wr_le_get by lia.
  rewrite decide_True by lia. do 3 f_equal. lia.
Qed.

Lemma rd_wr_other n m b o o' v :
  0 <= o → 0 <= o' → o' + Z.of_nat m <= zlen b → o + Z.of_nat n <= o' ∨ o' + Z.of_nat m <= o →
  rd_le n (wr_le m b o' v) o = rd_le n b o.
Proof.
  intros Ho Ho' Hl Hd. apply rd_le_ext. intros i Hi. rewrite wr_le_get by lia.
  by rewrite decide_False by lia.
Qed.

Lemma wr_le_length n b o v : length (wr_le n b o v) = length b.
Proof. pose proof (wr_le_len n b o v) as Hl. unfold zlen in Hl. lia. Qed.

Lemma take_wr n b o v k :
  0 <= o → o + Z.of_nat n <= zlen b → Z.of_nat k <= o → take k (wr_le n b o v) = take k b.
Proof.
  intros Ho Hl Hk. apply list_eq. intros i. destruct (decide (i < k)%nat) as [Hi|Hi].
  2:{ by rewrite !lookup_take_ge by lia. }
  rewrite !lookup_take_lt by lia. assert (Hb : 0 <= Z.of_nat i < zlen b) by lia.
  pose proof (lookup_aget (wr_le n b o v) (Z.of_nat i)) as H1. rewrite wr_le_len in H1.
  pose proof (lookup_aget b (Z.of_nat i) Hb) as H2. rewrite Nat2Z.id in *.
  rewrite H1, H2 by done. rewrite wr_le_get by lia. by rewrite decide_False by lia.
Qed.

Create Rewrite HintDb layout.
#[export] Hint Rewrite wr_le_len : layout.

(** Reads one field of a sector built by a sequence of field writes. *)
Ltac read_field :=
  repeat first
    [ rewrite rd_wr_same by (autorewrite with layout; vm_compute; intuition congruence)
    | rewrite rd_wr_other by (autorewrite with layout; vm_compute; intuition congruence) ].

Definition sb_typed (sb : Superblock) : Prop :=
  fits 64 (seq_ sb) ∧ fits 64 (log_head_lba sb) ∧ fits 64 (root_lba sb) ∧
  fits 32 (root_len sb) ∧ fits 64 (root_hash sb).

Lemma sb_sector_length sb : length (sb_sector sb) = 512%nat.
Proof. unfold sb_sector, wr_u64, wr_u32. cbv zeta. by rewrite !wr_le_length. Qed.

Lemma fnv1a_step_fits h data : fits 64 h → fits 64 (fnv1a_step h data).
Proof.
  revert h. induction data as [|b data IH]; intros h Hh; [done|]. simpl. apply IH.
  apply fits_wrap. lia.
Qed.

Lemma fnv1a_step_app h a b : fnv1a_step h (a ++ b) = fnv1a_step (fnv1a_step h a) b.
Proof. apply foldl_app. Qed.

Lemma fnv1a_fits data : fits 64 (fnv1a data).
Proof. apply fnv1a_step_fits. by vm_compute. Qed.

(** The sector before its hash is filled in. *)
Definition sb_body (sb : Superblock) : list Z :=
  wr_u64 (wr_u32 (wr_u64 (wr_u64 (wr_u64 (wr_u32 (wr_u64 zero_sector O_MAGIC SB_MAGIC)
    O_VERSION SB_VERSION) O_SEQ (seq_ sb)) O_LOG_HEAD (log_head_lba sb)) O_ROOT_LBA (root_lba sb))
    O_ROOT_LEN (root_len sb)) O_ROOT_HASH (root_hash sb).

Lemma sb_sector_body sb :
  sb_sector sb = wr_u64 (sb_body sb) O_SB_HASH (fnv1a (take (Z.to_nat O_SB_HASH) (sb_body sb))).
Proof. reflexivity. Qed.

Lemma zlen_zero_sector : zlen zero_sector = 512.
Proof. reflexivity. Qed.
#[local] Hint Rewrite zlen_zero_sector : layout.

Lemma sb_body_len sb : zlen (sb_body sb) = 512.
Proof. unfold sb_body, wr_u64, wr_u32. by autorewrite with layout. Qed.
#[local] Hint Rewrite sb_body_len : layout.

Lemma sb_hash_covers sb :
  take (Z.to_nat O_SB_HASH) (sb_sector sb) = take (Z.to_nat O_SB_HASH) (sb_body sb).
Proof.
  rewrite sb_sector_body. unfold wr_u64.
  apply take_wr; autorewrite with layout; vm_compute; congruence.
Qed.

Lemma sb_field n o sb v :
  0 <= o → o + Z.of_nat n <= O_SB_HASH → rd_le n (sb_body sb) o = v → rd_le n (sb_sector sb) o = v.
Proof.
  intros Ho Hn <-. rewrite sb_sector_body. unfold wr_u64. apply rd_wr_other; [done|by vm_compute|..].
  - by autorewrite with layout.
  - by left.
Qed.

Lemma sb_fields sb :
  sb_typed sb →
  rd_le 8 (sb_sector sb) O_MAGIC = SB_MAGIC ∧ rd_le 8 (sb_sector sb) O_SEQ = seq_ sb ∧
  rd_le 8 (sb_sector sb) O_LOG_HEAD = log_head_lba sb ∧
  rd_le 8 (sb_sector sb) O_ROOT_LBA = root_lba sb ∧
  rd_le 4 (sb_sector sb) O_ROOT_LEN = root_len sb ∧
  rd_le 8 (sb_sector sb) O_ROOT_HASH = root_hash sb.
Proof.
  intros (H1 & H2 & H3 & H4 & H5).
  repeat (apply conj); (apply sb_field; [by vm_compute|by vm_compute|]);
    unfold sb_body, wr_u64, wr_u32; read_field; try (by apply wrap_id).
Qed.

Lemma sb_round_trip sb : sb_typed sb → parse_superblock (sb_sector sb) = Valid sb.
Proof.
  intros Ht. unfold parse_superblock, rd_u64, rd_u32. rewrite sb_hash_covers.
  assert (Hhash : rd_le 8 (sb_sector sb) O_SB_HASH = fnv1a (take (Z.to_nat O_SB_HASH) (sb_body sb))).
  { rewrite sb_sector_body. unfold wr_u64.
    pose proof (fnv1a_fits (take (Z.to_nat O_SB_HASH) (sb_body sb))) as Hf. revert Hf.
    generalize (fnv1a (take (Z.to_nat O_SB_HASH) (sb_body sb))) as h. intros h Hf.
    rewrite rd_wr_same by (autorewrite with layout; by vm_compute). by apply wrap_id. }
  destruct (sb_fields sb Ht) as (-> & -> & -> & -> & -> & ->).
  rewrite Hhash, !Z.eqb_refl. by destruct sb.
Qed.

Lemma parse_not_io s : parse_superblock s ≠ Io.
Proof. unfold parse_superblock. by repeat case_match. Qed.

#[global] Opaque fnv1a_step sb_sector parse_superblock record_header.

(** ** Extents on disk *)

(** The bytes of sector [i] of an extent. *)
Definition chunk (bytes : list Z) (i : Z) : list Z := take 512 (drop (Z.to_nat (512 * i)) bytes).

(** The disk holds [bytes] from sector [lba] on. *)
Definition extent_at (x : disk) (lba : Z) (bytes : list Z) : Prop :=
  ∀ i, 0 <= i < nsectors (zlen bytes) →
    take (length (chunk bytes i)) (x (lba + i)) = chunk bytes i.

Lemma nsectors_nonneg len : 0 <= len → 0 <= nsectors len.
Proof. intros. apply Z.div_pos; lia. Qed.

(** The bytes a loop iteration handles: all of the sector, or what is left. *)
Lemma chunk_length bytes s :
  0 <= s → 512 * s <= zlen bytes →
  Z.of_nat (length (chunk bytes s)) =
  if 512 <=? zlen bytes - 512 * s then 512 else zlen bytes - 512 * s.
Proof.
  intros Hs Hle. unfold chunk, zlen in *. rewrite length_take, length_drop.
  destruct (Z.leb_spec 512 (Z.of_nat (length bytes) - 512 * s)); lia.
Qed.

Lemma nsectors_more s n len :
  0 <= s → 0 <= len → s + Z.of_nat (S n) = nsectors len → 512 * s < len.
Proof. unfold nsectors. intros. Z.div_mod_to_equations. lia. Qed.

Lemma nsectors_done s len : 0 <= len → s = nsectors len → len <= 512 * s.
Proof. unfold nsectors. intros. Z.div_mod_to_equations. lia. Qed.

(** After sector [s] the loops stand at the next sector boundary, or at the end. *)
Lemma chunk_next bytes s n :
  0 <= s → s + Z.of_nat (S n) = nsectors (zlen bytes) →
  let k := Z.of_nat (length (chunk bytes s)) in
  Z.min (512 * s) (zlen bytes) = 512 * s ∧
  512 * s + k = Z.min (512 * (s + 1)) (zlen bytes) ∧
  take (Z.to_nat k) (drop (Z.to_nat (512 * s)) bytes) = chunk bytes s ∧
  drop (Z.to_nat (512 * s)) bytes = chunk bytes s ++ drop (Z.to_nat (512 * s + k)) bytes.
Proof.
  intros Hs Hn k. pose proof (nsectors_more s n (zlen bytes) Hs (zlen_nonneg _) Hn) as Hlt.
  assert (Hk : k = if 512 <=? zlen bytes - 512 * s then 512 else zlen bytes - 512 * s)
    by (apply chunk_length; lia).
  split; [lia|]. split; [destruct (Z.leb_spec 512 (zlen bytes - 512 * s)); lia|].
  assert (Htake : take (Z.to_nat k) (drop (Z.to_nat (512 * s)) bytes) = chunk bytes s).
  { unfold chunk. destruct (Z.leb_spec 512 (zlen bytes - 512 * s)); [by rewrite Hk|].
    rewrite !take_ge; [done|rewrite length_drop; unfold zlen in *; lia..]. }
  split; [done|]. rewrite <- Htake at 1.
  replace (Z.to_nat (512 * s + k)) with (Z.to_nat (512 * s) + Z.to_nat k)%nat by lia.
  by rewrite <- drop_drop, take_drop.
Qed.

Section device.
Context {D : Type} `{BlockDevLaws D}.

(** Every block call of the run succeeds. *)
Fixpoint calls_ok {A} (p : io A) (d : D) : Prop :=
  match p with
  | Ret _ => True
  | ReadSector lba k => is_Some (bd_read d lba).2 ∧ calls_ok (k (bd_read d lba).2) (bd_read d lba).1
  | WriteSector lba s k =>
      (bd_write d lba s).2 = true ∧ calls_ok (k (bd_write d lba s).2) (bd_write d lba s).1
  | Flush k => (bd_flush d).2 = true ∧ calls_ok (k (bd_flush d).2) (bd_flush d).1
  end.

(** Reads leave the disk alone. *)
Definition unchanged (d d' : D) : Prop :=
  (∀ l, bd_view d' l = bd_view d l) ∧ (∀ x, bd_crash d' x → bd_crash d x).

#[global] Instance unchanged_preorder : PreOrder unchanged.
Proof.
  split; [by split|]. intros d1 d2 d3 [H1 H2] [H3 H4]. split; [|auto].
  intros l. by rewrite H3, H1.
Qed.

(** The read-back loop streams the hash of the extent over its sectors. *)
Lemma hash_loop_run bytes lba n s h d :
  0 <= s → s + Z.of_nat n = nsectors (zlen bytes) →
  0 <= lba → lba + nsectors (zlen bytes) < 2 ^ 64 → extent_at (bd_view d) lba bytes →
  let p := hash_loop lba (zlen bytes) n h (Z.min (512 * s) (zlen bytes)) s in
  unchanged d (run p d).1 ∧
  (∀ r, (run p d).2 = Some r → r = fnv1a_step h (drop (Z.to_nat (512 * s)) bytes)) ∧
  (calls_ok p d → is_Some (run p d).2).
Proof.
  revert s h d. induction n as [|n IH]; intros s h d Hs Hn Hlba Hb Hext p.
  - unfold p. cbn [hash_loop run calls_ok fst snd].
    pose proof (nsectors_done s (zlen bytes) (zlen_nonneg _) ltac:(lia)) as Hle.
    split; [reflexivity|]. split; [|by eauto]. intros r [= <-].
    by rewrite drop_ge by (unfold zlen in Hle; lia).
  - destruct (chunk_next bytes s n Hs Hn) as (Hmin & Hnext & Htake & Hdrop).
    pose proof (nsectors_more s n (zlen bytes) Hs (zlen_nonneg _) Hn) as Hlt.
    assert (Hw : wrap 64 (lba + s) = lba + s) by (apply wrap_id; unfold fits; lia).
    unfold p. cbn [hash_loop read_sector io_bind run calls_ok]. rewrite Hw, Hmin.
    rewrite <- (chunk_length bytes s) by lia.
    destruct (bd_read_law d (lba + s)) as (Hv & Hc & Hr).
    destruct (bd_read d (lba + s)) as [d1 [sect|]]; cbn [fst snd] in *.
    2:{ split; [by split|]. split; [done|]. by intros [[? ?] _]. }
    rewrite (Hr sect eq_refl). rewrite Nat2Z.id, (Hext s) by lia. rewrite Hnext.
    destruct (IH (s + 1) (fnv1a_step h (chunk bytes s)) d1) as (H1 & H2 & H3);
      [lia|lia|done|done|by (intros i Hi; rewrite Hv; apply Hext)|].
    split; [etransitivity; [by split|exact H1]|]. split; [|intros [_ Hok]; by apply H3].
    intros r Hres. rewrite (H2 r Hres), Hdrop, fnv1a_step_app, Hnext. f_equal.
    pose proof (chunk_length bytes s Hs ltac:(lia)) as Hk.
    destruct (Z.leb_spec 512 (zlen bytes - 512 * s)); [f_equal; lia|].
    rewrite !drop_ge; [done|unfold zlen in *; lia..].
Qed.

(** Read-back of an intact extent gives its content hash. *)
Lemma extent_hash_run bytes lba d :
  0 <= lba → lba + nsectors (zlen bytes) < 2 ^ 64 → extent_at (bd_view d) lba bytes →
  let p := extent_content_hash lba (zlen bytes) in
  unchanged d (run p d).1 ∧ (∀ h, (run p d).2 = Some h → h = fnv1a bytes) ∧
  (calls_ok p d → (run p d).2 = Some (fnv1a bytes)).
Proof.
  intros Hlba Hb Hext. pose proof (nsectors_nonneg (zlen bytes) (zlen_nonneg _)) as Hn.
  pose proof (zlen_nonneg bytes).
  destruct (hash_loop_run bytes lba (Z.to_nat (nsectors (zlen bytes))) 0 FNV1A_BASIS d)
    as (Hu & Hr & Hok); [lia|lia|done..|].
  replace (Z.min (512 * 0) (zlen bytes)) with 0 in Hu, Hr, Hok by lia.
  split; [exact Hu|]. split; [exact Hr|]. intros Hcalls. destruct (Hok Hcalls) as [h Hh].
  etransitivity; [exact Hh|]. by rewrite (Hr h Hh).
Qed.

(** ** The log part of [put]

    Everything it writes lies at or above [limit]. *)
Definition log_only (limit : Z) (d d' : D) : Prop :=
  (∀ l, l < limit → bd_view d' l = bd_view d l) ∧
  (∀ x, bd_crash d' x → ∃ x0, bd_crash d x0 ∧ ∀ l, l < limit → x l = x0 l).

Lemma log_only_refl limit d : log_only limit d d.
Proof. split; [done|]. eauto. Qed.

Lemma log_only_trans limit d1 d2 d3 :
  log_only limit d1 d2 → log_only limit d2 d3 → log_only limit d1 d3.
Proof.
  intros [H1 H2] [H3 H4]. split.
  - intros l Hl. by rewrite H3, H1.
  - intros x Hx. destruct (H4 x Hx) as (x0 & Hx0 & Heq). destruct (H2 x0 Hx0) as (x1 & Hx1 & Heq1).
    exists x1. split; [done|]. intros l Hl. by rewrite Heq, Heq1.
Qed.

Lemma write_log_only limit d lba s :
  length s = 512%nat → limit <= lba → log_only limit d (bd_write d lba s).1.
Proof.
  intros Hs Hl. destruct (bd_write_law d lba s Hs) as (H1 & _ & _ & H2). split.
  - intros l Hlt. apply H1. lia.
  - intros x Hx. destruct (H2 x Hx) as (x0 & Hx0 & Heq & _). exists x0. split; [done|].
    intros l Hlt. apply Heq. lia.
Qed.

Lemma flush_log_only limit d : log_only limit d (bd_flush d).1.
Proof. destruct (bd_flush_law d) as (H1 & H2 & _). split; [auto|eauto]. Qed.

(** The sector of data [put_data] writes for sector [i]. *)
Definition data_sector (bytes : list Z) (i : Z) : list Z :=
  chunk bytes i ++ replicate (512 - length (chunk bytes i)) 0.

Lemma data_sector_length bytes i : length (data_sector bytes i) = 512%nat.
Proof.
  unfold data_sector, chunk. rewrite length_app, length_replicate, length_take, length_drop. lia.
Qed.

Lemma put_data_wp bytes lba n s d0 d :
  0 <= s → s + Z.of_nat n = nsectors (zlen bytes) →
  0 <= lba → lba + nsectors (zlen bytes) < 2 ^ 64 → log_only lba d0 d →
  (∀ i, 0 <= i < s → bd_view d (lba + i) = data_sector bytes i) →
  wp (log_only lba d0) (put_data bytes lba n s (Z.min (512 * s) (zlen bytes)))
    (λ ok d', log_only lba d0 d' ∧
      (ok = true → ∀ i, 0 <= i < nsectors (zlen bytes) →
         bd_view d' (lba + i) = data_sector bytes i)) d.
Proof.
  revert s d. induction n as [|n IH]; intros s d Hs Hn Hlba Hb Hlog Hdone.
  - apply wp_ret; [done|]. split; [done|]. intros _ i Hi. apply Hdone. lia.
  - destruct (chunk_next bytes s n Hs Hn) as (Hmin & Hnext & Htake & Hdrop).
    pose proof (nsectors_more s n (zlen bytes) Hs (zlen_nonneg _) Hn) as Hlt.
    assert (Hw : wrap 64 (lba + s) = lba + s) by (apply wrap_id; unfold fits; lia).
    cbn [put_data write_sector io_bind wp]. rewrite Hw, Hmin.
    rewrite <- (chunk_length bytes s) by lia. rewrite Htake, Nat2Z.id, Hnext.
    fold (data_sector bytes s). split; [done|].
    pose proof (data_sector_length bytes s) as Hlen.
    pose proof (write_log_only lba d (lba + s) _ Hlen ltac:(lia)) as Hlog'.
    destruct (bd_write_law d (lba + s) _ Hlen) as (Hother & Hnew & _ & _).
    destruct (bd_write d (lba + s) (data_sector bytes s)) as [d1 ok]. cbn [fst snd] in *.
    assert (Hlog1 : log_only lba d0 d1) by by eapply log_only_trans.
    destruct ok; [|by apply wp_ret].
    apply IH; [lia|lia|done|done|done|]. intros i Hi.
    destruct (decide (i = s)) as [->|]; [by apply Hnew|].
    rewrite Hother by lia. apply Hdone. lia.
Qed.

Lemma record_header_length len h prev : length (record_header len h prev) = 512%nat.
Proof.
  Transparent record_header. unfold record_header, wr_u64, wr_u32. cbv zeta.
  by rewrite !wr_le_length. Opaque record_header.
Qed.

(** Data, header and flush: on success the extent is durable; at no point is anything
    below the log head touched. *)
Lemma put_log_wp cur bytes d :
  0 <= log_head_lba cur → log_head_lba cur + nsectors (zlen bytes) < 2 ^ 64 →
  wp (log_only (log_head_lba cur) d) (put_log cur bytes)
    (λ ok d', log_only (log_head_lba cur) d d' ∧
      (ok = true → (∀ x, bd_crash d' x → ∀ l, x l = bd_view d' l) ∧
         extent_at (bd_view d') (log_head_lba cur) bytes)) d.
Proof.
  intros Hlba Hb. unfold put_log. apply wp_bind.
  pose proof (nsectors_nonneg (zlen bytes) (zlen_nonneg _)) as Hn. pose proof (zlen_nonneg bytes).
  pose proof (put_data_wp bytes (log_head_lba cur) (Z.to_nat (nsectors (zlen bytes))) 0 d d)
    as Hdata. replace (Z.min (512 * 0) (zlen bytes)) with 0 in Hdata by lia.
  eapply wp_mono; [done| |apply Hdata; [lia|lia|done|done|apply log_only_refl|lia]].
  intros ok d1 [Hlog1 Hd1]. destruct ok; [|by apply wp_ret]. cbn [negb].
  unfold write_sector. cbn [io_bind wp]. split; [done|].
  rewrite wrap_id by (unfold fits; lia).
  pose proof (record_header_length (zlen bytes) (fnv1a bytes) (root_lba cur)) as Hhl.
  pose proof (write_log_only (log_head_lba cur) d1 (log_head_lba cur + nsectors (zlen bytes)) _ Hhl
    ltac:(lia)) as Hlog2.
  destruct (bd_write_law d1 (log_head_lba cur + nsectors (zlen bytes)) _ Hhl) as (Hother & _).
  destruct (bd_write d1 _ _) as [d2 ok2]. cbn [fst snd] in *.
  assert (Hlog02 : log_only (log_head_lba cur) d d2) by by eapply log_only_trans.
  destruct ok2; [|by apply wp_ret]. cbn [negb flush wp]. split; [done|].
  assert (Hlog03 : log_only (log_head_lba cur) d (bd_flush d2).1)
    by (eapply log_only_trans; [done|apply flush_log_only]).
  split; [done|]. split; [done|]. intros Hok.
  destruct (bd_flush_law d2) as (Hv & _ & Hdur). split.
  - intros x Hx l. by rewrite Hv, (Hdur Hok x Hx).
  - intros i Hi. rewrite Hv, Hother, (Hd1 eq_refl i Hi) by lia. unfold data_sector.
    by rewrite take_app_length.
Qed.

(** ** The committed state *)

(** [sb]'s root is [bytes], and the disk holds them. *)
Definition root_at (x : disk) (sb : Superblock) (bytes : list Z) : Prop :=
  zlen bytes = root_len sb ∧ (root_len sb ≠ 0 → fnv1a bytes = root_hash sb) ∧
  extent_at x (root_lba sb) bytes.

(** The contents of a slot do not beat sequence number [q]. *)
Definition stale (s : list Z) (q : Z) : Prop :=
  match parse_superblock s with Valid sb => seq_ sb < q | _ => True end.

Record sb_wf (sb : Superblock) : Prop := {
  sw_typed : sb_typed sb;
  sw_log : LBA_LOG_START <= log_head_lba sb;
  sw_root : root_len sb = 0 ∨
    LBA_LOG_START <= root_lba sb ∧ root_lba sb + nsectors (root_len sb) <= log_head_lba sb;
}.

(** Image [x] mounts as [sb] from [slot], with root [bytes]. *)
Definition image_ok (x : disk) (sb : Superblock) (slot : Z) (bytes : list Z) : Prop :=
  parse_superblock (x slot) = Valid sb ∧ stale (x (other_slot slot)) (seq_ sb) ∧
  root_at x sb bytes.

(** The store is mounted, and whatever power loss leaves mounts as the same state. *)
Record clean (d : D) (st : Store) (bytes : list Z) : Prop := {
  cl_ok : mounted_ok st = true;
  cl_slot : mounted_slot st = LBA_SB_A ∨ mounted_slot st = LBA_SB_B;
  cl_wf : sb_wf (mounted st);
  cl_img : ∀ x, bd_crash d x → image_ok x (mounted st) (mounted_slot st) bytes;
}.

Lemma other_slot_cases slot :
  slot = LBA_SB_A ∨ slot = LBA_SB_B →
  (other_slot slot = LBA_SB_A ∨ other_slot slot = LBA_SB_B) ∧ other_slot slot ≠ slot ∧
  slot < LBA_LOG_START ∧ other_slot slot < LBA_LOG_START ∧ other_slot (other_slot slot) = slot.
Proof. intros [-> | ->]; by vm_compute; intuition. Qed.

Lemma extent_agree x y lba bytes limit :
  (∀ l, l < limit → x l = y l) → lba + nsectors (zlen bytes) <= limit →
  extent_at y lba bytes → extent_at x lba bytes.
Proof. intros Heq Hl Hy i Hi. rewrite Heq by lia. by apply Hy. Qed.

(** Agreement below the log head is enough for the whole committed state. *)
Lemma image_agree x y sb slot bytes :
  sb_wf sb → slot = LBA_SB_A ∨ slot = LBA_SB_B → (∀ l, l < log_head_lba sb → x l = y l) →
  image_ok y sb slot bytes → image_ok x sb slot bytes.
Proof.
  intros [_ Hlog Hroot] Hslot Heq (H1 & H2 & H3 & H4 & H5).
  destruct (other_slot_cases slot Hslot) as (_ & _ & Hl1 & Hl2 & _).
  unfold image_ok, root_at. rewrite !Heq by lia. split; [done|]. split; [done|].
  split; [done|]. split; [done|]. destruct Hroot as [Hz|[_ Hr]].
  - intros i Hi. rewrite H3, Hz in Hi. change (nsectors 0) with 0 in Hi. lia.
  - eapply extent_agree; [done| |done]. by rewrite H3.
Qed.

Lemma log_only_clean d d' st bytes :
  clean d st bytes → log_only (log_head_lba (mounted st)) d d' → clean d' st bytes.
Proof.
  intros [Hok Hslot Hwf Himg] [_ Hlog]. split; [done..|]. intros x Hx.
  destruct (Hlog x Hx) as (x0 & Hx0 & Heq). by apply (image_agree x x0); auto.
Qed.

(** ** The commit *)

(** Room for one more [put] of [bytes]: the on-disk fields do not overflow. *)
Definition room (sb : Superblock) (bytes : list Z) : Prop :=
  zlen bytes <= u32_max ∧ seq_ sb + 1 < 2 ^ 64 ∧
  log_head_lba sb + nsectors (zlen bytes) + 1 < 2 ^ 64.

Lemma next_sb_wf cur bytes :
  sb_wf cur → room cur bytes →
  sb_wf (next_sb cur bytes) ∧ seq_ (next_sb cur bytes) = seq_ cur + 1 ∧
  log_head_lba (next_sb cur bytes) = log_head_lba cur + nsectors (zlen bytes) + 1.
Proof.
  intros [(H1 & H2 & H3 & H4 & H5) Hlog Hroot] (Hl & Hs & Hb).
  pose proof (nsectors_nonneg (zlen bytes) (zlen_nonneg _)). pose proof (zlen_nonneg bytes).
  unfold LBA_LOG_START, fits, u32_max in *. unfold next_sb. rewrite !wrap_id by (unfold fits; lia).
  split; [split|done]; simpl.
  - repeat split; simpl; try lia; apply fnv1a_fits.
  - unfold LBA_LOG_START. lia.
  - right. unfold LBA_LOG_START. lia.
Qed.

(** The state before the commit survives anything that leaves the other slot stale. *)
Lemma image_keep x y sb slot bytes :
  sb_wf sb → slot = LBA_SB_A ∨ slot = LBA_SB_B → (∀ l, l ≠ other_slot slot → x l = y l) →
  stale (x (other_slot slot)) (seq_ sb) → image_ok y sb slot bytes → image_ok x sb slot bytes.
Proof.
  intros [_ Hlog Hroot] Hslot Heq Hst (H1 & _ & H3 & H4 & H5).
  destruct (other_slot_cases slot Hslot) as (_ & Hne & Hl1 & Hl2 & _).
  unfold image_ok, root_at. rewrite (Heq slot) by done. split; [done|]. split; [done|].
  split; [done|]. split; [done|]. intros i Hi. destruct Hroot as [Hz|[Hr _]].
  - rewrite H3, Hz in Hi. change (nsectors 0) with 0 in Hi. lia.
  - rewrite Heq by lia. by apply H5.
Qed.

(** Once the new superblock is in the other slot, the new state is the one mounted. *)
Lemma image_new x y sb slot bytes0 bytes :
  sb_wf sb → room sb bytes → slot = LBA_SB_A ∨ slot = LBA_SB_B →
  image_ok y sb slot bytes0 → extent_at y (log_head_lba sb) bytes →
  (∀ l, l ≠ other_slot slot → x l = y l) → x (other_slot slot) = sb_sector (next_sb sb bytes) →
  image_ok x (next_sb sb bytes) (other_slot slot) bytes.
Proof.
  intros Hwf Hroom Hslot (H1 & _ & _) Hext Heq Hnew.
  destruct (other_slot_cases slot Hslot) as (_ & Hne & Hl1 & Hl2 & Hoo).
  destruct (next_sb_wf sb bytes Hwf Hroom) as (Hwf' & Hseq & _).
  unfold image_ok, root_at, stale. rewrite Hoo, Hnew, (Heq slot) by done.
  rewrite sb_round_trip by apply Hwf'. rewrite H1, Hseq. split; [done|]. split; [lia|].
  split; [done|]. split; [done|]. intros i Hi. rewrite Heq; [by apply Hext|].
  destruct Hwf as [_ Hlog _]. simpl. lia.
Qed.

(** No tear of the superblock write produces a valid superblock that beats the
    committed one (what the superblock hash is for), unless it left everything. *)
Definition tears_detected (d : D) (st : Store) (bytes : list Z) : Prop :=
  let new := sb_sector (next_sb (mounted st) bytes) in
  ∀ c, partial (bd_view d (other_slot (mounted_slot st))) new c →
    stale c (seq_ (mounted st)) ∨ c = new.

(** An image recovers to the old or to the new root. *)
Definition recovers (st : Store) (bytes0 bytes : list Z) (x : disk) : Prop :=
  image_ok x (mounted st) (mounted_slot st) bytes0 ∨
  image_ok x (next_sb (mounted st) bytes) (other_slot (mounted_slot st)) bytes.

(** The superblock write, from a state whose log is durable. *)
Lemma commit_wp d st bytes0 bytes :
  clean d st bytes0 → room (mounted st) bytes → tears_detected d st bytes →
  (∀ x, bd_crash d x → ∀ l, x l = bd_view d l) →
  extent_at (bd_view d) (log_head_lba (mounted st)) bytes →
  let other := other_slot (mounted_slot st) in
  let new := next_sb (mounted st) bytes in
  wp (λ d', ∀ x, bd_crash d' x → recovers st bytes0 bytes x) (write_superblock other new)
    (λ ok d', (∀ x, bd_crash d' x → recovers st bytes0 bytes x) ∧
      (ok = true → clean d' (mkStore new true other) bytes ∧
         ∀ l, l ≠ other → bd_view d' l = bd_view d l)) d.
Proof.
  intros [Hok Hslot Hwf Himg] Hroom Htear Hall Hext other new.
  destruct (other_slot_cases _ Hslot) as (Hoslot & _).
  destruct (next_sb_wf _ _ Hwf Hroom) as (Hwf' & _ & _).
  unfold write_superblock, write_sector. cbn [io_bind wp].
  split; [intros x Hx; left; auto|].
  destruct (bd_write_law d other (sb_sector new) (sb_sector_length new)) as (Hv & Hvn & _ & Hcr).
  pose proof (Himg _ (bd_view_crash d)) as Hview.
  assert (Hrec : ∀ x, bd_crash (bd_write d other (sb_sector new)).1 x → recovers st bytes0 bytes x).
  { intros x Hx. destruct (Hcr x Hx) as (x0 & Hx0 & Heq & Ht).
    assert (Heq' : ∀ l, l ≠ other → x l = bd_view d l).
    { intros l Hl'. rewrite Heq by done. by apply Hall. }
    assert (Hkeep : stale (x other) (seq_ (mounted st)) → recovers st bytes0 bytes x).
    { intros Hst. left. by apply (image_keep x (bd_view d)). }
    assert (Hnew : x other = sb_sector new → recovers st bytes0 bytes x).
    { intros Hn. right. by apply (image_new x (bd_view d) _ _ bytes0). }
    rewrite (Hall x0 Hx0) in Ht. destruct Ht as [Hold|[?|[?|?]%Htear]]; [|by auto..].
    apply Hkeep. rewrite Hold. apply Hview. }
  destruct (bd_write d other (sb_sector new)) as [d4 ok4]. cbn [fst snd] in *.
  destruct ok4; [|by apply wp_ret]. cbn [flush wp]. split; [done|].
  destruct (bd_flush_law d4) as (Hfv & Hfc & Hfd).
  split; [by auto|]. split; [by auto|]. intros Hokf. split.
  - split; [done..|]. intros x Hx. apply (image_new x (bd_view d) _ _ bytes0); [done..| |].
    + intros l Hl'. rewrite (Hfd Hokf x Hx). by apply Hv.
    + rewrite (Hfd Hokf x Hx). by apply Hvn.
  - intros l Hl'. rewrite Hfv. by apply Hv.
Qed.

Lemma put_wp d st bytes0 bytes :
  clean d st bytes0 → room (mounted st) bytes → tears_detected d st bytes →
  wp (λ d', ∀ x, bd_crash d' x → recovers st bytes0 bytes x) (put st bytes)
    (λ '(st', r) d',
      match r with
      | None => st' = st
      | Some ext =>
          ext = (log_head_lba (mounted st), zlen bytes, fnv1a bytes) ∧
          st' = mkStore (next_sb (mounted st) bytes) true (other_slot (mounted_slot st)) ∧
          clean d' st' bytes ∧
          ∀ l, LBA_LOG_START <= l < log_head_lba (mounted st) → bd_view d' l = bd_view d l
      end) d.
Proof.
  intros Hclean Hroom Htear. pose proof Hclean as [Hok Hslot Hwf Himg]. unfold put.
  rewrite Hok. cbn [negb]. pose proof Hroom as (Hl & _ & Hhead).
  destruct (Z.ltb_spec u32_max (zlen bytes)); [lia|]. apply wp_bind.
  pose proof (sw_log _ Hwf) as Hlog0. unfold LBA_LOG_START in Hlog0.
  eapply wp_mono; [| |apply put_log_wp; [lia|lia]].
  { intros d1 Hlog x Hx. left. apply (cl_img _ _ _ (log_only_clean d d1 st bytes0 Hclean Hlog) x Hx). }
  intros ok d3 [Hlog Hdur]. pose proof (log_only_clean d d3 st bytes0 Hclean Hlog) as Hclean3.
  destruct ok; cbn [negb];
    [|by apply wp_ret; [intros x Hx; left; apply (cl_img _ _ _ Hclean3 x Hx)|]].
  destruct (Hdur eq_refl) as [Hall Hext]. clear Hdur. destruct Hlog as [Hlv _].
  destruct (other_slot_cases _ Hslot) as (_ & _ & _ & Hl2 & _). unfold LBA_LOG_START in Hl2.
  assert (Htear3 : tears_detected d3 st bytes).
  { unfold tears_detected. rewrite Hlv by lia. exact Htear. }
  apply wp_bind.
  eapply wp_mono; [| |exact (commit_wp d3 st bytes0 bytes Hclean3 Hroom Htear3 Hall Hext)]; [done|].
  intros ok5 d5 [Hrec Hdone]. destruct ok5; cbn [negb]; [|by apply wp_ret].
  destruct (Hdone eq_refl) as [Hc Hv5]. apply wp_ret; [done|]. split; [done|]. split; [done|].
  split; [done|]. intros l Hl'. unfold LBA_LOG_START in Hl'. rewrite Hv5, Hlv by lia. done.
Qed.

(** ** [mount] and [recover] *)

Lemma read_superblock_run slot d :
  unchanged d (run (read_superblock slot) d).1 ∧
  ((run (read_superblock slot) d).2 = Io ∨
   (run (read_superblock slot) d).2 = parse_superblock (bd_view d slot)) ∧
  (calls_ok (read_superblock slot) d →
   (run (read_superblock slot) d).2 = parse_superblock (bd_view d slot)).
Proof.
  unfold read_superblock, read_sector. cbn [io_bind run calls_ok].
  destruct (bd_read_law d slot) as (H1 & H2 & H3).
  destruct (bd_read d slot) as [d1 [s|]]; cbn [run fst snd] in *.
  - rewrite (H3 s eq_refl). split; [by split|]. auto.
  - split; [by split|]. split; [by left|]. by intros [[? ?] _].
Qed.

Lemma calls_ok_bind {A B} (p : io A) (f : A → io B) d :
  calls_ok (io_bind p f) d → calls_ok p d ∧ calls_ok (f (run p d).2) (run p d).1.
Proof.
  revert d. induction p as [a|lba k IH|lba s k IH|k IH]; intros d Hc; simpl in *; [done|..];
    destruct Hc as [Hc1 Hc2]; apply IH in Hc2 as [Hc2 Hc3].
  - split; [done|]. by destruct (bd_read d lba).
  - split; [done|]. by destruct (bd_write d lba s).
  - split; [done|]. by destruct (bd_flush d).
Qed.

(** An image that is in order is mounted as what it is. *)
Lemma pick_slot_ok x sb slot bytes :
  slot = LBA_SB_A ∨ slot = LBA_SB_B → image_ok x sb slot bytes →
  pick_slot (parse_superblock (x LBA_SB_A)) (parse_superblock (x LBA_SB_B)) = Some (sb, slot).
Proof.
  intros [-> | ->] (H1 & H2 & _); unfold stale, other_slot in H2; simpl in H2; rewrite H1;
    unfold pick_slot.
  - destruct (parse_superblock (x LBA_SB_B)) as [| |y]; [done..|].
    by destruct (Z.leb_spec (seq_ y) (seq_ sb)); [|lia].
  - destruct (parse_superblock (x LBA_SB_A)) as [| |y]; [done..|].
    by destruct (Z.leb_spec (seq_ sb) (seq_ y)); [lia|].
Qed.

Lemma mount_run st0 d sb slot bytes :
  slot = LBA_SB_A ∨ slot = LBA_SB_B → image_ok (bd_view d) sb slot bytes →
  calls_ok (mount st0) d →
  unchanged d (run (mount st0) d).1 ∧ (run (mount st0) d).2 = mkStore sb true slot.
Proof.
  intros Hslot Himg Hok. unfold mount in *.
  apply calls_ok_bind in Hok as [HokA Hok].
  destruct (read_superblock_run LBA_SB_A d) as (Hu1 & _ & Ha). specialize (Ha HokA).
  rewrite run_bind, Ha in *. set (d1 := (run (read_superblock LBA_SB_A) d).1) in *.
  apply calls_ok_bind in Hok as [HokB Hok].
  destruct (read_superblock_run LBA_SB_B d1) as (Hu2 & _ & Hb). specialize (Hb HokB).
  rewrite run_bind, Hb in *. set (d2 := (run (read_superblock LBA_SB_B) d1).1) in *.
  rewrite (proj1 Hu1), (pick_slot_ok (bd_view d) sb slot bytes) by done. cbn [run fst snd].
  split; [|done]. by etransitivity.
Qed.

(** Booting from an image in order gives a clean store. *)
Lemma mount_clean st0 d x sb slot bytes :
  rebooted d x → slot = LBA_SB_A ∨ slot = LBA_SB_B → sb_wf sb → image_ok x sb slot bytes →
  calls_ok (mount st0) d →
  (run (mount st0) d).2 = mkStore sb true slot ∧
  clean (run (mount st0) d).1 (mkStore sb true slot) bytes.
Proof.
  intros [Hview Hcr] Hslot Hwf Himg Hok.
  assert (Himg' : ∀ y, (∀ l, y l = x l) → image_ok y sb slot bytes).
  { intros y Hy. by apply (image_agree y x). }
  destruct (mount_run st0 d sb slot bytes Hslot (Himg' _ Hview) Hok) as [[_ Hu] Hres].
  split; [done|]. split; [done..|]. intros y Hy. apply Himg', Hcr. auto.
Qed.

Lemma recover_run d st bytes :
  clean d st bytes → root_len (mounted st) ≠ 0 →
  unchanged d (run (recover st) d).1 ∧
  (∀ r, (run (recover st) d).2 = Some r →
     r = (root_lba (mounted st), root_len (mounted st), fnv1a bytes)) ∧
  (calls_ok (recover st) d → is_Some (run (recover st) d).2).
Proof.
  intros [Hok Hslot Hwf Himg] Hne. pose proof (Himg _ (bd_view_crash d)) as (_ & _ & Hlen & Hh & Hext).
  specialize (Hh Hne). unfold recover. rewrite Hok. destruct (Z.eqb_spec (root_len (mounted st)) 0); [done|].
  cbn [negb orb]. rewrite run_bind. cbn [run fst snd].
  destruct (sw_root _ Hwf) as [?|[Hr1 Hr2]]; [done|].
  destruct (sw_typed _ Hwf) as (_ & Hlt & _). unfold fits, LBA_LOG_START in *.
  destruct (extent_hash_run bytes (root_lba (mounted st)) d) as (Hu & Hr & Hc); [lia|rewrite Hlen; lia|done|].
  rewrite Hlen in Hu, Hr, Hc. split; [done|]. split.
  - intros r. destruct (run (extent_content_hash _ _) d).2 as [h|]; [|done].
    rewrite (Hr h eq_refl), Hh, Z.eqb_refl. congruence.
  - intros Hcalls%calls_ok_bind. rewrite (Hc (proj1 Hcalls)), Hh, Z.eqb_refl. by eexists.
Qed.

(** ** The guarantees *)



(** Objects survive reboot, and corrupt ones are not advertised. On a clean store with a
    non-empty root, [recover] reads only, anything it returns is the committed root
    [{lba, len, hash}] with the hash of the committed bytes, and it does return it when
    the reads work. *)
Theorem recover_exact (d : D) (st : Store) (bytes : list Z) :
  clean d st bytes → root_len (mounted st) ≠ 0 →
  unchanged d (run (recover st) d).1 ∧
  (∀ r, (run (recover st) d).2 = Some r →
     r = (root_lba (mounted st), root_len (mounted st), fnv1a bytes)) ∧
  (calls_ok (recover st) d → is_Some (run (recover st) d).2).
Proof. apply recover_run. Qed.

(** C30: [mount] never overwrites a committed superblock. If either slot holds a valid
    superblock, then whatever reads fail, [mount] writes nothing; it either leaves the
    store unmounted or mounts a superblock that is valid on disk. *)
Theorem mount_never_clobbers (d : D) (st0 : Store) :
  parse_superblock (bd_view d LBA_SB_A) ≠ Invalid ∨ parse_superblock (bd_view d LBA_SB_B) ≠ Invalid →
  unchanged d (run (mount st0) d).1 ∧
  ((run (mount st0) d).2 = st0 ∨
   let st := (run (mount st0) d).2 in
   mounted_ok st = true ∧ parse_superblock (bd_view d (mounted_slot st)) = Valid (mounted st)).
Proof.
  intros Hv. unfold mount. rewrite run_bind.
  destruct (read_superblock_run LBA_SB_A d) as (Hu1 & Ha & _).
  set (d1 := (run (read_superblock LBA_SB_A) d).1) in *.
  destruct (read_superblock_run LBA_SB_B d1) as (Hu2 & Hb & _). rewrite run_bind.
  rewrite (proj1 Hu1) in Hb.
  set (a := (run (read_superblock LBA_SB_A) d).2) in *.
  set (b := (run (read_superblock LBA_SB_B) d1).2) in *.
  set (d2 := (run (read_superblock LBA_SB_B) d1).1) in *.
  assert (Hu : unchanged d d2) by by etransitivity.
  assert (HIA := parse_not_io (bd_view d LBA_SB_A)). assert (HIB := parse_not_io (bd_view d LBA_SB_B)).
  destruct a as [| |x]; destruct b as [| |y]; cbn [pick_slot run fst snd];
    try (split; [done|]; by left); try (split; [done|]; right; simpl; intuition congruence).
  - exfalso. intuition congruence.
  - split; [by destruct (_ <=? _)|]. right.
    destruct (seq_ y <=? seq_ x); simpl; intuition congruence.
Qed.

Lemma mount_formats_run (d : D) (st0 : Store) :
  parse_superblock (bd_view d LBA_SB_A) = Invalid → parse_superblock (bd_view d LBA_SB_B) = Invalid →
  calls_ok (mount st0) d →
  (run (mount st0) d).2 = mkStore fresh_sb true LBA_SB_A ∧
  clean (run (mount st0) d).1 (mkStore fresh_sb true LBA_SB_A) [].
Proof.
  intros HA HB Hok. unfold mount in *.
  apply calls_ok_bind in Hok as [HokA Hok].
  destruct (read_superblock_run LBA_SB_A d) as (Hu1 & _ & Ha). specialize (Ha HokA).
  rewrite run_bind, Ha in *. set (d1 := (run (read_superblock LBA_SB_A) d).1) in *.
  apply calls_ok_bind in Hok as [HokB Hok].
  destruct (read_superblock_run LBA_SB_B d1) as (Hu2 & _ & Hb). specialize (Hb HokB).
  rewrite run_bind, Hb in *. set (d2 := (run (read_superblock LBA_SB_B) d1).1) in *.
  rewrite (proj1 Hu1), HA, HB in *. cbn [pick_slot] in *.
  assert (HB2 : parse_superblock (bd_view d2 LBA_SB_B) = Invalid)
    by (by rewrite (proj1 Hu2), (proj1 Hu1)).
  unfold write_superblock, write_sector in *. cbn [io_bind run calls_ok] in *.
  destruct (bd_write_law d2 LBA_SB_A (sb_sector fresh_sb) (sb_sector_length _)) as (Hv & Hvn & _ & _).
  destruct (bd_write d2 LBA_SB_A (sb_sector fresh_sb)) as [d3 ok3]. cbn [fst snd] in *.
  destruct Hok as [-> Hok]. cbn [flush io_bind run calls_ok] in *.
  destruct (bd_flush_law d3) as (Hfv & _ & Hfd). destruct (bd_flush d3) as [d4 ok4].
  cbn [fst snd run] in *. destruct Hok as [-> _]. split; [done|].
  split; [done|by left| |].
  - split; [by vm_compute; intuition congruence|by vm_compute|by left].
  - intros x Hx. specialize (Hfd eq_refl x Hx). unfold image_ok, root_at, stale. simpl.
    rewrite !Hfd, (Hvn eq_refl), sb_round_trip by (by vm_compute; intuition congruence).
    change (other_slot LBA_SB_A) with LBA_SB_B. rewrite (Hv LBA_SB_B), HB2 by done. split; [done|]. split; [done|]. split; [done|].
    split; [done|]. intros i Hi. change (nsectors (zlen [])) with 0 in Hi. lia.
Qed.

(** Formatting. On a disk both of whose slots read back invalid, [mount] with working
    block calls installs an empty store: sequence 1, log at sector 2, no root, durable. *)
Theorem mount_formats (d : D) (st0 : Store) :
  parse_superblock (bd_view d LBA_SB_A) = Invalid → parse_superblock (bd_view d LBA_SB_B) = Invalid →
  calls_ok (mount st0) d →
  (run (mount st0) d).2 = mkStore fresh_sb true LBA_SB_A ∧
  clean (run (mount st0) d).1 (mkStore fresh_sb true LBA_SB_A) [].
Proof. apply mount_formats_run. Qed.

(** A [put] that fails before its commit loses nothing. If a data or header write or
    the first flush fails, the store is exactly as clean as before, with the same root,
    so the next [put] may reuse the log space. *)
Theorem put_log_failure_clean (d : D) (st : Store) (bytes0 bytes : list Z) :
  clean d st bytes0 → room (mounted st) bytes →
  let '(d', ok) := run (put_log (mounted st) bytes) d in
  clean d' st bytes0 ∧
  (ok = false → run (put st bytes) d = (d', (st, None))).
Proof.
  intros Hclean Hroom. pose proof (sw_log _ (cl_wf _ _ _ Hclean)) as Hlog.
  destruct Hroom as (Hl & _ & Hhead). unfold LBA_LOG_START in Hlog.
  pose proof (wp_run _ _ _ _ (put_log_wp (mounted st) bytes d ltac:(lia) ltac:(lia))) as [Hw _].
  destruct (run (put_log (mounted st) bytes) d) as [d' ok] eqn:Hrun. simpl in Hw.
  split; [by eapply log_only_clean|]. intros ->. unfold put.
  rewrite (cl_ok _ _ _ Hclean). cbn [negb]. destruct (Z.ltb_spec u32_max (zlen bytes)); [lia|].
  by rewrite run_bind, Hrun.
Qed.

(** A superblock read back is the superblock written. *)
Theorem superblock_round_trip (d : D) (slot : Z) (sb : Superblock) :
  sb_typed sb →
  let '(d', ok) := run (write_superblock slot sb) d in
  ok = true → calls_ok (read_superblock slot) d' →
  (run (read_superblock slot) d').2 = Valid sb.
Proof.
  intros Ht. unfold write_superblock, write_sector. cbn [io_bind run].
  destruct (bd_write_law d slot (sb_sector sb) (sb_sector_length sb)) as (_ & Hvn & _ & _).
  destruct (bd_write d slot (sb_sector sb)) as [d1 ok1]. cbn [fst snd] in *.
  destruct ok1; cbn [flush run]; [|done].
  destruct (bd_flush_law d1) as (Hfv & _ & _). destruct (bd_flush d1) as [d2 ok2]. cbn [fst run] in *.
  intros -> Hc. destruct (read_superblock_run slot d2) as (_ & _ & Hr).
  by rewrite (Hr Hc), Hfv, (Hvn eq_refl), sb_round_trip.
Qed.

(** Streaming read-back. Hashing an extent sector by sector from the disk gives the
    FNV-1a hash of its bytes, whatever its length and its padding, whenever the reads
    work; when one fails the result is [None], never a wrong hash. *)
Theorem extent_hash_exact (d : D) (lba : Z) (bytes : list Z) :
  0 <= lba → lba + nsectors (zlen bytes) < 2 ^ 64 → extent_at (bd_view d) lba bytes →
  let p := extent_content_hash lba (zlen bytes) in
  unchanged d (run p d).1 ∧ (∀ h, (run p d).2 = Some h → h = fnv1a bytes) ∧
  (calls_ok p d → (run p d).2 = Some (fnv1a bytes)).
Proof. apply extent_hash_run. Qed.

(** ** [load_extent] *)

Lemma load_loop_run bytes lba n s d :
  0 <= s → s + Z.of_nat n = nsectors (zlen bytes) → zlen bytes <= 4096 →
  0 <= lba → lba + nsectors (zlen bytes) < 2 ^ 64 → extent_at (bd_view d) lba bytes →
  let c := Z.min (512 * s) (zlen bytes) in
  let p := load_loop lba (zlen bytes) n s
             (take (Z.to_nat c) bytes ++ zeros (4096 - c)) in
  unchanged d (run p d).1 ∧
  (∀ f, (run p d).2 = Some f → f = bytes ++ zeros (4096 - zlen bytes)) ∧
  (calls_ok p d → is_Some (run p d).2).
Proof.
  revert s d. induction n as [|n IH]; intros s d Hs Hn Hmax Hlba Hb Hext c p.
  - unfold p. cbn [load_loop run calls_ok fst snd].
    pose proof (nsectors_done s (zlen bytes) (zlen_nonneg _) ltac:(lia)) as Hle.
    assert (Hc : c = zlen bytes) by (unfold c; lia).
    split; [reflexivity|]. split; [|by eauto]. intros f [= <-]. rewrite Hc. unfold zlen. by rewrite Nat2Z.id, firstn_all.
  - destruct (chunk_next bytes s n Hs Hn) as (Hmin & Hnext & Htake & Hdrop).
    pose proof (nsectors_more s n (zlen bytes) Hs (zlen_nonneg _) Hn) as Hlt.
    assert (Hw : wrap 64 (lba + s) = lba + s) by (apply wrap_id; unfold fits; lia).
    pose proof (chunk_length bytes s Hs ltac:(lia)) as Hk.
    unfold p, c. cbn [load_loop read_sector io_bind run calls_ok]. rewrite Hw, Hmin, (Z.mul_comm s 512).
    rewrite <- Hk. destruct (bd_read_law d (lba + s)) as (Hv & Hcr & Hr).
    destruct (bd_read d (lba + s)) as [d1 [sect|]]; cbn [fst snd] in *.
    2:{ split; [by split|]. split; [done|]. by intros [[? ?] _]. }
    rewrite (Hr sect eq_refl), Nat2Z.id, (Hext s) by lia.
    assert (Hl : length (take (Z.to_nat (512 * s)) bytes) = Z.to_nat (512 * s))
      by (rewrite length_take; unfold zlen in *; lia).
    rewrite (take_app_length' (take _ bytes)), Hnext by done.
    assert (Hfr : take (Z.to_nat (512 * s)) bytes ++ chunk bytes s ++
      drop (Z.to_nat (Z.min (512 * (s + 1)) (zlen bytes)))
        (take (Z.to_nat (512 * s)) bytes ++ zeros (4096 - 512 * s)) =
      take (Z.to_nat (Z.min (512 * (s + 1)) (zlen bytes))) bytes ++
      zeros (4096 - Z.min (512 * (s + 1)) (zlen bytes))).
    { unfold zeros. rewrite drop_app_ge, Hl, drop_replicate by (rewrite Hl; lia). rewrite app_assoc. f_equal.
      - rewrite <- Htake, <- Hnext.
        replace (Z.to_nat (512 * s + Z.of_nat (length (chunk bytes s)))) with
          (Z.to_nat (512 * s) + Z.to_nat (Z.of_nat (length (chunk bytes s))))%nat by lia.
        apply take_take_drop.
      - f_equal. lia. }
    rewrite Hfr. destruct (IH (s + 1) d1) as (Hu & Hres & Hc);
      [lia|lia|done|done|done|by (intros i Hi; rewrite Hv; apply Hext)|].
    split; [etransitivity; [by split|exact Hu]|]. split; [exact Hres|].
    intros [_ Hok]. by apply Hc.
Qed.

(** [load_extent] gives exactly the extent, and leaks nothing. For an extent of 1 to
    4096 bytes on disk, a frame it returns is the lowest free one and holds the bytes
    followed by zeros; with working reads and a free frame it does return one; and when
    it returns nothing the free frames are the same as before. *)
Theorem load_extent_exact (d : D) (fa : FrameAllocator) (lba : Z) (bytes : list Z) :
  mem_inv fa → 1 <= zlen bytes <= 4096 →
  0 <= lba → lba + nsectors (zlen bytes) < 2 ^ 64 → extent_at (bd_view d) lba bytes →
  let p := load_extent fa lba (zlen bytes) in
  let '(d', (fa', r)) := run p d in
  unchanged d d' ∧ mem_inv fa' ∧
  (calls_ok p d → mem_set fa ≠ ∅ → is_Some r) ∧
  match r with
  | Some (phys, frame) =>
      frame = bytes ++ zeros (4096 - zlen bytes) ∧
      ∃ f, lowest (mem_set fa) f ∧ phys = wrap 64 (f * 4096) ∧ mem_set fa' = mem_set fa ∖ {[f]}
  | None => mem_set fa' = mem_set fa
  end.
Proof.
  intros Hinv Hlen Hlba Hb Hext p. unfold p, load_extent.
  destruct (Z.eqb_spec (zlen bytes) 0); [lia|]. destruct (Z.ltb_spec 4096 (zlen bytes)); [lia|].
  cbn [orb]. destruct (alloc_law fa Hinv) as [Hinv' Ha]. pose proof (alloc_accepts fa) as Hacc.
  destruct (alloc fa) as [fa1 [f|]]; cbn [fst snd] in *.
  2:{ cbn [run]. destruct Ha as [He He']. split; [reflexivity|]. split; [done|].
      split; [done|]. by rewrite He, He'. }
  destruct Ha as [Hlow Hset]. rewrite run_bind. cbn [run].
  destruct (load_loop_run bytes lba (Z.to_nat (nsectors (zlen bytes))) 0 d) as (Hu & Hres & Hc);
    [lia|pose proof (nsectors_nonneg (zlen bytes)); lia|lia|done..|].
  replace (Z.min (512 * 0) (zlen bytes)) with 0 in Hu, Hres, Hc by lia.
  change (take (Z.to_nat 0) bytes ++ zeros (4096 - 0)) with (zeros 4096) in Hu, Hres, Hc.
  destruct (run (load_loop _ _ _ _ _) d) as [d' [frame|]]; cbn [fst snd] in *.
  - split; [done|]. split; [done|]. split; [by eauto|]. split; [by apply Hres|]. eauto.
  - assert (Hff : 0 <= f < u64_max).
    { destruct Hlow as [Hf _]. destruct Hinv as (_ & Hw & _).
      apply elem_of_mem_set in Hf as (r & Hr & Hf). rewrite Forall_live in Hw.
      destruct (Hw r Hr). lia. }
    destruct (free_law fa1 f Hinv' Hff) as (Hi & Hadd & _). split; [done|]. split; [done|].
    split.
    + intros [Hcall _]%calls_ok_bind _. destruct (Hc Hcall). done.
    + rewrite Hadd by auto. rewrite Hset. destruct Hlow as [Hf _]. apply set_eq. intros g.
      destruct (decide (g = f)); set_solver.
Qed.
End device.

(** ** Instances *)

Definition staleb (s : list Z) (q : Z) : bool :=
  match parse_superblock s with Valid sb => seq_ sb <? q | _ => true end.

Lemma staleb_stale s q : staleb s q = true → stale s q.
Proof. unfold staleb, stale. destruct (parse_superblock s); [done..|]. apply Z.ltb_lt. Qed.

(** Checks every tear of one sector write; only the first 64 bytes ever differ. *)
Lemma tears_check {D} `{BlockDev D} (d : D) st bytes :
  (let new := sb_sector (next_sb (mounted st) bytes) in
   let old := bd_view d (other_slot (mounted_slot st)) in
   bool_decide (drop 64 old = drop 64 new) &&
   forallb (λ k, staleb (take k new ++ drop k old) (seq_ (mounted st))) (seq 1 63)) = true →
  tears_detected d st bytes.
Proof.
  unfold tears_detected. cbv zeta. intros [Htail%bool_decide_eq_true Hall]%andb_true_iff c (k & Hk & ->).
  destruct (decide (k < 64)%nat).
  - left. apply staleb_stale. rewrite forallb_forall in Hall. apply Hall, in_seq. lia.
  - right. replace k with (64 + (k - 64))%nat by lia. rewrite <- !drop_drop, Htail, !drop_drop.
    by rewrite take_drop.
Qed.

(** An empty disk whose calls all work, mounted (formatted), with one object committed. *)
Definition blank : adisk := mkAdisk ∅ [] [].
Definition demo_mount : adisk * Store := run (mount store0) blank.
Definition demo_put : adisk * (Store * option (Z * Z * Z)) :=
  run (put demo_mount.2 [1; 2; 3]) demo_mount.1.
Definition demo_st : Store := mkStore fresh_sb true LBA_SB_A.
Definition demo_st1 : Store := mkStore (next_sb fresh_sb [1; 2; 3]) true LBA_SB_B.

Lemma demo_mount_st : demo_mount.2 = demo_st.
Proof. by vm_compute. Qed.

Lemma demo_calls : calls_ok (mount store0) blank.
Proof. vm_compute. eauto 10. Qed.

Lemma blank_invalid slot :
  slot = LBA_SB_A ∨ slot = LBA_SB_B → parse_superblock (bd_view blank slot) = Invalid.
Proof. intros [-> | ->]; by vm_compute. Qed.

Lemma demo_clean : clean demo_mount.1 demo_st [].
Proof.
  apply (mount_formats_run blank store0); [apply blank_invalid; by left| |apply demo_calls].
  apply blank_invalid; by right.
Qed.

Lemma demo_room bytes : zlen bytes <= 4096 → room fresh_sb bytes.
Proof.
  intros Hl. unfold room, u32_max, nsectors. simpl. unfold LBA_LOG_START. pose proof (zlen_nonneg bytes).
  Z.div_mod_to_equations. lia.
Qed.

Lemma demo_tears : tears_detected demo_mount.1 demo_st [1; 2; 3].
Proof. apply tears_check. by vm_compute. Qed.

Lemma demo_put_clean : clean demo_put.1 demo_st1 [1; 2; 3].
Proof.
  pose proof (wp_run _ _ _ _ (put_wp demo_mount.1 demo_st [] [1; 2; 3] demo_clean
    (demo_room [1; 2; 3] ltac:(by vm_compute)) demo_tears)) as Hw.
  assert (E : (run (put demo_st [1; 2; 3]) demo_mount.1).2 = (demo_st1, Some (2, 3, fnv1a [1; 2; 3])))
    by by vm_compute.
  unfold demo_put. rewrite demo_mount_st.
  rewrite E in Hw. apply Hw.
Qed.


(** The disk as power loss leaves it when everything cached reaches it. *)
Definition settled (d : adisk) (sc : list bool) : adisk :=
  mkAdisk (foldl (λ m w, <[w.1 := w.2]> m) (stable d) (cache d)) [] sc.

Lemma settled_rebooted d sc : rebooted (settled d sc) (bd_view d).
Proof.
  split.
  - intros l. simpl. apply replay_stable.
  - intros y Hy l. simpl in Hy. inversion Hy as [? ? Heq|]; subst. by rewrite Heq, replay_stable.
Qed.

(** Power is lost after the data sector of the second [put] has been written. *)
Definition demo_mid : adisk := (bd_write demo_mount.1 2 (data_sector [1; 2; 3] 0)).1.

Lemma demo_mid_during : during (put demo_st [1; 2; 3]) demo_mount.1 demo_mid.
Proof. apply during_write. apply during_now. Qed.


Lemma recover_exact_witness :
  (run (recover demo_st1) demo_put.1).2 = Some (2, 3, fnv1a [1; 2; 3]).
Proof.
  destruct (recover_exact demo_put.1 demo_st1 [1; 2; 3] demo_put_clean) as (_ & Hr & Hok).
  - done.
  - destruct Hok as [r Hres]; [vm_compute; eauto 10|]. rewrite Hres. f_equal. by apply Hr.
Defined.

Lemma mount_never_clobbers_witness :
  unchanged demo_put.1 (run (mount store0) demo_put.1).1.
Proof.
  apply (mount_never_clobbers demo_put.1 store0). right. by vm_compute.
Defined.

Lemma mount_formats_witness : clean (run (mount store0) blank).1 (mkStore fresh_sb true LBA_SB_A) [].
Proof.
  apply (mount_formats blank store0).
  - apply blank_invalid. by left.
  - apply blank_invalid. by right.
  - exact demo_calls.
Defined.

(** The header write fails. *)
Definition flaky_log : adisk := mkAdisk (stable demo_put.1) [] [true; false].

Lemma flaky_log_clean : clean flaky_log demo_st1 [1; 2; 3].
Proof.
  destruct demo_put_clean as [H1 H2 H3 H4]. split; [done..|]. intros x Hx. apply H4.
  assert (E : cache demo_put.1 = []) by by vm_compute. simpl. rewrite E. exact Hx.
Qed.

Lemma put_log_failure_clean_witness :
  clean (run (put_log (mounted demo_st1) [4; 5]) flaky_log).1 demo_st1 [1; 2; 3] ∧
  (run (put demo_st1 [4; 5]) flaky_log).2 = (demo_st1, None).
Proof.
  pose proof (put_log_failure_clean flaky_log demo_st1 [1; 2; 3] [4; 5] flaky_log_clean
    ltac:(by vm_compute)) as Hw.
  assert (E : (run (put_log (mounted demo_st1) [4; 5]) flaky_log).2 = false) by by vm_compute.
  destruct (run (put_log (mounted demo_st1) [4; 5]) flaky_log) as [d' ok]. simpl in E. subst ok.
  destruct Hw as [Hc Hr]. split; [exact Hc|]. by rewrite (Hr eq_refl).
Defined.

Lemma superblock_round_trip_witness :
  (run (read_superblock LBA_SB_B) (run (write_superblock LBA_SB_B (mounted demo_st1)) blank).1).2
  = Valid (mounted demo_st1).
Proof.
  pose proof (superblock_round_trip blank LBA_SB_B (mounted demo_st1)
    ltac:(by vm_compute)) as Hw.
  assert (E : (run (write_superblock LBA_SB_B (mounted demo_st1)) blank).2 = true) by by vm_compute.
  assert (Hc : calls_ok (read_superblock LBA_SB_B)
    (run (write_superblock LBA_SB_B (mounted demo_st1)) blank).1) by (vm_compute; eauto 10).
  destruct (run (write_superblock LBA_SB_B (mounted demo_st1)) blank) as [d' ok]. simpl in *.
  exact (Hw E Hc).
Defined.

Lemma demo_extent : extent_at (bd_view demo_put.1) 2 [1; 2; 3].
Proof. intros i Hi. change (nsectors (zlen [1; 2; 3])) with 1 in Hi. replace i with 0 by lia. by vm_compute. Qed.

Lemma extent_hash_exact_witness :
  (run (extent_content_hash 2 3) demo_put.1).2 = Some (fnv1a [1; 2; 3]).
Proof.
  destruct (extent_hash_exact demo_put.1 2 [1; 2; 3]) as (_ & _ & Hok).
  - done.
  - by vm_compute.
  - exact demo_extent.
  - apply Hok. vm_compute. eauto 10.
Defined.

Definition demo_load : adisk * (FrameAllocator * option (Z * list Z)) :=
  run (load_extent demo_fa 2 (zlen [1; 2; 3])) demo_put.1.

Lemma demo_load_eq : run (load_extent demo_fa 2 (zlen [1; 2; 3])) demo_put.1 = demo_load.
Proof. reflexivity. Qed.

Lemma demo_load_some : ∃ ph fr, demo_load.2.2 = Some (ph, fr) ∧ ph = 0x100000.
Proof. vm_compute. eauto. Qed.

Lemma load_extent_exact_witness :
  ∃ ph fr, demo_load.2.2 = Some (ph, fr) ∧ fr = [1; 2; 3] ++ zeros (4096 - zlen [1; 2; 3]).
Proof.
  pose proof (load_extent_exact demo_put.1 demo_fa 2 [1; 2; 3] demo_fa_inv ltac:(by vm_compute)
    ltac:(done) ltac:(by vm_compute) demo_extent) as Hw.
  cbv zeta in Hw. rewrite demo_load_eq in Hw. destruct demo_load_some as (ph & fr & E & _).
  destruct demo_load as [d' [fa' r]]. cbn [snd] in *. subst r. exists ph, fr.
  destruct Hw as (_ & _ & _ & Hw & _). split; [reflexivity|exact Hw].
Defined.

(** ** A commit that is not acknowledged

    After a [put] whose last flush failed, [MOUNTED] is not advanced, so the next [put]
    writes at the same log position, over the data of a superblock that may already be on
    disk with a higher sequence number. *)

Definition flaky : adisk := mkAdisk ∅ [] (replicate 13 true ++ [false]).
Definition r1 : adisk * Store := run (mount store0) flaky.
Definition r2 : adisk * (Store * option (Z * Z * Z)) := run (put r1.2 [1; 2; 3]) r1.1.
Definition r3 : adisk * (Store * option (Z * Z * Z)) := run (put r2.2.1 [4; 5; 6]) r2.1.
(** The retry has written its data sector when power is lost. *)
Definition r4 : adisk := (bd_write r3.1 (log_head_lba (mounted r3.2.1)) (data_sector [7; 8; 9] 0)).1.
Definition r5 : adisk * Store := run (mount store0) (settled r4 []).

(** C31: a retried [put] can lose a committed root. [put(b1)] returns its extent (committed
    and flushed). [put(b2)] returns [None] because its final flush fails. The caller
    retries with [put(b3)] and power is lost after its first sector write. One of the
    images power loss may leave mounts the superblock of [b2], whose data has been
    overwritten, so [recover] returns nothing: the root [b1], acknowledged as committed,
    is gone, although its bytes and its superblock are still on the disk. *)
Theorem retry_loses_root :
  r2.2.2 = Some (2, 3, fnv1a [1; 2; 3]) ∧ r3.2.2 = None ∧
  during (put r3.2.1 [7; 8; 9]) r3.1 r4 ∧ bd_crash r4 (bd_view r4) ∧
  rebooted (settled r4 []) (bd_view r4) ∧
  calls_ok (mount store0) (settled r4 []) ∧ calls_ok (recover r5.2) r5.1 ∧
  (run (recover r5.2) r5.1).2 = None ∧
  parse_superblock (bd_view r5.1 LBA_SB_B) = Valid (mounted r2.2.1) ∧
  extent_at (bd_view r5.1) 2 [1; 2; 3].
Proof.
  split; [by vm_compute|]. split; [by vm_compute|]. split; [|split; [apply bd_view_crash|]].
  { assert (E : r3.2.1 = demo_st1) by by vm_compute. unfold r4. rewrite E.
    apply during_write, during_now. }
  split; [apply settled_rebooted|]. split; [vm_compute; eauto 10|].
  split; [vm_compute; eauto 10|]. split; [by vm_compute|]. split; [by vm_compute|].
  intros i Hi. change (nsectors (zlen [1; 2; 3])) with 1 in Hi. replace i with 0 by lia. by vm_compute.
Qed.
