(* ===== verification/VirtioBlk.v ===== *)
(** * The virtio-blk driver's record ([kernel/src/virtio_blk.rs])

    [VBLK], what the driver knows of its device, and the part of it that a DeviceQueue
    object hands to a domain. The request path is [VirtioDriver], bring-up [VirtioInit]. *)

From S2P Require Import Prelude.

Record VirtioBlk := mkVB {
  v_present : bool;
  v_common : Z;
  v_notify_base : Z;
  v_notify_mul : Z;
  v_notify_off : Z;
  v_desc : Z;
  v_avail : Z;
  v_used : Z;
  v_desc_phys : Z;
  v_avail_phys : Z;
  v_used_phys : Z;
  v_doorbell_phys : Z;
  v_hdr_phys : Z;
  v_data_phys : Z;
  v_status_phys : Z;
  v_hdr : Z;
  v_data : Z;
  v_status : Z;
  v_qsize : Z;
  v_flush_ok : bool;
}.

(** [static mut VBLK]. *)
Definition VBLK0 : VirtioBlk := mkVB false 0 0 0 0 0 0 0 0 0 0 0 0 0 0 0 0 0 0 false.

Record DeviceQueueDesc := mkDQD {
  q_desc_phys : Z;
  q_avail_phys : Z;
  q_used_phys : Z;
  q_buf_phys : Z;
  q_doorbell_phys : Z;
  q_qsize : Z;
}.

#[global] Instance DeviceQueueDesc_eq_dec : EqDecision DeviceQueueDesc.
Proof. solve_decision. Defined.

Definition device_queue_desc (v : VirtioBlk) : option DeviceQueueDesc :=
  if negb (v_present v) then None
  else Some (mkDQD (v_desc_phys v) (v_avail_phys v) (v_used_phys v) (v_hdr_phys v)
               (v_doorbell_phys v) (v_qsize v)).
