(* ===== verification/VirtioDriver.v ===== *)
(** * The virtio-blk request path ([kernel/src/virtio_blk.rs])

    [submit] and the three calls built on it, over RAM by physical address and a virtio
    device. The device is not part of the repository: [VirtioDev] is its interface and
    [VirtioLaws] the behaviour the virtio 1.0 specification documents for a block device
    with one split queue, on the requests it finds in RAM by following the available ring
    and the descriptor chain. The driver's calls then implement [BlockDev] with its laws,
    so that what is proved of the object store over a disk holds over this driver.

    The kernel reaches RAM and the device's registers through the direct map, at
    [hhdm + phys]; the device sees physical addresses. The device acts between two reads
    of the used index; the poll is the source's loop with its bound of 50 million. *)

From S2P Require Import Prelude BlockDev VirtioBlk.

(** ** Memory *)

Definition bytes_of (m : Z → Z) (a : Z) (n : nat) : list Z := m <$> seqZ a (Z.of_nat n).
Definition wr_bytes (m : Z → Z) (a : Z) (s : list Z) : Z → Z :=
  λ x, if (a <=? x) && (x <? a + zlen s) then s.[x - a] else m x.

(** Little-endian values of [n] bytes. *)
Fixpoint le_val (l : list Z) : Z := match l with [] => 0 | b :: l => b + 256 * le_val l end.
Fixpoint le_split (n : nat) (v : Z) : list Z :=
  match n with O => [] | S n => v mod 256 :: le_split n (v / 256) end.
Definition rd_le (m : Z → Z) (a : Z) (n : nat) : Z := le_val (bytes_of m a n).
Definition wr_le (m : Z → Z) (a : Z) (n : nat) (v : Z) : Z → Z := wr_bytes m a (le_split n v).

(** ** What the device reads

    The split virtqueue and the block request of the virtio specification. *)

Record VQ := mkVQ { vq_desc : Z; vq_avail : Z; vq_used : Z; vq_size : Z }.
Record VDesc := mkVD { vd_addr : Z; vd_len : Z; vd_flags : Z; vd_next : Z }.

Definition VIRTQ_DESC_F_NEXT : Z := 1.
Definition VIRTQ_DESC_F_WRITE : Z := 2.
Definition VIRTIO_BLK_T_IN : Z := 0.
Definition VIRTIO_BLK_T_OUT : Z := 1.
Definition VIRTIO_BLK_T_FLUSH : Z := 4.

Definition vq_entry (m : Z → Z) (q : VQ) (i : Z) : VDesc :=
  let a := vq_desc q + 16 * i in
  mkVD (rd_le m a 8) (rd_le m (a + 8) 4) (rd_le m (a + 12) 2) (rd_le m (a + 14) 2).

(** The chain from descriptor [i]; a chain is never longer than the queue. *)
Fixpoint vq_chain (m : Z → Z) (q : VQ) (fuel : nat) (i : Z) : option (list VDesc) :=
  match fuel with
  | O => None
  | S fuel =>
      let e := vq_entry m q i in
      if Z.testbit (vd_flags e) 0 then cons e <$> vq_chain m q fuel (vd_next e) else Some [e]
  end.

Definition avail_idx (m : Z → Z) (q : VQ) : Z := rd_le m (vq_avail q + 2) 2.
Definition avail_head (m : Z → Z) (q : VQ) (i : Z) : Z := rd_le m (vq_avail q + 4 + 2 * (i mod vq_size q)) 2.
Definition used_idx (m : Z → Z) (q : VQ) : Z := rd_le m (vq_used q + 2) 2.

Record BlkReq := mkReq {
  rq_type : Z;
  rq_sector : Z;
  rq_data : option (Z * Z * bool);   (* address, length, written by the device *)
  rq_status : Z;                     (* address *)
}.

Definition dev_writable (e : VDesc) : bool := Z.testbit (vd_flags e) 1.

Definition blk_req (m : Z → Z) (q : VQ) (i : Z) : option BlkReq :=
  match vq_chain m q (Z.to_nat (vq_size q)) (avail_head m q i) with
  | Some (h :: rest) =>
      if negb (dev_writable h) && (vd_len h =? 16) then
        let ty := rd_le m (vd_addr h) 4 in
        let sec := rd_le m (vd_addr h + 8) 8 in
        match rest with
        | [s] => if dev_writable s && (vd_len s =? 1) then Some (mkReq ty sec None (vd_addr s)) else None
        | [d; s] => if dev_writable s && (vd_len s =? 1)
                    then Some (mkReq ty sec (Some (vd_addr d, vd_len d, dev_writable d)) (vd_addr s)) else None
        | _ => None
        end
      else None
  | _ => None
  end.

(** The requests the specification defines, for one sector. *)
Definition req_ok (r : BlkReq) : Prop :=
  (rq_type r = VIRTIO_BLK_T_IN ∧ ∃ a, rq_data r = Some (a, SECTOR, true)) ∨
  (rq_type r = VIRTIO_BLK_T_OUT ∧ ∃ a, rq_data r = Some (a, SECTOR, false)) ∨
  (rq_type r = VIRTIO_BLK_T_FLUSH ∧ rq_data r = None).

(** Where the device may write: the used ring, the status byte and writable data. *)
Definition dev_area (q : VQ) (r : BlkReq) (a : Z) : Prop :=
  vq_used q <= a < vq_used q + 6 + 8 * vq_size q ∨ a = rq_status r ∨
  ∃ p n, rq_data r = Some (p, n, true) ∧ p <= a < p + n.

(** The driver's side of the bargain: buffers and used ring do not overlap. *)
Definition well_placed (q : VQ) (r : BlkReq) : Prop :=
  ¬ (vq_used q <= rq_status r < vq_used q + 6 + 8 * vq_size q) ∧ 0 <= vq_size q ∧
  ∀ p n w, rq_data r = Some (p, n, w) →
    (p + n <= vq_used q ∨ vq_used q + 6 + 8 * vq_size q <= p) ∧ ¬ (p <= rq_status r < p + n).

(** The sector and the bytes a write request names. *)
Definition writes_to (r : BlkReq) (l : Z) : Prop := rq_type r = VIRTIO_BLK_T_OUT ∧ l = rq_sector r.
Definition req_bytes (m : Z → Z) (r : BlkReq) : list Z :=
  match rq_data r with Some (a, n, _) => bytes_of m a (Z.to_nat n) | None => [] end.

(** ** The device *)

Class VirtioDev (V : Type) := {
  vd_mmio : Z → bool;                       (* physical addresses of its registers *)
  vd_read : V → Z → nat → V * Z;            (* register reads and writes, by width *)
  vd_write : V → Z → nat → Z → V;
  vd_poll : V → (Z → Z) → V * (Z → Z);      (* what it does between two accesses *)
  vd_queue : V → option VQ;                 (* queue 0, once it is enabled *)
  vd_last : V → Z;                          (* requests consumed, modulo 2^16 *)
  vd_doorbell : V → Z;                      (* where queue 0 is notified *)
  vd_cached : V → bool;                     (* VIRTIO_BLK_F_FLUSH was negotiated *)
  vd_view : V → disk;
  (** what power loss may leave, now or at any time before the next request *)
  vd_crash : V → disk → Prop;
}.

Section laws.
Context {V : Type} `{VirtioDev V}.
Implicit Types (d : V) (m : Z → Z).

(** What some work on [r] may have changed: only the device's area of RAM and, for a
    write, the sector, which may be torn. *)
Record blk_work (q : VQ) (r : BlkReq) (d : V) (m : Z → Z) (d' : V) (m' : Z → Z) : Prop := {
  bw_queue : vd_queue d' = vd_queue d;
  bw_cached : vd_cached d' = vd_cached d;
  bw_doorbell : vd_doorbell d' = vd_doorbell d;
  bw_ram a : ¬ dev_area q r a → m' a = m a;
  bw_view l : ¬ writes_to r l → vd_view d' l = vd_view d l;
  bw_torn l : writes_to r l → torn (vd_view d l) (req_bytes m r) (vd_view d' l);
  bw_crash x : vd_crash d' x → ∃ x0, vd_crash d x0 ∧ (∀ l, ¬ writes_to r l → x l = x0 l) ∧
    ∀ l, writes_to r l → torn (x0 l) (req_bytes m r) (x l);
}.

(** What a request completed with status 0 has achieved. *)
Definition blk_success (r : BlkReq) (m' : Z → Z) d' (data : list Z) : Prop :=
  (rq_type r = VIRTIO_BLK_T_IN → req_bytes m' r = vd_view d' (rq_sector r)) ∧
  (rq_type r = VIRTIO_BLK_T_OUT → vd_view d' (rq_sector r) = data) ∧
  (rq_type r = VIRTIO_BLK_T_FLUSH → ∀ x, vd_crash d' x → ∀ l, x l = vd_view d' l).

Class VirtioLaws := {
  (** Given one pending request, the device works on it, or completes it: then it has
      written the status and advanced the used index. *)
  vd_poll_law d m q r d' m' :
    vd_queue d = Some q → avail_idx m q = wrap 16 (vd_last d + 1) →
    blk_req m q (vd_last d) = Some r → req_ok r → well_placed q r → vd_poll d m = (d', m') →
    blk_work q r d m d' m' ∧
    ((vd_last d' = vd_last d ∧ used_idx m' q = used_idx m q) ∨
     (vd_last d' = wrap 16 (vd_last d + 1) ∧ used_idx m' q = wrap 16 (vd_last d + 1) ∧
      (m' (rq_status r) = 0 → blk_success r m' d' (req_bytes m r))));
  (** Ringing the doorbell only wakes the device up. *)
  vd_doorbell_law d :
    let d' := vd_write d (vd_doorbell d) 2 0 in
    vd_mmio (vd_doorbell d) = true ∧
    vd_queue d' = vd_queue d ∧ vd_last d' = vd_last d ∧ vd_cached d' = vd_cached d ∧
    vd_doorbell d' = vd_doorbell d ∧
    (∀ l, vd_view d' l = vd_view d l) ∧ ∀ x, vd_crash d' x → vd_crash d x;
  (** Without a flushable cache, what completed is durable. *)
  vd_writethrough_law d x : vd_cached d = false → vd_crash d x → ∀ l, x l = vd_view d l;
  vd_view_crash d : vd_crash d (vd_view d);
}.

(** A device that answers: a pending request is completed with status 0 after at most
    [vd_rank] more spells, fewer than the driver's patience. *)
Class VirtioResponsive := {
  vd_rank : V → (Z → Z) → Z;
  vd_rank_law d m q r d' m' :
    vd_queue d = Some q → avail_idx m q = wrap 16 (vd_last d + 1) →
    blk_req m q (vd_last d) = Some r → req_ok r → well_placed q r → vd_poll d m = (d', m') →
    0 <= vd_rank d m <= 50000000 ∧
    (vd_last d' = vd_last d ∧ vd_rank d' m' < vd_rank d m ∨
     vd_last d' = wrap 16 (vd_last d + 1) ∧ m' (rq_status r) = 0);
}.
End laws.
Arguments VirtioLaws V {_}.
Arguments VirtioResponsive V {_}.

(** ** The driver *)

Record VState {V : Type} := mkV { vb : VirtioBlk; ram : Z → Z; vdev : V }.
Arguments VState V : clear implicits.

Definition set_present (v : VirtioBlk) (b : bool) : VirtioBlk :=
  mkVB b (v_common v) (v_notify_base v) (v_notify_mul v) (v_notify_off v) (v_desc v) (v_avail v) (v_used v)
    (v_desc_phys v) (v_avail_phys v) (v_used_phys v) (v_doorbell_phys v) (v_hdr_phys v) (v_data_phys v)
    (v_status_phys v) (v_hdr v) (v_data v) (v_status v) (v_qsize v) (v_flush_ok v).

Definition POLL_BOUND : Z := 50000000.

Section driver.
Context {V : Type} `{VirtioDev V}.
Variable (hhdm : Z).
Implicit Types (s : VState V).

(** The volatile accessors: a virtual address is RAM or a device register. *)
Definition vread s (va : Z) (n : nat) : VState V * Z :=
  let pa := va - hhdm in
  if vd_mmio pa then let '(d, x) := vd_read (vdev s) pa n in (mkV V (vb s) (ram s) d, x)
  else (s, rd_le (ram s) pa n).
Definition vwrite s (va : Z) (n : nat) (x : Z) : VState V :=
  let pa := va - hhdm in
  if vd_mmio pa then mkV V (vb s) (ram s) (vd_write (vdev s) pa n x)
  else mkV V (vb s) (wr_le (ram s) pa n x) (vdev s).
Definition r8 s va := vread s va 1.
Definition r16 s va := vread s va 2.
Definition r32 s va := vread s va 4.
Definition w8 s va x := vwrite s va 1 x.
Definition w16 s va x := vwrite s va 2 x.
Definition w32 s va x := vwrite s va 4 x.
Definition w64 s va x := vwrite s va 8 x.

Definition device_runs s : VState V :=
  let '(d, m) := vd_poll (vdev s) (ram s) in mkV V (vb s) m d.

(** One round of the poll loop: the state, [guard], and how the loop was left. *)
Definition poll_round (target : Z) (x : VState V * Z * option bool) : VState V * Z * option bool :=
  let '(s, guard, _) := x in
  let '(s, u) := r16 (device_runs s) (v_used (vb s) + 2) in
  if u =? target then (s, guard, Some true)
  else
    let guard := guard + 1 in
    if POLL_BOUND <? guard then (mkV V (set_present (vb s) false) (ram s) (vdev s), guard, Some false)
    else (s, guard, None).
Definition polling (x : VState V * Z * option bool) : bool :=
  match x.2 with None => true | Some _ => false end.
Definition poll_loop s (target : Z) : VState V * option bool :=
  let '(s, _, r) := while_pos polling (poll_round target) 50000001 (s, 0, None) in (s, r).

(** The descriptor chain of [submit]. *)
Definition write_chain s (req_type : Z) (has_data : bool) : VState V :=
  let v := vb s in
  let data_dev_writes := req_type =? VIRTIO_BLK_T_IN in
  let d := v_desc v in
  let s := w64 s d (v_hdr_phys v) in
  let s := w32 s (d + 8) 16 in
  let s := w16 s (d + 12) VIRTQ_DESC_F_NEXT in
  let s := w16 s (d + 14) 1 in
  if has_data then
    let data_flags := Z.lor VIRTQ_DESC_F_NEXT (if data_dev_writes then VIRTQ_DESC_F_WRITE else 0) in
    let s := w64 s (d + 16) (v_data_phys v) in
    let s := w32 s (d + 16 + 8) SECTOR in
    let s := w16 s (d + 16 + 12) data_flags in
    let s := w16 s (d + 16 + 14) 2 in
    let s := w64 s (d + 32) (v_status_phys v) in
    let s := w32 s (d + 32 + 8) 1 in
    let s := w16 s (d + 32 + 12) VIRTQ_DESC_F_WRITE in
    w16 s (d + 32 + 14) 0
  else
    let s := w64 s (d + 16) (v_status_phys v) in
    let s := w32 s (d + 16 + 8) 1 in
    let s := w16 s (d + 16 + 12) VIRTQ_DESC_F_WRITE in
    w16 s (d + 16 + 14) 0.

Definition submit s (req_type lba : Z) (has_data : bool) : VState V * bool :=
  if negb (v_present (vb s)) then (s, false)
  else
    let v := vb s in
    let s := w32 s (v_hdr v) req_type in
    let s := w32 s (v_hdr v + 4) 0 in
    let s := w64 s (v_hdr v + 8) lba in
    let s := w8 s (v_status v) 0xff in
    let s := write_chain s req_type has_data in
    let '(s, idx) := r16 s (v_avail v + 2) in
    let slot := idx mod v_qsize v in
    let s := w16 s (v_avail v + 4 + slot * 2) 0 in
    let target := wrap 16 (idx + 1) in
    let s := w16 s (v_avail v + 2) target in
    let s := w16 s (v_notify_base v + v_notify_off v * v_notify_mul v) 0 in
    match poll_loop s target with
    | (s, Some true) => let '(s, st) := r8 s (v_status v) in (s, st =? 0)
    | (s, _) => (s, false)
    end.

Definition read_sector s (lba : Z) : VState V * option (list Z) :=
  match submit s VIRTIO_BLK_T_IN lba true with
  | (s, false) => (s, None)
  | (s, true) => (s, Some (bytes_of (ram s) (v_data (vb s) - hhdm) 512))
  end.

Definition write_sector s (lba : Z) (src : list Z) : VState V * bool :=
  if negb (v_present (vb s)) then (s, false)
  else
    let s := mkV V (vb s) (wr_bytes (ram s) (v_data (vb s) - hhdm) src) (vdev s) in
    submit s VIRTIO_BLK_T_OUT lba true.

Definition flush s : VState V * bool :=
  if negb (v_present (vb s)) then (s, false)
  else if negb (v_flush_ok (vb s)) then (s, true)
  else submit s VIRTIO_BLK_T_FLUSH 0 false.
End driver.

(** ** Memory lemmas *)

Lemma le_split_length n v : length (le_split n v) = n.
Proof. revert v. induction n as [|n IH]; intros v; simpl; [done|]. by rewrite IH. Qed.

Lemma le_val_split n v : 0 <= v < 256 ^ Z.of_nat n → le_val (le_split n v) = v.
Proof.
  revert v. induction n as [|n IH]; intros v Hv; [simpl in *; lia|].
  rewrite Nat2Z.inj_succ, Z.pow_succ_r in Hv by lia. cbn [le_split le_val].
  rewrite IH.
  - pose proof (Z.div_mod v 256). lia.
  - split; [apply Z.div_pos; lia|]. apply Z.div_lt_upper_bound; lia.
Qed.

Lemma bytes_of_ext m m' a n : (∀ x, a <= x < a + Z.of_nat n → m' x = m x) → bytes_of m' a n = bytes_of m a n.
Proof. intros He. apply list_fmap_ext. intros i x Hx. apply lookup_seqZ in Hx as [-> Hi]. apply He. lia. Qed.

Lemma rd_bytes_ext m m' a n : (∀ x, a <= x < a + Z.of_nat n → m' x = m x) → rd_le m' a n = rd_le m a n.
Proof. intros He. unfold rd_le. by rewrite (bytes_of_ext m m'). Qed.

Lemma wr_bytes_in m a s i : 0 <= i < zlen s → wr_bytes m a s (a + i) = s.[i].
Proof.
  intros Hi. unfold wr_bytes. rewrite (proj2 (Z.leb_le a (a + i))), (proj2 (Z.ltb_lt (a + i) (a + zlen s))) by lia.
  simpl. f_equal. lia.
Qed.

Lemma wr_bytes_out m a s x : ¬ (a <= x < a + zlen s) → wr_bytes m a s x = m x.
Proof.
  intros Hx. unfold wr_bytes. destruct (Z.leb_spec a x), (Z.ltb_spec x (a + zlen s)); simpl; try done. lia.
Qed.

Lemma bytes_of_wr m a s : bytes_of (wr_bytes m a s) a (length s) = s.
Proof.
  apply list_eq. intros i. unfold bytes_of. rewrite list_lookup_fmap. destruct (decide (i < length s)%nat) as [Hi|Hi].
  - assert (E : seqZ a (Z.of_nat (length s)) !! i = Some (a + Z.of_nat i)) by (apply lookup_seqZ; lia).
    rewrite E. cbn [fmap option_fmap option_map].
    rewrite wr_bytes_in by (unfold zlen; lia). unfold aget. rewrite Nat2Z.id.
    destruct (lookup_lt_is_Some_2 s i Hi) as [y Hy]. rewrite (list_lookup_total_correct s i y Hy). by rewrite Hy.
  - rewrite (lookup_ge_None_2 s) by lia.
    destruct (seqZ a (Z.of_nat (length s)) !! i) eqn:E; [|done]. apply lookup_seqZ in E. lia.
Qed.

Lemma wr_le_out m a n v x : ¬ (a <= x < a + Z.of_nat n) → wr_le m a n v x = m x.
Proof. intros Hx. apply wr_bytes_out. unfold zlen. by rewrite le_split_length. Qed.

Lemma rd_wr_le_same m a n v : 0 <= v < 256 ^ Z.of_nat n → rd_le (wr_le m a n v) a n = v.
Proof.
  intros Hv. unfold rd_le, wr_le. rewrite <- (le_split_length n v) at 2. rewrite bytes_of_wr. by apply le_val_split.
Qed.

Lemma rd_wr_le_other m a n v b k :
  a + Z.of_nat n <= b ∨ b + Z.of_nat k <= a → rd_le (wr_le m a n v) b k = rd_le m b k.
Proof. intros Hd. apply rd_bytes_ext. intros x Hx. apply wr_le_out. lia. Qed.

Lemma rd_wr_bytes_other m a s b k :
  a + zlen s <= b ∨ b + Z.of_nat k <= a → rd_le (wr_bytes m a s) b k = rd_le m b k.
Proof. intros Hd. apply rd_bytes_ext. intros x Hx. apply wr_bytes_out. lia. Qed.

Lemma rd_le_byte m a : rd_le m a 1 = m a.
Proof. unfold rd_le, bytes_of. change (seqZ a (Z.of_nat 1)) with [a]. cbn [fmap list_fmap le_val]. lia. Qed.

(** ** Torn writes compose *)

Lemma torn_trans a n b c : length n = 512%nat → torn a n b → torn b n c → torn a n c.
Proof.
  intros Hn [->|[->|(k1 & Hk1 & ->)]] [->|[->|(k2 & Hk2 & ->)]]; unfold torn; auto.
  - right. right. by exists k2.
  - right. left. by rewrite take_drop.
  - right. right. by exists k1.
  - right. right. destruct (decide (k1 <= k2)%nat).
    + exists k2. split; [done|]. f_equal. rewrite drop_app_ge by (rewrite length_take; lia).
      rewrite drop_drop, length_take. f_equal. lia.
    + exists k1. split; [done|]. rewrite drop_app_le by (rewrite length_take; lia). rewrite app_assoc. f_equal.
      rewrite <- (take_drop k2 (take k1 n)) at 2. f_equal. rewrite take_take. f_equal. lia.
Qed.

Section work.
Context {V : Type} `{VirtioDev V}.

Lemma blk_work_refl q r d m : blk_work q r d m d m.
Proof.
  split; try done.
  - intros l _. by left.
  - intros x Hx. exists x. split; [done|]. split; [done|]. intros l _. by left.
Qed.

(** The bytes of a write request are in RAM the device does not write. *)
Lemma req_bytes_kept q r m m' :
  req_ok r → rq_type r = VIRTIO_BLK_T_OUT → (∀ a, ¬ dev_area q r a → m' a = m a) →
  (∀ p, rq_data r = Some (p, SECTOR, false) →
    ∀ a, p <= a < p + SECTOR → ¬ (vq_used q <= a < vq_used q + 6 + 8 * vq_size q) ∧ a ≠ rq_status r) →
  req_bytes m' r = req_bytes m r ∧ length (req_bytes m r) = 512%nat.
Proof.
  intros Hok Ht Hm Hd. destruct Hok as [[Ht' _]|[[_ [p Hp]]|[Ht' _]]]; [by rewrite Ht in Ht'| |by rewrite Ht in Ht'].
  unfold req_bytes. rewrite Hp. split.
  - apply bytes_of_ext. intros x Hx. apply Hm. change (Z.of_nat (Z.to_nat SECTOR)) with SECTOR in Hx.
    destruct (Hd p Hp x Hx) as [H1 H2]. intros [?|[?|(p' & n & Hp' & _)]]; [done|done|].
    rewrite Hp in Hp'. done.
  - unfold bytes_of. rewrite length_fmap, length_seqZ. done.
Qed.

Lemma blk_work_trans q r d m d1 m1 d2 m2 :
  (rq_type r = VIRTIO_BLK_T_OUT → req_bytes m1 r = req_bytes m r ∧ length (req_bytes m r) = 512%nat) →
  blk_work q r d m d1 m1 → blk_work q r d1 m1 d2 m2 → blk_work q r d m d2 m2.
Proof.
  intros Hb [A1 A2 A3 A4 A5 A6 A7] [B1 B2 B3 B4 B5 B6 B7]. split; [congruence|congruence|congruence|..].
  - intros a Ha. by rewrite B4, A4.
  - intros l Hl. by rewrite B5, A5.
  - intros l Hl. destruct (Hb (proj1 Hl)) as [Hb1 Hlen]. eapply torn_trans; [exact Hlen|by apply A6|].
    rewrite <- Hb1. by apply B6.
  - intros x Hx. destruct (B7 x Hx) as (x1 & Hx1 & E1 & T1). destruct (A7 x1 Hx1) as (x0 & Hx0 & E0 & T0).
    exists x0. split; [done|]. split; [intros l Hl; by rewrite E1, E0|].
    intros l Hl. destruct (Hb (proj1 Hl)) as [Hb1 Hlen]. eapply torn_trans; [exact Hlen|by apply T0|].
    rewrite <- Hb1. by apply T1.
Qed.
End work.

(** ** The queue as the driver lays it out *)

Definition queue_of (v : VirtioBlk) : VQ := mkVQ (v_desc_phys v) (v_avail_phys v) (v_used_phys v) (v_qsize v).

Definition apart (a b : Z) : Prop := a + 4096 <= b ∨ b + 4096 <= a.

Section geometry.
Context {V : Type} `{VirtioDev V}.
Variable (hhdm : Z).

(** Four separate frames of RAM, reached through the direct map; the request, data and
    status at their places in the buffer frame; and room for a chain of three. *)
Record geometry (v : VirtioBlk) : Prop := {
  ge_desc : v_desc v = hhdm + v_desc_phys v;
  ge_avail : v_avail v = hhdm + v_avail_phys v;
  ge_used : v_used v = hhdm + v_used_phys v;
  ge_hdr : v_hdr v = hhdm + v_hdr_phys v;
  ge_data : v_data v = v_hdr v + 512 ∧ v_data_phys v = v_hdr_phys v + 512;
  ge_status : v_status v = v_hdr v + 1024 ∧ v_status_phys v = v_hdr_phys v + 1024;
  ge_fits : fits 52 (v_hdr_phys v);
  ge_size : 3 <= v_qsize v <= 128;
  ge_da : apart (v_desc_phys v) (v_avail_phys v);
  ge_du : apart (v_desc_phys v) (v_used_phys v);
  ge_dh : apart (v_desc_phys v) (v_hdr_phys v);
  ge_au : apart (v_avail_phys v) (v_used_phys v);
  ge_ah : apart (v_avail_phys v) (v_hdr_phys v);
  ge_uh : apart (v_used_phys v) (v_hdr_phys v);
  ge_ram p a : p ∈ [v_desc_phys v; v_avail_phys v; v_used_phys v; v_hdr_phys v] → p <= a < p + 4096 →
    vd_mmio a = false;
}.

(** The request [submit] builds. *)
Definition request_of (v : VirtioBlk) (ty lba : Z) (has_data : bool) : BlkReq :=
  mkReq ty lba (if has_data then Some (v_hdr_phys v + 512, SECTOR, ty =? VIRTIO_BLK_T_IN) else None)
    (v_hdr_phys v + 1024).

(** RAM holds that request as number [i]. *)
Record published (v : VirtioBlk) (ty lba : Z) (has_data : bool) (i : Z) (m : Z → Z) : Prop := {
  pu_d0 : vq_entry m (queue_of v) 0 = mkVD (v_hdr_phys v) 16 1 1;
  pu_d1 : vq_entry m (queue_of v) 1 =
    if has_data then mkVD (v_hdr_phys v + 512) SECTOR (if ty =? VIRTIO_BLK_T_IN then 3 else 1) 2
    else mkVD (v_hdr_phys v + 1024) 1 2 0;
  pu_d2 : has_data = true → vq_entry m (queue_of v) 2 = mkVD (v_hdr_phys v + 1024) 1 2 0;
  pu_head : avail_head m (queue_of v) i = 0;
  pu_type : rd_le m (v_hdr_phys v) 4 = ty;
  pu_sector : rd_le m (v_hdr_phys v + 8) 8 = lba;
  pu_idx : avail_idx m (queue_of v) = wrap 16 (i + 1);
}.

Lemma published_req v ty lba hd i m :
  3 <= v_qsize v → published v ty lba hd i m →
  blk_req m (queue_of v) i = Some (request_of v ty lba hd).
Proof.
  intros Hq [D0 D1 D2 Hh Ht Hs _]. unfold blk_req. rewrite Hh. cbn [queue_of vq_size].
  destruct (Z.to_nat (v_qsize v)) as [|[|[|n]]] eqn:Hn; [lia..|]. cbn [vq_chain].
  rewrite D0. cbn [vd_flags vd_next]. change (Z.testbit 1 0) with true. cbv iota. rewrite D1. destruct hd.
  - cbn [vd_flags vd_next]. rewrite (D2 eq_refl). unfold request_of.
    destruct (ty =? VIRTIO_BLK_T_IN); cbn; by rewrite Ht, Hs.
  - cbn. by rewrite Ht, Hs.
Qed.

Lemma vq_entry_ext m m' q j :
  (∀ a, vq_desc q + 16 * j <= a < vq_desc q + 16 * j + 16 → m' a = m a) → vq_entry m' q j = vq_entry m q j.
Proof. intros He. unfold vq_entry. f_equal; apply rd_bytes_ext; intros x Hx; apply He; lia. Qed.

(** The device does not touch what the driver published. *)
Lemma published_frame v ty lba hd i m m' :
  geometry v → 0 <= i → (∀ a, ¬ dev_area (queue_of v) (request_of v ty lba hd) a → m' a = m a) →
  published v ty lba hd i m → published v ty lba hd i m'.
Proof.
  intros [] Hi Hm [D0 D1 D2 Hh Ht Hs Hx]. unfold apart in *.
  assert (Hslot : 0 <= i mod v_qsize v < v_qsize v) by (apply Z.mod_pos_bound; lia).
  assert (Hkeep : ∀ a, ¬ (v_used_phys v <= a < v_used_phys v + 4096) → ¬ (v_hdr_phys v + 512 <= a <= v_hdr_phys v + 1024) →
    m' a = m a).
  { intros a Hu Hb. apply Hm. unfold dev_area, request_of, queue_of. cbn. intros [?|[?|(p & n & Hp & Hr)]]; [lia|lia|].
    destruct hd; [|done]. injection Hp as <- <- _. unfold SECTOR in Hr. lia. }
  split.
  - rewrite <- D0. apply vq_entry_ext. cbn [queue_of vq_desc]. intros a Ha. apply Hkeep; lia.
  - rewrite <- D1. apply vq_entry_ext. cbn [queue_of vq_desc]. intros a Ha. apply Hkeep; lia.
  - intros Hd. rewrite <- (D2 Hd). apply vq_entry_ext. cbn [queue_of vq_desc]. intros a Ha. apply Hkeep; lia.
  - rewrite <- Hh. unfold avail_head. cbn [queue_of vq_avail vq_size]. apply rd_bytes_ext. intros a Ha. apply Hkeep; lia.
  - rewrite <- Ht. apply rd_bytes_ext. intros a Ha. apply Hkeep; lia.
  - rewrite <- Hs. apply rd_bytes_ext. intros a Ha. apply Hkeep; lia.
  - rewrite <- Hx. unfold avail_idx. cbn [queue_of vq_avail]. apply rd_bytes_ext. intros a Ha. apply Hkeep; lia.
Qed.
End geometry.

(** ** Publishing a request *)

Section publish.
Context {V : Type} `{VirtioDev V}.
Variable (hhdm : Z).
Implicit Types (s : VState V).

Lemma vwrite_ram v m d va n x :
  vd_mmio (va - hhdm) = false →
  vwrite hhdm (mkV V v m d) va n x = mkV V v (wr_le m (va - hhdm) n x) d.
Proof. intros Hm. unfold vwrite. by rewrite Hm. Qed.

Lemma vread_ram v m d va n :
  vd_mmio (va - hhdm) = false → vread hhdm (mkV V v m d) va n = (mkV V v m d, rd_le m (va - hhdm) n).
Proof. intros Hm. unfold vread. by rewrite Hm. Qed.

Lemma rd_wr_at m a n v b : a = b → 0 <= v < 256 ^ Z.of_nat n → rd_le (wr_le m a n v) b n = v.
Proof. intros ->. apply rd_wr_le_same. Qed.

(** Everything [submit] writes to RAM. *)
Definition stage s (ty lba : Z) (hd : bool) : VState V :=
  let v := vb s in
  let s := w32 hhdm s (v_hdr v) ty in
  let s := w32 hhdm s (v_hdr v + 4) 0 in
  let s := w64 hhdm s (v_hdr v + 8) lba in
  let s := w8 hhdm s (v_status v) 0xff in
  let s := write_chain hhdm s ty hd in
  let '(s, idx) := r16 hhdm s (v_avail v + 2) in
  let slot := idx mod v_qsize v in
  let s := w16 hhdm s (v_avail v + 4 + slot * 2) 0 in
  w16 hhdm s (v_avail v + 2) (wrap 16 (idx + 1)).

Section ram.
Context (v : VirtioBlk) (Hg : geometry hhdm v).

Lemma desc_ram va : v_desc v <= va < v_desc v + 4096 → vd_mmio (va - hhdm) = false.
Proof. intros Hva. pose proof (ge_desc _ _ Hg). apply (ge_ram hhdm v Hg (v_desc_phys v)); [set_solver|lia]. Qed.
Lemma avail_ram va : v_avail v <= va < v_avail v + 4096 → vd_mmio (va - hhdm) = false.
Proof. intros Hva. pose proof (ge_avail _ _ Hg). apply (ge_ram hhdm v Hg (v_avail_phys v)); [set_solver|lia]. Qed.
Lemma used_ram va : v_used v <= va < v_used v + 4096 → vd_mmio (va - hhdm) = false.
Proof. intros Hva. pose proof (ge_used _ _ Hg). apply (ge_ram hhdm v Hg (v_used_phys v)); [set_solver|lia]. Qed.
Lemma hdr_ram va : v_hdr v <= va < v_hdr v + 4096 → vd_mmio (va - hhdm) = false.
Proof. intros Hva. pose proof (ge_hdr _ _ Hg). apply (ge_ram hhdm v Hg (v_hdr_phys v)); [set_solver|lia]. Qed.
End ram.

(** The chain, as written. *)
Definition chain_ram (v : VirtioBlk) (ty : Z) (hd : bool) (m : Z → Z) : Z → Z :=
  let d := v_desc_phys v in
  let m := wr_le (wr_le (wr_le (wr_le m d 8 (v_hdr_phys v)) (d + 8) 4 16) (d + 12) 2 1) (d + 14) 2 1 in
  if hd then
    let m := wr_le m (d + 16) 8 (v_hdr_phys v + 512) in
    let m := wr_le m (d + 24) 4 SECTOR in
    let m := wr_le m (d + 28) 2 (if ty =? VIRTIO_BLK_T_IN then 3 else 1) in
    let m := wr_le m (d + 30) 2 2 in
    wr_le (wr_le (wr_le (wr_le m (d + 32) 8 (v_hdr_phys v + 1024)) (d + 40) 4 1) (d + 44) 2 2) (d + 46) 2 0
  else wr_le (wr_le (wr_le (wr_le m (d + 16) 8 (v_hdr_phys v + 1024)) (d + 24) 4 1) (d + 28) 2 2) (d + 30) 2 0.

Lemma write_chain_eq v m d ty hd :
  geometry hhdm v →
  write_chain hhdm (mkV V v m d) ty hd = mkV V v (chain_ram v ty hd m) d.
Proof.
  intros Hg. pose proof (desc_ram v Hg) as Hr. pose proof (ge_desc _ _ Hg) as Hd.
  destruct (ge_data _ _ Hg) as [_ Hdp]. destruct (ge_status _ _ Hg) as [_ Hsp].
  unfold write_chain, w64, w32, w16. cbn [vb]. rewrite Hdp, Hsp.
  assert (E : ∀ o, v_desc v + o - hhdm = v_desc_phys v + o) by (intros; lia).
  assert (E0 : v_desc v - hhdm = v_desc_phys v) by lia.
  do 4 (rewrite vwrite_ram by (apply Hr; lia)). unfold chain_ram. destruct hd.
  - do 8 (rewrite vwrite_ram by (apply Hr; lia)). rewrite <- !Z.add_assoc, !E, E0.
    destruct (ty =? VIRTIO_BLK_T_IN); reflexivity.
  - do 4 (rewrite vwrite_ram by (apply Hr; lia)). rewrite <- !Z.add_assoc, !E, E0. reflexivity.
Qed.

(** The request header and status byte. *)
Definition header_ram (v : VirtioBlk) (ty lba : Z) (m : Z → Z) : Z → Z :=
  let h := v_hdr_phys v in
  wr_le (wr_le (wr_le (wr_le m h 4 ty) (h + 4) 4 0) (h + 8) 8 lba) (h + 1024) 1 0xff.

(** The entry of the available ring and its index. *)
Definition avail_ram_at (v : VirtioBlk) (i : Z) (m : Z → Z) : Z → Z :=
  let a := v_avail_phys v in
  wr_le (wr_le m (a + 4 + 2 * (i mod v_qsize v)) 2 0) (a + 2) 2 (wrap 16 (i + 1)).

Definition staged_ram (v : VirtioBlk) (ty lba : Z) (hd : bool) (i : Z) (m : Z → Z) : Z → Z :=
  avail_ram_at v i (chain_ram v ty hd (header_ram v ty lba m)).

Lemma chain_ram_out v ty hd m a :
  ¬ (v_desc_phys v <= a < v_desc_phys v + 48) → chain_ram v ty hd m a = m a.
Proof. intros Ha. unfold chain_ram. destruct hd; rewrite !wr_le_out by lia; done. Qed.

Lemma header_ram_out v ty lba m a :
  ¬ (v_hdr_phys v <= a < v_hdr_phys v + 16) → a ≠ v_hdr_phys v + 1024 → header_ram v ty lba m a = m a.
Proof. intros Ha Hs. unfold header_ram. rewrite !wr_le_out by lia. done. Qed.

Lemma stage_eq v m d ty lba hd :
  geometry hhdm v →
  stage (mkV V v m d) ty lba hd = mkV V v (staged_ram v ty lba hd (avail_idx m (queue_of v)) m) d.
Proof.
  intros Hg. pose proof (hdr_ram v Hg) as Hh. pose proof (avail_ram v Hg) as Ha.
  pose proof (ge_hdr _ _ Hg) as E1. pose proof (ge_avail _ _ Hg) as E2. destruct (ge_status _ _ Hg) as [E3 _].
  pose proof (ge_size _ _ Hg) as Hq. pose proof (ge_da _ _ Hg) as Hda. pose proof (ge_ah _ _ Hg) as Hah. unfold apart in *.
  unfold stage, w64, w32, w16, w8, r16. cbn [vb].
  do 4 (rewrite vwrite_ram by (apply Hh; lia)). rewrite write_chain_eq by done.
  rewrite vread_ram by (apply Ha; lia).
  replace (v_hdr v - hhdm) with (v_hdr_phys v) by lia.
  replace (v_hdr v + 4 - hhdm) with (v_hdr_phys v + 4) by lia.
  replace (v_hdr v + 8 - hhdm) with (v_hdr_phys v + 8) by lia.
  replace (v_status v - hhdm) with (v_hdr_phys v + 1024) by lia.
  fold (header_ram v ty lba m). set (m1 := chain_ram v ty hd (header_ram v ty lba m)).
  assert (Hidx : rd_le m1 (v_avail v + 2 - hhdm) 2 = avail_idx m (queue_of v)).
  { unfold avail_idx. cbn [queue_of vq_avail]. replace (v_avail v + 2 - hhdm) with (v_avail_phys v + 2) by lia.
    apply rd_bytes_ext. intros x Hx. unfold m1. rewrite chain_ram_out, header_ram_out by lia. done. }
  rewrite Hidx. set (i := avail_idx m (queue_of v)).
  assert (Hslot : 0 <= i mod v_qsize v < v_qsize v) by (apply Z.mod_pos_bound; lia).
  do 2 (rewrite vwrite_ram by (apply Ha; lia)). unfold staged_ram, avail_ram_at. fold m1.
  replace (v_avail v + 4 + i mod v_qsize v * 2 - hhdm) with (v_avail_phys v + 4 + 2 * (i mod v_qsize v)) by lia.
  replace (v_avail v + 2 - hhdm) with (v_avail_phys v + 2) by lia. reflexivity.
Qed.

Lemma staged_out v ty lba hd i m a :
  3 <= v_qsize v <= 128 → ¬ (v_desc_phys v <= a < v_desc_phys v + 4096) → ¬ (v_avail_phys v <= a < v_avail_phys v + 4096) →
  ¬ (v_hdr_phys v <= a < v_hdr_phys v + 16) → a ≠ v_hdr_phys v + 1024 → staged_ram v ty lba hd i m a = m a.
Proof.
  intros Hq H1 H2 H3 H4. assert (Hslot : 0 <= i mod v_qsize v < v_qsize v) by (apply Z.mod_pos_bound; lia).
  unfold staged_ram, avail_ram_at. rewrite !wr_le_out by lia. rewrite chain_ram_out, header_ram_out by lia. done.
Qed.

Ltac ram_fields :=
  repeat first [rewrite rd_wr_at by (lia || (unfold fits, SECTOR in *; cbn; lia)) | rewrite rd_wr_le_other by lia].

Lemma staged_published v ty lba hd i m :
  geometry hhdm v → fits 32 ty → fits 64 lba → fits 16 i → published v ty lba hd i (staged_ram v ty lba hd i m).
Proof.
  intros [] Hty Hlba Hi. unfold apart in *.
  assert (Hslot : 0 <= i mod v_qsize v < v_qsize v) by (apply Z.mod_pos_bound; lia).
  assert (Hw : 0 <= wrap 16 (i + 1) < 256 ^ Z.of_nat 2) by (apply (fits_wrap 16); lia).
  assert (Hh : 0 <= v_hdr_phys v < 2 ^ 52) by done.
  change (2 ^ 52) with 4503599627370496 in Hh.
  assert (Hlba' : 0 <= lba < 256 ^ Z.of_nat 8) by exact Hlba. assert (Hty' : 0 <= ty < 256 ^ Z.of_nat 4) by exact Hty.
  unfold staged_ram, avail_ram_at. split.
  - unfold vq_entry. cbn [queue_of vq_desc]. f_equal; unfold chain_ram; destruct hd; ram_fields; done.
  - unfold vq_entry. cbn [queue_of vq_desc]. destruct hd; f_equal; unfold chain_ram; cbv iota;
      destruct (ty =? VIRTIO_BLK_T_IN); ram_fields; done.
  - intros ->. unfold vq_entry. cbn [queue_of vq_desc]. f_equal; unfold chain_ram; cbv iota; ram_fields; done.
  - unfold avail_head. cbn [queue_of vq_avail vq_size]. ram_fields. done.
  - rewrite !rd_wr_le_other by lia. unfold chain_ram, header_ram. destruct hd; ram_fields; done.
  - rewrite !rd_wr_le_other by lia. unfold chain_ram, header_ram. destruct hd; ram_fields; done.
  - unfold avail_idx. cbn [queue_of vq_avail]. ram_fields. done.
Qed.
End publish.

(** ** Polling *)

Section poll.
Context {V : Type} `{VirtioDev V} `{!VirtioLaws V}.
Variable (hhdm : Z).
Implicit Types (s : VState V).

Context (v : VirtioBlk) (ty lba : Z) (hd : bool) (i : Z) (d0 : V) (m0 : Z → Z).
Let q := queue_of v.
Let r := request_of v ty lba hd.
Context (Hg : geometry hhdm v) (Hok : req_ok r) (Hi : fits 16 i).
Context (Hq0 : vd_queue d0 = Some q) (Hl0 : vd_last d0 = i) (Hu0 : used_idx m0 q = i).
Context (Hp0 : published v ty lba hd i m0).

(** The request is still pending, or it has completed. *)
Definition pending d m : Prop :=
  blk_work q r d0 m0 d m ∧ vd_last d = i ∧ used_idx m q = i.
Definition completed d m : Prop :=
  blk_work q r d0 m0 d m ∧ vd_last d = wrap 16 (i + 1) ∧ used_idx m q = wrap 16 (i + 1) ∧
  (m (rq_status r) = 0 → blk_success r m d (req_bytes m0 r)).

Lemma next_ne : wrap 16 (i + 1) ≠ i.
Proof.
  unfold fits in Hi. unfold wrap. destruct (decide (i = 65535)) as [->|]; [done|].
  change (2 ^ 16) with 65536 in *. rewrite Z.mod_small; lia.
Qed.

Lemma data_kept d m : blk_work q r d0 m0 d m → rq_type r = VIRTIO_BLK_T_OUT →
  req_bytes m r = req_bytes m0 r ∧ length (req_bytes m0 r) = 512%nat.
Proof.
  intros Hw Ht. apply (req_bytes_kept q r m0 m Hok Ht); [by apply Hw|]. intros p Hp a Ha.
  unfold r, request_of in Hp. cbn in Hp. destruct hd; [|done]. injection Hp as <- _. unfold SECTOR in Ha.
  pose proof (ge_uh _ _ Hg) as Huh. pose proof (ge_size _ _ Hg). unfold apart in Huh. cbn. lia.
Qed.

Lemma request_placed : well_placed q r.
Proof.
  pose proof (ge_uh _ _ Hg) as Huh. pose proof (ge_size _ _ Hg). unfold apart in Huh. split; [cbn; lia|].
  split; [cbn; lia|]. intros p n w Hp. unfold r, request_of in Hp. cbn in Hp. destruct hd; [|done].
  injection Hp as <- <- _. unfold SECTOR. cbn. lia.
Qed.

(** What the device finds while the request is pending. *)
Lemma pending_req d m :
  pending d m →
  vd_queue d = Some q ∧ avail_idx m q = wrap 16 (vd_last d + 1) ∧ blk_req m q (vd_last d) = Some r.
Proof.
  intros (Hw & Hl & Hu). assert (Hpub : published v ty lba hd i m).
  { eapply published_frame; [exact Hg|apply Hi|apply Hw|exact Hp0]. }
  rewrite Hl. split; [by rewrite (bw_queue _ _ _ _ _ _ Hw)|]. split; [apply Hpub|]. apply published_req; [apply Hg|done].
Qed.

(** One spell of the device. *)
Lemma device_step d m d' m' : pending d m → vd_poll d m = (d', m') → pending d' m' ∨ completed d' m'.
Proof.
  intros Hpe Hp. destruct (pending_req d m Hpe) as (R1 & R2 & R3). destruct Hpe as (Hw & Hl & Hu).
  destruct (vd_poll_law d m q r d' m' R1 R2 R3 Hok request_placed Hp) as (Hw' & Hr).
  - assert (Hall : blk_work q r d0 m0 d' m').
    { eapply blk_work_trans; [|exact Hw|exact Hw']. intros Ht. by apply (data_kept d m). }
    rewrite Hl in Hr. destruct Hr as [[Hl' Hu']|(Hl' & Hu' & Hs)].
    + left. split; [done|]. split; [done|]. by rewrite Hu'.
    + right. split; [done|]. split; [done|]. split; [done|]. intros Hst. specialize (Hs Hst).
      destruct Hs as (S1 & S2 & S3). split; [done|]. split; [|done]. intros Ht. rewrite (S2 Ht).
      by apply (data_kept d m).
Qed.

(** The states of the loop. *)
Definition poll_inv (x : VState V * Z * option bool) : Prop :=
  let '(s, guard, out) := x in
  match out with
  | None => vb s = v ∧ 0 <= guard <= POLL_BOUND ∧ pending (vdev s) (ram s)
  | Some true => vb s = v ∧ completed (vdev s) (ram s)
  | Some false => vb s = set_present v false ∧ pending (vdev s) (ram s)
  end.

Definition poll_measure (x : VState V * Z * option bool) : Z :=
  let '(_, guard, out) := x in match out with None => POLL_BOUND + 1 - guard | Some _ => 0 end.

Lemma poll_round_ok x :
  poll_inv x → polling x = true →
  poll_inv (poll_round hhdm (wrap 16 (i + 1)) x) ∧
  poll_measure (poll_round hhdm (wrap 16 (i + 1)) x) < poll_measure x ∧ 0 < poll_measure x.
Proof.
  destruct x as [[s guard] [|]]; [done|]. destruct s as [w m d]. intros (Hv & Hgd & Hpe) _. cbn in Hv, Hpe. subst w.
  unfold poll_round, device_runs. cbn [vb ram vdev].
  destruct (vd_poll d m) as [d' m'] eqn:Hp. unfold r16. cbn [vb].
  rewrite vread_ram by (apply (used_ram hhdm v Hg); lia).
  replace (v_used v + 2 - hhdm) with (v_used_phys v + 2) by (rewrite (ge_used _ _ Hg); lia).
  change (rd_le m' (v_used_phys v + 2) 2) with (used_idx m' q).
  destruct (device_step d m d' m' Hpe Hp) as [Hpe'|Hco].
  - pose proof next_ne as Hne. rewrite (proj2 (proj2 Hpe')), (proj2 (Z.eqb_neq i (wrap 16 (i + 1)))) by done.
    destruct (Z.ltb_spec POLL_BOUND (guard + 1)); cbn [poll_inv poll_measure vb vdev ram]; (split; [|lia]).
    + done.
    + split; [done|]. split; [lia|done].
  - destruct Hco as (C1 & C2 & C3 & C4). rewrite C3, Z.eqb_refl. cbn [poll_inv poll_measure vb vdev ram].
    split; [|lia]. done.
Qed.

(** The loop ends, completed or disabled. *)
Lemma poll_loop_spec s :
  vb s = v → vdev s = d0 → ram s = m0 →
  match poll_loop hhdm s (wrap 16 (i + 1)) with
  | (s', Some true) => vb s' = v ∧ completed (vdev s') (ram s')
  | (s', Some false) => vb s' = set_present v false ∧ pending (vdev s') (ram s')
  | (_, None) => False
  end.
Proof.
  intros Hv Hd Hm. unfold poll_loop.
  assert (Hstart : poll_inv (s, 0, None)).
  { split; [done|]. split; [unfold POLL_BOUND; lia|]. rewrite Hd, Hm. split; [apply blk_work_refl|done]. }
  destruct (while_pos_enough polling (poll_round hhdm (wrap 16 (i + 1))) poll_inv poll_measure 50000001 _
    Hstart poll_round_ok) as [Hrel Hinv]; [done|].
  destruct (while_rel_inv _ _ (λ _, True) _ _ Hrel I) as [_ Hdone]; [done|].
  destruct (while_pos _ _ _ _) as [[s' guard] [[]|]]; [exact Hinv|exact Hinv|done].
Qed.

(** With a device that answers, the loop is not left by its bound. *)
Context `{!VirtioResponsive V}.

Definition live_inv (x : VState V * Z * option bool) : Prop :=
  poll_inv x ∧ let '(s, guard, out) := x in
  match out with
  | None => guard + vd_rank (vdev s) (ram s) <= POLL_BOUND
  | Some b => b = true ∧ ram s (rq_status r) = 0
  end.

Lemma pending_rank d m : pending d m → 0 <= vd_rank d m <= POLL_BOUND.
Proof.
  intros Hpe. destruct (pending_req d m Hpe) as (R1 & R2 & R3). destruct (vd_poll d m) as [d' m'] eqn:Hp.
  by apply (vd_rank_law d m q r d' m' R1 R2 R3 Hok request_placed Hp).
Qed.

Lemma poll_round_live x :
  live_inv x → polling x = true → live_inv (poll_round hhdm (wrap 16 (i + 1)) x).
Proof.
  intros [Hpi Hli] Hc. split; [by apply poll_round_ok|].
  destruct x as [[[w m d] guard] [|]]; [done|]. destruct Hpi as (Hv & Hgd & Hpe). cbn in Hv, Hpe, Hli. subst w.
  unfold poll_round, device_runs. cbn [vb ram vdev].
  destruct (vd_poll d m) as [d' m'] eqn:Hp. unfold r16. cbn [vb].
  rewrite vread_ram by (apply (used_ram hhdm v Hg); lia).
  replace (v_used v + 2 - hhdm) with (v_used_phys v + 2) by (rewrite (ge_used _ _ Hg); lia).
  change (rd_le m' (v_used_phys v + 2) 2) with (used_idx m' q). pose proof next_ne as Hne.
  destruct (pending_req d m Hpe) as (R1 & R2 & R3).
  destruct (vd_rank_law d m q r d' m' R1 R2 R3 Hok request_placed Hp) as [Hr0 Hr]. rewrite (proj1 (proj2 Hpe)) in Hr.
  destruct (device_step d m d' m' Hpe Hp) as [Hpe'|Hco].
  - destruct Hr as [[_ Hlt]|[Hl _]]; [|by rewrite (proj1 (proj2 Hpe')) in Hl].
    rewrite (proj2 (proj2 Hpe')), (proj2 (Z.eqb_neq i (wrap 16 (i + 1)))) by done.
    pose proof (pending_rank d' m' Hpe'). destruct (Z.ltb_spec POLL_BOUND (guard + 1)); [lia|]. cbn [vdev ram]. lia.
  - destruct Hco as (C1 & C2 & C3 & C4). rewrite C3, Z.eqb_refl. cbn [ram]. split; [done|].
    destruct Hr as [[Hl _]|[_ Hst]]; [congruence|done].
Qed.

Lemma poll_loop_live s :
  vb s = v → vdev s = d0 → ram s = m0 →
  ∃ s', poll_loop hhdm s (wrap 16 (i + 1)) = (s', Some true) ∧ ram s' (rq_status r) = 0.
Proof.
  intros Hv Hd Hm. pose proof (poll_loop_spec s Hv Hd Hm) as Hpl. revert Hpl. unfold poll_loop.
  assert (Hpe : pending (vdev s) (ram s)) by (rewrite Hd, Hm; split; [apply blk_work_refl|done]).
  assert (Hstart : live_inv (s, 0, None)).
  { split; [|by apply pending_rank]. split; [done|]. split; [unfold POLL_BOUND; lia|done]. }
  destruct (while_pos_enough polling (poll_round hhdm (wrap 16 (i + 1))) live_inv poll_measure 50000001 _
    Hstart) as [_ Hinv]; [|done|].
  { intros x Hx Hc. split; [by apply poll_round_live|]. by apply poll_round_ok; [apply Hx|]. }
  destruct (while_pos _ _ _ _) as [[s' guard] [b|]]; [|done]. destruct Hinv as [_ [-> Hst]]. intros _. by exists s'.
Qed.
End poll.

(** ** Requests *)

Section requests.
Context {V : Type} `{VirtioDev V} `{!VirtioLaws V}.
Variable (hhdm : Z).
Implicit Types (s : VState V).

Definition notify_phys (v : VirtioBlk) : Z := v_notify_base v + v_notify_off v * v_notify_mul v - hhdm.

(** Driver and device agree on an idle queue. *)
Record idle s : Prop := {
  id_geometry : geometry hhdm (vb s);
  id_queue : vd_queue (vdev s) = Some (queue_of (vb s));
  id_doorbell : vd_doorbell (vdev s) = notify_phys (vb s);
  id_last : fits 16 (vd_last (vdev s));
  id_avail : avail_idx (ram s) (queue_of (vb s)) = vd_last (vdev s);
  id_used : used_idx (ram s) (queue_of (vb s)) = vd_last (vdev s);
  id_cached : vd_cached (vdev s) = v_flush_ok (vb s);
}.

(** The invariant: a driver that is not disabled is idle. *)
Definition vb_inv s : Prop := v_present (vb s) = true → idle s.

(** The effect of request [r] with bytes [data] on the contents. *)
Definition effect (r : BlkReq) (data : list Z) (d d' : V) : Prop :=
  (∀ l, ¬ writes_to r l → vd_view d' l = vd_view d l) ∧
  (∀ l, writes_to r l → torn (vd_view d l) data (vd_view d' l)) ∧
  ∀ x, vd_crash d' x → ∃ x0, vd_crash d x0 ∧ (∀ l, ¬ writes_to r l → x l = x0 l) ∧
    ∀ l, writes_to r l → torn (x0 l) data (x l).

Lemma submit_eq s ty lba hd :
  v_present (vb s) = true → geometry hhdm (vb s) →
  vd_doorbell (vdev s) = notify_phys (vb s) →
  let i := avail_idx (ram s) (queue_of (vb s)) in
  let s1 := mkV V (vb s) (staged_ram (vb s) ty lba hd i (ram s)) (vd_write (vdev s) (vd_doorbell (vdev s)) 2 0) in
  submit hhdm s ty lba hd =
  match poll_loop hhdm s1 (wrap 16 (i + 1)) with
  | (s, Some true) => let '(s, st) := r8 hhdm s (v_status (vb s1)) in (s, st =? 0)
  | (s, _) => (s, false)
  end.
Proof.
  intros Hp Hg Hd i s1. pose proof (stage_eq hhdm (vb s) (ram s) (vdev s) ty lba hd Hg) as Hst.
  destruct s as [v m d]. cbn [vb ram vdev] in *. fold i in Hst. unfold submit. cbn [vb]. rewrite Hp. cbn [negb].
  unfold stage in Hst. cbn [vb] in Hst.
  destruct (r16 hhdm _ (v_avail v + 2)) as [s2 idx] eqn:Hr.
  assert (Hidx : idx = i).
  { revert Hr. unfold w64, w32, w16, w8, r16. pose proof (hdr_ram hhdm v Hg) as Hh. pose proof (avail_ram hhdm v Hg) as Ha.
    pose proof (ge_hdr _ _ Hg) as E1. pose proof (ge_avail _ _ Hg) as E2. destruct (ge_status _ _ Hg) as [E3 _].
    pose proof (ge_da _ _ Hg). pose proof (ge_ah _ _ Hg). unfold apart in *.
    do 4 (rewrite vwrite_ram by (apply Hh; lia)). rewrite write_chain_eq by done.
    rewrite vread_ram by (apply Ha; lia). intros [= _ <-]. unfold i, avail_idx. cbn [queue_of vq_avail].
    replace (v_avail v + 2 - hhdm) with (v_avail_phys v + 2) by lia. apply rd_bytes_ext. intros x Hx.
    rewrite chain_ram_out by lia. rewrite !wr_le_out by lia. done. }
  rewrite Hidx in Hst |- *. cbv zeta. rewrite Hst. unfold w16 at 1, vwrite. fold (notify_phys v). rewrite <- Hd.
  destruct (vd_doorbell_law d) as (Hmm & _). rewrite Hmm. reflexivity.
Qed.

Lemma staged_data v ty lba hd i m :
  geometry hhdm v → req_bytes (staged_ram v ty lba hd i m) (request_of v ty lba hd) = req_bytes m (request_of v ty lba hd).
Proof.
  intros []. unfold req_bytes, request_of. cbn [rq_data]. destruct hd; [|done]. apply bytes_of_ext.
  intros x Hx. change (Z.of_nat (Z.to_nat SECTOR)) with 512 in Hx. unfold apart in *. apply staged_out; lia.
Qed.

Lemma staged_used v ty lba hd i m :
  geometry hhdm v → used_idx (staged_ram v ty lba hd i m) (queue_of v) = used_idx m (queue_of v).
Proof.
  intros []. unfold used_idx. cbn [queue_of vq_used]. apply rd_bytes_ext. intros x Hx. unfold apart in *. apply staged_out; lia.
Qed.

(** Work since the doorbell, seen from before it. *)
Lemma work_effect q r d m0 d' m' data :
  blk_work q r (vd_write d (vd_doorbell d) 2 0) m0 d' m' → req_bytes m0 r = data → effect r data d d'.
Proof.
  intros [] <-. destruct (vd_doorbell_law d) as (_ & _ & _ & _ & _ & Hv & Hc). split; [|split].
  - intros l Hl. by rewrite bw_view0, Hv.
  - intros l Hl. rewrite <- Hv. by apply bw_torn0.
  - intros x Hx. destruct (bw_crash0 x Hx) as (x0 & Hx0 & E & T). exists x0. split; [by apply Hc|done].
Qed.

(** Completion leaves the queue idle. *)
Lemma completed_idle s ty lba hd m0 d' m' :
  idle s → published (vb s) ty lba hd (vd_last (vdev s)) m0 →
  completed (vb s) ty lba hd (vd_last (vdev s)) (vd_write (vdev s) (vd_doorbell (vdev s)) 2 0) m0 d' m' →
  idle (mkV V (vb s) m' d').
Proof.
  intros [Hg Hq Hd Hl Ha Hu Hc] Hp0 (Hw & Hl' & Hu' & _).
  destruct (vd_doorbell_law (vdev s)) as (_ & Q1 & _ & Q3 & Q4 & _). split; cbn [vb ram vdev].
  - done.
  - by rewrite (bw_queue _ _ _ _ _ _ Hw), Q1.
  - by rewrite (bw_doorbell _ _ _ _ _ _ Hw), Q4.
  - rewrite Hl'. apply fits_wrap. lia.
  - rewrite Hl'. eapply published_frame; [exact Hg|apply Hl|apply Hw|exact Hp0].
  - by rewrite Hu', Hl'.
  - by rewrite (bw_cached _ _ _ _ _ _ Hw), Q3.
Qed.

(** A request on an idle queue: the driver is idle again or disabled; only the sector of a
    write changes, at worst torn; and success means what the request asks for. *)
Lemma submit_spec s ty lba hd :
  v_present (vb s) = true → idle s → fits 32 ty → fits 64 lba →
  let r := request_of (vb s) ty lba hd in
  req_ok r →
  let '(s', ok) := submit hhdm s ty lba hd in
  vb_inv s' ∧ effect r (req_bytes (ram s) r) (vdev s) (vdev s') ∧
  v_data (vb s') = v_data (vb s) ∧ (ok = true → vb s' = vb s ∧ blk_success r (ram s') (vdev s') (req_bytes (ram s) r)).
Proof.
  intros Hp [Hg Hq Hd Hl Ha Hu Hc] Hty Hlba r Hok. rewrite submit_eq by done. rewrite Ha.
  set (i := vd_last (vdev s)) in *. set (d0 := vd_write (vdev s) _ 2 0). set (m0 := staged_ram _ _ _ _ _ _).
  destruct (vd_doorbell_law (vdev s)) as (_ & Q1 & Q2 & Q3 & Q4 & Q5 & Q6). fold d0 in Q1, Q2, Q3, Q4, Q5, Q6.
  pose proof (poll_loop_spec hhdm (vb s) ty lba hd i d0 m0 Hg Hok Hl ltac:(by rewrite Q1) Q2
    ltac:(unfold m0; by rewrite staged_used) ltac:(by apply (staged_published hhdm)) (mkV V (vb s) m0 d0) eq_refl eq_refl eq_refl) as Hpl.
  pose proof (staged_data (vb s) ty lba hd i (ram s) Hg) as Hdata. fold r m0 in Hdata.
  destruct (poll_loop hhdm _ _) as [s' [[]|]]; [| |done].
  - destruct Hpl as (Hv & Hw & Hl' & Hu' & Hs). destruct s' as [v' m' d']. cbn [vb ram vdev] in *. subst v'.
    unfold r8. destruct (ge_status _ _ Hg) as [E _]. rewrite vread_ram by (apply (hdr_ram hhdm (vb s) Hg); lia).
    rewrite rd_le_byte. replace (v_status (vb s) - hhdm) with (rq_status r) by (cbn; rewrite E, (ge_hdr _ _ Hg); lia).
    split; [|split; [|split; [done|]]].
    + intros _. apply (completed_idle s ty lba hd m0 d' m'); [by split|by apply (staged_published hhdm)|done].
    + eapply work_effect; [exact Hw|exact Hdata].
    + intros Hst%Z.eqb_eq. split; [done|]. rewrite <- Hdata. by apply Hs.
  - destruct Hpl as (Hv & Hw & _). split; [|split; [|split; [|done]]].
    + unfold vb_inv. by rewrite Hv.
    + eapply work_effect; [exact Hw|exact Hdata].
    + by rewrite Hv.
Qed.

(** A device that answers makes a request succeed. *)
Lemma submit_live `{!VirtioResponsive V} s ty lba hd :
  v_present (vb s) = true → idle s → fits 32 ty → fits 64 lba → req_ok (request_of (vb s) ty lba hd) →
  (submit hhdm s ty lba hd).2 = true.
Proof.
  intros Hp [Hg Hq Hd Hl Ha Hu Hc] Hty Hlba Hok. rewrite submit_eq by done. rewrite Ha.
  set (i := vd_last (vdev s)) in *. set (d0 := vd_write (vdev s) _ 2 0). set (m0 := staged_ram _ _ _ _ _ _).
  destruct (vd_doorbell_law (vdev s)) as (_ & Q1 & Q2 & _). fold d0 in Q1, Q2.
  assert (H1 : vd_queue d0 = Some (queue_of (vb s))) by by rewrite Q1.
  assert (H2 : used_idx m0 (queue_of (vb s)) = i) by (unfold m0; by rewrite staged_used).
  assert (H3 : published (vb s) ty lba hd i m0) by by apply (staged_published hhdm).
  pose proof (poll_loop_spec hhdm (vb s) ty lba hd i d0 m0 Hg Hok Hl H1 Q2 H2 H3 (mkV V (vb s) m0 d0) eq_refl eq_refl eq_refl) as Hpl.
  destruct (poll_loop_live hhdm (vb s) ty lba hd i d0 m0 Hg Hok Hl H1 Q2 H2 H3 (mkV V (vb s) m0 d0) eq_refl eq_refl eq_refl)
    as (s' & E & Hst). rewrite E in Hpl |- *. destruct Hpl as [Hv _]. destruct s' as [v' m' d']. cbn [vb ram vdev] in *. subst v'.
  unfold r8. destruct (ge_status _ _ Hg) as [E1 _]. rewrite vread_ram by (apply (hdr_ram hhdm (vb s) Hg); lia).
  rewrite rd_le_byte. replace (v_status (vb s) - hhdm) with (v_hdr_phys (vb s) + 1024) by (rewrite E1, (ge_hdr _ _ Hg); lia).
  apply Z.eqb_eq, Hst.
Qed.

Lemma submit_absent s ty lba hd : v_present (vb s) = false → submit hhdm s ty lba hd = (s, false).
Proof. intros Hp. unfold submit. by rewrite Hp. Qed.

(** An effect that writes nothing. *)
Lemma effect_none r data d d' :
  rq_type r ≠ VIRTIO_BLK_T_OUT → effect r data d d' →
  (∀ l, vd_view d' l = vd_view d l) ∧ ∀ x, vd_crash d' x → ∃ x0, vd_crash d x0 ∧ ∀ l, x l = x0 l.
Proof.
  intros Ht (E1 & _ & E3). assert (Hn : ∀ l, ¬ writes_to r l) by by intros l [? _]. split; [auto|].
  intros x Hx. destruct (E3 x Hx) as (x0 & Hx0 & E & _). exists x0. auto.
Qed.

Lemma read_sector_spec s lba :
  vb_inv s → fits 64 lba →
  let '(s', res) := read_sector hhdm s lba in
  vb_inv s' ∧ (∀ l, vd_view (vdev s') l = vd_view (vdev s) l) ∧
  (∀ x, vd_crash (vdev s') x → ∃ x0, vd_crash (vdev s) x0 ∧ ∀ l, x l = x0 l) ∧
  ∀ b, res = Some b → b = vd_view (vdev s) lba.
Proof.
  intros Hinv Hlba. unfold read_sector. destruct (v_present (vb s)) eqn:Hp.
  2:{ rewrite submit_absent by done. split; [done|]. split; [done|]. split; [|done]. intros x Hx. by exists x. }
  assert (Hok : req_ok (request_of (vb s) VIRTIO_BLK_T_IN lba true)) by (left; split; [done|]; by eexists).
  assert (Hty : fits 32 VIRTIO_BLK_T_IN) by by vm_compute.
  pose proof (submit_spec s VIRTIO_BLK_T_IN lba true Hp (Hinv Hp) Hty Hlba Hok) as Hs. cbv zeta in Hs.
  destruct (submit hhdm s _ _ _) as [s' ok]. destruct Hs as (Hi' & He & Hd & Hsucc).
  apply effect_none in He as [Hv Hc]; [|done]. destruct ok; [|done].
  split; [done|]. split; [done|]. split; [done|]. intros b [= <-]. destruct (Hsucc eq_refl) as (Hvb & S1 & _).
  rewrite <- Hv. pose proof (S1 eq_refl) as Hb. cbn [request_of rq_sector] in Hb. rewrite <- Hb. unfold req_bytes, request_of. cbn [rq_data].
  pose proof (id_geometry s (Hinv Hp)) as Hg. destruct (ge_data _ _ Hg) as [E1 _].
  replace (v_data (vb s') - hhdm) with (v_hdr_phys (vb s) + 512) by (rewrite Hvb, E1, (ge_hdr _ _ Hg); lia). done.
Qed.

(** Filling the data buffer does not disturb the queue. *)
Lemma idle_data s src :
  length src = 512%nat → idle s → idle (mkV V (vb s) (wr_bytes (ram s) (v_data (vb s) - hhdm) src) (vdev s)).
Proof.
  intros Hlen [Hg Hq Hd Hl Ha Hu Hc]. destruct (ge_data _ _ Hg) as [E1 _]. pose proof (ge_hdr _ _ Hg) as E2.
  assert (Hz : zlen src = 512) by (unfold zlen; lia). pose proof (ge_ah _ _ Hg) as G1. pose proof (ge_uh _ _ Hg) as G2.
  unfold apart in *. split; cbn [vb ram vdev]; try done.
  - rewrite <- Ha. unfold avail_idx. cbn [queue_of vq_avail]. apply rd_wr_bytes_other. lia.
  - rewrite <- Hu. unfold used_idx. cbn [queue_of vq_used]. apply rd_wr_bytes_other. lia.
Qed.

Lemma write_sector_spec s lba src :
  vb_inv s → fits 64 lba → length src = 512%nat →
  let '(s', ok) := write_sector hhdm s lba src in
  vb_inv s' ∧ (∀ l, l ≠ lba → vd_view (vdev s') l = vd_view (vdev s) l) ∧
  (ok = true → vd_view (vdev s') lba = src) ∧ torn (vd_view (vdev s) lba) src (vd_view (vdev s') lba) ∧
  ∀ x, vd_crash (vdev s') x →
    ∃ x0, vd_crash (vdev s) x0 ∧ (∀ l, l ≠ lba → x l = x0 l) ∧ torn (x0 lba) src (x lba).
Proof.
  intros Hinv Hlba Hlen. unfold write_sector. destruct (v_present (vb s)) eqn:Hp; cbn [negb].
  2:{ split; [done|]. split; [done|]. split; [done|]. split; [by left|]. intros x Hx. exists x.
      split; [done|]. split; [done|]. by left. }
  pose proof (idle_data s src Hlen (Hinv Hp)) as Hid. set (s1 := mkV V _ _ _) in *.
  assert (Hok : req_ok (request_of (vb s1) VIRTIO_BLK_T_OUT lba true)) by (right; left; split; [done|]; by eexists).
  assert (Hty : fits 32 VIRTIO_BLK_T_OUT) by by vm_compute.
  pose proof (submit_spec s1 VIRTIO_BLK_T_OUT lba true Hp Hid Hty Hlba Hok) as Hs. cbv zeta in Hs.
  set (r := request_of (vb s1) VIRTIO_BLK_T_OUT lba true) in *.
  assert (Hdata : req_bytes (ram s1) r = src).
  { pose proof (id_geometry s (Hinv Hp)) as Hg. destruct (ge_data _ _ Hg) as [E1 _].
    unfold req_bytes. cbn [r request_of rq_data s1 ram vb].
    replace (v_data (vb s) - hhdm) with (v_hdr_phys (vb s) + 512) by (rewrite E1, (ge_hdr _ _ Hg); lia).
    change (Z.to_nat SECTOR) with 512%nat. rewrite <- Hlen. apply bytes_of_wr. }
  rewrite Hdata in Hs. destruct (submit hhdm s1 _ _ _) as [s' ok]. destruct Hs as (Hi' & (E1 & E2 & E3) & _ & Hsucc).
  assert (Hw : writes_to r lba) by done. assert (Hn : ∀ l, l ≠ lba → ¬ writes_to r l) by by intros l Hl [_ ?].
  split; [done|]. split; [intros l Hl; by apply E1, Hn|]. split; [|split; [by apply E2|]].
  - intros Hk. destruct (Hsucc Hk) as (_ & _ & S2 & _). by apply S2.
  - intros x Hx. destruct (E3 x Hx) as (x0 & Hx0 & Q1 & Q2). exists x0. split; [done|]. split; [|by apply Q2].
    intros l Hl. by apply Q1, Hn.
Qed.

(** A write that succeeds leaves the driver enabled. *)
Lemma write_sector_present s lba src :
  vb_inv s → fits 64 lba → length src = 512%nat →
  (write_sector hhdm s lba src).2 = true → v_present (vb (write_sector hhdm s lba src).1) = true.
Proof.
  intros Hinv Hlba Hlen. unfold write_sector. destruct (v_present (vb s)) eqn:Hp; cbn [negb]; [|done].
  pose proof (idle_data s src Hlen (Hinv Hp)) as Hid. set (s1 := mkV V _ _ _) in *.
  assert (Hok : req_ok (request_of (vb s1) VIRTIO_BLK_T_OUT lba true)) by (right; left; split; [done|]; by eexists).
  pose proof (submit_spec s1 VIRTIO_BLK_T_OUT lba true Hp Hid ltac:(by vm_compute) Hlba Hok) as Hs. cbv zeta in Hs.
  destruct (submit hhdm s1 _ _ _) as [s' ok]. cbn [fst snd]. intros ->. destruct Hs as (_ & _ & _ & Hsucc).
  destruct (Hsucc eq_refl) as [-> _]. exact Hp.
Qed.

Lemma flush_spec s :
  vb_inv s →
  let '(s', ok) := flush hhdm s in
  vb_inv s' ∧ (∀ l, vd_view (vdev s') l = vd_view (vdev s) l) ∧
  (∀ x, vd_crash (vdev s') x → ∃ x0, vd_crash (vdev s) x0 ∧ ∀ l, x l = x0 l) ∧
  (ok = true → ∀ x, vd_crash (vdev s') x → ∀ l, x l = vd_view (vdev s) l).
Proof.
  intros Hinv. unfold flush. destruct (v_present (vb s)) eqn:Hp; cbn [negb].
  2:{ split; [done|]. split; [done|]. split; [|done]. intros x Hx. by exists x. }
  destruct (v_flush_ok (vb s)) eqn:Hf; cbn [negb].
  2:{ split; [done|]. split; [done|]. split; [intros x Hx; by exists x|]. intros _ x Hx l.
      apply vd_writethrough_law; [|done]. by rewrite (id_cached s (Hinv Hp)). }
  assert (Hok : req_ok (request_of (vb s) VIRTIO_BLK_T_FLUSH 0 false)) by (right; right; done).
  assert (Hty : fits 32 VIRTIO_BLK_T_FLUSH) by by vm_compute. assert (Hl0 : fits 64 0) by by vm_compute.
  pose proof (submit_spec s VIRTIO_BLK_T_FLUSH 0 false Hp (Hinv Hp) Hty Hl0 Hok) as Hs. cbv zeta in Hs.
  destruct (submit hhdm s _ _ _) as [s' ok]. destruct Hs as (Hi' & He & _ & Hsucc).
  apply effect_none in He as [Hv Hc]; [|done]. split; [done|]. split; [done|]. split; [done|].
  intros Hk x Hx l. destruct (Hsucc Hk) as (_ & _ & _ & S3). by rewrite <- Hv, (S3 eq_refl x Hx).
Qed.
End requests.

(** ** What the driver records never changes, except that it may disable itself *)

Definition vb_kept (v v' : VirtioBlk) : Prop := v' = v ∨ v' = set_present v false.

#[global] Instance vb_kept_preorder : PreOrder vb_kept.
Proof. split; [by left|]. intros v1 v2 v3 [->| ->] [->| ->]; (by left) || by right. Qed.

Section vb_kept.
Context {V : Type} `{VirtioDev V}.
Variable (hhdm : Z).
Implicit Types (s : VState V).

Lemma vread_vb s va n : vb (vread hhdm s va n).1 = vb s.
Proof. unfold vread. destruct (vd_mmio _); [by destruct (vd_read _ _ _)|done]. Qed.
Lemma vwrite_vb s va n x : vb (vwrite hhdm s va n x) = vb s.
Proof. unfold vwrite. by destruct (vd_mmio _). Qed.

Lemma poll_loop_vb s target : vb_kept (vb s) (vb (poll_loop hhdm s target).1).
Proof.
  unfold poll_loop.
  assert (Hw : vb_kept (vb s) (vb (while_pos polling (poll_round hhdm target) 50000001 (s, 0, None)).1.1)).
  { apply (while_pos_inv _ _ (λ x : VState V * Z * option bool, vb_kept (vb s) (vb x.1.1))); [|reflexivity].
    intros [[s1 g1] o1] H1. cbn [fst] in H1. unfold poll_round, r16.
    assert (Hd : vb (device_runs s1) = vb s1) by (unfold device_runs; by destruct (vd_poll _ _)).
    pose proof (vread_vb (device_runs s1) (v_used (vb s1) + 2) 2) as Hr.
    destruct (vread hhdm _ _ _) as [s2 u]. cbn [fst] in Hr. rewrite Hd in Hr.
    destruct (u =? target); cbn [fst]; [by rewrite Hr|]. destruct (_ <? _); cbn [fst vb]; [|by rewrite Hr].
    rewrite Hr. etransitivity; [exact H1|]. by right. }
  by destruct (while_pos _ _ _ _) as [[s' g] r].
Qed.

Lemma write_chain_vb s ty hd : vb (write_chain hhdm s ty hd) = vb s.
Proof. unfold write_chain, w64, w32, w16. by destruct hd; rewrite !vwrite_vb. Qed.

Lemma submit_vb s ty lba hd : vb_kept (vb s) (vb (submit hhdm s ty lba hd).1).
Proof.
  unfold submit. destruct (negb _); [reflexivity|]. unfold w8, w16, w32, w64, r16.
  set (s1 := write_chain _ _ _ _).
  assert (E1 : vb s1 = vb s) by (unfold s1; by rewrite write_chain_vb, !vwrite_vb).
  pose proof (vread_vb s1 (v_avail (vb s) + 2) 2) as Hr. destruct (vread hhdm s1 _ _) as [s2 i]. cbn [fst] in Hr.
  set (s3 := vwrite _ _ _ _ _). assert (E3 : vb s3 = vb s) by (unfold s3; by rewrite !vwrite_vb, Hr).
  pose proof (poll_loop_vb s3 (wrap 16 (i + 1))) as Hp. rewrite E3 in Hp.
  destruct (poll_loop hhdm s3 _) as [s4 [[]|]]; cbn [fst] in Hp; [|exact Hp..].
  pose proof (vread_vb s4 (v_status (vb s)) 1) as H4. unfold r8. destruct (vread hhdm s4 _ _) as [s5 st].
  cbn [fst] in *. by rewrite H4.
Qed.

Lemma read_sector_vb s lba : vb_kept (vb s) (vb (read_sector hhdm s lba).1).
Proof.
  unfold read_sector. pose proof (submit_vb s VIRTIO_BLK_T_IN lba true) as Hs. by destruct (submit _ _ _ _ _) as [s' []].
Qed.
Lemma write_sector_vb s lba src : vb_kept (vb s) (vb (write_sector hhdm s lba src).1).
Proof.
  unfold write_sector. destruct (negb _); [reflexivity|].
  exact (submit_vb (mkV V (vb s) (wr_bytes (ram s) (v_data (vb s) - hhdm) src) (vdev s)) VIRTIO_BLK_T_OUT lba true).
Qed.
Lemma flush_vb s : vb_kept (vb s) (vb (flush hhdm s).1).
Proof.
  unfold flush. destruct (negb _); [reflexivity|]. destruct (negb _); [reflexivity|]. apply submit_vb.
Qed.
End vb_kept.

(** ** The driver is a block device *)

Section disk.
Context {V : Type} `{VirtioDev V} {VL : VirtioLaws V}.
Variable (hhdm : Z).

(** A driver state that satisfies the invariant. *)
Definition Disk : Type := { s : VState V | vb_inv hhdm s }.

(** [lba] is a [u64]. *)
Definition is_u64 (lba : Z) : bool := (0 <=? lba) && (lba <? 2 ^ 64).
Definition read_lba (s : VState V) (lba : Z) : VState V * option (list Z) :=
  if is_u64 lba then read_sector hhdm s lba else (s, None).
Definition write_lba (s : VState V) (lba : Z) (src : list Z) : VState V * bool :=
  if is_u64 lba && (length src =? 512)%nat then write_sector hhdm s lba src else (s, false).

Lemma is_u64_fits lba : is_u64 lba = true → fits 64 lba.
Proof. unfold is_u64, fits. rewrite andb_true_iff, Z.leb_le, Z.ltb_lt. lia. Qed.

Lemma read_lba_inv s lba : vb_inv hhdm s → vb_inv hhdm (read_lba s lba).1.
Proof.
  intros Hi. unfold read_lba. destruct (is_u64 lba) eqn:E; [|done].
  pose proof (read_sector_spec hhdm s lba Hi (is_u64_fits _ E)) as Hs. by destruct (read_sector hhdm s lba), Hs.
Qed.

Lemma write_lba_inv s lba src : vb_inv hhdm s → vb_inv hhdm (write_lba s lba src).1.
Proof.
  intros Hi. unfold write_lba. destruct (is_u64 lba) eqn:E, (Nat.eqb_spec (length src) 512); [|done..].
  pose proof (write_sector_spec hhdm s lba src Hi (is_u64_fits _ E) e) as Hs.
  cbn [andb]. by destruct (write_sector hhdm s lba src), Hs.
Qed.

Lemma flush_inv s : vb_inv hhdm s → vb_inv hhdm (flush hhdm s).1.
Proof. intros Hi. pose proof (flush_spec hhdm s Hi) as Hs. by destruct (flush hhdm s), Hs. Qed.

#[export] Instance virtio_disk : BlockDev Disk := {
  bd_read x lba := (exist _ (read_lba (`x) lba).1 (read_lba_inv _ lba (proj2_sig x)), (read_lba (`x) lba).2);
  bd_write x lba src :=
    (exist _ (write_lba (`x) lba src).1 (write_lba_inv _ lba src (proj2_sig x)), (write_lba (`x) lba src).2);
  bd_flush x := (exist _ (flush hhdm (`x)).1 (flush_inv _ (proj2_sig x)), (flush hhdm (`x)).2);
  bd_view x := vd_view (vdev (`x));
  bd_crash x y := ∃ y0, vd_crash (vdev (`x)) y0 ∧ ∀ l, y l = y0 l;
}.

Lemma disk_laws : BlockDevLaws Disk.
Proof.
  split.
  - intros [s Hi] lba. cbn -[read_lba vd_view vd_crash]. unfold read_lba. destruct (is_u64 lba) eqn:E; [|done].
    pose proof (read_sector_spec hhdm s lba Hi (is_u64_fits _ E)) as Hs.
    destruct (read_sector hhdm s lba) as [s' res]. destruct Hs as (_ & Hv & Hc & Hr). split; [done|]. split; [|done].
    intros x (y & Hy & Exy). destruct (Hc y Hy) as (x0 & Hx0 & E0). exists x0. split; [done|]. intros l. by rewrite Exy.
  - intros [s Hi] lba src Hlen. cbn -[write_lba vd_view vd_crash]. unfold write_lba. rewrite Hlen. cbn [Nat.eqb andb].
    destruct (is_u64 lba) eqn:E; cbn [andb].
    2:{ split; [done|]. split; [done|]. split; [by left|]. intros x Hx. exists x. split; [done|]. split; [done|]. by left. }
    pose proof (write_sector_spec hhdm s lba src Hi (is_u64_fits _ E) Hlen) as Hs.
    destruct (write_sector hhdm s lba src) as [s' ok]. destruct Hs as (_ & Hv & Hok & Ht & Hc).
    split; [done|]. split; [done|]. split; [done|]. intros x (y & Hy & Exy). destruct (Hc y Hy) as (x0 & Hx0 & E0 & T0).
    exists x0. split; [by exists x0|]. split; [intros l Hl; by rewrite Exy, E0|]. by rewrite Exy.
  - intros [s Hi]. cbn -[flush vd_view vd_crash]. pose proof (flush_spec hhdm s Hi) as Hs.
    destruct (flush hhdm s) as [s' ok]. destruct Hs as (_ & Hv & Hc & Hd). split; [done|]. split.
    + intros x (y & Hy & Exy). destruct (Hc y Hy) as (x0 & Hx0 & E0). exists x0. split; [done|]. intros l. by rewrite Exy.
    + intros Hk x (y & Hy & Exy) l. by rewrite Exy, (Hd Hk y Hy).
  - intros [s Hi]. cbn -[vd_view vd_crash]. exists (vd_view (vdev s)). split; [apply vd_view_crash|done].
Qed.
(** C9: the virtio-blk driver is a block device. Whatever the device does within the
    specification, and when it errs or stops answering: a read that succeeds returns the
    sector's contents, a write changes at most its sector, all of it when it succeeds and
    at most tearing it otherwise, a flush that succeeds leaves only the current contents
    to be found after power loss, and each call leaves the driver ready for the next or
    disabled. *)
Theorem virtio_block_device : BlockDevLaws Disk.
Proof. apply disk_laws. Qed.
End disk.
Arguments Disk V {_} hhdm.

(** ** Progress *)

Section progress.
Context {V : Type} `{VirtioDev V} {VL : VirtioLaws V} {VR : VirtioResponsive V}.
Variable (hhdm : Z).
Implicit Types (s : VState V).

(** A request that succeeds leaves the driver enabled. *)
Lemma submit_ok s ty lba hd :
  v_present (vb s) = true → idle hhdm s → fits 32 ty → fits 64 lba → req_ok (request_of (vb s) ty lba hd) →
  ∃ s', submit hhdm s ty lba hd = (s', true) ∧ vb s' = vb s.
Proof.
  intros Hp Hi Hty Hlba Hok. pose proof (submit_live hhdm s ty lba hd Hp Hi Hty Hlba Hok) as Hl.
  pose proof (submit_spec hhdm s ty lba hd Hp Hi Hty Hlba Hok) as Hs. cbv zeta in Hs.
  destruct (submit hhdm s ty lba hd) as [s' ok]. cbn in Hl. subst ok. exists s'. split; [done|]. by apply Hs.
Qed.

(** With a device that answers every request within the driver's patience, an enabled
    driver succeeds at every call and stays enabled: a read returns the sector, a write
    stores it, a flush completes. *)
Theorem virtio_answers s lba src :
  v_present (vb s) = true → vb_inv hhdm s → fits 64 lba → length src = 512%nat →
  (∃ s', read_sector hhdm s lba = (s', Some (vd_view (vdev s) lba)) ∧ vb s' = vb s) ∧
  (∃ s', write_sector hhdm s lba src = (s', true) ∧ vb s' = vb s ∧ vd_view (vdev s') lba = src) ∧
  (∃ s', flush hhdm s = (s', true) ∧ vb s' = vb s).
Proof.
  intros Hp Hinv Hlba Hlen. pose proof (Hinv Hp) as Hi. assert (Hl0 : fits 64 0) by by vm_compute. split; [|split].
  - pose proof (read_sector_spec hhdm s lba Hinv Hlba) as Hr. unfold read_sector in *.
    destruct (submit_ok s VIRTIO_BLK_T_IN lba true Hp Hi ltac:(by vm_compute) Hlba) as (s' & E & Hv).
    { left. split; [done|]. by eexists. }
    rewrite E in *. exists s'. split; [|done]. f_equal. f_equal. by apply Hr.
  - pose proof (write_sector_spec hhdm s lba src Hinv Hlba Hlen) as Hr. unfold write_sector in *. rewrite Hp in *. cbn [negb] in *.
    set (s1 := mkV V _ _ _) in *.
    destruct (submit_ok s1 VIRTIO_BLK_T_OUT lba true Hp (idle_data hhdm s src Hlen Hi) ltac:(by vm_compute) Hlba) as (s' & E & Hv).
    { right. left. split; [done|]. by eexists. }
    rewrite E in *. exists s'. split; [done|]. split; [done|]. by apply Hr.
  - unfold flush. rewrite Hp. cbn [negb]. destruct (v_flush_ok (vb s)); cbn [negb]; [|by exists s].
    apply submit_ok; [done|done|by vm_compute|done|]. right. right. done.
Qed.
End progress.

(** ** A device

    A disk with a write-through store that serves a request as soon as it looks. *)

Record demo_disk := mkDD { dd_queue : option VQ; dd_last : Z; dd_data : disk }.

Definition demo_queue : VQ := mkVQ 0x100000 0x101000 0x102000 16.
Definition demo_view (d : demo_disk) : disk := λ l, take 512 (dd_data d l ++ replicate 512 0).

Definition demo_store (d : demo_disk) (m : Z → Z) (r : BlkReq) : demo_disk :=
  mkDD (dd_queue d) (wrap 16 (dd_last d + 1))
    (λ l, if (rq_type r =? VIRTIO_BLK_T_OUT) && (l =? rq_sector r) then req_bytes m r else demo_view d l).
Definition demo_load (d : demo_disk) (m : Z → Z) (r : BlkReq) : Z → Z :=
  match rq_data r with
  | Some (a, _, true) => wr_bytes m a (demo_view d (rq_sector r))
  | _ => m
  end.
Definition demo_done (q : VQ) (d : demo_disk) (m : Z → Z) (r : BlkReq) : Z → Z :=
  wr_bytes (wr_le (demo_load d m r) (vq_used q + 2) 2 (wrap 16 (dd_last d + 1))) (rq_status r) [0].
Definition demo_serve (d : demo_disk) (m : Z → Z) : demo_disk * (Z → Z) :=
  match dd_queue d with
  | None => (d, m)
  | Some q =>
      if avail_idx m q =? dd_last d then (d, m)
      else match blk_req m q (dd_last d) with
      | Some r => (demo_store d m r, demo_done q d m r)
      | None => (d, m)
      end
  end.

#[export] Instance demo_dev : VirtioDev demo_disk := {
  vd_mmio a := (0xfe000000 <=? a) && (a <? 0xfe001000);
  vd_read d _ _ := (d, 0);
  vd_write d _ _ _ := d;
  vd_poll := demo_serve;
  vd_queue := dd_queue;
  vd_last := dd_last;
  vd_doorbell _ := 0xfe000000;
  vd_cached _ := true;
  vd_view := demo_view;
  vd_crash d x := ∀ l, x l = demo_view d l;
}.

Lemma demo_view_length d l : length (demo_view d l) = 512%nat.
Proof. unfold demo_view. rewrite length_take, length_app, length_replicate. lia. Qed.

Lemma demo_view_full d l : length (dd_data d l) = 512%nat → demo_view d l = dd_data d l.
Proof. intros Hl. unfold demo_view. by rewrite <- Hl, take_app_length. Qed.

Lemma demo_view_store d m r l :
  req_ok r →
  demo_view (demo_store d m r) l = if (rq_type r =? VIRTIO_BLK_T_OUT) && (l =? rq_sector r) then req_bytes m r else demo_view d l.
Proof.
  intros Hok. rewrite demo_view_full; cbn; [done|]. destruct (Z.eqb_spec (rq_type r) VIRTIO_BLK_T_OUT) as [Ht|], (l =? _); cbn;
    try apply demo_view_length.
  destruct Hok as [[Ht' _]|[[_ [p Hp]]|[Ht' _]]]; [by rewrite Ht in Ht'| |by rewrite Ht in Ht'].
  unfold req_bytes. rewrite Hp. unfold bytes_of. by rewrite length_fmap, length_seqZ.
Qed.

Lemma wrap_succ_ne x : wrap 16 (x + 1) ≠ x.
Proof.
  unfold wrap. intros E. assert (Hx : 0 <= x < 2 ^ 16) by (rewrite <- E; apply Z.mod_pos_bound; lia).
  destruct (decide (x = 65535)) as [->|]; [done|]. rewrite Z.mod_small in E by lia. lia.
Qed.

Lemma demo_serve_pending d m q r :
  vd_queue d = Some q → avail_idx m q = wrap 16 (vd_last d + 1) → blk_req m q (vd_last d) = Some r →
  vd_poll d m = (demo_store d m r, demo_done q d m r).
Proof.
  cbn [vd_queue vd_last vd_poll demo_dev]. intros Hq Ha Hr. unfold demo_serve. rewrite Hq, Ha, Hr.
  by rewrite (proj2 (Z.eqb_neq _ _) (wrap_succ_ne _)).
Qed.

Lemma demo_load_out d m r a :
  req_ok r → ¬ (∃ p n, rq_data r = Some (p, n, true) ∧ p <= a < p + n) → demo_load d m r a = m a.
Proof.
  intros Hok Ha. unfold demo_load. destruct (rq_data r) as [[[p n] [|]]|] eqn:Hd; [|done|done].
  apply wr_bytes_out. intros Hin. apply Ha. exists p, n. split; [done|]. unfold zlen in Hin. rewrite demo_view_length in Hin.
  destruct Hok as [[_ [p' E]]|[[_ [p' E]]|[_ E]]]; simplify_eq/=; unfold SECTOR; lia.
Qed.

Lemma demo_work q d m r :
  req_ok r → well_placed q r → blk_work q r d m (demo_store d m r) (demo_done q d m r).
Proof.
  intros Hok Hw. split; try done.
  - intros a Ha. unfold dev_area in Ha. destruct Hw as (_ & Hsz & _). unfold demo_done.
    rewrite wr_bytes_out, wr_le_out, demo_load_out; [done|done|tauto|lia|].
    change (zlen [0]) with 1. intros Hin. apply Ha. right. left. lia.
  - intros l Hl. cbn [vd_view demo_dev]. rewrite demo_view_store by done. unfold writes_to in Hl.
    destruct (Z.eqb_spec (rq_type r) VIRTIO_BLK_T_OUT), (Z.eqb_spec l (rq_sector r)); [tauto|done..].
  - intros l [Ht ->]. cbn [vd_view demo_dev]. rewrite demo_view_store by done. rewrite Ht, !Z.eqb_refl. right. by left.
  - cbn [vd_crash demo_dev]. intros x Hx. exists (demo_view d). split; [done|]. unfold writes_to. split; intros l Hl; rewrite Hx, demo_view_store by done.
    + destruct (Z.eqb_spec (rq_type r) VIRTIO_BLK_T_OUT), (Z.eqb_spec l (rq_sector r)); [tauto|done..].
    + destruct Hl as [Ht ->]. rewrite Ht, !Z.eqb_refl. right. by left.
Qed.

Lemma demo_success d m r m' :
  req_ok r → (∀ p, rq_data r = Some (p, SECTOR, true) → bytes_of m' p 512 = demo_view d (rq_sector r)) →
  blk_success r m' (demo_store d m r) (req_bytes m r).
Proof.
  intros Hok Hb. unfold blk_success. cbn [vd_view vd_crash demo_dev]. split; [|split].
  - intros Ht. rewrite demo_view_store, Ht by done. cbn [Z.eqb andb VIRTIO_BLK_T_IN VIRTIO_BLK_T_OUT].
    destruct Hok as [[_ [p Hp]]|[[Ht' _]|[Ht' _]]]; [|by rewrite Ht in Ht'..]. unfold req_bytes. rewrite Hp. by apply Hb.
  - intros Ht. by rewrite demo_view_store, Ht, !Z.eqb_refl by done.
  - intros _ x Hx. exact Hx.
Qed.

#[export] Instance demo_laws : VirtioLaws demo_disk.
Proof.
  split; [| |done|done].
  - intros d m q r d' m' H1 H2 H3 Hok Hw Hp. rewrite (demo_serve_pending d m q r H1 H2 H3) in Hp.
    injection Hp as <- <-. split; [by apply demo_work|]. right. split; [done|].
    destruct Hw as (W1 & W2 & W3). unfold demo_done. split.
    + unfold used_idx. rewrite rd_wr_bytes_other by (change (zlen [0]) with 1; lia).
      apply rd_wr_le_same. change (256 ^ Z.of_nat 2) with (2 ^ 16). apply Z.mod_pos_bound. lia.
    + intros _. apply demo_success; [done|]. intros p Hp. specialize (W3 _ _ _ Hp). change SECTOR with 512 in W3.
      rewrite (bytes_of_ext (wr_bytes m p (demo_view d (rq_sector r))) _ p 512).
      { rewrite <- (demo_view_length d (rq_sector r)) at 1. apply bytes_of_wr. }
      intros x Hx. rewrite wr_bytes_out by (change (zlen [0]) with 1; lia).
      rewrite wr_le_out by lia. unfold demo_load. by rewrite Hp.
  - intros d. cbn. repeat split; done.
Qed.

#[export] Instance demo_responsive : VirtioResponsive demo_disk.
Proof.
  refine {| vd_rank _ _ := 0 |}. intros d m q r d' m' H1 H2 H3 Hok Hw Hp.
  rewrite (demo_serve_pending d m q r H1 H2 H3) in Hp. injection Hp as <- <-.
  split; [lia|]. right. split; [done|]. unfold demo_done. replace (rq_status r) with (rq_status r + 0) at 2 by lia.
  by rewrite wr_bytes_in by (change (zlen [0]) with 1; lia).
Defined.

(** A driver initialised on it. *)
Definition demo_vb : VirtioBlk :=
  mkVB true 0xffff8000fe001000 0xffff8000fe000000 4 0 0xffff800000100000 0xffff800000101000 0xffff800000102000
    0x100000 0x101000 0x102000 0xfe000000 0x103000 0x103200 0x103400
    0xffff800000103000 0xffff800000103200 0xffff800000103400 16 true.
Definition demo_hhdm : Z := 0xffff800000000000.
Definition demo_state : VState demo_disk := mkV demo_disk demo_vb (λ _, 0) (mkDD (Some demo_queue) 0 (λ l, replicate 512 (l mod 256))).

Lemma demo_idle : vb_inv demo_hhdm demo_state.
Proof.
  intros _. split; [|done|done|by vm_compute|done|done|done].
  split; try done; try (unfold apart; cbn; lia).
  intros p a Hp Ha. cbn [vd_mmio demo_dev]. apply andb_false_iff. left. apply Z.leb_gt.
  cbn in Hp. set_unfold. lia.
Qed.

Lemma virtio_block_device_witness :
  BlockDevLaws (Disk demo_disk demo_hhdm) ∧
  (bd_write (exist _ demo_state demo_idle : Disk demo_disk demo_hhdm) 5 (replicate 512 7)).2 = true.
Proof. split; [apply (virtio_block_device (V:=demo_disk) demo_hhdm)|vm_compute; reflexivity]. Defined.

Lemma virtio_answers_witness :
  ∃ s', read_sector demo_hhdm demo_state 3 = (s', Some (replicate 512 3)) ∧ vb s' = demo_vb.
Proof.
  destruct (virtio_answers demo_hhdm demo_state 3 (replicate 512 7)) as [(s' & E & Hv) _];
    [done|exact demo_idle|by vm_compute|done|]. exists s'. split; [exact E|exact Hv].
Defined.
