(* ===== verification/Pci.v ===== *)
(** * PCI enumeration ([kernel/src/pci.rs])

    Configuration space is reached through the address port, which latches, and the data
    port. What lies behind them is not part of the repository: [PciConf] is a configuration
    space read and written by latched address, and [PciLaws] what the PCI specification
    says of the registers this file writes, the base address registers of an ordinary
    (type 0) function and the command register. The console lines of [scan] are the values
    of [Line]. *)

From S2P Require Import Prelude.

Definition VIRTIO_VENDOR : Z := 0x1AF4.
Definition CLASS_STORAGE : Z := 0x01.

Definition cfg_addr (bus dev func off : Z) : Z :=
  Z.lor (Z.lor (Z.lor (Z.lor 0x80000000 (Z.shiftl bus 16)) (Z.shiftl dev 11)) (Z.shiftl func 8)) (Z.land off 0xFC).

Class PciConf (B : Type) := {
  cf_read : B → Z → Z;            (* the dword at a latched address *)
  cf_write : B → Z → Z → B;
  cf_mask : Z → Z;                (* the writable bits of a register *)
}.

(** Header type 0: the function has base address registers. *)
Definition header0 {B} `{PciConf B} (c : B) (bus dev func : Z) : Prop :=
  Z.land (Z.shiftr (cf_read c (cfg_addr bus dev func 0x0C)) 16) 0x7F = 0.

Class PciLaws (B : Type) `{PciConf B} := {
  cf_read_fits c a : fits 32 (cf_read c a);
  cf_mask_fits a : fits 32 (cf_mask a);
  (** A base address register (and the read-only dword after the last) keeps what its
      writable bits can hold. *)
  cf_write_bar c bus dev func off v :
    header0 c bus dev func → 0x10 <= off <= 0x28 → off mod 4 = 0 → fits 32 v →
    let a := cfg_addr bus dev func off in
    cf_read (cf_write c a v) a = Z.lor (Z.land v (cf_mask a)) (Z.ldiff (cf_read c a) (cf_mask a)) ∧
    ∀ a', a' ≠ a → cf_read (cf_write c a v) a' = cf_read c a';
  (** The command register holds memory-space and bus-master enable; writing it changes
      no other dword. *)
  cf_write_command c bus dev func v :
    fits 32 v →
    let a := cfg_addr bus dev func 0x04 in
    (∀ i, 0 <= i <= 2 → Z.testbit (cf_read (cf_write c a v) a) i = Z.testbit v i) ∧
    ∀ a', a' ≠ a → cf_read (cf_write c a v) a' = cf_read c a';
}.

(** ** Ports *)

Record Pci {B : Type} := mkPci { latch : Z; conf : B }.
Arguments Pci B : clear implicits.

Record Bar := mkBar { bar_addr : Z; bar_size : Z; is_io : bool; is_64 : bool }.

(** The lines [scan] prints. *)
Inductive Line :=
  | LScanning
  | LFunction (dev func vendor device class sub hdr : Z)
  | LBar (i : Z) (is_io is_64 : bool) (base size : Z)
  | LVirtioBlk (device : Z)
  | LComplete.

Section pci.
Context {B : Type} `{PciConf B}.
Implicit Types (p : Pci B).

Definition out_addr p (v : Z) : Pci B := mkPci B v (conf p).
Definition in_data p : Z := cf_read (conf p) (latch p).
Definition out_data p (v : Z) : Pci B := mkPci B (latch p) (cf_write (conf p) (latch p) v).

Definition cfg_read32 p (bus dev func off : Z) : Pci B * Z :=
  let p := out_addr p (cfg_addr bus dev func off) in (p, in_data p).

Definition cfg_write32 p (bus dev func off val : Z) : Pci B :=
  let p := out_addr p (cfg_addr bus dev func off) in out_data p val.

Definition cfg_read8 p (bus dev func off : Z) : Pci B * Z :=
  let '(p, w) := cfg_read32 p bus dev func (Z.land off (lnotw 16 3)) in
  (p, wrap 8 (Z.shiftr w (Z.land off 3 * 8))).

(** [for dev in 0..32 { for func in 0..8 { .. } }], left by the first match. *)
Definition all_functions : list (Z * Z) := dev ← seqZ 0 32; func ← seqZ 0 8; [(dev, func)].

Fixpoint find_loop (l : list (Z * Z)) p : Pci B * option (Z * Z * Z) :=
  match l with
  | [] => (p, None)
  | (dev, func) :: l =>
      let '(p, id) := cfg_read32 p 0 dev func 0x00 in
      if wrap 16 (Z.land id 0xFFFF) =? VIRTIO_VENDOR then
        let '(p, cls) := cfg_read32 p 0 dev func 0x08 in
        if wrap 8 (Z.land (Z.shiftr cls 24) 0xFF) =? CLASS_STORAGE then (p, Some (0, dev, func))
        else find_loop l p
      else find_loop l p
  end.
Definition find_virtio_blk p : Pci B * option (Z * Z * Z) := find_loop all_functions p.

Definition bar_base p (bus dev func i : Z) : Pci B * Z :=
  let off := 0x10 + i * 4 in
  let '(p, raw) := cfg_read32 p bus dev func off in
  if negb (Z.land raw 0x1 =? 0) then (p, Z.land raw 0xFFFFFFFC)
  else
    let base := Z.land raw 0xFFFFFFF0 in
    if Z.land (Z.shiftr raw 1) 0x3 =? 0x2 then
      let '(p, hi) := cfg_read32 p bus dev func (off + 4) in (p, Z.lor base (Z.shiftl hi 32))
    else (p, base).

Definition enable_bus_master p (bus dev func : Z) : Pci B :=
  let '(p, cmd) := cfg_read32 p bus dev func 0x04 in
  cfg_write32 p bus dev func 0x04 (Z.lor cmd 0x6).

Definition bar_info p (bus dev func i : Z) : Pci B * Bar :=
  let off := 0x10 + i * 4 in
  let '(p, raw) := cfg_read32 p bus dev func off in
  if raw =? 0 then (p, mkBar 0 0 false false)
  else if negb (Z.land raw 0x1 =? 0) then
    let p := cfg_write32 p bus dev func off 0xFFFFFFFF in
    let '(p, readback) := cfg_read32 p bus dev func off in
    let p := cfg_write32 p bus dev func off raw in
    let size := wrap 32 (lnotw 32 (Z.land readback 0xFFFFFFFC) + 1) in
    (p, mkBar (Z.land raw 0xFFFFFFFC) size true false)
  else
    let is_64 := Z.land (Z.shiftr raw 1) 0x3 =? 0x2 in
    let base := Z.land raw 0xFFFFFFF0 in
    let p := cfg_write32 p bus dev func off 0xFFFFFFFF in
    let '(p, lo) := cfg_read32 p bus dev func off in
    let p := cfg_write32 p bus dev func off raw in
    if is_64 then
      let off_hi := off + 4 in
      let '(p, raw_hi) := cfg_read32 p bus dev func off_hi in
      let base := Z.lor base (Z.shiftl raw_hi 32) in
      let p := cfg_write32 p bus dev func off_hi 0xFFFFFFFF in
      let '(p, hi) := cfg_read32 p bus dev func off_hi in
      let p := cfg_write32 p bus dev func off_hi raw_hi in
      let size_mask := Z.lor (Z.land lo 0xFFFFFFF0) (Z.shiftl hi 32) in
      (p, mkBar base (wrap 64 (lnotw 64 size_mask + 1)) false is_64)
    else (p, mkBar base (wrap 32 (lnotw 32 (Z.land lo 0xFFFFFFF0) + 1)) false is_64).

(** [while i < 6 { .. }]; [i] grows, so six rounds are enough. *)
Fixpoint bar_loop (fuel : nat) p (dev func i : Z) : Pci B * list Line :=
  match fuel with
  | O => (p, [])
  | S fuel =>
      if i <? 6 then
        let '(p, b) := bar_info p 0 dev func i in
        let line := if negb (bar_size b =? 0) then [LBar i (is_io b) (is_64 b) (bar_addr b) (bar_size b)] else [] in
        let '(p, rest) := bar_loop fuel p dev func (i + if is_64 b then 2 else 1) in
        (p, line ++ rest)
      else (p, [])
  end.

Definition scan_function p (dev func id : Z) : Pci B * (list Line * Z) :=
  let vendor := wrap 16 (Z.land id 0xFFFF) in
  let device := wrap 16 (Z.shiftr id 16) in
  let '(p, cls) := cfg_read32 p 0 dev func 0x08 in
  let class := wrap 8 (Z.land (Z.shiftr cls 24) 0xFF) in
  let sub := wrap 8 (Z.land (Z.shiftr cls 16) 0xFF) in
  let '(p, w) := cfg_read32 p 0 dev func 0x0C in
  let hdr := wrap 8 (Z.land (Z.shiftr w 16) 0xFF) in
  let '(p, bars) := if Z.land hdr 0x7F =? 0 then bar_loop 6 p dev func 0 else (p, []) in
  let virtio := if (vendor =? VIRTIO_VENDOR) && (class =? CLASS_STORAGE) then [LVirtioBlk device] else [] in
  (p, ([LFunction dev func vendor device class sub hdr] ++ bars ++ virtio, hdr)).

Fixpoint scan_functions (fs : list Z) p (dev : Z) : Pci B * list Line :=
  match fs with
  | [] => (p, [])
  | func :: fs =>
      let '(p, id) := cfg_read32 p 0 dev func 0x00 in
      if wrap 16 (Z.land id 0xFFFF) =? 0xFFFF then
        if func =? 0 then (p, []) else scan_functions fs p dev
      else
        let '(p, (lines, hdr)) := scan_function p dev func id in
        if (func =? 0) && (Z.land hdr 0x80 =? 0) then (p, lines)
        else let '(p, rest) := scan_functions fs p dev in (p, lines ++ rest)
  end.

Fixpoint scan_devices (ds : list Z) p : Pci B * list Line :=
  match ds with
  | [] => (p, [])
  | dev :: ds =>
      let '(p, lines) := scan_functions (seqZ 0 8) p dev in
      let '(p, rest) := scan_devices ds p in (p, lines ++ rest)
  end.

Definition scan p : Pci B * list Line :=
  let '(p, lines) := scan_devices (seqZ 0 32) p in (p, [LScanning] ++ lines ++ [LComplete]).
End pci.

(** ** What there is to find

    The configuration as a function of what its registers read and can hold. *)

Section reference.
Context {B : Type} `{PciConf B}.
Implicit Types (c : B).

Definition same_conf c c' : Prop := ∀ a, cf_read c' a = cf_read c a.

Definition reg32 c (bus dev func off : Z) : Z := cf_read c (cfg_addr bus dev func off).
(** A base address register with every writable bit set. *)
Definition probed c (bus dev func off : Z) : Z := Z.lor (reg32 c bus dev func off) (cf_mask (cfg_addr bus dev func off)).

Definition bar_of c (bus dev func i : Z) : Bar :=
  let off := 0x10 + i * 4 in
  let raw := reg32 c bus dev func off in
  let sized := probed c bus dev func off in
  if raw =? 0 then mkBar 0 0 false false
  else if Z.odd raw then mkBar (Z.land raw 0xFFFFFFFC) (wrap 32 (lnotw 32 (Z.land sized 0xFFFFFFFC) + 1)) true false
  else if Z.land (Z.shiftr raw 1) 0x3 =? 0x2 then
    mkBar (Z.lor (Z.land raw 0xFFFFFFF0) (Z.shiftl (reg32 c bus dev func (off + 4)) 32))
      (wrap 64 (lnotw 64 (Z.lor (Z.land sized 0xFFFFFFF0) (Z.shiftl (probed c bus dev func (off + 4)) 32)) + 1)) false true
  else mkBar (Z.land raw 0xFFFFFFF0) (wrap 32 (lnotw 32 (Z.land sized 0xFFFFFFF0) + 1)) false false.

Definition vendor_of c dev func : Z := reg32 c 0 dev func 0x00 mod 2 ^ 16.
Definition device_of c dev func : Z := reg32 c 0 dev func 0x00 / 2 ^ 16.
Definition class_of c dev func : Z := reg32 c 0 dev func 0x08 / 2 ^ 24.
Definition subclass_of c dev func : Z := (reg32 c 0 dev func 0x08 / 2 ^ 16) mod 2 ^ 8.
Definition header_of c dev func : Z := (reg32 c 0 dev func 0x0C / 2 ^ 16) mod 2 ^ 8.

Definition function_present c dev func : bool := negb (vendor_of c dev func =? 0xFFFF).
Definition is_virtio_blk c dev func : bool :=
  (vendor_of c dev func =? VIRTIO_VENDOR) && (class_of c dev func =? CLASS_STORAGE).

(** The functions of a device: none without function 0, only function 0 unless it says
    otherwise. *)
Definition functions_of c dev : list Z :=
  if function_present c dev 0
  then if Z.testbit (header_of c dev 0) 7 then filter (λ f, function_present c dev f) (seqZ 0 8) else [0]
  else [].

(** The registers a 64-bit base address takes are not looked at again. *)
Fixpoint bar_lines (n : nat) c dev func (i : Z) : list Line :=
  match n with
  | O => []
  | S n =>
      if i <? 6 then
        let b := bar_of c 0 dev func i in
        (if bar_size b =? 0 then [] else [LBar i (is_io b) (is_64 b) (bar_addr b) (bar_size b)]) ++
        bar_lines n c dev func (i + if is_64 b then 2 else 1)
      else []
  end.

Definition function_lines c dev func : list Line :=
  [LFunction dev func (vendor_of c dev func) (device_of c dev func) (class_of c dev func)
     (subclass_of c dev func) (header_of c dev func)] ++
  (if header_of c dev func mod 2 ^ 7 =? 0 then bar_lines 6 c dev func 0 else []) ++
  (if is_virtio_blk c dev func then [LVirtioBlk (device_of c dev func)] else []).
End reference.

(** ** Addresses *)

Lemma land_shiftl_small x k m : 0 <= k → 0 <= m < 2 ^ k → Z.land (Z.shiftl x k) m = 0.
Proof.
  intros Hk Hm. apply Z.bits_inj'. intros n Hn. rewrite Z.land_spec, Z.bits_0. destruct (decide (n < k)).
  - by rewrite Z.shiftl_spec_low.
  - rewrite (fits_testbit k m) by (done || lia). apply andb_false_r.
Qed.

Lemma cfg_addr_off bus dev func off : Z.land (cfg_addr bus dev func off) 0xFC = Z.land off 0xFC.
Proof.
  unfold cfg_addr. rewrite !Z.land_lor_distr_l, !land_shiftl_small by lia. rewrite <- Z.land_assoc. done.
Qed.

Lemma dword_off off : 0 <= off < 256 → off mod 4 = 0 → Z.land off 0xFC = off.
Proof.
  intros Ho Hm. apply Z.bits_inj'. intros n Hn. rewrite Z.land_spec.
  destruct (decide (n < 8)); [|by rewrite (fits_testbit 8 off) by (unfold fits; lia)].
  destruct (decide (n < 2)).
  - replace (Z.testbit off n) with false; [done|]. symmetry. rewrite <- (Z.mod_pow2_bits_low off 2 n) by lia.
    change (2 ^ 2) with 4. rewrite Hm. apply Z.bits_0.
  - assert (Hn' : n = 2 ∨ n = 3 ∨ n = 4 ∨ n = 5 ∨ n = 6 ∨ n = 7) by lia.
    destruct Hn' as [->|[->|[->|[->|[->| ->]]]]]; apply andb_true_r.
Qed.

Lemma cfg_addr_ne bus dev func o1 o2 :
  0 <= o1 < 256 → 0 <= o2 < 256 → o1 mod 4 = 0 → o2 mod 4 = 0 → o1 ≠ o2 →
  cfg_addr bus dev func o1 ≠ cfg_addr bus dev func o2.
Proof.
  intros H1 H2 M1 M2 Hne E. apply (f_equal (λ a, Z.land a 0xFC)) in E. rewrite !cfg_addr_off, !dword_off in E by done. done.
Qed.

(** ** Probing *)

Section probing.
Context {B : Type} `{PciConf B} {PL : PciLaws B}.
Implicit Types (c : B) (p : Pci B).

#[export] Instance same_conf_preorder : PreOrder (same_conf (B:=B)).
Proof. split; [by intros c a|]. intros c1 c2 c3 H1 H2 a. by rewrite H2. Qed.

Lemma read_same c p bus dev func off :
  same_conf c (conf p) →
  cfg_read32 p bus dev func off = (mkPci B (cfg_addr bus dev func off) (conf p), reg32 c bus dev func off).
Proof. intros Hs. unfold cfg_read32, out_addr, in_data, reg32. cbn. by rewrite Hs. Qed.

Lemma header0_same c c' bus dev func : same_conf c c' → header0 c bus dev func → header0 c' bus dev func.
Proof. intros Hs. unfold header0. by rewrite Hs. Qed.

(** All ones, read, restore. *)
Lemma probe_restores c p bus dev func off :
  same_conf c (conf p) → header0 c bus dev func → 0x10 <= off <= 0x28 → off mod 4 = 0 →
  let '(p1, v) := cfg_read32 (cfg_write32 p bus dev func off 0xFFFFFFFF) bus dev func off in
  let p2 := cfg_write32 p1 bus dev func off (reg32 c bus dev func off) in
  v = probed c bus dev func off ∧ same_conf c (conf p2).
Proof.
  intros Hs Hh Ho Hm. unfold cfg_write32, cfg_read32, out_addr, out_data, in_data, probed, reg32. cbn [latch conf].
  set (a := cfg_addr bus dev func off).
  assert (Hones : fits 32 0xFFFFFFFF) by by vm_compute.
  destruct (cf_write_bar (conf p) bus dev func off 0xFFFFFFFF (header0_same _ _ _ _ _ Hs Hh) Ho Hm Hones) as [E1 F1].
  fold a in E1, F1. set (c1 := cf_write (conf p) a 0xFFFFFFFF) in *.
  assert (Hh1 : header0 c1 bus dev func).
  { unfold header0. rewrite F1 by (apply cfg_addr_ne; [lia|lia|done|done|lia]). rewrite Hs. exact Hh. }
  destruct (cf_write_bar c1 bus dev func off (cf_read c a) Hh1 Ho Hm (cf_read_fits c a)) as [E2 F2]. fold a in E2, F2.
  rewrite Hs in E1. split.
  - rewrite E1. apply Z.bits_inj'. intros n Hn. rewrite !Z.lor_spec, Z.land_spec, Z.ldiff_spec.
    destruct (decide (n < 32)).
    + change 0xFFFFFFFF with (Z.ones 32). rewrite Z.ones_spec_low by lia.
      destruct (Z.testbit (cf_mask a) n), (Z.testbit (cf_read c a) n); done.
    + rewrite (fits_testbit 32 (cf_mask a)), (fits_testbit 32 (cf_read c a)) by (apply cf_mask_fits || apply cf_read_fits || lia).
      by rewrite andb_false_r.
  - intros a'. destruct (decide (a' = a)) as [->|Hne]; [|by rewrite F2, F1, Hs].
    rewrite E2, E1. apply Z.bits_inj'. intros n Hn.
    rewrite !Z.lor_spec, Z.land_spec, !Z.ldiff_spec, !Z.lor_spec, Z.land_spec, Z.ldiff_spec.
    destruct (Z.testbit (cf_mask a) n), (Z.testbit (cf_read c a) n), (Z.testbit 0xFFFFFFFF n); done.
Qed.

Lemma land1_odd x : negb (Z.land x 1 =? 0) = Z.odd x.
Proof.
  change 1 with (Z.ones 1). rewrite Z.land_ones by lia. change (2 ^ 1) with 2. rewrite Zmod_odd. by destruct (Z.odd x).
Qed.

Lemma bar_info_of c p bus dev func i :
  same_conf c (conf p) → header0 c bus dev func → 0 <= i < 6 →
  let '(p', b) := bar_info p bus dev func i in b = bar_of c bus dev func i ∧ same_conf c (conf p').
Proof.
  intros Hs Hh Hi. unfold bar_info, bar_of. rewrite (read_same c) by done. set (off := 0x10 + i * 4).
  assert (Hm : off mod 4 = 0) by (unfold off; rewrite Z.mod_add by lia; done).
  assert (Hm4 : (off + 4) mod 4 = 0) by (rewrite <- Zplus_mod_idemp_l, Hm; done).
  assert (Ho : 0x10 <= off <= 0x24) by (unfold off; lia).
  set (p0 := mkPci B _ (conf p)). destruct (Z.eqb_spec (reg32 c bus dev func off) 0); [done|]. rewrite land1_odd.
  pose proof (probe_restores c p0 bus dev func off Hs Hh ltac:(lia) Hm) as Hp.
  destruct (cfg_read32 (cfg_write32 p0 bus dev func off _) bus dev func off) as [p1 lo]. destruct Hp as [-> Hs2].
  destruct (Z.odd _); [done|]. set (p2 := cfg_write32 p1 bus dev func off _) in *.
  destruct (Z.land _ 0x3 =? 0x2); [|done]. rewrite (read_same c p2) by done. set (p3 := mkPci B _ (conf p2)).
  pose proof (probe_restores c p3 bus dev func (off + 4) Hs2 Hh ltac:(lia) Hm4) as Hp.
  destruct (cfg_read32 (cfg_write32 p3 bus dev func _ _) bus dev func _) as [p4 hi]. destruct Hp as [-> Hs4]. done.
Qed.
End probing.

(** ** Sizes *)

Lemma mask_bits w k n : 0 <= k <= w → 0 <= n → Z.testbit (2 ^ w - 2 ^ k) n = (k <=? n) && (n <? w).
Proof.
  intros Hk Hn. replace (2 ^ w - 2 ^ k) with (Z.shiftl (Z.ones (w - k)) k).
  - rewrite Z.shiftl_spec by lia. destruct (Z.leb_spec k n); cbn.
    + destruct (Z.ltb_spec n w); [apply Z.ones_spec_low; lia|apply Z.ones_spec_high; lia].
    + apply Z.testbit_neg_r. lia.
  - rewrite Z.shiftl_mul_pow2, Z.ones_equiv by lia. rewrite <- Z.sub_1_r, Z.mul_sub_distr_r, <- Z.pow_add_r by lia.
    replace (w - k + k) with w by lia. lia.
Qed.

Lemma lnotw_mask w k : 0 <= k <= w → lnotw w (2 ^ w - 2 ^ k) = 2 ^ k - 1.
Proof.
  intros Hk. replace (2 ^ k - 1) with (Z.ones k) by (rewrite Z.ones_equiv; lia). apply Z.bits_inj'. intros n Hn.
  unfold lnotw. rewrite Z.lxor_spec, mask_bits by lia. destruct (Z.ltb_spec n w).
  - rewrite (Z.ones_spec_low w) by lia. destruct (Z.leb_spec k n); cbn.
    + symmetry. apply Z.ones_spec_high. lia.
    + symmetry. apply Z.ones_spec_low. lia.
  - rewrite !Z.ones_spec_high by lia. by rewrite andb_false_r.
Qed.

Lemma mask_size w k : 0 <= k < w → wrap w (lnotw w (2 ^ w - 2 ^ k) + 1) = 2 ^ k.
Proof.
  intros Hk. rewrite lnotw_mask by lia. rewrite Z.sub_add. apply wrap_id. split; [lia|]. apply Z.pow_lt_mono_r; lia.
Qed.

Lemma mod_pow2_le x j k : 0 <= j <= k → x mod 2 ^ k = 0 → x mod 2 ^ j = 0.
Proof.
  intros Hj Hx. apply Z.mod_divide; [lia|]. apply Z.mod_divide in Hx; [|lia].
  etransitivity; [|exact Hx]. exists (2 ^ (k - j)). rewrite <- Z.pow_add_r by lia. f_equal. lia.
Qed.

(** A register holding an aligned base and flags below it. *)
Section aligned.
Context (w t k base flags : Z) (Htk : 0 <= t <= k) (Hkw : k <= w).
Context (Hb : base mod 2 ^ k = 0) (Hf : 0 <= flags < 2 ^ t) (Hr : fits w (base + flags)).

Lemma aligned_bit n : 0 <= n < k → Z.testbit (base + flags) n = Z.testbit flags n.
Proof.
  intros Hn. rewrite <- (Z.mod_pow2_bits_low (base + flags) k n) by lia. rewrite <- Zplus_mod_idemp_l, Hb, Z.add_0_l.
  rewrite Z.mod_small; [done|]. assert (2 ^ t <= 2 ^ k) by (apply Z.pow_le_mono_r; lia). lia.
Qed.

Lemma aligned_base : Z.land (base + flags) (2 ^ w - 2 ^ t) = base.
Proof.
  assert (Ht : base mod 2 ^ t = 0) by (apply (mod_pow2_le base t k); [lia|done]).
  assert (Hd : base = base / 2 ^ t * 2 ^ t) by (apply Z.div_exact in Ht; lia).
  replace base with (Z.shiftl (Z.shiftr (base + flags) t) t) at 2.
  - apply Z.bits_inj'. intros n Hn. rewrite Z.land_spec, mask_bits by lia.
    rewrite Z.shiftl_spec by lia. destruct (Z.leb_spec t n); cbn.
    + rewrite Z.shiftr_spec by lia. replace (n - t + t) with n by lia. destruct (Z.ltb_spec n w); [by rewrite andb_true_r|].
      rewrite (fits_testbit w) by (done || lia). done.
    + rewrite andb_false_r. symmetry. apply Z.testbit_neg_r. lia.
  - rewrite Z.shiftr_div_pow2, Z.shiftl_mul_pow2 by lia.
    rewrite Hd at 1. rewrite Z.add_comm, Z.div_add, Z.div_small by lia. lia.
Qed.

Lemma aligned_sized : Z.land (Z.lor (base + flags) (2 ^ w - 2 ^ k)) (2 ^ w - 2 ^ t) = 2 ^ w - 2 ^ k.
Proof.
  apply Z.bits_inj'. intros n Hn. rewrite Z.land_spec, Z.lor_spec, !mask_bits by lia.
  destruct (Z.ltb_spec n w); rewrite ?andb_false_r; [|done]. rewrite !andb_true_r.
  destruct (Z.leb_spec k n), (Z.leb_spec t n); cbn; try lia; rewrite ?orb_true_r, ?orb_false_r, ?andb_false_r; try done.
  rewrite aligned_bit by lia. by rewrite (fits_testbit t flags) by (done || lia).
Qed.
End aligned.

(** Two dwords as one. *)
Lemma dwords_bit lo hi n : fits 32 lo → 0 <= n →
  Z.testbit (lo + 2 ^ 32 * hi) n = if n <? 32 then Z.testbit lo n else Z.testbit hi (n - 32).
Proof.
  intros Hlo Hn. destruct (Z.ltb_spec n 32).
  - rewrite <- (Z.mod_pow2_bits_low (lo + 2 ^ 32 * hi) 32 n) by lia. rewrite Z.mul_comm, Z.mod_add by lia.
    by rewrite Z.mod_pow2_bits_low by lia.
  - replace n with (n - 32 + 32) at 1 by lia. rewrite <- Z.div_pow2_bits by lia. rewrite Z.mul_comm, Z.div_add by lia.
    by rewrite Z.div_small by done.
Qed.

Lemma dwords_lor lo hi : fits 32 lo → Z.lor lo (Z.shiftl hi 32) = lo + 2 ^ 32 * hi.
Proof.
  intros Hlo. apply Z.bits_inj'. intros n Hn. rewrite dwords_bit, Z.lor_spec, Z.shiftl_spec by done.
  destruct (Z.ltb_spec n 32).
  - rewrite (Z.testbit_neg_r hi) by lia. apply orb_false_r.
  - by rewrite (fits_testbit 32 lo) by (done || lia).
Qed.

Lemma dwords_masked lo hi : fits 32 lo → fits 32 hi →
  Z.lor (Z.land lo 0xFFFFFFF0) (Z.shiftl hi 32) = Z.land (lo + 2 ^ 32 * hi) (2 ^ 64 - 2 ^ 4).
Proof.
  intros Hlo Hhi. rewrite dwords_lor by (apply fits_land; [done|lia]). apply Z.bits_inj'. intros n Hn.
  rewrite Z.land_spec, !dwords_bit, mask_bits by (done || lia || (apply fits_land; [done|lia])).
  change 0xFFFFFFF0 with (2 ^ 32 - 2 ^ 4). destruct (Z.ltb_spec n 32).
  - rewrite Z.land_spec, mask_bits by lia. rewrite (proj2 (Z.ltb_lt n 32)), (proj2 (Z.ltb_lt n 64)) by lia. done.
  - rewrite (proj2 (Z.leb_le 4 n)) by lia. cbn. destruct (Z.ltb_spec n 64); [by rewrite andb_true_r|].
    by rewrite (fits_testbit 32 hi) by (done || lia).
Qed.

Lemma dwords_or lo hi a b : fits 32 lo → fits 32 a →
  Z.lor lo a + 2 ^ 32 * Z.lor hi b = Z.lor (lo + 2 ^ 32 * hi) (a + 2 ^ 32 * b).
Proof.
  intros Hlo Ha. apply Z.bits_inj'. intros n Hn. rewrite Z.lor_spec, !dwords_bit by (done || (apply fits_lor; [done..|lia])).
  by destruct (n <? 32); rewrite Z.lor_spec.
Qed.

(** ** The scan *)

#[local] Ltac Zify.zify_post_hook ::= Z.to_euclidean_division_equations.

Section scan.
Context {B : Type} `{PciConf B} {PL : PciLaws B}.
Implicit Types (c : B) (p : Pci B).

(** The base address registers the specification allows, and what they decode to:
    unimplemented, a range of I/O ports, a range of memory below 4 GiB or anywhere. *)
Inductive bar_shape c (bus dev func i : Z) : Bar → Prop :=
  | shape_none : reg32 c bus dev func (0x10 + i * 4) = 0 → bar_shape c bus dev func i (mkBar 0 0 false false)
  | shape_io k base :
      2 <= k < 32 → base mod 2 ^ k = 0 → reg32 c bus dev func (0x10 + i * 4) = base + 1 →
      cf_mask (cfg_addr bus dev func (0x10 + i * 4)) = 2 ^ 32 - 2 ^ k →
      bar_shape c bus dev func i (mkBar base (2 ^ k) true false)
  | shape_mem32 k base flags :
      4 <= k < 32 → base mod 2 ^ k = 0 → flags ∈ [0; 2; 8; 10] → base + flags ≠ 0 →
      reg32 c bus dev func (0x10 + i * 4) = base + flags →
      cf_mask (cfg_addr bus dev func (0x10 + i * 4)) = 2 ^ 32 - 2 ^ k →
      bar_shape c bus dev func i (mkBar base (2 ^ k) false false)
  | shape_mem64 k base flags :
      4 <= k < 64 → base mod 2 ^ k = 0 → flags ∈ [4; 12] →
      reg32 c bus dev func (0x10 + i * 4) + 2 ^ 32 * reg32 c bus dev func (0x10 + i * 4 + 4) = base + flags →
      cf_mask (cfg_addr bus dev func (0x10 + i * 4)) + 2 ^ 32 * cf_mask (cfg_addr bus dev func (0x10 + i * 4 + 4)) =
        2 ^ 64 - 2 ^ k →
      bar_shape c bus dev func i (mkBar base (2 ^ k) false true).

Lemma reg32_fits c bus dev func off : fits 32 (reg32 c bus dev func off).
Proof. apply cf_read_fits. Qed.

Lemma low_nibble base k f : 4 <= k → base mod 2 ^ k = 0 → 0 <= f < 16 → (base + f) mod 16 = f.
Proof.
  intros Hk Hb Hf. apply (mod_pow2_le base 4 k) in Hb; [|lia]. change (2 ^ 4) with 16 in Hb.
  rewrite <- Zplus_mod_idemp_l, Hb. apply Z.mod_small. lia.
Qed.

Lemma kind_bits x : Z.odd x = (x mod 2 =? 1) ∧ (Z.land (Z.shiftr x 1) 0x3 =? 0x2) = ((x / 2) mod 4 =? 2).
Proof.
  split; [rewrite Zmod_odd; by destruct (Z.odd x)|].
  change 0x3 with (Z.ones 2). rewrite Z.land_ones, Z.shiftr_div_pow2 by lia. done.
Qed.

Lemma bar_of_io c bus dev func i k base :
  2 <= k < 32 → base mod 2 ^ k = 0 → reg32 c bus dev func (0x10 + i * 4) = base + 1 →
  cf_mask (cfg_addr bus dev func (0x10 + i * 4)) = 2 ^ 32 - 2 ^ k →
  bar_of c bus dev func i = mkBar base (2 ^ k) true false.
Proof.
  intros Hk Hb Hr Hm. pose proof (reg32_fits c bus dev func (0x10 + i * 4)) as Hf. unfold bar_of, probed. rewrite Hr, Hm in *.
  assert (H2 : base mod 2 ^ 1 = 0) by (apply (mod_pow2_le base 1 k); [lia|done]). change (2 ^ 1) with 2 in H2.
  rewrite (proj2 (Z.eqb_neq (base + 1) 0)), (proj1 (kind_bits (base + 1))) by lia.
  rewrite (proj2 (Z.eqb_eq ((base + 1) mod 2) 1)) by lia. change 0xFFFFFFFC with (2 ^ 32 - 2 ^ 2).
  rewrite (aligned_base 32 2 k), (aligned_sized 32 2 k), mask_size by (done || lia). done.
Qed.

Lemma bar_of_mem32 c bus dev func i k base flags :
  4 <= k < 32 → base mod 2 ^ k = 0 → flags ∈ [0; 2; 8; 10] → base + flags ≠ 0 →
  reg32 c bus dev func (0x10 + i * 4) = base + flags →
  cf_mask (cfg_addr bus dev func (0x10 + i * 4)) = 2 ^ 32 - 2 ^ k →
  bar_of c bus dev func i = mkBar base (2 ^ k) false false.
Proof.
  intros Hk Hb Hfl Hne Hr Hm. pose proof (reg32_fits c bus dev func (0x10 + i * 4)) as Hf. unfold bar_of, probed. rewrite Hr, Hm in *.
  assert (Hfl' : flags = 0 ∨ flags = 2 ∨ flags = 8 ∨ flags = 10) by (set_unfold; lia).
  pose proof (low_nibble base k flags (proj1 Hk) Hb ltac:(lia)) as Hn.
  rewrite (proj2 (Z.eqb_neq (base + flags) 0)) by done. rewrite (proj1 (kind_bits _)), (proj2 (kind_bits _)).
  rewrite (proj2 (Z.eqb_neq ((base + flags) mod 2) 1)) by lia.
  rewrite (proj2 (Z.eqb_neq ((base + flags) / 2 mod 4) 2)) by lia. change 0xFFFFFFF0 with (2 ^ 32 - 2 ^ 4).
  rewrite (aligned_base 32 4 k), (aligned_sized 32 4 k), mask_size by (done || lia). done.
Qed.

Lemma bar_of_mem64 c bus dev func i k base flags :
  4 <= k < 64 → base mod 2 ^ k = 0 → flags ∈ [4; 12] →
  reg32 c bus dev func (0x10 + i * 4) + 2 ^ 32 * reg32 c bus dev func (0x10 + i * 4 + 4) = base + flags →
  cf_mask (cfg_addr bus dev func (0x10 + i * 4)) + 2 ^ 32 * cf_mask (cfg_addr bus dev func (0x10 + i * 4 + 4)) =
    2 ^ 64 - 2 ^ k →
  bar_of c bus dev func i = mkBar base (2 ^ k) false true.
Proof.
  intros Hk Hb Hfl Hr Hm. set (off := 0x10 + i * 4) in *. unfold bar_of, probed. fold off.
  pose proof (reg32_fits c bus dev func off) as Hf. pose proof (reg32_fits c bus dev func (off + 4)) as Hf4.
  pose proof (cf_mask_fits (cfg_addr bus dev func off)) as Hm0. pose proof (cf_mask_fits (cfg_addr bus dev func (off + 4))) as Hm4.
  set (lo := reg32 c bus dev func off) in *. set (hi := reg32 c bus dev func (off + 4)) in *.
  assert (Hfl' : flags = 4 ∨ flags = 12) by (set_unfold; lia).
  pose proof (low_nibble base k flags (proj1 Hk) Hb ltac:(lia)) as Hn. rewrite <- Hr in Hn.
  assert (Hlo : lo mod 16 = flags) by lia.
  rewrite (proj2 (Z.eqb_neq lo 0)) by lia. rewrite (proj1 (kind_bits lo)), (proj2 (kind_bits lo)).
  rewrite (proj2 (Z.eqb_neq (lo mod 2) 1)), (proj2 (Z.eqb_eq ((lo / 2) mod 4) 2)) by lia.
  rewrite !dwords_masked by (done || (apply fits_lor; [done..|lia])).
  rewrite dwords_or by done. rewrite Hr, Hm.
  assert (Hfits : fits 64 (base + flags)) by (unfold fits in *; lia).
  rewrite (aligned_base 64 4 k), (aligned_sized 64 4 k), mask_size by (done || lia). done.
Qed.

Lemma bar_shape_of c bus dev func i b : bar_shape c bus dev func i b → bar_of c bus dev func i = b.
Proof.
  intros [Hr|k base Hk Hb Hr Hm|k base flags Hk Hb Hfl Hne Hr Hm|k base flags Hk Hb Hfl Hr Hm].
  - unfold bar_of. by rewrite Hr.
  - by apply bar_of_io.
  - by apply (bar_of_mem32 _ _ _ _ _ _ _ flags).
  - by apply (bar_of_mem64 _ _ _ _ _ _ _ flags).
Qed.


(** The fields of the dwords the scan reads. *)
Lemma low16 x : wrap 16 (Z.land x 0xFFFF) = x mod 2 ^ 16.
Proof. unfold wrap. change 0xFFFF with (Z.ones 16). rewrite Z.land_ones by lia. apply Z.mod_mod. lia. Qed.

Lemma byte_at x k : 0 <= k → wrap 8 (Z.land (Z.shiftr x k) 0xFF) = (x / 2 ^ k) mod 2 ^ 8.
Proof.
  intros Hk. unfold wrap. change 0xFF with (Z.ones 8). rewrite Z.land_ones, Z.shiftr_div_pow2 by lia. apply Z.mod_mod. lia.
Qed.

Lemma field_top x k : 0 <= k <= 32 → fits 32 x → x / 2 ^ k mod 2 ^ (32 - k) = x / 2 ^ k.
Proof.
  intros Hk Hx. apply Z.mod_small. split; [apply Z.div_pos; [apply Hx|lia]|].
  apply Z.div_lt_upper_bound; [lia|]. rewrite <- Z.pow_add_r by lia. replace (k + (32 - k)) with 32 by lia. apply Hx.
Qed.

Lemma class_field c dev func : wrap 8 (Z.land (Z.shiftr (reg32 c 0 dev func 0x08) 24) 0xFF) = class_of c dev func.
Proof. rewrite byte_at by lia. apply (field_top _ 24); [lia|apply reg32_fits]. Qed.

Lemma device_field c dev func : wrap 16 (Z.shiftr (reg32 c 0 dev func 0x00) 16) = device_of c dev func.
Proof. unfold wrap. rewrite Z.shiftr_div_pow2 by lia. apply (field_top _ 16); [lia|apply reg32_fits]. Qed.

Lemma header_field c dev func : wrap 8 (Z.land (Z.shiftr (reg32 c 0 dev func 0x0C) 16) 0xFF) = header_of c dev func.
Proof. by rewrite byte_at by lia. Qed.

Lemma header0_iff c dev func : header_of c dev func mod 2 ^ 7 = 0 ↔ header0 c 0 dev func.
Proof.
  unfold header_of, header0. change 0x7F with (Z.ones 7). rewrite Z.land_ones, Z.shiftr_div_pow2 by lia. fold (reg32 c 0 dev func 0x0C).
  change (2 ^ 8) with (2 ^ 7 * 2). change (2 ^ 7) with 128. lia.
Qed.

Lemma filter_bool {A} (f : A → bool) x l : filter f (x :: l) = if f x then x :: filter f l else filter f l.
Proof. rewrite filter_cons. by destruct (f x). Qed.

(** [find_virtio_blk] returns the first function that is one. *)
Lemma find_loop_spec c p l :
  same_conf c (conf p) →
  let '(p', r) := find_loop l p in
  conf p' = conf p ∧ r = (λ x, (0, x.1, x.2)) <$> head (filter (λ x, is_virtio_blk c x.1 x.2) l).
Proof.
  revert p. induction l as [|[dev func] l IH]; intros p Hs; [done|]. cbn [find_loop].
  rewrite (read_same c), low16 by done. fold (vendor_of c dev func). rewrite filter_bool.
  unfold is_virtio_blk at 1. cbn [fst snd]. destruct (vendor_of c dev func =? VIRTIO_VENDOR) eqn:Hv; cbn [andb].
  - rewrite (read_same c), class_field by done. destruct (class_of c dev func =? CLASS_STORAGE) eqn:Hc; cbn; [done|].
    specialize (IH (mkPci B (cfg_addr 0 dev func 8) (conf p)) Hs). cbn in IH. by destruct (find_loop l _).
  - specialize (IH (mkPci B (cfg_addr 0 dev func 0) (conf p)) Hs). cbn in IH |- *. by destruct (find_loop l _).
Qed.

Lemma bar_loop_spec c dev func n p i :
  same_conf c (conf p) → header0 c 0 dev func → 0 <= i →
  let '(p', lines) := bar_loop n p dev func i in lines = bar_lines n c dev func i ∧ same_conf c (conf p').
Proof.
  revert p i. induction n as [|n IH]; intros p i Hs Hh Hi; [done|]. cbn [bar_loop bar_lines].
  destruct (Z.ltb_spec i 6); [|done]. pose proof (bar_info_of c p 0 dev func i Hs Hh ltac:(lia)) as Hb.
  destruct (bar_info p 0 dev func i) as [p1 b]. destruct Hb as [-> Hs1]. set (b := bar_of c 0 dev func i).
  specialize (IH p1 (i + if is_64 b then 2 else 1) Hs1 Hh ltac:(destruct (is_64 b); lia)).
  destruct (bar_loop n p1 dev func _) as [p2 rest]. destruct IH as [-> Hs2]. split; [|done].
  by destruct (bar_size b =? 0).
Qed.

(** Six rounds reach the end of the registers. *)
Lemma bar_lines_enough c dev func n i : 0 <= i → 6 - i <= Z.of_nat n → bar_lines (S n) c dev func i = bar_lines n c dev func i.
Proof.
  revert i. induction n as [|n IH]; intros i Hi Hn.
  - cbn. destruct (Z.ltb_spec i 6); [lia|done].
  - change (bar_lines (S (S n)) c dev func i) with
      (if i <? 6 then let b := bar_of c 0 dev func i in
         (if bar_size b =? 0 then [] else [LBar i (is_io b) (is_64 b) (bar_addr b) (bar_size b)]) ++
         bar_lines (S n) c dev func (i + if is_64 b then 2 else 1) else []).
    cbn [bar_lines]. destruct (Z.ltb_spec i 6); [|done]. cbv zeta. f_equal.
    set (j := i + _). apply IH; unfold j; destruct (is_64 _); lia.
Qed.

Lemma scan_function_spec c p dev func :
  same_conf c (conf p) →
  let '(p', (lines, hdr)) := scan_function p dev func (reg32 c 0 dev func 0x00) in
  lines = function_lines c dev func ∧ hdr = header_of c dev func ∧ same_conf c (conf p').
Proof.
  intros Hs. unfold scan_function, function_lines. rewrite (read_same c) by done. rewrite (read_same c) by done.
  rewrite low16, device_field, class_field, header_field, byte_at by lia.
  change 0x7F with (Z.ones 7). rewrite Z.land_ones by lia. unfold is_virtio_blk, vendor_of.
  destruct (Z.eqb_spec (header_of c dev func mod 2 ^ 7) 0) as [E|]; [|done].
  pose proof (bar_loop_spec c dev func 6 (mkPci B (cfg_addr 0 dev func 0x0C) (conf p)) 0 Hs (proj1 (header0_iff _ _ _) E) ltac:(lia)) as Hb.
  cbn [conf] in Hb |- *. by destruct (bar_loop 6 _ dev func 0) as [p1 bars], Hb as [-> Hs1].
Qed.

Lemma scan_functions_tail c dev fs p :
  same_conf c (conf p) → 0 ∉ fs →
  let '(p', lines) := scan_functions fs p dev in
  lines = (f ← filter (λ f, function_present c dev f) fs; function_lines c dev f) ∧ same_conf c (conf p').
Proof.
  revert p. induction fs as [|func fs IH]; intros p Hs H0; [done|]. cbn [scan_functions].
  rewrite (read_same c), low16 by done. fold (vendor_of c dev func). rewrite filter_bool.
  assert (Hf : func ≠ 0) by (intros ->; apply H0; left). assert (H0' : 0 ∉ fs) by (intros Hin; apply H0; by right).
  rewrite (proj2 (Z.eqb_neq func 0)) by done. unfold function_present at 1.
  destruct (vendor_of c dev func =? 0xFFFF); cbn [negb].
  - by apply (IH (mkPci B _ (conf p))).
  - set (p1 := mkPci B _ (conf p)).
    pose proof (scan_function_spec c p1 dev func Hs) as Hsf. destruct (scan_function p1 dev func _) as [p2 [lines hdr]].
    destruct Hsf as (-> & -> & Hs2). cbn [andb]. specialize (IH p2 Hs2 H0').
    destruct (scan_functions fs p2 dev) as [p3 rest]. destruct IH as [-> Hs3]. done.
Qed.

Lemma scan_functions_spec c dev p :
  same_conf c (conf p) →
  let '(p', lines) := scan_functions (seqZ 0 8) p dev in
  lines = (f ← functions_of c dev; function_lines c dev f) ∧ same_conf c (conf p').
Proof.
  intros Hs. unfold functions_of. change (seqZ 0 8) with (0 :: seqZ 1 7). cbn [scan_functions].
  rewrite (read_same c), low16 by done. fold (vendor_of c dev 0). unfold function_present at 1.
  destruct (vendor_of c dev 0 =? 0xFFFF) eqn:Hv; cbn [negb]; [done|]. set (p1 := mkPci B _ (conf p)).
  pose proof (scan_function_spec c p1 dev 0 Hs) as Hsf. destruct (scan_function p1 dev 0 _) as [p2 [lines hdr]].
  destruct Hsf as (-> & -> & Hs2). cbn [Z.eqb andb].
  assert (Hb : (Z.land (header_of c dev 0) 0x80 =? 0) = negb (Z.testbit (header_of c dev 0) 7)).
  { change 0x80 with (2 ^ 7). rewrite Z.land_comm. destruct (Z.testbit (header_of c dev 0) 7) eqn:E; cbn.
    - apply Z.eqb_neq. intros E0. apply (f_equal (λ x, Z.testbit x 7)) in E0. by rewrite Z.land_spec, Z.bits_0, E in E0.
    - apply Z.eqb_eq, Z.bits_inj'. intros n Hn. rewrite Z.land_spec, Z.bits_0. destruct (decide (n = 7)) as [->|].
      + by rewrite E.
      + by rewrite Z.pow2_bits_false by lia. }
  rewrite Hb. destruct (Z.testbit (header_of c dev 0) 7); cbn [negb].
  - assert (H0 : 0 ∉ seqZ 1 7) by (rewrite elem_of_seqZ; lia).
    pose proof (scan_functions_tail c dev (seqZ 1 7) p2 Hs2 H0) as Ht. destruct (scan_functions (seqZ 1 7) p2 dev) as [p3 rest].
    destruct Ht as [-> Hs3]. split; [|done]. assert (Hp : function_present c dev 0 = true) by (unfold function_present; by rewrite Hv).
    by rewrite filter_bool, Hp.
  - split; [|done]. symmetry. exact (app_nil_r _).
Qed.

Lemma scan_devices_spec c ds p :
  same_conf c (conf p) →
  let '(p', lines) := scan_devices ds p in
  lines = (dev ← ds; f ← functions_of c dev; function_lines c dev f) ∧ same_conf c (conf p').
Proof.
  revert p. induction ds as [|dev ds IH]; intros p Hs; [done|]. cbn [scan_devices].
  pose proof (scan_functions_spec c dev p Hs) as Hf. destruct (scan_functions (seqZ 0 8) p dev) as [p1 lines].
  destruct Hf as [-> Hs1]. specialize (IH p1 Hs1). destruct (scan_devices ds p1) as [p2 rest]. destruct IH as [-> Hs2]. done.
Qed.

(** C37: the bus scan reports, in order, exactly the functions that exist: those of each
    device whose function 0 answers, the others only when it declares them. Each line has
    the function's identity, class and header type and, for an ordinary function, its base
    address registers as they are before the scan; no probe disturbs what a later one
    finds, and the scan leaves every register as it was. *)
Theorem scan_spec p :
  let c := conf p in
  let '(p', log) := scan p in
  log = [LScanning] ++ (dev ← seqZ 0 32; func ← functions_of c dev; function_lines c dev func) ++ [LComplete] ∧
  same_conf c (conf p').
Proof.
  cbv zeta. unfold scan. pose proof (scan_devices_spec (conf p) (seqZ 0 32) p ltac:(done)) as Hd.
  destruct (scan_devices (seqZ 0 32) p) as [p' lines]. by destruct Hd as [-> Hs].
Qed.
End scan.

(** ** A bus

    A virtio disk at 00:03.0 with a 64-bit memory range, a range of ports and a 32-bit
    memory range. *)

Definition demo_mask (a : Z) : Z :=
  let off := Z.land a 0xFC in
  if off =? 0x04 then 7
  else if off =? 0x10 then 2 ^ 32 - 2 ^ 14
  else if off =? 0x14 then 0xFFFFFFFF
  else if off =? 0x18 then 2 ^ 32 - 2 ^ 6
  else if off =? 0x1C then 2 ^ 32 - 2 ^ 12
  else 0.

#[export] Instance demo_conf : PciConf (Z → Z) := {
  cf_read c a := wrap 32 (c a);
  cf_write c a v := λ x, if x =? a then Z.lor (Z.land v (demo_mask a)) (Z.ldiff (wrap 32 (c a)) (demo_mask a)) else c x;
  cf_mask := demo_mask;
}.

Lemma demo_mask_fits a : fits 32 (demo_mask a).
Proof. unfold demo_mask. repeat case_match; by vm_compute. Qed.

Lemma demo_write c a v :
  fits 32 v →
  cf_read (cf_write c a v) a = Z.lor (Z.land v (cf_mask a)) (Z.ldiff (cf_read c a) (cf_mask a)) ∧
  ∀ a', a' ≠ a → cf_read (cf_write c a v) a' = cf_read c a'.
Proof.
  intros Hv. cbn. rewrite Z.eqb_refl. split.
  - apply wrap_id, fits_lor; [by apply fits_land|apply fits_ldiff; [apply fits_wrap|]|]; lia.
  - intros a' Ha. by rewrite (proj2 (Z.eqb_neq a' a) Ha).
Qed.

#[export] Instance demo_conf_laws : PciLaws (Z → Z).
Proof.
  split.
  - intros c a. cbn. apply fits_wrap. lia.
  - apply demo_mask_fits.
  - intros. by apply demo_write.
  - intros c bus dev func v Hv. destruct (demo_write c (cfg_addr bus dev func 4) v Hv) as [E F]. split; [|exact F].
    intros i Hi. rewrite E, Z.lor_spec, Z.land_spec, Z.ldiff_spec. cbn [cf_mask demo_conf]. unfold demo_mask.
    rewrite cfg_addr_off. change (Z.land 4 0xFC =? 4) with true. cbn [orb].
    assert (Hi' : i = 0 ∨ i = 1 ∨ i = 2) by lia. destruct Hi' as [->|[->| ->]];
      change (Z.testbit 7 _) with true; cbn [negb]; by rewrite andb_true_r, andb_false_r, orb_false_r.
Qed.

Definition demo_pci : Pci (Z → Z) := mkPci (Z → Z) 0 (λ a,
  if a =? cfg_addr 0 3 0 0x00 then 0x10421AF4
  else if a =? cfg_addr 0 3 0 0x08 then 0x01000001
  else if a =? cfg_addr 0 3 0 0x10 then 0xFE000000 + 12
  else if a =? cfg_addr 0 3 0 0x14 then 0x7
  else if a =? cfg_addr 0 3 0 0x18 then 0xC000 + 1
  else if a =? cfg_addr 0 3 0 0x1C then 0xFEB00000
  else if Z.land a 0xFC =? 0 then 0xFFFFFFFF
  else 0).


Lemma scan_spec_witness :
  let '(p', log) := scan demo_pci in
  log = [LScanning; LFunction 3 0 0x1AF4 0x1042 1 0 0; LBar 0 false true 0x7FE000000 0x4000; LBar 2 true false 0xC000 0x40;
         LBar 3 false false 0xFEB00000 0x1000; LVirtioBlk 0x1042; LComplete] ∧ same_conf (conf demo_pci) (conf p').
Proof.
  pose proof (scan_spec demo_pci) as Hs. cbv zeta in Hs. destruct (scan demo_pci) as [p' log]. destruct Hs as [-> Hs].
  split; [vm_compute; reflexivity|exact Hs].
Defined.
