(* ===== verification/VirtioInit.v ===== *)
(** * Bringing up the virtio disk ([kernel/src/virtio_blk.rs], [init] and [smoke_test])

    [init] finds the device on the bus, maps its configuration windows, negotiates
    features, lays out queue 0 in four fresh frames and enables it. The state joins those
    of the components it calls: configuration space, page tables, frame allocator, RAM and
    the device. The device's common configuration is a further part of its interface:
    [VirtioCommon] has its registers, [VirtioCommonLaws] their documented behaviour. *)

From S2P Require Import Prelude Memory Paging BlockDev VirtioBlk VirtioDriver Pci.

(** ** Constants *)

Definition VIRTIO_PCI_CAP_COMMON_CFG : Z := 1.
Definition VIRTIO_PCI_CAP_NOTIFY_CFG : Z := 2.
Definition VIRTIO_PCI_CAP_DEVICE_CFG : Z := 4.
Definition PCI_CAP_ID_VNDR : Z := 0x09.

Definition CC_DEVICE_FEATURE_SELECT : Z := 0x00.
Definition CC_DEVICE_FEATURE : Z := 0x04.
Definition CC_DRIVER_FEATURE_SELECT : Z := 0x08.
Definition CC_DRIVER_FEATURE : Z := 0x0C.
Definition CC_DEVICE_STATUS : Z := 0x14.
Definition CC_QUEUE_SELECT : Z := 0x16.
Definition CC_QUEUE_SIZE : Z := 0x18.
Definition CC_QUEUE_ENABLE : Z := 0x1C.
Definition CC_QUEUE_NOTIFY_OFF : Z := 0x1E.
Definition CC_QUEUE_DESC : Z := 0x20.
Definition CC_QUEUE_DRIVER : Z := 0x28.
Definition CC_QUEUE_DEVICE : Z := 0x30.

Definition S_ACK : Z := 1.
Definition S_DRIVER : Z := 2.
Definition S_DRIVER_OK : Z := 4.
Definition S_FEATURES_OK : Z := 8.

Definition VIRTIO_F_VERSION_1_HI : Z := 1.
Definition VIRTIO_BLK_F_FLUSH_BIT : Z := Z.shiftl 1 9.
Definition QSIZE : Z := 128.

(** ** The device's configuration *)

(** The registers of the common configuration the driver writes, for queue 0. *)
Record CC := mkCC {
  cc_fsel : Z; cc_gsel : Z; cc_glo : Z; cc_ghi : Z; cc_status : Z; cc_qsel : Z;
  cc_qsize : Z; cc_enable : Z; cc_desc : Z; cc_driver : Z; cc_device : Z;
}.

(** The queue they describe. *)
Definition cc_queue (r : CC) : option VQ :=
  if cc_enable r =? 1 then Some (mkVQ (cc_desc r) (cc_driver r) (cc_device r) (cc_qsize r)) else None.

(** A write of [v] at offset [off]; the device withdraws FEATURES_OK when it does not
    support the features. *)
Definition cc_write (accepts : Z → Z → bool) (off v : Z) (r : CC) : CC :=
  let '(mkCC fsel gsel glo ghi status qsel qsize enable desc driver device) := r in
  if off =? CC_DEVICE_FEATURE_SELECT then mkCC v gsel glo ghi status qsel qsize enable desc driver device
  else if off =? CC_DRIVER_FEATURE_SELECT then mkCC fsel v glo ghi status qsel qsize enable desc driver device
  else if off =? CC_DRIVER_FEATURE then
    if gsel =? 0 then mkCC fsel gsel v ghi status qsel qsize enable desc driver device
    else if gsel =? 1 then mkCC fsel gsel glo v status qsel qsize enable desc driver device else r
  else if off =? CC_DEVICE_STATUS then
    let status := if Z.testbit v 3 && negb (Z.testbit status 3) && negb (accepts glo ghi) then Z.ldiff v 8 else v in
    mkCC fsel gsel glo ghi status qsel qsize enable desc driver device
  else if off =? CC_QUEUE_SELECT then mkCC fsel gsel glo ghi status v qsize enable desc driver device
  else if negb (qsel =? 0) then r
  else if off =? CC_QUEUE_SIZE then mkCC fsel gsel glo ghi status qsel v enable desc driver device
  else if off =? CC_QUEUE_ENABLE then mkCC fsel gsel glo ghi status qsel qsize v desc driver device
  else if off =? CC_QUEUE_DESC then mkCC fsel gsel glo ghi status qsel qsize enable v driver device
  else if off =? CC_QUEUE_DRIVER then mkCC fsel gsel glo ghi status qsel qsize enable desc v device
  else if off =? CC_QUEUE_DEVICE then mkCC fsel gsel glo ghi status qsel qsize enable desc driver v
  else r.

Definition cc_read (offered : Z → Z) (noff off : Z) (r : CC) : Z :=
  if off =? CC_DEVICE_FEATURE then offered (cc_fsel r)
  else if off =? CC_QUEUE_SIZE then cc_qsize r
  else if off =? CC_QUEUE_NOTIFY_OFF then noff
  else 0.

Class VirtioCommon (V : Type) `{VirtioDev V} := {
  vc_base : Z;                    (* physical address of the common configuration *)
  vc_nbase : Z;                   (* of the notification window *)
  vc_nmul : Z;
  vc_noff : Z;
  vc_offered : Z → Z;             (* offered features, by dword *)
  vc_accepts : Z → Z → bool;      (* whether it supports these features together *)
  vc_qmax : Z;
  vc_regs : V → CC;
  vc_resetting : V → bool;
}.

Section common.
Context {V : Type} `{VirtioCommon V}.

Definition cc_reset : CC := mkCC 0 0 0 0 0 0 vc_qmax 0 0 0 0.

(** The disk is as before. *)
Definition kept (d d' : V) : Prop :=
  (∀ l, vd_view d' l = vd_view d l) ∧ ∀ x, vd_crash d' x → vd_crash d x.

Class VirtioCommonLaws := {
  vc_mmio_law off : 0 <= off < 0x38 → vd_mmio (vc_base + off) = true;
  (** Writing 0 to the status starts a reset; the status reads 0 once it is over. *)
  vc_reset_law d :
    let d' := vd_write d (vc_base + CC_DEVICE_STATUS) 1 0 in vc_resetting d' = true ∧ kept d d';
  vc_status_law d d' x :
    vd_read d (vc_base + CC_DEVICE_STATUS) 1 = (d', x) →
    kept d d' ∧
    if vc_resetting d then
      x ≠ 0 ∧ vc_resetting d' = true ∨
      x = 0 ∧ vc_resetting d' = false ∧ vc_regs d' = cc_reset ∧ vd_last d' = 0
    else d' = d ∧ x = cc_status (vc_regs d);
  (** Otherwise registers hold what is written. *)
  vc_write_law d off n v :
    vc_resetting d = false →
    (off, n) ∈ [(CC_DEVICE_FEATURE_SELECT, 4%nat); (CC_DRIVER_FEATURE_SELECT, 4%nat); (CC_DRIVER_FEATURE, 4%nat);
                (CC_DEVICE_STATUS, 1%nat); (CC_QUEUE_SELECT, 2%nat); (CC_QUEUE_SIZE, 2%nat); (CC_QUEUE_ENABLE, 2%nat);
                (CC_QUEUE_DESC, 8%nat); (CC_QUEUE_DRIVER, 8%nat); (CC_QUEUE_DEVICE, 8%nat)] →
    ¬ (off = CC_DEVICE_STATUS ∧ v = 0) →
    let d' := vd_write d (vc_base + off) n v in
    vc_regs d' = cc_write vc_accepts off v (vc_regs d) ∧ vc_resetting d' = false ∧ vd_last d' = vd_last d ∧ kept d d';
  vc_read_law d off n :
    vc_resetting d = false →
    (off, n) ∈ [(CC_DEVICE_FEATURE, 4%nat); (CC_QUEUE_SIZE, 2%nat); (CC_QUEUE_NOTIFY_OFF, 2%nat)] →
    vd_read d (vc_base + off) n = (d, cc_read vc_offered vc_noff off (vc_regs d));
  (** What the registers configure. *)
  vc_configured d :
    vc_resetting d = false → vd_queue d = cc_queue (vc_regs d) ∧ vd_cached d = Z.testbit (cc_glo (vc_regs d)) 9;
  vc_doorbell d : vd_doorbell d = vc_nbase + vc_noff * vc_nmul;
}.
End common.
Arguments VirtioCommonLaws V {_ _}.

(** ** The driver *)

(** The configuration windows found so far. *)
Record Windows := mkW { common : Z; notify_base : Z; notify_mul : Z; notify_phys : Z; device_cfg : Z }.

Record VInit {B V : Type} := mkVI { vi_pci : Pci B; vi_ps : PState; vi_fa : FrameAllocator; vi_s : VState V }.
Arguments VInit B V : clear implicits.

Section init.
Context {B V : Type} `{PciConf B} `{VirtioDev V} `{Mapper}.
Variable (hhdm : Z).
Implicit Types (x : VInit B V) (s : VState V).

Definition with_pci x (p : Pci B) : VInit B V := mkVI B V p (vi_ps x) (vi_fa x) (vi_s x).
Definition with_s x s : VInit B V := mkVI B V (vi_pci x) (vi_ps x) (vi_fa x) s.

Definition alloc_frame x : VInit B V * option (Z * Z) :=
  match Memory.alloc (vi_fa x) with
  | (fa, None) => (mkVI B V (vi_pci x) (vi_ps x) fa (vi_s x), None)
  | (fa, Some fnum) =>
      let phys := fnum * 4096 in
      let virt := hhdm + phys in
      let s := vi_s x in
      (mkVI B V (vi_pci x) (vi_ps x) fa (mkV V (vb s) (wr_bytes (ram s) (virt - hhdm) (replicate 4096 0)) (vdev s)),
       Some (phys, virt))
  end.

(** One vendor capability: map its window and note it. *)
Definition take_window x (bus dev func cap : Z) (w : Windows) : VInit B V * option Windows :=
  let '(p, cfg_type) := cfg_read8 (vi_pci x) bus dev func (cap + 3) in
  let '(p, bar) := cfg_read8 p bus dev func (cap + 4) in
  let '(p, offset) := cfg_read32 p bus dev func (cap + 8) in
  let '(p, length) := cfg_read32 p bus dev func (cap + 12) in
  let '(p, base) := bar_base p bus dev func bar in
  let phys := base + offset in
  match map_mmio_range (vi_ps x) (vi_fa x) hhdm phys length with
  | (ps, fa, None) => (mkVI B V p ps fa (vi_s x), None)
  | (ps, fa, Some va) =>
      if cfg_type =? VIRTIO_PCI_CAP_COMMON_CFG then
        (mkVI B V p ps fa (vi_s x), Some (mkW va (notify_base w) (notify_mul w) (notify_phys w) (device_cfg w)))
      else if cfg_type =? VIRTIO_PCI_CAP_NOTIFY_CFG then
        let '(p, mul) := cfg_read32 p bus dev func (cap + 16) in
        (mkVI B V p ps fa (vi_s x), Some (mkW (common w) va mul phys (device_cfg w)))
      else if cfg_type =? VIRTIO_PCI_CAP_DEVICE_CFG then
        (mkVI B V p ps fa (vi_s x), Some (mkW (common w) (notify_base w) (notify_mul w) (notify_phys w) va))
      else (mkVI B V p ps fa (vi_s x), Some w)
  end.

(** [while cap != 0 && guard < 48]: [n] rounds remain; [None] is the early return. *)
Fixpoint cap_walk (n : nat) x (bus dev func cap : Z) (w : Windows) : VInit B V * option Windows :=
  match n with
  | O => (x, Some w)
  | S n =>
      if cap =? 0 then (x, Some w)
      else
        let '(p, vndr) := cfg_read8 (vi_pci x) bus dev func cap in
        let '(p, next) := cfg_read8 p bus dev func (cap + 1) in
        let x := with_pci x p in
        if vndr =? PCI_CAP_ID_VNDR then
          match take_window x bus dev func cap w with
          | (x, None) => (x, None)
          | (x, Some w) => cap_walk n x bus dev func (Z.land next 0xFC) w
          end
        else cap_walk n x bus dev func (Z.land next 0xFC) w
  end.

(** The bounded wait for the reset. *)
Definition reset_round (common : Z) (y : VState V * Z * option bool) : VState V * Z * option bool :=
  let '(s, rg, _) := y in
  let '(s, st) := r8 hhdm s (common + CC_DEVICE_STATUS) in
  if st =? 0 then (s, rg, Some true)
  else let rg := rg + 1 in if POLL_BOUND <? rg then (s, rg, Some false) else (s, rg, None).
Definition reset_wait s (common : Z) : VState V * option bool :=
  let '(s, _, r) := while_pos polling (reset_round common) 50000001 (s, 0, None) in (s, r).

(** Reset, acknowledge and negotiate; [Some flush_ok] on success. *)
Definition negotiate s (common : Z) : VState V * option bool :=
  let s := w8 hhdm s (common + CC_DEVICE_STATUS) 0 in
  match reset_wait s common with
  | (s, Some true) =>
      let s := w8 hhdm s (common + CC_DEVICE_STATUS) S_ACK in
      let s := w8 hhdm s (common + CC_DEVICE_STATUS) (Z.lor S_ACK S_DRIVER) in
      let s := w32 hhdm s (common + CC_DEVICE_FEATURE_SELECT) 0 in
      let '(s, dev_lo) := r32 hhdm s (common + CC_DEVICE_FEATURE) in
      let s := w32 hhdm s (common + CC_DEVICE_FEATURE_SELECT) 1 in
      let '(s, dev_hi) := r32 hhdm s (common + CC_DEVICE_FEATURE) in
      if Z.land dev_hi VIRTIO_F_VERSION_1_HI =? 0 then (s, None)
      else
        let drv_lo := Z.land dev_lo VIRTIO_BLK_F_FLUSH_BIT in
        let flush_ok := negb (drv_lo =? 0) in
        let s := w32 hhdm s (common + CC_DRIVER_FEATURE_SELECT) 0 in
        let s := w32 hhdm s (common + CC_DRIVER_FEATURE) drv_lo in
        let s := w32 hhdm s (common + CC_DRIVER_FEATURE_SELECT) 1 in
        let s := w32 hhdm s (common + CC_DRIVER_FEATURE) VIRTIO_F_VERSION_1_HI in
        let s := w8 hhdm s (common + CC_DEVICE_STATUS) (Z.lor (Z.lor S_ACK S_DRIVER) S_FEATURES_OK) in
        let '(s, st) := r8 hhdm s (common + CC_DEVICE_STATUS) in
        if Z.land st S_FEATURES_OK =? 0 then (s, None) else (s, Some flush_ok)
  | (s, _) => (s, None)
  end.

(** The four frames: descriptors, available ring, used ring, request. *)
Definition alloc_rings x : VInit B V * option (Z * Z * (Z * Z) * (Z * Z) * (Z * Z)) :=
  match alloc_frame x with
  | (x, None) => (x, None)
  | (x, Some desc) =>
    match alloc_frame x with
    | (x, None) => (x, None)
    | (x, Some avail) =>
      match alloc_frame x with
      | (x, None) => (x, None)
      | (x, Some used) =>
        match alloc_frame x with
        | (x, None) => (x, None)
        | (x, Some buf) => (x, Some (desc, avail, used, buf))
        end
      end
    end
  end.

(** Program queue 0, fill in [VBLK] and go live. *)
Definition enable_queue s (w : Windows) (flush_ok : bool) (qsize : Z) (desc avail used buf : Z * Z) : VState V :=
  let c := common w in
  let s := w64 hhdm s (c + CC_QUEUE_DESC) desc.1 in
  let s := w64 hhdm s (c + CC_QUEUE_DRIVER) avail.1 in
  let s := w64 hhdm s (c + CC_QUEUE_DEVICE) used.1 in
  let '(s, notify_off) := r16 hhdm s (c + CC_QUEUE_NOTIFY_OFF) in
  let s := w16 hhdm s (c + CC_QUEUE_ENABLE) 1 in
  let doorbell_phys := notify_phys w + notify_off * notify_mul w in
  let v := mkVB true c (notify_base w) (notify_mul w) notify_off desc.2 avail.2 used.2
    desc.1 avail.1 used.1 doorbell_phys buf.1 (buf.1 + 512) (buf.1 + 1024)
    buf.2 (buf.2 + 512) (buf.2 + 1024) qsize flush_ok in
  let s := mkV V v (ram s) (vdev s) in
  w8 hhdm s (c + CC_DEVICE_STATUS) (Z.lor (Z.lor (Z.lor S_ACK S_DRIVER) S_FEATURES_OK) S_DRIVER_OK).

(** Queue 0 from its size on. *)
Definition setup_queue x (w : Windows) (flush_ok : bool) : VInit B V * bool :=
  let s := w16 hhdm (vi_s x) (common w + CC_QUEUE_SELECT) 0 in
  let '(s, max) := r16 hhdm s (common w + CC_QUEUE_SIZE) in
  if max =? 0 then (with_s x s, false)
  else
    let qsize := if max <? QSIZE then max else QSIZE in
    let s := w16 hhdm s (common w + CC_QUEUE_SIZE) qsize in
    match alloc_rings (with_s x s) with
    | (x, None) => (x, false)
    | (x, Some (desc, avail, used, buf)) =>
        let s := enable_queue (vi_s x) w flush_ok qsize desc avail used buf in
        let '(s, _) := r16 hhdm s (common w + CC_QUEUE_SIZE) in
        (with_s x s, true)
    end.

Definition init x : VInit B V * bool :=
  match find_virtio_blk (vi_pci x) with
  | (p, None) => (with_pci x p, false)
  | (p, Some (bus, dev, func)) =>
      let p := enable_bus_master p bus dev func in
      let '(p, cap0) := cfg_read8 p bus dev func 0x34 in
      match cap_walk 48 (with_pci x p) bus dev func (Z.land cap0 0xFC) (mkW 0 0 0 0 0) with
      | (x, None) => (x, false)
      | (x, Some w) =>
          if (common w =? 0) || (notify_base w =? 0) then (x, false)
          else
            match negotiate (vi_s x) (common w) with
            | (s, None) => (with_s x s, false)
            | (s, Some flush_ok) => setup_queue (with_s x s) w flush_ok
            end
      end
  end.

Definition SMOKE_LBA : Z := 32760.
Definition smoke_pattern : list Z := (λ i, Z.lxor (wrap 8 i) 0xA5) <$> seqZ 0 512.

(** [Some (rt, flush_ok)] is the line it prints. *)
Definition smoke_test x : VInit B V * option (bool * bool) :=
  match init x with
  | (x, false) => (x, None)
  | (x, true) =>
      let '(s, rt) :=
        match write_sector hhdm (vi_s x) SMOKE_LBA smoke_pattern with
        | (s, false) => (s, false)
        | (s, true) =>
            match read_sector hhdm s SMOKE_LBA with
            | (s, None) => (s, false)
            | (s, Some rbuf) => (s, bool_decide (smoke_pattern = rbuf))
            end
        end in
      (with_s x s, Some (rt, v_flush_ok (vb s)))
  end.
End init.

(** ** Configuration accesses *)

Section config.
Context {V : Type} `{VirtioCommon V} {CL : VirtioCommonLaws V}.
Variable (hhdm : Z).
Implicit Types (s : VState V).

#[export] Instance kept_preorder : PreOrder (kept (V:=V)).
Proof.
  split; [done|]. intros d1 d2 d3 [V1 C1] [V2 C2]. split; [intros l; by rewrite V2|]. auto.
Qed.

(** [s] is [s0] with the device configured to [r]. *)
Record configured s0 (r : CC) s : Prop := {
  cg_vb : vb s = vb s0;
  cg_ram : ram s = ram s0;
  cg_regs : vc_regs (vdev s) = r;
  cg_reset : vc_resetting (vdev s) = false;
  cg_last : vd_last (vdev s) = 0;
  cg_kept : kept (vdev s0) (vdev s);
}.

Lemma mmio_write s off n v :
  0 <= off < 0x38 →
  vwrite hhdm s (hhdm + vc_base + off) n v = mkV V (vb s) (ram s) (vd_write (vdev s) (vc_base + off) n v).
Proof.
  intros Ho. unfold vwrite. replace (hhdm + vc_base + off - hhdm) with (vc_base + off) by lia. by rewrite vc_mmio_law.
Qed.

Lemma mmio_read s off n :
  0 <= off < 0x38 →
  vread hhdm s (hhdm + vc_base + off) n =
  let '(d, x) := vd_read (vdev s) (vc_base + off) n in (mkV V (vb s) (ram s) d, x).
Proof.
  intros Ho. unfold vread. replace (hhdm + vc_base + off - hhdm) with (vc_base + off) by lia. by rewrite vc_mmio_law.
Qed.

Lemma configured_write s0 r s off n v :
  (off, n) ∈ [(CC_DEVICE_FEATURE_SELECT, 4%nat); (CC_DRIVER_FEATURE_SELECT, 4%nat); (CC_DRIVER_FEATURE, 4%nat);
              (CC_DEVICE_STATUS, 1%nat); (CC_QUEUE_SELECT, 2%nat); (CC_QUEUE_SIZE, 2%nat); (CC_QUEUE_ENABLE, 2%nat);
              (CC_QUEUE_DESC, 8%nat); (CC_QUEUE_DRIVER, 8%nat); (CC_QUEUE_DEVICE, 8%nat)] →
  ¬ (off = CC_DEVICE_STATUS ∧ v = 0) → configured s0 r s →
  configured s0 (cc_write vc_accepts off v r) (vwrite hhdm s (hhdm + vc_base + off) n v).
Proof.
  intros Hin Hv [E1 E2 E3 E4 E5 E6].
  assert (Ho : 0 <= off < 0x38).
  { repeat (apply elem_of_cons in Hin as [[= -> _]|Hin]; [by vm_compute|]). by apply elem_of_nil in Hin. }
  destruct (vc_write_law (vdev s) off n v E4 Hin Hv) as (W1 & W2 & W3 & W4). rewrite mmio_write by done.
  split; cbn [vb ram vdev]; [done|done|by rewrite W1, E3|done|by rewrite W3|by etransitivity].
Qed.

Lemma configured_read s0 r s off n :
  (off, n) ∈ [(CC_DEVICE_FEATURE, 4%nat); (CC_QUEUE_SIZE, 2%nat); (CC_QUEUE_NOTIFY_OFF, 2%nat)] → configured s0 r s →
  vread hhdm s (hhdm + vc_base + off) n = (s, cc_read vc_offered vc_noff off r).
Proof.
  intros Hin [E1 E2 E3 E4 E5 E6].
  assert (Ho : 0 <= off < 0x38).
  { repeat (apply elem_of_cons in Hin as [[= -> _]|Hin]; [by vm_compute|]). by apply elem_of_nil in Hin. }
  rewrite mmio_read by done. rewrite vc_read_law by done. rewrite E3. by destruct s.
Qed.

Lemma configured_status s0 r s :
  configured s0 r s → vread hhdm s (hhdm + vc_base + CC_DEVICE_STATUS) 1 = (s, cc_status r).
Proof.
  intros [E1 E2 E3 E4 E5 E6]. rewrite mmio_read by by vm_compute.
  destruct (vd_read (vdev s) _ 1) as [d' x] eqn:E. apply vc_status_law in E as [_ E]. rewrite E4 in E. destruct E as [-> ->].
  rewrite E3. by destruct s.
Qed.

(** The wait for the reset ends; when it succeeds the registers are at their reset values. *)
Lemma reset_wait_spec s :
  vc_resetting (vdev s) = true →
  match reset_wait hhdm s (hhdm + vc_base) with
  | (s', Some true) => configured s cc_reset s'
  | (s', Some false) => vb s' = vb s ∧ ram s' = ram s ∧ kept (vdev s) (vdev s')
  | (_, None) => False
  end.
Proof.
  intros Hr. set (P := λ y : VState V * Z * option bool,
    let '(s', rg, out) := y in
    match out with
    | Some true => configured s cc_reset s'
    | Some false => vb s' = vb s ∧ ram s' = ram s ∧ kept (vdev s) (vdev s')
    | None => 0 <= rg <= POLL_BOUND ∧ vb s' = vb s ∧ ram s' = ram s ∧ kept (vdev s) (vdev s') ∧ vc_resetting (vdev s') = true
    end).
  assert (Hstep : ∀ y, P y → polling y = true →
    P (reset_round hhdm (hhdm + vc_base) y) ∧ poll_measure (reset_round hhdm (hhdm + vc_base) y) < poll_measure y ∧ 0 < poll_measure y).
  { intros [[s1 rg] [|]]; [done|]. intros (Hrg & E1 & E2 & E3 & E4) _. unfold reset_round, r8.
    rewrite mmio_read by by vm_compute. destruct (vd_read (vdev s1) _ 1) as [d' x] eqn:E. apply vc_status_law in E as [Hk E].
    rewrite E4 in E. assert (Hk' : kept (vdev s) d') by by etransitivity.
    destruct E as [[Hx Hd]|(-> & Hd & Hregs & Hlast)].
    - rewrite (proj2 (Z.eqb_neq x 0)) by done. destruct (Z.ltb_spec POLL_BOUND (rg + 1)); cbn; (split; [|lia]); [done|].
      split; [lia|done].
    - cbn. split; [|lia]. split; cbn; done. }
  assert (Hstart : P (s, 0, None)) by by repeat split.
  destruct (while_pos_enough polling _ P poll_measure 50000001 _ Hstart Hstep) as [Hrel Hinv]; [done|].
  destruct (while_rel_inv _ _ (λ _, True) _ _ Hrel I) as [_ Hdone]; [done|]. unfold reset_wait.
  destruct (while_pos _ _ _ _) as [[s' rg] [[]|]]; [exact Hinv|exact Hinv|done].
Qed.

Lemma configured_from s0 s1 r s :
  vb s1 = vb s0 → ram s1 = ram s0 → kept (vdev s0) (vdev s1) → configured s1 r s → configured s0 r s.
Proof. intros E1 E2 Hk []. split; [congruence|congruence|done|done|done|by etransitivity]. Qed.

Lemma configured_same s0 r s : configured s0 r s → vb s = vb s0 ∧ ram s = ram s0 ∧ kept (vdev s0) (vdev s).
Proof. by intros []. Qed.

End config.

(** The next register write of a configuration sequence. *)
Ltac config_write hhdm Hc off n v :=
  let Hn := fresh "Hc" in
  let t := fresh "s" in
  pose proof (configured_write hhdm _ _ _ off n v ltac:(repeat (first [by left|right])) ltac:(by intros [? ?]) Hc) as Hn;
  match type of Hn with configured _ _ ?x => set (t := x) in * end;
  clearbody t; cbv -[vc_accepts vc_qmax vc_offered vc_noff Z.land Z.mul Z.add] in Hn; clear Hc; rename Hn into Hc.

(** ** The rings *)

Section rings.
Context {B V : Type} `{PciConf B} `{VirtioCommon V} {CL : VirtioCommonLaws V} `{Mapper}.
Variable (hhdm : Z).
Implicit Types (x : VInit B V) (s : VState V).

(** Free frames are RAM. *)
Definition frames_are_ram (F : gset Z) : Prop :=
  ∀ f, f ∈ F → 0 <= f < 2 ^ 40 ∧ ∀ a, f * 4096 <= a < f * 4096 + 4096 → vd_mmio a = false.

Definition zero_frame (m : Z → Z) (f : Z) : Prop := ∀ a, f * 4096 <= a < f * 4096 + 4096 → m a = 0.

(** Only frames have been taken. *)
Definition taken x x' : Prop := mem_inv (vi_fa x') ∧ mem_set (vi_fa x') ⊆ mem_set (vi_fa x) ∧ vi_ps x' = vi_ps x.

Lemma taken_trans x1 x2 x3 : taken x1 x2 → taken x2 x3 → taken x1 x3.
Proof. intros (_ & S1 & E1) (I2 & S2 & E2). split; [done|]. split; [by etransitivity|congruence]. Qed.

Lemma alloc_frame_spec x :
  mem_inv (vi_fa x) →
  let '(x', r) := alloc_frame hhdm x in
  taken x x' ∧ vb (vi_s x') = vb (vi_s x) ∧ vdev (vi_s x') = vdev (vi_s x) ∧
  ∀ pv, r = Some pv → ∃ f, pv = (f * 4096, hhdm + f * 4096) ∧ f ∈ mem_set (vi_fa x) ∧
    mem_set (vi_fa x') = mem_set (vi_fa x) ∖ {[f]} ∧ zero_frame (ram (vi_s x')) f ∧
    ∀ g, g ≠ f → zero_frame (ram (vi_s x)) g → zero_frame (ram (vi_s x')) g.
Proof.
  intros Hi. unfold alloc_frame. pose proof (alloc_law (vi_fa x) Hi) as Hl.
  destruct (Memory.alloc (vi_fa x)) as [fa [f|]]; unfold taken; cbn [fst snd vi_fa vi_ps vi_s vb ram vdev] in *.
  2:{ destruct Hl as (Hi' & _ & Hset). by rewrite Hset. }
  destruct Hl as (Hi' & [Hf _] & Hset). split; [split; [done|split; [set_solver|done]]|]. split; [done|]. split; [done|].
  intros pv [= <-]. exists f. replace (hhdm + f * 4096 - hhdm) with (f * 4096) by lia.
  assert (Hz : zlen (replicate 4096 0) = 4096) by (unfold zlen; by rewrite length_replicate).
  split; [done|]. split; [done|]. split; [done|]. split.
  - intros a Ha. replace a with (f * 4096 + (a - f * 4096)) by lia. rewrite wr_bytes_in by (rewrite Hz; lia). apply aget_replicate. lia.
  - intros g Hg Hgz a Ha. rewrite wr_bytes_out by (rewrite Hz; lia). by apply Hgz.
Qed.

(** Four different frames, all zero. *)
Record ring_frames (F : gset Z) (m : Z → Z) (f1 f2 f3 f4 : Z) : Prop := {
  rf_in : f1 ∈ F ∧ f2 ∈ F ∧ f3 ∈ F ∧ f4 ∈ F;
  rf_ne : f1 ≠ f2 ∧ f1 ≠ f3 ∧ f1 ≠ f4 ∧ f2 ≠ f3 ∧ f2 ≠ f4 ∧ f3 ≠ f4;
  rf_zero : zero_frame m f1 ∧ zero_frame m f2 ∧ zero_frame m f3 ∧ zero_frame m f4;
}.

Lemma alloc_rings_spec x :
  mem_inv (vi_fa x) →
  let '(x', r) := alloc_rings hhdm x in
  taken x x' ∧ vb (vi_s x') = vb (vi_s x) ∧ vdev (vi_s x') = vdev (vi_s x) ∧
  ∀ q, r = Some q → ∃ f1 f2 f3 f4,
    q = ((f1 * 4096, hhdm + f1 * 4096), (f2 * 4096, hhdm + f2 * 4096), (f3 * 4096, hhdm + f3 * 4096), (f4 * 4096, hhdm + f4 * 4096)) ∧
    ring_frames (mem_set (vi_fa x)) (ram (vi_s x')) f1 f2 f3 f4.
Proof.
  intros Hi. unfold alloc_rings.
  pose proof (alloc_frame_spec x Hi) as H1'. destruct (alloc_frame hhdm x) as [x1 r1]. destruct H1' as (T1 & B1 & D1 & R1).
  destruct r1 as [q1|]; [|done]. destruct (R1 q1 eq_refl) as (f1 & -> & M1 & S1 & Z1 & _).
  pose proof (alloc_frame_spec x1 (proj1 T1)) as H2'. destruct (alloc_frame hhdm x1) as [x2 r2]. destruct H2' as (T2 & B2 & D2 & R2).
  pose proof (taken_trans _ _ _ T1 T2) as U2. destruct r2 as [q2|]; [|split; [done|split; [congruence|split; [congruence|done]]]]. destruct (R2 q2 eq_refl) as (f2 & -> & M2 & S2 & Z2 & K2).
  pose proof (alloc_frame_spec x2 (proj1 T2)) as H3'. destruct (alloc_frame hhdm x2) as [x3 r3]. destruct H3' as (T3 & B3 & D3 & R3).
  pose proof (taken_trans _ _ _ U2 T3) as U3. destruct r3 as [q3|]; [|split; [done|split; [congruence|split; [congruence|done]]]]. destruct (R3 q3 eq_refl) as (f3 & -> & M3 & S3 & Z3 & K3).
  pose proof (alloc_frame_spec x3 (proj1 T3)) as H4'. destruct (alloc_frame hhdm x3) as [x4 r4]. destruct H4' as (T4 & B4 & D4 & R4).
  pose proof (taken_trans _ _ _ U3 T4) as U4. destruct r4 as [q4|]; [|split; [done|split; [congruence|split; [congruence|done]]]]. destruct (R4 q4 eq_refl) as (f4 & -> & M4 & S4 & Z4 & K4).
  split; [done|]. split; [congruence|]. split; [congruence|]. intros q [= <-]. exists f1, f2, f3, f4. split; [done|].
  rewrite S3, S2, S1 in M4. rewrite S2, S1 in M3. rewrite S1 in M2.
  assert (f1 ≠ f2 ∧ f1 ≠ f3 ∧ f1 ≠ f4 ∧ f2 ≠ f3 ∧ f2 ≠ f4 ∧ f3 ≠ f4) as Hne by (clear -M2 M3 M4; set_solver).
  split; [set_solver|done|]. destruct Hne as (N12 & N13 & N14 & N23 & N24 & N34).
  split; [by apply K4, K3, K2|]. split; [by apply K4, K3|]. split; [by apply K4|done].
Qed.

Lemma rd_zero m a n : (∀ y, a <= y < a + Z.of_nat n → m y = 0) → rd_le m a n = 0.
Proof.
  intros Hz. unfold rd_le, bytes_of. assert (Hall : Forall (λ b, b = 0) (m <$> seqZ a (Z.of_nat n))).
  { apply Forall_fmap, Forall_forall. intros y Hy%elem_of_seqZ. apply Hz. lia. }
  induction Hall as [|b l -> _ IH]; [done|]. cbn. by rewrite IH.
Qed.

Lemma flush_bit y : Z.testbit (Z.land y VIRTIO_BLK_F_FLUSH_BIT) 9 = negb (Z.land y VIRTIO_BLK_F_FLUSH_BIT =? 0).
Proof.
  unfold VIRTIO_BLK_F_FLUSH_BIT. change (Z.shiftl 1 9) with (2 ^ 9). rewrite Z.land_spec. change (Z.testbit (2 ^ 9) 9) with true.
  rewrite andb_true_r. destruct (Z.testbit y 9) eqn:E; symmetry.
  - apply negb_true_iff, Z.eqb_neq. intros E0. apply (f_equal (λ z, Z.testbit z 9)) in E0. by rewrite Z.land_spec, Z.bits_0, E in E0.
  - apply negb_false_iff, Z.eqb_eq, Z.bits_inj'. intros n Hn. rewrite Z.land_spec, Z.bits_0.
    destruct (decide (n = 9)) as [->|]; [by rewrite E|]. by rewrite Z.pow2_bits_false by lia; rewrite andb_false_r.
Qed.

(** The state [enable_queue] leaves in [VBLK]. *)
Definition ready_vb (flush_ok : bool) (qsize f1 f2 f3 f4 : Z) : VirtioBlk :=
  mkVB true (hhdm + vc_base) (hhdm + vc_nbase) vc_nmul vc_noff
    (hhdm + f1 * 4096) (hhdm + f2 * 4096) (hhdm + f3 * 4096) (f1 * 4096) (f2 * 4096) (f3 * 4096)
    (vc_nbase + vc_noff * vc_nmul) (f4 * 4096) (f4 * 4096 + 512) (f4 * 4096 + 1024)
    (hhdm + f4 * 4096) (hhdm + f4 * 4096 + 512) (hhdm + f4 * 4096 + 1024) qsize flush_ok.

Lemma ready_geometry F m fl qsize f1 f2 f3 f4 :
  frames_are_ram F → ring_frames F m f1 f2 f3 f4 → 3 <= qsize <= 128 → geometry hhdm (ready_vb fl qsize f1 f2 f3 f4).
Proof.
  intros HF [(I1 & I2 & I3 & I4) (N12 & N13 & N14 & N23 & N24 & N34) _] Hq.
  destruct (HF f4 I4) as [R4 _]. split; try done; try (unfold apart; cbn; lia).
  - cbn. unfold fits. lia.
  - pose proof (proj2 (HF f1 I1)) as Q1. pose proof (proj2 (HF f2 I2)) as Q2. pose proof (proj2 (HF f3 I3)) as Q3.
    pose proof (proj2 (HF f4 I4)) as Q4. intros p a Hp Ha. cbn in Hp.
    repeat (apply elem_of_cons in Hp as [->|Hp]; [by auto|]). by apply elem_of_nil in Hp.
Qed.

(** A device that has the queue of [VBLK] and rings that are zero: idle. *)
Lemma ready_idle F fl qsize f1 f2 f3 f4 s :
  frames_are_ram F → ring_frames F (ram s) f1 f2 f3 f4 → 3 <= qsize <= 128 →
  vb s = ready_vb fl qsize f1 f2 f3 f4 → vd_queue (vdev s) = Some (queue_of (vb s)) →
  vd_last (vdev s) = 0 → vd_cached (vdev s) = fl → idle hhdm s.
Proof.
  intros HF Hr Hq Hv Hd Hl Hc. destruct (rf_zero _ _ _ _ _ _ Hr) as (_ & Z2 & Z3 & _).
  split; rewrite ?Hv, ?Hl; try done.
  - by apply (ready_geometry F (ram s)).
  - by rewrite <- Hv.
  - rewrite vc_doorbell. unfold VirtioDriver.notify_phys. cbn. lia.
  - apply rd_zero. intros y Hy. apply Z2. cbn in *. lia.
  - apply rd_zero. intros y Hy. apply Z3. cbn in *. lia.
Qed.
End rings.

(** ** Negotiation and queue setup *)

Section setup.
Context {B V : Type} `{PciConf B} `{VirtioCommon V} {CL : VirtioCommonLaws V} `{Mapper}.
Variable (hhdm : Z).
Implicit Types (x : VInit B V) (s : VState V).

(** Negotiation accepts the flush feature when offered, nothing else beside VERSION_1. *)
Lemma negotiate_spec s :
  match negotiate hhdm s (hhdm + vc_base) with
  | (s', Some flush_ok) =>
      let glo := Z.land (vc_offered 0) VIRTIO_BLK_F_FLUSH_BIT in
      flush_ok = negb (glo =? 0) ∧ configured s (mkCC 1 1 glo 1 11 0 vc_qmax 0 0 0 0) s'
  | (s', None) => vb s' = vb s ∧ ram s' = ram s ∧ kept (vdev s) (vdev s')
  end.
Proof.
  unfold negotiate, w8, w32, r8, r32. rewrite (mmio_write hhdm s) by by vm_compute.
  destruct (vc_reset_law (vdev s)) as [Hr Hk]. set (s1 := mkV V _ _ _).
  pose proof (reset_wait_spec hhdm s1 Hr) as Hw. destruct (reset_wait hhdm s1 _) as [s2 [[]|]]; [| |done].
  2:{ destruct Hw as (E1 & E2 & E3). split; [done|]. split; [done|]. by etransitivity. }
  apply (configured_from s) in Hw as Hc; [|done..]. clear Hw. clearbody s1. clear Hr Hk.
  config_write hhdm Hc CC_DEVICE_STATUS 1%nat S_ACK.
  config_write hhdm Hc CC_DEVICE_STATUS 1%nat (Z.lor S_ACK S_DRIVER).
  config_write hhdm Hc CC_DEVICE_FEATURE_SELECT 4%nat 0.
  rewrite (configured_read hhdm _ _ _ CC_DEVICE_FEATURE 4 ltac:(by left) Hc). change (cc_read _ _ _ _) with (vc_offered 0).
  config_write hhdm Hc CC_DEVICE_FEATURE_SELECT 4%nat 1.
  rewrite (configured_read hhdm _ _ _ CC_DEVICE_FEATURE 4 ltac:(by left) Hc). change (cc_read _ _ _ _) with (vc_offered 1).
  destruct (Z.land (vc_offered 1) _ =? 0); [by apply configured_same in Hc|].
  config_write hhdm Hc CC_DRIVER_FEATURE_SELECT 4%nat 0.
  config_write hhdm Hc CC_DRIVER_FEATURE 4%nat (Z.land (vc_offered 0) VIRTIO_BLK_F_FLUSH_BIT).
  config_write hhdm Hc CC_DRIVER_FEATURE_SELECT 4%nat 1.
  config_write hhdm Hc CC_DRIVER_FEATURE 4%nat VIRTIO_F_VERSION_1_HI.
  config_write hhdm Hc CC_DEVICE_STATUS 1%nat (Z.lor (Z.lor S_ACK S_DRIVER) S_FEATURES_OK).
  rewrite (configured_status hhdm _ _ _ Hc). cbn [cc_status].
  destruct (vc_accepts _ _); [|by apply configured_same in Hc].
  done.
Qed.

Lemma enable_queue_spec s w fl glo qsize f1 f2 f3 f4 :
  common w = hhdm + vc_base → notify_base w = hhdm + vc_nbase → notify_mul w = vc_nmul → notify_phys w = vc_nbase →
  configured s (mkCC 1 1 glo 1 11 0 qsize 0 0 0 0) s →
  let s' := enable_queue hhdm s w fl qsize (f1 * 4096, hhdm + f1 * 4096) (f2 * 4096, hhdm + f2 * 4096)
    (f3 * 4096, hhdm + f3 * 4096) (f4 * 4096, hhdm + f4 * 4096) in
  ∃ s0, vb s0 = ready_vb hhdm fl qsize f1 f2 f3 f4 ∧ ram s0 = ram s ∧ kept (vdev s) (vdev s0) ∧
    configured s0 (mkCC 1 1 glo 1 15 0 qsize 1 (f1 * 4096) (f2 * 4096) (f3 * 4096)) s'.
Proof.
  intros W1 W2 W3 W4 Hc. unfold enable_queue, w64, w16, w8, r16. rewrite W1, W2, W3, W4. cbn [fst snd].
  config_write hhdm Hc CC_QUEUE_DESC 8%nat (f1 * 4096).
  config_write hhdm Hc CC_QUEUE_DRIVER 8%nat (f2 * 4096).
  config_write hhdm Hc CC_QUEUE_DEVICE 8%nat (f3 * 4096).
  rewrite (configured_read hhdm _ _ _ CC_QUEUE_NOTIFY_OFF 2 ltac:(repeat (first [by left|right])) Hc).
  change (cc_read _ _ _ _) with vc_noff. config_write hhdm Hc CC_QUEUE_ENABLE 2%nat 1.
  pose proof (configured_same _ _ _ Hc) as (E1 & E2 & E3). set (s4 := mkV V _ (ram _) _). exists s4.
  assert (Hc4 : configured s4 (mkCC 1 1 glo 1 11 0 qsize 1 (f1 * 4096) (f2 * 4096) (f3 * 4096)) s4)
    by (destruct Hc; split; done).
  split; [done|]. split; [done|]. split; [done|]. clearbody s4.
  config_write hhdm Hc4 CC_DEVICE_STATUS 1%nat (Z.lor (Z.lor (Z.lor S_ACK S_DRIVER) S_FEATURES_OK) S_DRIVER_OK).
  exact Hc4.
Qed.

(** The rings and the request are in frames of [F]. *)
Definition rings_in (F : gset Z) (v : VirtioBlk) : Prop :=
  Forall (λ p, ∃ f, f ∈ F ∧ p = f * 4096) [v_desc_phys v; v_avail_phys v; v_used_phys v; v_hdr_phys v].

Lemma setup_queue_spec x s0 w offered :
  common w = hhdm + vc_base → notify_base w = hhdm + vc_nbase → notify_mul w = vc_nmul → notify_phys w = vc_nbase →
  mem_inv (vi_fa x) → frames_are_ram (mem_set (vi_fa x)) → 3 <= vc_qmax →
  let glo := Z.land offered VIRTIO_BLK_F_FLUSH_BIT in
  configured s0 (mkCC 1 1 glo 1 11 0 vc_qmax 0 0 0 0) (vi_s x) →
  let '(x', ok) := setup_queue hhdm x w (negb (glo =? 0)) in
  taken x x' ∧ kept (vdev s0) (vdev (vi_s x')) ∧
  if ok then v_present (vb (vi_s x')) = true ∧ idle hhdm (vi_s x') ∧
    v_doorbell_phys (vb (vi_s x')) = vd_doorbell (vdev (vi_s x')) ∧ rings_in (mem_set (vi_fa x)) (vb (vi_s x'))
  else vb (vi_s x') = vb s0.
Proof.
  intros W1 W2 W3 W4 Hi HF Hqm glo Hc. unfold setup_queue, w16, r16. rewrite W1.
  config_write hhdm Hc CC_QUEUE_SELECT 2%nat 0.
  rewrite (configured_read hhdm _ _ _ CC_QUEUE_SIZE 2 ltac:(repeat (first [by left|right])) Hc).
  change (cc_read _ _ _ _) with vc_qmax. rewrite (proj2 (Z.eqb_neq vc_qmax 0)) by lia.
  set (qsize := if vc_qmax <? QSIZE then vc_qmax else QSIZE).
  assert (Hq : 3 <= qsize <= 128) by (unfold qsize, QSIZE; destruct (Z.ltb_spec vc_qmax 128); lia). clearbody qsize.
  config_write hhdm Hc CC_QUEUE_SIZE 2%nat qsize. set (x1 := with_s x _).
  pose proof (alloc_rings_spec hhdm x1 Hi) as Hr. destruct (alloc_rings hhdm x1) as [x2 r]. destruct Hr as (T2 & B2 & D2 & R2).
  change (taken x x2) in T2. pose proof (configured_same _ _ _ Hc) as (E1 & _ & E3). cbn [x1 with_s vi_s vi_fa] in B2, D2, R2.
  destruct r as [q|]; [|split; [done|]; split; [by rewrite D2|congruence]].
  destruct (R2 q eq_refl) as (f1 & f2 & f3 & f4 & -> & Hrf).
  assert (Hc2 : configured (vi_s x2) (mkCC 1 1 glo 1 11 0 qsize 0 0 0 0) (vi_s x2)).
  { destruct Hc. split; rewrite ?D2; done. }
  destruct (enable_queue_spec _ w (negb (glo =? 0)) glo qsize f1 f2 f3 f4 W1 W2 W3 W4 Hc2) as (s4 & V4 & R4 & K4 & Hc4).
  rewrite (configured_read hhdm _ _ _ CC_QUEUE_SIZE 2 ltac:(repeat (first [by left|right])) Hc4).
  set (s5 := enable_queue hhdm _ _ _ _ _ _ _ _) in *. clearbody s5. cbn [with_s vi_s]. destruct Hc4 as [V5 R5 G5 T5 L5 K5].
  rewrite D2 in K4. split; [exact T2|]. split; [by do 2 (etransitivity; [eassumption|])|].
  rewrite V5, V4. split; [done|]. split; [|split; [by rewrite vc_doorbell|destruct Hrf as [(? & ? & ? & ?) _ _]; do 4 (apply Forall_cons; split; [eexists; split; [|reflexivity]; done|]); done]].
  destruct (vc_configured (vdev s5) T5) as [Q5 C5]. rewrite G5 in Q5, C5.
  apply (ready_idle hhdm (mem_set (vi_fa x)) (negb (glo =? 0)) qsize f1 f2 f3 f4); try done.
  - by rewrite R5, R4.
  - by rewrite V5.
  - rewrite Q5, V5, V4. done.
  - rewrite C5. apply flush_bit.
Qed.
End setup.

(** ** The windows *)

Section windows.
Context {B V : Type} `{PciConf B} `{PL : !PciLaws B} `{VirtioCommon V} {CL : VirtioCommonLaws V} `{MapperLaws}.
Variable (hhdm : Z).
Implicit Types (c : B) (x : VInit B V) (w : Windows).

(** Mapping takes frames only for tables. *)
Lemma map_range_frames st fa p n :
  pt_wf st fa → 0 <= p → p + Z.of_nat n <= 2 ^ 52 →
  let '(st', fa', _) := map_range_loop st fa hhdm (p * 4096) n in
  pt_wf st' fa' ∧ mem_set fa' ⊆ mem_set fa ∧
  ∀ va, (∀ q, p <= q < p + Z.of_nat n → vpn (hhdm + q * 4096) ≠ vpn va) → translate st' va = translate st va.
Proof.
  revert st fa p. induction n as [|n IH]; intros st fa p Hwf Hp Hn; [done|]. cbn [map_range_loop].
  replace (p * 4096 + 0x1000) with ((p + 1) * 4096) by lia.
  destruct (translate_page _ _).
  { specialize (IH st fa (p + 1) Hwf ltac:(lia) ltac:(lia)). destruct (map_range_loop st fa hhdm _ n) as [[st2 fa2] ok2].
    destruct IH as (I1 & I2 & I3). split; [done|]. split; [done|]. intros va Hva. apply I3. intros q Hq. apply Hva. lia. }
  destruct (map_to st fa _ (p * 4096) mmio_flags) as [[st1 fa1] ok] eqn:E.
  assert (Hargs : map_args (page_of (hhdm + p * 4096)) (p * 4096) mmio_flags)
    by (split; [apply page_of_idem|split; [apply page_of_frame; lia|done]]).
  destruct (map_to_law _ _ _ _ _ _ _ _ Hwf Hargs E) as (Hwf1 & Hsub & _ & Ho & Hpg).
  rewrite vpn_page_of in Ho.
  assert (Hva1 : ∀ va, (∀ q, p <= q < p + Z.of_nat (S n) → vpn (hhdm + q * 4096) ≠ vpn va) → translate st1 va = translate st va).
  { intros va Hva. apply Ho, not_eq_sym, Hva. lia. }
  destruct ok; [|done].
  specialize (IH st1 fa1 (p + 1) Hwf1 ltac:(lia) ltac:(lia)).
  destruct (map_range_loop st1 fa1 hhdm _ n) as [[st2 fa2] ok2].
  destruct IH as (I1 & I2 & I3). split; [done|]. split; [by etransitivity|].
  intros va Hva. rewrite I3; [by apply Hva1|]. intros q Hq. apply Hva. lia.
Qed.

(** No page of the direct map of [phys, phys + len) is the page of [va]. *)
Definition pages_apart (phys len va : Z) : Prop :=
  ∀ q, phys / 4096 <= q <= (phys + len - 1) / 4096 → vpn (hhdm + q * 4096) ≠ vpn va.

Lemma map_mmio_frames st fa phys len :
  pt_wf st fa → 0 <= phys → 0 <= len → phys + len <= 2 ^ 64 →
  let '(st', fa', r) := map_mmio_range st fa hhdm phys len in
  pt_wf st' fa' ∧ mem_set fa' ⊆ mem_set fa ∧ (∀ v, r = Some v → v = hhdm + phys) ∧
  ∀ va, pages_apart phys len va → translate st' va = translate st va.
Proof.
  intros Hwf Hp Hlen Hlim. unfold map_mmio_range, pages_apart. destruct (Z.eqb_spec len 0); [split; [done|split; [done|split; [naive_solver|done]]]|].
  rewrite !page_of_div by (unfold fits; lia). set (p := phys / 4096). set (q := (phys + len - 1) / 4096).
  assert (0 <= p <= q) by (split; [apply Z.div_pos; lia|apply Z.div_le_mono; lia]).
  assert (q < 2 ^ 52) by (apply Z.div_lt_upper_bound; lia).
  replace (q * 4096 - p * 4096) with ((q - p) * 0x1000) by lia. rewrite Z.div_mul by lia.
  pose proof (map_range_frames st fa p (Z.to_nat (q - p + 1)) Hwf ltac:(lia) ltac:(lia)) as Hm.
  destruct (map_range_loop st fa hhdm (p * 4096) _) as [[st1 fa1] ok]. destruct Hm as (M1 & M2 & M3). split; [done|]. split; [done|].
  split; [by destruct ok; naive_solver|]. intros va Hva. apply M3. intros q' Hq'. apply Hva. lia.
Qed.

(** Configuration space, as the walk reads it. *)
Definition cfg_byte c (bus dev func off : Z) : Z :=
  wrap 8 (Z.shiftr (reg32 c bus dev func (Z.land off (lnotw 16 3))) (Z.land off 3 * 8)).
Definition base_of c (bus dev func i : Z) : Z :=
  let raw := reg32 c bus dev func (0x10 + i * 4) in
  if Z.odd raw then Z.land raw 0xFFFFFFFC
  else if Z.land (Z.shiftr raw 1) 0x3 =? 0x2 then
    Z.lor (Z.land raw 0xFFFFFFF0) (Z.shiftl (reg32 c bus dev func (0x10 + i * 4 + 4)) 32)
  else Z.land raw 0xFFFFFFF0.
Definition window_phys c (bus dev func cap : Z) : Z :=
  base_of c bus dev func (cfg_byte c bus dev func (cap + 4)) + reg32 c bus dev func (cap + 8).

Definition window_apart c (bus dev func va cap : Z) : Prop :=
  cfg_byte c bus dev func cap = PCI_CAP_ID_VNDR →
  pages_apart (window_phys c bus dev func cap) (reg32 c bus dev func (cap + 12)) va.

Fixpoint cap_list (n : nat) c (bus dev func cap : Z) : list Z :=
  match n with
  | O => []
  | S n => if cap =? 0 then [] else cap :: cap_list n c bus dev func (Z.land (cfg_byte c bus dev func (cap + 1)) 0xFC)
  end.

(** A capability that does not mislead the driver: a vendor capability names a window
    below 2^64, the common configuration where it is, the notification window likewise. *)
Definition cap_ok c (bus dev func cap : Z) : Prop :=
  cfg_byte c bus dev func cap = PCI_CAP_ID_VNDR →
  0 <= window_phys c bus dev func cap ∧
  window_phys c bus dev func cap + reg32 c bus dev func (cap + 12) <= 2 ^ 64 ∧
  (cfg_byte c bus dev func (cap + 3) = VIRTIO_PCI_CAP_COMMON_CFG → window_phys c bus dev func cap = vc_base) ∧
  (cfg_byte c bus dev func (cap + 3) = VIRTIO_PCI_CAP_NOTIFY_CFG →
    window_phys c bus dev func cap = vc_nbase ∧ reg32 c bus dev func (cap + 16) = vc_nmul).

Lemma read8_same c p bus dev func off :
  same_conf c (conf p) → ∃ a, cfg_read8 p bus dev func off = (mkPci B a (conf p), cfg_byte c bus dev func off).
Proof. intros Hs. unfold cfg_read8. rewrite (read_same c) by done. by eexists. Qed.

Lemma bar_base_same c p bus dev func i :
  same_conf c (conf p) → ∃ a, bar_base p bus dev func i = (mkPci B a (conf p), base_of c bus dev func i).
Proof.
  intros Hs. unfold bar_base, base_of. rewrite (read_same c) by done. rewrite land1_odd. destruct (Z.odd _); [by eexists|].
  destruct (_ =? _); [|by eexists]. rewrite (read_same c) by done. by eexists.
Qed.

(** What the walk has found so far is right. *)
Definition windows_ok w : Prop :=
  (common w = 0 ∨ common w = hhdm + vc_base) ∧
  (notify_base w = 0 ∨ notify_base w = hhdm + vc_nbase ∧ notify_mul w = vc_nmul ∧ notify_phys w = vc_nbase).

Definition walked c x x' : Prop :=
  same_conf c (conf (vi_pci x')) ∧ pt_wf (vi_ps x') (vi_fa x') ∧ mem_set (vi_fa x') ⊆ mem_set (vi_fa x) ∧ vi_s x' = vi_s x.

Lemma take_window_spec c x bus dev func cap w :
  same_conf c (conf (vi_pci x)) → pt_wf (vi_ps x) (vi_fa x) →
  cfg_byte c bus dev func cap = PCI_CAP_ID_VNDR → cap_ok c bus dev func cap → windows_ok w →
  let '(x', r) := take_window hhdm x bus dev func cap w in
  walked c x x' ∧ (∀ w', r = Some w' → windows_ok w') ∧
  ∀ va, window_apart c bus dev func va cap → translate (vi_ps x') va = translate (vi_ps x) va.
Proof.
  intros Hs Hwf Hv Hok [Hw1 Hw2]. destruct (Hok Hv) as (P0 & P1 & P2 & P3). unfold take_window.
  destruct (read8_same c (vi_pci x) bus dev func (cap + 3) Hs) as [a1 ->].
  destruct (read8_same c (mkPci B a1 (conf (vi_pci x))) bus dev func (cap + 4) Hs) as [a2 ->]. cbn [conf].
  rewrite (read_same c) by done. rewrite (read_same c) by done. cbn [conf].
  destruct (bar_base_same c (mkPci B (cfg_addr bus dev func (cap + 12)) (conf (vi_pci x))) bus dev func
    (cfg_byte c bus dev func (cap + 4)) Hs) as [a3 ->]. cbn [conf].
  change (base_of _ _ _ _ _ + reg32 c bus dev func (cap + 8)) with (window_phys c bus dev func cap).
  pose proof (map_mmio_frames (vi_ps x) (vi_fa x) _ _ Hwf P0 (proj1 (reg32_fits c bus dev func (cap + 12))) P1) as Hm.
  destruct (map_mmio_range _ _ _ _ _) as [[ps fa] r]. destruct Hm as (Hwf' & Hsub & Hr & Ht).
  assert (Ht' : ∀ va, window_apart c bus dev func va cap → translate ps va = translate (vi_ps x) va) by (intros va Hva; by apply Ht, Hva).
  clear Ht. destruct r as [va|]; [|done]. rewrite (Hr va eq_refl). unfold walked.
  destruct (Z.eqb_spec (cfg_byte c bus dev func (cap + 3)) VIRTIO_PCI_CAP_COMMON_CFG) as [E|_].
  { split; [done|]. split; [|done]. intros w' [= <-]. split; cbn; [|done]. right. by rewrite P2. }
  destruct (Z.eqb_spec (cfg_byte c bus dev func (cap + 3)) VIRTIO_PCI_CAP_NOTIFY_CFG) as [E|_].
  { rewrite (read_same c) by done. destruct (P3 E) as [P4 P5]. split; [done|]. split; [|done]. intros w' [= <-].
    split; cbn; [done|]. right. by rewrite P4, P5. }
  destruct (_ =? VIRTIO_PCI_CAP_DEVICE_CFG); (split; [done|]); (split; [|done]); intros w' [= <-]; done.
Qed.

Lemma cap_walk_spec c bus dev func n x cap w :
  same_conf c (conf (vi_pci x)) → pt_wf (vi_ps x) (vi_fa x) →
  Forall (cap_ok c bus dev func) (cap_list n c bus dev func cap) → windows_ok w →
  let '(x', r) := cap_walk hhdm n x bus dev func cap w in
  walked c x x' ∧ (∀ w', r = Some w' → windows_ok w') ∧
  ∀ va, Forall (window_apart c bus dev func va) (cap_list n c bus dev func cap) → translate (vi_ps x') va = translate (vi_ps x) va.
Proof.
  revert x cap w. induction n as [|n IH]; intros x cap w Hs Hwf Hall Hw; cbn [cap_walk cap_list] in *.
  { split; [done|]. split; [|done]. by intros w' [= <-]. }
  destruct (cap =? 0). { split; [done|]. split; [|done]. by intros w' [= <-]. }
  apply Forall_cons in Hall as [Hok Hall].
  destruct (read8_same c (vi_pci x) bus dev func cap Hs) as [a1 ->].
  destruct (read8_same c (mkPci B a1 (conf (vi_pci x))) bus dev func (cap + 1) Hs) as [a2 ->]. cbn [conf].
  set (x1 := with_pci x _). destruct (Z.eqb_spec (cfg_byte c bus dev func cap) PCI_CAP_ID_VNDR) as [E|_].
  - pose proof (take_window_spec c x1 bus dev func cap w Hs Hwf E Hok Hw) as Ht.
    destruct (take_window hhdm x1 bus dev func cap w) as [x2 r]. destruct Ht as [(T1 & T2 & T3 & T4) [Tw Tt]].
    destruct r as [w2|]; [|split; [done|]; split; [done|]; intros va [Hva _]%Forall_cons; by apply Tt]. specialize (IH x2 _ w2 T1 T2 Hall (Tw w2 eq_refl)).
    destruct (cap_walk hhdm n x2 bus dev func _ w2) as [x3 r3]. destruct IH as [(U1 & U2 & U3 & U4) [Uw Ut]].
    split; [|split; [done|]]. { split; [done|]. split; [done|]. split; [by etransitivity|by rewrite U4, T4]. }
    intros va [Hva Hvas]%Forall_cons. rewrite Ut by done. by apply Tt.
  - specialize (IH x1 _ w Hs Hwf Hall Hw). destruct (cap_walk hhdm n x1 bus dev func _ w) as [x3 r3]. destruct IH as (I1 & I2 & I3).
    split; [done|]. split; [done|]. intros va [_ Hvas]%Forall_cons. by apply I3.
Qed.
End windows.

(** ** Initialisation *)

Section spec.
Context {B V : Type} `{PciConf B} {PL : PciLaws B} `{VirtioCommon V} {CL : VirtioCommonLaws V} `{Mapper} {ML : MapperLaws}.
Variable (hhdm : Z).
Implicit Types (x : VInit B V).

(** The capability list of the device found describes the device. *)
Definition device_described x : Prop :=
  ∀ p bus dev func, find_virtio_blk (vi_pci x) = (p, Some (bus, dev, func)) →
  let c := conf (enable_bus_master p bus dev func) in
  Forall (cap_ok c bus dev func) (cap_list 48 c bus dev func (Z.land (cfg_byte c bus dev func 0x34) 0xFC)).

(** No window of the device found has the page of [va]. *)
Definition device_apart x (va : Z) : Prop :=
  ∀ p bus dev func, find_virtio_blk (vi_pci x) = (p, Some (bus, dev, func)) →
  let c := conf (enable_bus_master p bus dev func) in
  Forall (window_apart hhdm c bus dev func va) (cap_list 48 c bus dev func (Z.land (cfg_byte c bus dev func 0x34) 0xFC)).

(** What the driver does to the page tables and the free frames. *)
Definition tables_kept x x' : Prop :=
  pt_wf (vi_ps x') (vi_fa x') ∧ mem_set (vi_fa x') ⊆ mem_set (vi_fa x) ∧
  ∀ va, device_apart x va → translate (vi_ps x') va = translate (vi_ps x) va.

(** A machine on which [init] can run. *)
Record bootable x : Prop := {
  bo_tables : pt_wf (vi_ps x) (vi_fa x);
  bo_ram : frames_are_ram (mem_set (vi_fa x));
  bo_described : device_described x;
  bo_queue : 3 <= vc_qmax;
}.

Lemma init_ready x :
  bootable x →
  let '(x', ok) := init hhdm x in
  tables_kept x x' ∧ kept (vdev (vi_s x)) (vdev (vi_s x')) ∧
  if ok then v_present (vb (vi_s x')) = true ∧ idle hhdm (vi_s x') ∧
    v_doorbell_phys (vb (vi_s x')) = vd_doorbell (vdev (vi_s x')) ∧ rings_in (mem_set (vi_fa x)) (vb (vi_s x'))
  else vb (vi_s x') = vb (vi_s x).
Proof.
  intros [Hwf HF Hd Hq]. unfold init. destruct (find_virtio_blk (vi_pci x)) as [p [[[bus dev] func]|]] eqn:Hf; [|by split].
  specialize (Hd p bus dev func Hf). cbv zeta in Hd. set (p1 := enable_bus_master p bus dev func) in *.
  destruct (read8_same (conf p1) p1 bus dev func 0x34 ltac:(done)) as [a ->]. set (x1 := with_pci x _).
  assert (Hw0 : windows_ok hhdm (mkW 0 0 0 0 0)) by (split; by left).
  pose proof (cap_walk_spec hhdm (conf p1) bus dev func 48 x1 _ (mkW 0 0 0 0 0) ltac:(done) Hwf Hd Hw0) as Hc.
  destruct (cap_walk hhdm 48 x1 bus dev func _ _) as [x2 r]. destruct Hc as [(_ & Hwf2 & Hsub & Hs2) [Hw Ht]].
  assert (Hk : tables_kept x x2).
  { split; [done|]. split; [done|]. intros va Hva. apply Ht. exact (Hva p bus dev func Hf). }
  cbn [x1 with_pci vi_s vi_fa] in Hs2, Hsub. destruct r as [w|]; [|by rewrite Hs2].
  destruct (Hw w eq_refl) as [W1 W2]. destruct (_ || _) eqn:Hz; [by rewrite Hs2|]. apply orb_false_iff in Hz as [Z1 Z2]. bools.
  destruct W1 as [?|W1]; [done|]. destruct W2 as [?|(W2 & W3 & W4)]; [done|].
  pose proof (negotiate_spec hhdm (vi_s x2)) as Hn. rewrite W1. rewrite Hs2 in Hn |- *.
  destruct (negotiate hhdm (vi_s x) (hhdm + vc_base)) as [s [fl|]].
  - destruct Hn as [-> Hn].
    pose proof (setup_queue_spec hhdm (with_s x2 s) (vi_s x) w (vc_offered 0) W1 W2 W3 W4 (proj1 Hwf2)
      (λ f Hin, HF f (Hsub f Hin)) Hq Hn) as Hsq. cbv zeta in Hsq.
    destruct (setup_queue hhdm _ _ _) as [x3 ok]. destruct Hsq as ((T1 & T2 & T3) & K3 & R3).
    cbn [with_s vi_fa vi_ps vi_s] in T2, T3, R3. split; [|split; [done|]].
    + destruct Hk as (_ & _ & Hk). split; [|split; [by etransitivity|by rewrite T3]]. rewrite T3. by apply (pt_wf_ext (vi_ps x2) _ (vi_fa x2)).
    + destruct ok; [|done]. destruct R3 as (R31 & R32 & R33 & R34). split; [done|]. split; [done|]. split; [done|].
      eapply Forall_impl; [exact R34|]. intros ph (f & Hin & ->). exists f. split; [by apply Hsub|done].
  - destruct Hn as (E1 & _ & E3). done.
Qed.


(** On a disk that answers, [smoke_test] reports a match whenever [init] succeeds,
    leaves the driver ready, and changes no sector but its own. *)
Theorem smoke_test_passes {VL : VirtioLaws V} {VR : VirtioResponsive V} x :
  bootable x →
  let '(x', r) := smoke_test hhdm x in
  (∀ l, l ≠ SMOKE_LBA → vd_view (vdev (vi_s x')) l = vd_view (vdev (vi_s x)) l) ∧
  ∀ rt fl, r = Some (rt, fl) →
    rt = true ∧ vd_view (vdev (vi_s x')) SMOKE_LBA = smoke_pattern ∧ vb_inv hhdm (vi_s x') ∧ v_present (vb (vi_s x')) = true.
Proof.
  intros Hb. unfold smoke_test. pose proof (init_ready x Hb) as Hi. destruct (init hhdm x) as [x1 ok]. destruct Hi as (_ & [Hv _] & Hi).
  destruct ok; [|split; [auto|done]]. destruct Hi as (Hp & Hid & _). set (s := vi_s x1) in *.
  assert (Hinv : vb_inv hhdm s) by by intros _. assert (Hl : fits 64 SMOKE_LBA) by by vm_compute.
  assert (Hlen : length smoke_pattern = 512%nat) by by vm_compute.
  pose proof (write_sector_spec hhdm s SMOKE_LBA smoke_pattern Hinv Hl Hlen) as Hw.
  destruct (submit_ok hhdm (mkV V (vb s) (wr_bytes (ram s) (v_data (vb s) - hhdm) smoke_pattern) (vdev s)) VIRTIO_BLK_T_OUT SMOKE_LBA true
    Hp (idle_data hhdm s smoke_pattern Hlen Hid) ltac:(by vm_compute) Hl) as (s1 & E1 & V1).
  { right. left. split; [done|]. by eexists. }
  unfold write_sector in *. rewrite Hp in *. cbn [negb] in *. rewrite E1 in *. destruct Hw as (I1 & O1 & S1 & _).
  cbn [vb] in V1. assert (Hp1 : v_present (vb s1) = true) by by rewrite V1.
  pose proof (read_sector_spec hhdm s1 SMOKE_LBA I1 Hl) as Hr. unfold read_sector in *.
  destruct (submit_ok hhdm s1 VIRTIO_BLK_T_IN SMOKE_LBA true Hp1 (I1 Hp1) ltac:(by vm_compute) Hl) as (s2 & E2 & V2).
  { left. split; [done|]. by eexists. }
  rewrite E2 in *. destruct Hr as (I2 & O2 & _ & R2). cbn [with_s vi_s]. split.
  - intros l Hne. by rewrite O2, O1, Hv.
  - intros rt fl [= <- _]. rewrite (R2 _ eq_refl), O2, S1 by done. split; [by apply bool_decide_eq_true|].
    split; [done|]. split; [done|]. by rewrite V2.
Qed.
(** Whether or not the disk answers, [smoke_test] keeps the page tables sound and leaves
    the driver off or idle, with its rings in frames that were free. *)
Lemma smoke_keeps {VL : VirtioLaws V} x :
  bootable x → v_present (vb (vi_s x)) = false →
  let '(x', _) := smoke_test hhdm x in
  tables_kept x x' ∧ vb_inv hhdm (vi_s x') ∧
  ∃ v, vb_kept v (vb (vi_s x')) ∧ (v = vb (vi_s x) ∨ rings_in (mem_set (vi_fa x)) v ∧ v_doorbell_phys v = vc_nbase + vc_noff * vc_nmul).
Proof.
  intros Hb Hp. unfold smoke_test. pose proof (init_ready x Hb) as Hi. destruct (init hhdm x) as [x1 ok]. destruct Hi as (Hk & _ & Hi).
  destruct ok; cycle 1.
  { split; [done|]. split; [intros Hp'; by rewrite Hi, Hp in Hp'|]. exists (vb (vi_s x)). split; [by rewrite Hi|by left]. }
  destruct Hi as (_ & Hid & Hdb & Hr). rewrite vc_doorbell in Hdb. assert (Hinv : vb_inv hhdm (vi_s x1)) by by intros _.
  pose proof (write_sector_spec hhdm (vi_s x1) SMOKE_LBA smoke_pattern Hinv ltac:(by vm_compute) ltac:(by vm_compute)) as Hw.
  pose proof (write_sector_vb hhdm (vi_s x1) SMOKE_LBA smoke_pattern) as Kw.
  destruct (write_sector hhdm (vi_s x1) SMOKE_LBA smoke_pattern) as [s1 ok1]. destruct Hw as [I1 _].
  assert (Hend : ∀ s, vb_inv hhdm s → vb_kept (vb s1) (vb s) → tables_kept x (with_s x1 s) ∧ vb_inv hhdm (vi_s (with_s x1 s)) ∧
    ∃ v, vb_kept v (vb (vi_s (with_s x1 s))) ∧
      (v = vb (vi_s x) ∨ rings_in (mem_set (vi_fa x)) v ∧ v_doorbell_phys v = vc_nbase + vc_noff * vc_nmul)).
  { intros s Hs Ks. split; [done|]. split; [done|]. exists (vb (vi_s x1)). split; [by etransitivity|by right]. }
  destruct ok1; [|by apply Hend].
  pose proof (read_sector_spec hhdm s1 SMOKE_LBA I1 ltac:(by vm_compute)) as Hrd. pose proof (read_sector_vb hhdm s1 SMOKE_LBA) as Kr.
  destruct (read_sector hhdm s1 SMOKE_LBA) as [s2 r2]. destruct Hrd as [I2 _]. by destruct r2; apply Hend.
Qed.
End spec.

(** ** A machine

    The disk of [VirtioDriver] behind the registers of a common configuration, on a bus
    whose function 00:03.0 describes it. *)

Record live_disk := mkLD { ld_regs : CC; ld_resetting : bool; ld_last : Z; ld_data : disk }.

Definition live_queue (d : live_disk) : option VQ := if ld_resetting d then None else cc_queue (ld_regs d).
Definition disk_of (d : live_disk) : demo_disk := mkDD (live_queue d) (ld_last d) (ld_data d).

Definition live_base : Z := 0x1000000.
Definition live_offered (sel : Z) : Z := if sel =? 0 then 0x204 else 1.
Definition live_accepts (lo hi : Z) : bool := hi =? 1.
Definition live_reset : CC := mkCC 0 0 0 0 0 0 256 0 0 0 0.

Definition live_read (d : live_disk) (a : Z) (n : nat) : live_disk * Z :=
  if a =? live_base + CC_DEVICE_STATUS then
    if ld_resetting d then (mkLD live_reset false 0 (ld_data d), 0) else (d, cc_status (ld_regs d))
  else (d, cc_read live_offered 0 (a - live_base) (ld_regs d)).
Definition live_write (d : live_disk) (a : Z) (n : nat) (v : Z) : live_disk :=
  if live_base + 0x1000 <=? a then d
  else if (a =? live_base + CC_DEVICE_STATUS) && (v =? 0) then mkLD (ld_regs d) true (ld_last d) (ld_data d)
  else mkLD (cc_write live_accepts (a - live_base) v (ld_regs d)) (ld_resetting d) (ld_last d) (ld_data d).

#[export] Instance live_dev : VirtioDev live_disk := {
  vd_mmio a := (live_base <=? a) && (a <? live_base + 0x2000);
  vd_read := live_read;
  vd_write := live_write;
  vd_poll d m := let '(dd, m) := demo_serve (disk_of d) m in (mkLD (ld_regs d) (ld_resetting d) (dd_last dd) (dd_data dd), m);
  vd_queue := live_queue;
  vd_last := ld_last;
  vd_doorbell _ := live_base + 0x1000;
  vd_cached d := Z.testbit (cc_glo (ld_regs d)) 9;
  vd_view d := demo_view (disk_of d);
  vd_crash d x := ∀ l, x l = demo_view (disk_of d) l;
}.

#[export] Instance live_common : VirtioCommon live_disk := {
  vc_base := live_base;
  vc_nbase := live_base + 0x1000;
  vc_nmul := 4;
  vc_noff := 0;
  vc_offered := live_offered;
  vc_accepts := live_accepts;
  vc_qmax := 256;
  vc_regs := ld_regs;
  vc_resetting := ld_resetting;
}.

#[export] Instance live_common_laws : VirtioCommonLaws live_disk.
Proof.
  split.
  - intros off Ho. cbn. unfold live_base. apply andb_true_iff. split; [apply Z.leb_le|apply Z.ltb_lt]; lia.
  - intros d. by vm_compute.
  - intros d d' y. cbn [vd_read live_dev vc_base live_common]. unfold live_read. rewrite Z.eqb_refl. cbn [vc_resetting live_common].
    destruct (ld_resetting d) eqn:E; intros [= <- <-]; (split; [done|]); [|done]. right. done.
  - intros d off n v Hr Hin Hv. cbn [vd_write live_dev vc_base live_common]. unfold live_write.
    assert (Ho : 0 <= off < 0x38).
    { repeat (apply elem_of_cons in Hin as [[= -> _]|Hin]; [by vm_compute|]). by apply elem_of_nil in Hin. }
    rewrite (proj2 (Z.leb_gt _ _)) by lia.
    assert (E : (live_base + off =? live_base + CC_DEVICE_STATUS) && (v =? 0) = false).
    { apply andb_false_iff. destruct (decide (off = CC_DEVICE_STATUS)) as [->|]; [right|left]; apply Z.eqb_neq; [naive_solver|lia]. }
    rewrite E. cbn. replace (live_base + off - live_base) with off by lia. done.
  - intros d off n Hr Hin. cbn [vd_read live_dev vc_base live_common]. unfold live_read.
    repeat (apply elem_of_cons in Hin as [[= -> _]|Hin]; [done|]). by apply elem_of_nil in Hin.
  - intros d Hr. cbn in *. unfold live_queue. by rewrite Hr.
  - done.
Qed.

Lemma live_poll_pending d m q r :
  vd_queue d = Some q → avail_idx m q = wrap 16 (vd_last d + 1) → blk_req m q (vd_last d) = Some r →
  vd_poll d m = (let dd := demo_store (disk_of d) m r in mkLD (ld_regs d) (ld_resetting d) (dd_last dd) (dd_data dd),
                 demo_done q (disk_of d) m r).
Proof.
  intros Hq Ha Hr. pose proof (demo_serve_pending (disk_of d) m q r Hq Ha Hr) as E. cbn in E |- *. by rewrite E.
Qed.

#[export] Instance live_laws : VirtioLaws live_disk.
Proof.
  split; [| |done|done].
  - intros d m q r d' m' H1 H2 H3 Hok Hw Hp. pose proof (demo_serve_pending (disk_of d) m q r H1 H2 H3) as E.
    rewrite (live_poll_pending d m q r H1 H2 H3) in Hp. injection Hp as <- <-.
    destruct (@vd_poll_law demo_disk demo_dev demo_laws (disk_of d) m q r _ _ H1 H2 H3 Hok Hw E) as [[B1 B2 B3 B4 B5 B6 B7] Hr]. split; [by split|exact Hr].
  - intros d. vm_compute. done.
Qed.

#[export] Instance live_responsive : VirtioResponsive live_disk.
Proof.
  refine {| vd_rank _ _ := 0 |}. intros d m q r d' m' H1 H2 H3 Hok Hw Hp.
  pose proof (demo_serve_pending (disk_of d) m q r H1 H2 H3) as E.
  rewrite (live_poll_pending d m q r H1 H2 H3) in Hp. injection Hp as <- <-.
  exact (@vd_rank_law demo_disk demo_dev demo_responsive (disk_of d) m q r _ _ H1 H2 H3 Hok Hw E).
Defined.

(** Two vendor capabilities, for the common configuration and the notification window. *)
Definition live_conf : Z → Z := λ a,
  if a =? cfg_addr 0 3 0 0x00 then 0x10421AF4
  else if a =? cfg_addr 0 3 0 0x08 then 0x01000001
  else if a =? cfg_addr 0 3 0 0x20 then live_base + 4
  else if a =? cfg_addr 0 3 0 0x34 then 0x40
  else if a =? cfg_addr 0 3 0 0x40 then 0x01105409
  else if a =? cfg_addr 0 3 0 0x44 then 4
  else if a =? cfg_addr 0 3 0 0x4C then 0x1000
  else if a =? cfg_addr 0 3 0 0x54 then 0x02140009
  else if a =? cfg_addr 0 3 0 0x58 then 4
  else if a =? cfg_addr 0 3 0 0x5C then 0x1000
  else if a =? cfg_addr 0 3 0 0x60 then 0x1000
  else if a =? cfg_addr 0 3 0 0x64 then 4
  else if Z.land a 0xFC =? 0 then 0xFFFFFFFF
  else 0.

Definition live_machine : VInit (Z → Z) live_disk :=
  mkVI (Z → Z) live_disk (mkPci (Z → Z) 0 live_conf) demo_ps demo_fa
    (mkV live_disk VBLK0 (λ _, 0) (mkLD live_reset false 0 (λ l, replicate 512 (l mod 256)))).

Lemma demo_fa_small f : f ∈ mem_set demo_fa → 0 <= f < 0x1000.
Proof.
  assert (Hall : Forall (λ r, 0 <= r_start r ∧ r_end r <= 0x1000) (omap id (regions demo_fa))).
  { refine (bool_decide_unpack _ _). vm_compute. exact I. }
  unfold mem_set. rewrite elem_of_frames. intros (r & Hr & Hf). rewrite Forall_forall in Hall. specialize (Hall r Hr). lia.
Qed.

Lemma live_bootable : bootable live_machine.
Proof.
  split; [exact demo_pt_wf| | |by vm_compute].
  - intros f Hf%demo_fa_small. split; [lia|]. intros a Ha. cbn [vd_mmio live_dev]. apply andb_false_iff. left.
    apply Z.leb_gt. unfold live_base. lia.
  - intros p bus dev func Hf. assert (Hr : (find_virtio_blk (vi_pci live_machine)).2 = Some (0, 3, 0)) by by vm_compute.
    assert (Hp : (find_virtio_blk (vi_pci live_machine)).1 = mkPci (Z → Z) (cfg_addr 0 3 0 0x08) live_conf) by by vm_compute.
    rewrite Hf in Hr, Hp. cbn [fst snd] in Hr, Hp. injection Hr as -> -> ->. subst p. cbv zeta.
    set (c := conf _). assert (Hl : cap_list 48 c 0 3 0 (Z.land (cfg_byte c 0 3 0 0x34) 0xFC) = [0x40; 0x54]) by by vm_compute.
    rewrite Hl. apply Forall_cons. split; [|apply Forall_singleton]; intros _; vm_compute; repeat split; done.
Qed.


Lemma smoke_test_passes_witness :
  let '(x', r) := @smoke_test (Z → Z) live_disk demo_conf live_dev l1_mapper 0 live_machine in
  ∃ fl, r = Some (true, fl) ∧ vd_view (vdev (vi_s x')) 5 = replicate 512 5.
Proof.
  assert (Hok : ∃ rt fl, (@smoke_test (Z → Z) live_disk demo_conf live_dev l1_mapper 0 live_machine).2 = Some (rt, fl))
    by (do 2 eexists; vm_compute; reflexivity).
  pose proof (@smoke_test_passes (Z → Z) live_disk demo_conf demo_conf_laws live_dev live_common live_common_laws l1_mapper l1_mapper_laws
    0 live_laws live_responsive live_machine live_bootable) as Hs.
  destruct (@smoke_test (Z → Z) live_disk demo_conf live_dev l1_mapper 0 live_machine) as [x' r]. destruct Hok as (rt & fl & E).
  cbn in E. destruct Hs as [Hv Hr]. destruct (Hr rt fl E) as (-> & _). exists fl. split; [exact E|].
  rewrite (Hv 5 ltac:(done)). vm_compute. reflexivity.
Defined.
