(* ===== verification/Capspace.v ===== *)
(** * The capability space ([kernel/src/capspace.rs])

    The object table, the per-domain capability tables and the payloads the kernel
    keeps beside them (pending bits, endpoint slots, extent and queue metadata, the
    mapping ledger), with every operation of the module: creation of root
    capabilities, [cap_invoke], the non-blocking methods, endpoint rendezvous with
    capability transfer, and the reaping of a domain.

    [KState] gathers the module's statics and the state of the modules it calls. A
    call that blocks does not return to its caller until the task is woken: its
    result is [IPark], with the context the processor switches to, and the value it
    returns on resumption is what [take_ipc_result] reads. Serial output is left out. *)

From S2P Require Import Prelude Capability CapTable Authority FrameSpec Memory Paging Sched BlockDev ObjStore VirtioBlk.

(** ** Constants *)

Definition M_ALLOC : Z := 1.
Definition M_FREE : Z := 2.
Definition N_SIGNAL : Z := 1.
Definition N_POLL : Z := 2.
Definition E_SEND : Z := 1.
Definition E_RECV : Z := 2.
Definition X_READ : Z := 1.
Definition X_WRITE : Z := 2.
Definition X_COMMIT : Z := 3.
Definition X_MAP : Z := 4.
Definition EXTENT_MAP_BASE : Z := 0x1100000.
Definition DQ_INFO : Z := 1.
Definition DQ_MAP : Z := 2.
Definition DQ_REPORT : Z := 3.
Definition DQ_SUBMIT : Z := 4.
Definition DQ_BASE : Z := 0x1000000.
(** [syscall::CPTR_NULL as u16]. *)
Definition CPTR_NONE : Z := 0xffff.
Definition M_GRANT_TIME : Z := 1.
Definition MAX_DOMAINS : Z := 6.
Definition MAX_MAPS_PER_DOMAIN : Z := 8.
(** Block reasons ([sched.rs]). *)
Definition BLOCK_RECV : Z := 1.
Definition BLOCK_SEND : Z := 2.

(** ** Payloads *)

Inductive EpState := Idle | SendWait | RecvWait.
#[global] Instance EpState_eq_dec : EqDecision EpState.
Proof. solve_decision. Defined.

Record EpSlot := mkEp {
  state : EpState;
  peer_task : Z;
  peer_domain : Z;
  msg0 : Z;
  xfer_cptr : Z;
}.
Definition EP_EMPTY : EpSlot := mkEp Idle 0 0 0 0.
#[global] Instance EpSlot_inhabited : Inhabited EpSlot := populate EP_EMPTY.

Record ExtentMeta := mkExt { lba : Z; len : Z; hash : Z; data_frame_phys : Z }.
Definition EXT_EMPTY : ExtentMeta := mkExt 0 0 0 0.
#[global] Instance ExtentMeta_inhabited : Inhabited ExtentMeta := populate EXT_EMPTY.

Record DqMeta := mkDq {
  desc_phys : Z;
  avail_phys : Z;
  used_phys : Z;
  buf_phys : Z;
  doorbell_phys : Z;
  qsize : Z;
  magic : Z;
  scratch_lba : Z;
}.
Definition DQ_EMPTY : DqMeta := mkDq 0 0 0 0 0 0 0 0.
#[global] Instance DqMeta_inhabited : Inhabited DqMeta := populate DQ_EMPTY.

(** [DomainMaps]: the recorded addresses ([MapEntry] is its one field) and their count. *)
Record DomainMaps := mkDM { entries : list Z; count : Z }.
Definition DM_EMPTY : DomainMaps := mkDM (replicate (Z.to_nat MAX_MAPS_PER_DOMAIN) 0) 0.
#[global] Instance DomainMaps_inhabited : Inhabited DomainMaps := populate DM_EMPTY.

(** ** The state *)

Record KState {D : Type} := mkK {
  caps : sys;                    (* OBJECTS, DOMAINS *)
  notify : list Z;               (* NOTIFY *)
  endpoints : list EpSlot;       (* ENDPOINTS *)
  extents : list ExtentMeta;     (* EXTENTS *)
  devqueues : list DqMeta;       (* DEVQUEUES *)
  domain_maps : list DomainMaps; (* DOMAIN_MAPS *)
  ss : SState;                   (* sched.rs, CURRENT_DOMAIN *)
  fa : FrameAllocator;           (* memory.rs: FRAME_ALLOCATOR *)
  pt : PState;                   (* the active page tables *)
  dev : D;                       (* the block device *)
}.
Arguments KState D : clear implicits.

(** The statics as they are initialised. *)
Definition capspace0 {D} (ss : SState) (fa : FrameAllocator) (pt : PState) (dev : D) : KState D :=
  mkK D (mkSys ObjectTable_new (replicate (Z.to_nat MAX_DOMAINS) CapTable_new))
    (replicate (Z.to_nat OBJECT_TABLE_SIZE) 0)
    (replicate (Z.to_nat OBJECT_TABLE_SIZE) EP_EMPTY)
    (replicate (Z.to_nat OBJECT_TABLE_SIZE) EXT_EMPTY)
    (replicate (Z.to_nat OBJECT_TABLE_SIZE) DQ_EMPTY)
    (replicate (Z.to_nat MAX_DOMAINS) DM_EMPTY) ss fa pt dev.

Section setters.
Context {D : Type}.
Implicit Types (k : KState D).
Definition set_caps k x := mkK D x (notify k) (endpoints k) (extents k) (devqueues k) (domain_maps k) (ss k) (fa k) (pt k) (dev k).
Definition set_notify k x := mkK D (caps k) x (endpoints k) (extents k) (devqueues k) (domain_maps k) (ss k) (fa k) (pt k) (dev k).
Definition set_endpoints k x := mkK D (caps k) (notify k) x (extents k) (devqueues k) (domain_maps k) (ss k) (fa k) (pt k) (dev k).
Definition set_extents k x := mkK D (caps k) (notify k) (endpoints k) x (devqueues k) (domain_maps k) (ss k) (fa k) (pt k) (dev k).
Definition set_devqueues k x := mkK D (caps k) (notify k) (endpoints k) (extents k) x (domain_maps k) (ss k) (fa k) (pt k) (dev k).
Definition set_maps k x := mkK D (caps k) (notify k) (endpoints k) (extents k) (devqueues k) x (ss k) (fa k) (pt k) (dev k).
Definition set_ss k x := mkK D (caps k) (notify k) (endpoints k) (extents k) (devqueues k) (domain_maps k) x (fa k) (pt k) (dev k).
Definition set_mem k x y := mkK D (caps k) (notify k) (endpoints k) (extents k) (devqueues k) (domain_maps k) (ss k) x y (dev k).
Definition set_dev k x := mkK D (caps k) (notify k) (endpoints k) (extents k) (devqueues k) (domain_maps k) (ss k) (fa k) (pt k) x.

Definition objects k : ObjectTable := s_ot (caps k).
Definition table k (d : Z) : CapTable := (s_tables (caps k)).[d].
Definition with_sched_k k (s : Scheduler) : KState D := set_ss k (with_sched (ss k) s).
End setters.

(** The outcome of a call that may block. *)
Inductive ipc_result := IDone (status reply reply_cptr : Z) | IPark (next_rsp : Z).
#[global] Instance ipc_result_eq_dec : EqDecision ipc_result.
Proof. solve_decision. Defined.

Section capspace.
Context `{Bitflags} `{Mapper} {D : Type} `{BlockDev D}.
Implicit Types (k : KState D).

(** ** Root capabilities *)

(** [create_object(kind)?] followed by [tables[0].mint(oid, rights, 0).ok()], with the
    payload write [f] in between. *)
Definition mint_root k (kd : ObjectKind) (r : Z) (f : KState D → Z → option (KState D)) :
    KState D * option Z :=
  match create_object (objects k) kd with
  | (_, None) => (k, None)
  | (ot, Some oid) =>
      let k := set_caps k (mkSys ot (s_tables (caps k))) in
      match f k oid with
      | None => (k, None)
      | Some k =>
          let '(ct, r) := mint (table k 0) (objects k) oid r 0 in
          (set_caps k (set_table (caps k) 0 ct), ok r)
      end
  end.

Definition init_root k : KState D * option Z :=
  mint_root k Kind.Memory
    (rights_union Rights.READ (rights_union Rights.WRITE (rights_union Rights.INVOKE
      (rights_union Rights.MAP Rights.DELEGATE)))) (λ k _, Some k).

Definition create_notification k : KState D * option Z :=
  mint_root k Kind.Notification
    (rights_union Rights.INVOKE (rights_union Rights.READ (rights_union Rights.WRITE
      Rights.DELEGATE))) (λ k _, Some k).

Definition create_endpoint k : KState D * option Z :=
  mint_root k Kind.Endpoint
    (rights_union Rights.INVOKE (rights_union Rights.READ (rights_union Rights.WRITE
      (rights_union Rights.GRANT_CAP Rights.DELEGATE)))) (λ k _, Some k).

Definition mint_timeslice k : KState D * option Z :=
  mint_root k Kind.TimeSlice Rights.INVOKE (λ k _, Some k).

Definition payload_rights : Z :=
  rights_union Rights.INVOKE (rights_union Rights.READ (rights_union Rights.WRITE
    (rights_union Rights.MAP Rights.DELEGATE))).

Definition mint_extent_inner k (l n h frame : Z) : KState D * option Z :=
  mint_root k Kind.Extent payload_rights
    (λ k oid, if OBJECT_TABLE_SIZE <=? oid then None
              else Some (set_extents k (extents k).[oid := mkExt l n h frame])).
Definition mint_extent k (l n h : Z) : KState D * option Z := mint_extent_inner k l n h 0.
Definition mint_extent_mapped k (l n h frame : Z) : KState D * option Z :=
  mint_extent_inner k l n h frame.

Definition create_device_queue k (v : VirtioBlk) (mgc scratch : Z) : KState D * option Z :=
  match device_queue_desc v with
  | None => (k, None)
  | Some dqd =>
      mint_root k Kind.DeviceQueue payload_rights
        (λ k oid, if OBJECT_TABLE_SIZE <=? oid then None
           else Some (set_devqueues k (devqueues k).[oid :=
             mkDq (q_desc_phys dqd) (q_avail_phys dqd) (q_used_phys dqd) (q_buf_phys dqd)
               (q_doorbell_phys dqd) (q_qsize dqd) mgc scratch]))
  end.

Definition delegate_from_root k (dst_domain src_cptr mask bdg : Z) : KState D * option Z :=
  if (dst_domain =? 0) || (MAX_DOMAINS <=? dst_domain) then (k, None)
  else
    let '(ct, r) := delegate (table k 0) (objects k) src_cptr mask bdg (table k dst_domain) in
    (set_caps k (set_table (caps k) dst_domain ct), ok r).

Definition current_domain k : Z := Z.min (current_dom (ss k)) (MAX_DOMAINS - 1).

(** ** Payload operations *)

Definition record_domain_map k (domain va : Z) : KState D :=
  if MAX_DOMAINS <=? domain then k
  else
    let dm := (domain_maps k).[domain] in
    if count dm <? MAX_MAPS_PER_DOMAIN then
      set_maps k (domain_maps k).[domain := mkDM (entries dm).[count dm := va] (count dm + 1)]
    else k.

Definition notify_signal k (oid bits : Z) : KState D :=
  if oid <? OBJECT_TABLE_SIZE then set_notify k (notify k).[oid := Z.lor (notify k).[oid] bits]
  else k.

Definition notify_take k (oid : Z) : KState D * Z :=
  if OBJECT_TABLE_SIZE <=? oid then (k, 0)
  else (set_notify k (notify k).[oid := 0], (notify k).[oid]).

Definition extent_map k (domain oid : Z) : KState D * (Status * Z) :=
  if OBJECT_TABLE_SIZE <=? oid then (k, (ErrBadCPtr, 0))
  else
    let frame := data_frame_phys (extents k).[oid] in
    if frame =? 0 then (k, (ErrMethod, 0))
    else
      match map_user_phys (pt k) (fa k) EXTENT_MAP_BASE frame false false false with
      | (p, f, true) => (record_domain_map (set_mem k f p) domain EXTENT_MAP_BASE, (StOk, EXTENT_MAP_BASE))
      | (p, f, false) => (set_mem k f p, (ErrMethod, 0))
      end.

Definition devqueue_qsize k (oid : Z) : Z :=
  if OBJECT_TABLE_SIZE <=? oid then 0 else qsize (devqueues k).[oid].

(** The pages of [DQ_MAP]: address, frame, writable, no_cache. *)
Definition dq_pages (m : DqMeta) : list (Z * Z * bool * bool) :=
  [(DQ_BASE, desc_phys m, true, false);
   (DQ_BASE + 0x1000, avail_phys m, true, false);
   (DQ_BASE + 0x2000, used_phys m, false, false);
   (DQ_BASE + 0x3000, buf_phys m, true, false);
   (DQ_BASE + 0x4000, doorbell_phys m, true, true)].

Fixpoint map_pages k (domain : Z) (pages : list (Z * Z * bool * bool)) : KState D * bool :=
  match pages with
  | [] => (k, true)
  | (va, phys, writable, nc) :: pages =>
      match map_user_phys (pt k) (fa k) va phys writable false nc with
      | (p, f, true) => map_pages (record_domain_map (set_mem k f p) domain va) domain pages
      | (p, f, false) => (set_mem k f p, false)
      end
  end.

Definition devqueue_map k (domain oid : Z) : KState D * (Status * Z) :=
  if OBJECT_TABLE_SIZE <=? oid then (k, (ErrBadCPtr, 0))
  else
    let m := (devqueues k).[oid] in
    if buf_phys m =? 0 then (k, (ErrMethod, 0))
    else
      match map_pages k domain (dq_pages m) with
      | (k, true) => (k, (StOk, DQ_BASE))
      | (k, false) => (k, (ErrMethod, 0))
      end.

Definition devqueue_report k (oid reported : Z) : Status * Z :=
  if OBJECT_TABLE_SIZE <=? oid then (ErrBadCPtr, 0)
  else (StOk, if reported =? magic (devqueues k).[oid] then 1 else 0).

Definition devqueue_submit k (oid l : Z) : KState D * (Status * Z) :=
  if OBJECT_TABLE_SIZE <=? oid then (k, (ErrBadCPtr, 0))
  else if buf_phys (devqueues k).[oid] =? 0 then (k, (ErrMethod, 0))
  else
    let '(d, r) := BlockDev.run (read_sector l) (dev k) in
    match r with
    | None => (set_dev k d, (ErrMethod, 0))
    | Some sect => (set_dev k d, (StOk, fnv1a sect))
    end.

(** ** Invocation *)

(** A [(kind, method)] pattern of the [match]es below. *)
Definition arm (kd : ObjectKind) (method : Z) (kd0 : ObjectKind) (m0 : Z) : bool :=
  bool_decide (kd = kd0) && (method =? m0).

(** The right a method needs beyond INVOKE. *)
Definition extra_rights (kd : ObjectKind) (method : Z) : Z :=
  if arm kd method Kind.Notification N_SIGNAL then Rights.WRITE
  else if arm kd method Kind.Notification N_POLL then Rights.READ
  else if arm kd method Kind.Extent X_READ then Rights.READ
  else if arm kd method Kind.Extent X_WRITE || arm kd method Kind.Extent X_COMMIT then Rights.WRITE
  else if arm kd method Kind.Extent X_MAP then Rights.MAP
  else if arm kd method Kind.DeviceQueue DQ_INFO then Rights.READ
  else if arm kd method Kind.DeviceQueue DQ_MAP then Rights.MAP
  else if arm kd method Kind.DeviceQueue DQ_REPORT then Rights.WRITE
  else if arm kd method Kind.DeviceQueue DQ_SUBMIT then Rights.WRITE
  else rights_empty.

Definition dispatch_method k (domain : Z) (kd : ObjectKind) (oid r method arg : Z) :
    KState D * (Status * Z) :=
  if negb (rights_contains r (extra_rights kd method)) then (k, (ErrRights, 0))
  else if arm kd method Kind.Memory M_ALLOC then
    match Memory.alloc (fa k) with
    | (f, Some frame) => (set_mem k f (pt k), (StOk, frame))
    | (f, None) => (set_mem k f (pt k), (ErrRights, 0))
    end
  else if arm kd method Kind.Memory M_FREE then (k, (ErrMethod, 0))
  else if arm kd method Kind.Notification N_SIGNAL then (notify_signal k oid arg, (StOk, 0))
  else if arm kd method Kind.Notification N_POLL then
    let '(k, v) := notify_take k oid in (k, (StOk, v))
  else if arm kd method Kind.Extent X_READ then
    (k, (StOk, if oid <? OBJECT_TABLE_SIZE then hash (extents k).[oid] else 0))
  else if arm kd method Kind.Extent X_MAP then extent_map k domain oid
  else if arm kd method Kind.DeviceQueue DQ_INFO then (k, (StOk, devqueue_qsize k oid))
  else if arm kd method Kind.DeviceQueue DQ_MAP then devqueue_map k domain oid
  else if arm kd method Kind.DeviceQueue DQ_REPORT then (k, devqueue_report k oid arg)
  else if arm kd method Kind.DeviceQueue DQ_SUBMIT then devqueue_submit k oid arg
  else (k, (ErrMethod, 0)).

(** The validated entry behind [cptr]: [invoke] with INVOKE, then [lookup]. *)
Definition resolve k (domain cptr method : Z) : result CapEntry Status :=
  match invoke (table k domain) (objects k) cptr method Rights.INVOKE with
  | StOk => lookup (table k domain) cptr (objects k)
  | st => Err st
  end.

Definition cap_invoke_in k (domain cptr method arg : Z) : KState D * (Status * Z) :=
  let domain := Z.min domain (MAX_DOMAINS - 1) in
  match resolve k domain cptr method with
  | Err st => (k, (st, 0))
  | Ok e => dispatch_method k domain (type_tag e) (object_id e) (rights e) method arg
  end.

Definition cap_invoke k (cptr method arg : Z) : KState D * (Status * Z) :=
  cap_invoke_in k (current_domain k) cptr method arg.

Definition extent_metadata k (domain cptr : Z) : option (Z * Z * Z) :=
  let domain := Z.min domain (MAX_DOMAINS - 1) in
  match resolve k domain cptr X_READ with
  | Err _ => None
  | Ok e =>
      if bool_decide (type_tag e = Kind.Extent) && rights_contains (rights e) Rights.READ then
        if OBJECT_TABLE_SIZE <=? object_id e then None
        else let m := (extents k).[object_id e] in Some (lba m, len m, hash m)
      else None
  end.

Definition admit_check k (cptr : Z) : Status :=
  invoke (table k 0) (objects k) cptr M_GRANT_TIME Rights.INVOKE.

Definition revoke_timeslice k (cptr : Z) : KState D * Status :=
  match lookup (table k 0) cptr (objects k) with
  | Err st => (k, st)
  | Ok e => let '(ot, st) := revoke (objects k) (object_id e) in
            (set_caps k (mkSys ot (s_tables (caps k))), st)
  end.

Definition demo_revoke_then_invoke k (cptr : Z) : KState D * Status :=
  match lookup (table k 0) cptr (objects k) with
  | Err _ => (k, ErrBadCPtr)
  | Ok e =>
      let k := set_caps k (mkSys (revoke (objects k) (object_id e)).1 (s_tables (caps k))) in
      let '(k, (st, _)) := cap_invoke_in k 0 cptr M_ALLOC 0 in (k, st)
  end.

(** ** Endpoints *)

(** MOVE: copy through [delegate], then clear the source slot. *)
Definition do_cap_transfer k (src_dom src_cptr dst_dom : Z) : KState D * result Z Status :=
  if (src_dom =? dst_dom) || (MAX_DOMAINS <=? src_dom) || (MAX_DOMAINS <=? dst_dom)
  then (k, Err ErrBadCPtr)
  else
    match delegate (table k src_dom) (objects k) src_cptr rights_all 0 (table k dst_dom) with
    | (ct, Ok dst_cptr) =>
        let c := set_table (caps k) dst_dom ct in
        (set_caps k (set_table c src_dom (clear_slot (s_tables c).[src_dom] src_cptr)), Ok dst_cptr)
    | (_, Err e) => (k, Err e)
    end.

Definition set_state (s : EpState) (ep : EpSlot) : EpSlot :=
  mkEp s (peer_task ep) (peer_domain ep) (msg0 ep) (xfer_cptr ep).
Definition upd_ep k (i : Z) (f : EpSlot → EpSlot) : KState D :=
  set_endpoints k (endpoints k).[i := f (endpoints k).[i]].
Definition wake k (task status reply reply_cptr : Z) : KState D :=
  with_sched_k k (unblock (sched (ss k)) task status reply reply_cptr).

(** [ep_send]; [saved] is where [block_and_switch] leaves the caller's context. *)
Definition ep_send k (send_dom oid msg xfer r saved : Z) : KState D * ipc_result :=
  let fail st := (k, IDone (status_code st) 0 CPTR_NONE) in
  if OBJECT_TABLE_SIZE <=? oid then fail ErrBadCPtr
  else
    let want_xfer := negb (xfer =? CPTR_NONE) in
    if want_xfer && negb (rights_contains r Rights.GRANT_CAP) then fail ErrRights
    else if want_xfer && (CAP_TABLE_SLOTS <=? xfer) then fail ErrBadCPtr
    else
      let ep := (endpoints k).[oid] in
      match state ep with
      | RecvWait =>
          let k := upd_ep k oid (set_state Idle) in
          let '(k, res) := if want_xfer then do_cap_transfer k send_dom xfer (peer_domain ep)
                           else (k, Ok CPTR_NONE) in
          match res with
          | Ok dst_cptr => (wake k (peer_task ep) (status_code StOk) msg dst_cptr,
                            IDone (status_code StOk) 0 CPTR_NONE)
          | Err e => (wake k (peer_task ep) (status_code e) 0 CPTR_NONE,
                      IDone (status_code e) 0 CPTR_NONE)
          end
      | SendWait => fail ErrRights
      | Idle =>
          let cur := current_task (sched (ss k)) in
          let k := upd_ep k oid (λ _, mkEp SendWait (wrap 16 cur) (wrap 16 send_dom) msg
                                       (if want_xfer then xfer else CPTR_NONE)) in
          let '(s, next) := block_current (ss k) saved BLOCK_SEND (wrap 16 oid) in
          (set_ss k s, IPark next)
      end.

Definition ep_recv k (recv_dom oid saved : Z) : KState D * ipc_result :=
  let fail st := (k, IDone (status_code st) 0 CPTR_NONE) in
  if OBJECT_TABLE_SIZE <=? oid then fail ErrBadCPtr
  else
    let ep := (endpoints k).[oid] in
    match state ep with
    | SendWait =>
        let xfer := xfer_cptr ep in
        let k := upd_ep k oid (set_state Idle) in
        let '(k, res) := if negb (xfer =? CPTR_NONE) then do_cap_transfer k (peer_domain ep) xfer recv_dom
                         else (k, Ok CPTR_NONE) in
        match res with
        | Ok dst_cptr => (wake k (peer_task ep) (status_code StOk) 0 CPTR_NONE,
                          IDone (status_code StOk) (msg0 ep) dst_cptr)
        | Err e => (wake k (peer_task ep) (status_code e) 0 CPTR_NONE,
                    IDone (status_code e) 0 CPTR_NONE)
        end
    | RecvWait => fail ErrRights
    | Idle =>
        let cur := current_task (sched (ss k)) in
        let k := upd_ep k oid (λ ep, mkEp RecvWait (wrap 16 cur) (wrap 16 recv_dom) (msg0 ep) (xfer_cptr ep)) in
        let '(s, next) := block_current (ss k) saved BLOCK_RECV (wrap 16 oid) in
        (set_ss k s, IPark next)
    end.

Definition cap_invoke_ipc k (cptr method arg0 xfer saved : Z) : KState D * ipc_result :=
  let domain := current_domain k in
  match resolve k domain cptr method with
  | Err st => (k, IDone (status_code st) 0 CPTR_NONE)
  | Ok e =>
      if arm (type_tag e) method Kind.Endpoint E_SEND then
        ep_send k domain (object_id e) arg0 xfer (rights e) saved
      else if arm (type_tag e) method Kind.Endpoint E_RECV then ep_recv k domain (object_id e) saved
      else if negb (xfer =? CPTR_NONE) then (k, IDone (status_code ErrMethod) 0 CPTR_NONE)
      else
        let '(k, (st, reply)) :=
          dispatch_method k domain (type_tag e) (object_id e) (rights e) method arg0 in
        (k, IDone (status_code st) reply CPTR_NONE)
  end.

(** ** Reaping *)

Definition scrub (task_idx : Z) (ep : EpSlot) : EpSlot :=
  if negb (bool_decide (state ep = Idle)) && (peer_task ep =? task_idx) then EP_EMPTY else ep.

(** The [while] over the first [count] ledger entries. *)
Definition unmap_all (p : PState) (vas : list Z) : PState := foldl (λ p va, (unmap_page p va).1) p vas.

Definition reap_domain k (domain task_idx : Z) : KState D :=
  let d := domain in
  let k := if d <? MAX_DOMAINS then set_caps k (set_table (caps k) d CapTable_new) else k in
  let k := set_endpoints k (scrub task_idx <$> endpoints k) in
  if d <? MAX_DOMAINS then
    let dm := (domain_maps k).[d] in
    if 0 <? count dm then
      let k := set_mem k (fa k) (unmap_all (pt k) (take (Z.to_nat (count dm)) (entries dm))) in
      set_maps k (domain_maps k).[d := mkDM (entries dm) 0]
    else k
  else k.
End capspace.

(** ** The mapping ledger *)

(** The addresses at which [DQ_MAP] and [X_MAP] install pages. *)
Definition grant_vas : list Z :=
  [DQ_BASE; DQ_BASE + 0x1000; DQ_BASE + 0x2000; DQ_BASE + 0x3000; DQ_BASE + 0x4000; EXTENT_MAP_BASE].

Definition ledger (dm : DomainMaps) : list Z := take (Z.to_nat (count dm)) (entries dm).
(** Every recorded address, domain by domain. *)
Definition all_maps (l : list DomainMaps) : list Z := concat (ledger <$> l).

Definition dm_wf (dm : DomainMaps) : Prop :=
  zlen (entries dm) = MAX_MAPS_PER_DOMAIN ∧ 0 <= count dm <= MAX_MAPS_PER_DOMAIN.

(** The ledgers record exactly the granted pages that are mapped, each once. *)
Definition ledger_ok (p : PState) (l : list DomainMaps) : Prop :=
  NoDup (all_maps l) ∧ ∀ va, va ∈ all_maps l ↔ va ∈ grant_vas ∧ translate p va ≠ None.

Lemma grant_vpn va va' : va ∈ grant_vas → va' ∈ grant_vas → vpn va = vpn va' → va = va'.
Proof.
  assert (Hall : forallb (λ va, forallb (λ va', negb (vpn va =? vpn va') || (va =? va')) grant_vas)
    grant_vas = true) by by vm_compute.
  rewrite forallb_forall in Hall. intros H1%list_elem_of_In H2%list_elem_of_In Hv.
  specialize (Hall va H1). rewrite forallb_forall in Hall. specialize (Hall va' H2).
  rewrite Hv, Z.eqb_refl in Hall. by apply Z.eqb_eq in Hall.
Qed.

(** Replacing one ledger. *)
Lemma all_maps_aset l d dm :
  0 <= d < zlen l →
  all_maps l.[d := dm] ++ ledger l.[d] ≡ₚ all_maps l ++ ledger dm.
Proof.
  unfold all_maps, aset, aget, zlen. intros Hd.
  assert (Hn : (Z.to_nat d < length l)%nat) by lia. revert Hn. clear Hd.
  generalize (Z.to_nat d) as n. induction l as [|x l IH]; intros n Hn; simpl in *; [lia|].
  destruct n as [|n]; simpl.
  - change ((x :: l) !!! 0%nat) with x. solve_Permutation.
  - change ((x :: l) !!! S n) with (l !!! n). rewrite <- !(assoc (++)), (IH n) by lia. done.
Qed.

Lemma ledger_record dm va :
  dm_wf dm → count dm < MAX_MAPS_PER_DOMAIN →
  dm_wf (mkDM (entries dm).[count dm := va] (count dm + 1)) ∧
  ledger (mkDM (entries dm).[count dm := va] (count dm + 1)) = ledger dm ++ [va].
Proof.
  intros [Hlen Hc] Hlt. unfold dm_wf, ledger. cbn [entries count]. rewrite zlen_aset.
  split; [split; [done|lia]|].
  replace (Z.to_nat (count dm + 1)) with (S (Z.to_nat (count dm))) by lia. unfold aset.
  assert (Hn : (Z.to_nat (count dm) < length (entries dm))%nat) by (unfold zlen in Hlen; lia).
  rewrite (take_S_r _ _ va) by by apply list_lookup_insert_eq.
  by rewrite take_insert_ge by lia.
Qed.

Lemma ledger_le l d :
  0 <= d < zlen l → NoDup (all_maps l) → (∀ va, va ∈ all_maps l → va ∈ grant_vas) →
  (length (ledger l.[d]) <= 6)%nat.
Proof.
  intros Hd Hnd Hin. change 6%nat with (length grant_vas).
  assert (Hsub : ledger l.[d] ⊆+ all_maps l).
  { unfold all_maps, aget. assert (Hn : (Z.to_nat d < length l)%nat) by (unfold zlen in Hd; lia).
    rewrite <- (take_drop_middle l (Z.to_nat d) (l !!! Z.to_nat d)) at 2
      by by apply list_lookup_lookup_total_lt.
    rewrite fmap_app, fmap_cons, concat_app. cbn [concat].
    etransitivity; [|apply submseteq_inserts_l; reflexivity]. by apply submseteq_inserts_r. }
  transitivity (length (all_maps l)); [by apply submseteq_length|].
  apply submseteq_length, NoDup_submseteq; done.
Qed.

(** ** The invariant of the capability space *)

Definition dq_fits (m : DqMeta) : Prop :=
  fits 52 (desc_phys m) ∧ fits 52 (avail_phys m) ∧ fits 52 (used_phys m) ∧
  fits 52 (buf_phys m) ∧ fits 52 (doorbell_phys m).

Record k_wf {D} (k : KState D) : Prop := {
  kw_caps : sys_wf (caps k);
  kw_tables : zlen (s_tables (caps k)) = MAX_DOMAINS;
  kw_notify : zlen (notify k) = OBJECT_TABLE_SIZE;
  kw_eps : zlen (endpoints k) = OBJECT_TABLE_SIZE;
  kw_exts : zlen (extents k) = OBJECT_TABLE_SIZE;
  kw_ext : Forall (λ m, fits 52 (data_frame_phys m)) (extents k);
  kw_dqs : zlen (devqueues k) = OBJECT_TABLE_SIZE;
  kw_dq : Forall dq_fits (devqueues k);
  kw_maps : zlen (domain_maps k) = MAX_DOMAINS;
  kw_map : Forall dm_wf (domain_maps k);
  kw_pt : pt_wf (pt k) (fa k);
  kw_ledger : ledger_ok (pt k) (domain_maps k);
}.

Section wf.
Context {D : Type}.
Implicit Types (k : KState D).

(** The ledger never overflows: six addresses, eight entries. *)
Lemma ledger_room k d : k_wf k → 0 <= d < MAX_DOMAINS → count (domain_maps k).[d] <= 6.
Proof.
  intros Hk Hd. destruct (kw_ledger k Hk) as [Hnd Hin].
  assert (Hwf : dm_wf (domain_maps k).[d])
    by (apply Forall_aget; [apply Hk|by rewrite (kw_maps k Hk)]).
  assert (Hle : (length (ledger (domain_maps k).[d]) <= 6)%nat).
  { apply ledger_le; [by rewrite (kw_maps k Hk)|done|]. intros va Hva. by apply Hin. }
  destruct Hwf as [Hlen Hc]. unfold ledger in Hle. rewrite length_take in Hle.
  unfold zlen, MAX_MAPS_PER_DOMAIN in *. lia.
Qed.

(** Recording an address that was not recorded. *)
Lemma record_maps k d va :
  k_wf k → 0 <= d < MAX_DOMAINS →
  ∃ l, record_domain_map k d va = set_maps k l ∧ zlen l = MAX_DOMAINS ∧ Forall dm_wf l ∧
    all_maps l ≡ₚ va :: all_maps (domain_maps k).
Proof.
  intros Hk Hd. pose proof (ledger_room k d Hk Hd) as Hc. unfold record_domain_map.
  assert (Hlen := kw_maps k Hk).
  assert (Hwf : dm_wf (domain_maps k).[d]) by (apply Forall_aget; [apply Hk|by rewrite Hlen]).
  destruct (Z.leb_spec MAX_DOMAINS d); [lia|].
  destruct (Z.ltb_spec (count (domain_maps k).[d]) MAX_MAPS_PER_DOMAIN) as [Hlt|];
    [|unfold MAX_MAPS_PER_DOMAIN in *; lia].
  destruct (ledger_record _ va Hwf Hlt) as [Hwf' Hl].
  set (dm := mkDM _ _) in *. clearbody dm.
  eexists. split; [reflexivity|]. split; [by rewrite zlen_aset|]. split.
  { apply Forall_aset; [apply Hk|done]. }
  pose proof (all_maps_aset (domain_maps k) d dm ltac:(by rewrite Hlen)) as Hp.
  rewrite Hl in Hp. apply (inj (.++ ledger (domain_maps k).[d])). rewrite Hp. solve_Permutation.
Qed.

(** Replacing page tables, allocator and ledger. *)
Lemma k_wf_mem k f p l :
  k_wf k → pt_wf p f → zlen l = MAX_DOMAINS → Forall dm_wf l → ledger_ok p l →
  k_wf (set_maps (set_mem k f p) l).
Proof. intros []. by split. Qed.

Lemma set_maps_id k f p : set_maps (set_mem k f p) (domain_maps k) = set_mem k f p.
Proof. done. Qed.

(** Installing one granted page. *)
Lemma grant_page `{MapperLaws} k d va phys w nc p f ok :
  k_wf k → 0 <= d < MAX_DOMAINS → va ∈ grant_vas → fits 52 phys →
  map_user_phys (pt k) (fa k) va phys w false nc = (p, f, ok) →
  k_wf (if ok then record_domain_map (set_mem k f p) d va else set_mem k f p) ∧
  mem_set f ⊆ mem_set (fa k).
Proof.
  intros Hk Hd Hva Hp Hm.
  destruct (map_user_phys_effect _ _ _ _ _ _ _ _ _ _ (kw_pt k Hk) Hp Hm) as (Hwf & Hsub & Hoth & Hok).
  split; [|done]. destruct (kw_ledger k Hk) as [Hnd Hin].
  assert (Hoth' : ∀ va', va' ∈ grant_vas → va' ≠ va → translate p va' = translate (pt k) va').
  { intros va' Hva' Hne. apply Hoth. intros Hv. by apply Hne, grant_vpn. }
  destruct ok.
  - destruct Hok as [Hnone (e & He & _)].
    destruct (record_maps k d va Hk Hd) as (l & Hrec & Hlen & Hdm & Hperm).
    replace (record_domain_map (set_mem k f p) d va) with (set_maps (set_mem k f p) l).
    2: { revert Hrec. unfold record_domain_map, set_mem, set_maps. simpl.
         destruct (_ <=? _); [intros [= ->]; done|].
         destruct (_ <? _); intros [= ->]; done. }
    apply k_wf_mem; [done..|]. split.
    + rewrite Hperm. apply NoDup_cons. split; [|done]. rewrite Hin. intros [_ Ht]. by rewrite Hnone in Ht.
    + intros va'. rewrite Hperm, elem_of_cons, Hin. destruct (decide (va' = va)) as [->|Hne].
      * rewrite He. naive_solver.
      * split; [intros [?|[Hg Ht]]; [done|]; by rewrite Hoth'|].
        intros [Hg Ht]. right. by rewrite <- Hoth'.
  - rewrite <- (set_maps_id k). apply k_wf_mem; [done|done|apply Hk..|]. split; [done|].
    intros va'. rewrite Hin. destruct (decide (va' = va)) as [->|Hne]; [by rewrite Hok|].
    split; intros [Hg Ht]; (split; [done|]); [by rewrite Hoth'|by rewrite <- Hoth'].
Qed.
End wf.

(** ** The non-blocking methods *)

Lemma arm_true kd m kd0 m0 : arm kd m kd0 m0 = true ↔ kd = kd0 ∧ m = m0.
Proof. unfold arm. by rewrite andb_true_iff, bool_decide_eq_true, Z.eqb_eq. Qed.

Lemma Forall_get {A} `{Inhabited A} (P : A → Prop) l n i :
  Forall P l → zlen l = n → 0 <= i < n → P l.[i].
Proof. intros HF <- Hi. by apply Forall_aget. Qed.

(** What no method of [dispatch_method] touches. *)
Definition core_kept {D} (k k' : KState D) : Prop :=
  caps k' = caps k ∧ endpoints k' = endpoints k ∧ ss k' = ss k ∧
  extents k' = extents k ∧ devqueues k' = devqueues k.

(** The memory side: frames only leave the allocator, and only [d]'s ledger grows. *)
Definition mem_step {D} (d : Z) (k k' : KState D) : Prop :=
  mem_set (fa k') ⊆ mem_set (fa k) ∧
  ∀ d', 0 <= d' → d' ≠ d → (domain_maps k').[d'] = (domain_maps k).[d'].

#[global] Instance core_kept_preorder {D} : PreOrder (@core_kept D).
Proof. split; [by repeat split|]. intros k1 k2 k3. unfold core_kept. naive_solver congruence. Qed.
#[global] Instance mem_step_preorder {D} d : PreOrder (@mem_step D d).
Proof.
  split; [by repeat split|]. intros k1 k2 k3 [H1 H2] [H3 H4].
  split; [by etransitivity|]. intros d' H0 Hne. by rewrite H4, H2.
Qed.

Section methods.
Context `{Bitflags} `{MapperLaws} {D : Type} `{BlockDev D}.
Implicit Types (k : KState D).

Lemma record_step k d va f p :
  0 <= d → mem_set f ⊆ mem_set (fa k) →
  core_kept k (record_domain_map (set_mem k f p) d va) ∧
  mem_step d k (record_domain_map (set_mem k f p) d va) ∧
  notify (record_domain_map (set_mem k f p) d va) = notify k ∧
  dev (record_domain_map (set_mem k f p) d va) = dev k.
Proof.
  intros Hd Hsub. unfold record_domain_map.
  destruct (_ <=? _); [by repeat split|]. destruct (_ <? _); [|by repeat split].
  split; [by repeat split|]. split; [split; [done|]|done].
  intros d' Hd0 Hne. simpl. by rewrite aget_aset_ne by lia.
Qed.

Lemma map_pages_ok k d pages k' ok :
  k_wf k → 0 <= d < MAX_DOMAINS →
  Forall (λ pg, (pg.1.1.1 ∈ grant_vas) ∧ fits 52 pg.1.1.2) pages →
  map_pages k d pages = (k', ok) →
  k_wf k' ∧ core_kept k k' ∧ mem_step d k k' ∧ notify k' = notify k ∧ dev k' = dev k.
Proof.
  revert k. induction pages as [|[[[va phys] w] nc] pages IH]; intros k Hk Hd Hpg Hm.
  { injection Hm as <- _. split; [done|]. split; [reflexivity|]. by split; [reflexivity|]. }
  apply Forall_cons in Hpg as [[Hva Hph] Hpgs]. cbn [map_pages] in Hm. simpl in Hva, Hph.
  destruct (map_user_phys (pt k) (fa k) va phys w false nc) as [[p f] o] eqn:Hmap.
  destruct (grant_page k d va phys w nc p f o Hk Hd Hva Hph Hmap) as [Hk' Hsub].
  destruct o.
  - destruct (record_step k d va f p ltac:(lia) Hsub) as (Hc & Hs & Hn & Hdv).
    destruct (IH _ Hk' Hd Hpgs Hm) as (Hk2 & Hc2 & Hs2 & Hn2 & Hd2). split; [done|].
    split; [by etransitivity|]. split; [by etransitivity|]. by rewrite Hn2, Hd2.
  - injection Hm as <- _. split; [done|]. by repeat split.
Qed.

Lemma extent_map_ok k d oid k' r :
  k_wf k → 0 <= d < MAX_DOMAINS → 0 <= oid → extent_map k d oid = (k', r) →
  k_wf k' ∧ core_kept k k' ∧ mem_step d k k' ∧ notify k' = notify k ∧ dev k' = dev k.
Proof.
  intros Hk Hd Ho Hm. unfold extent_map in Hm.
  assert (Hid : k_wf k ∧ core_kept k k ∧ mem_step d k k ∧ notify k = notify k ∧ dev k = dev k)
    by (split; [done|by repeat split]).
  destruct (Z.leb_spec OBJECT_TABLE_SIZE oid); [by simplify_eq|].
  destruct (_ =? 0); [by simplify_eq|].
  destruct (map_user_phys _ _ _ _ _ _ _) as [[p f] o] eqn:Hmap.
  destruct (grant_page k d EXTENT_MAP_BASE (data_frame_phys (extents k).[oid]) false false p f o Hk Hd)
    as [Hk' Hsub]; [set_solver| |done|].
  { by apply (Forall_get _ _ _ _ (kw_ext k Hk) (kw_exts k Hk)). }
  destruct o; injection Hm as <- _.
  - destruct (record_step k d EXTENT_MAP_BASE f p ltac:(lia) Hsub) as (Hc & Hs & Hn & Hdv). done.
  - split; [done|]. by repeat split.
Qed.

Lemma devqueue_map_ok k d oid k' r :
  k_wf k → 0 <= d < MAX_DOMAINS → 0 <= oid → devqueue_map k d oid = (k', r) →
  k_wf k' ∧ core_kept k k' ∧ mem_step d k k' ∧ notify k' = notify k ∧ dev k' = dev k.
Proof.
  intros Hk Hd Ho Hm. unfold devqueue_map in Hm.
  assert (Hid : k_wf k ∧ core_kept k k ∧ mem_step d k k ∧ notify k = notify k ∧ dev k = dev k)
    by (split; [done|by repeat split]).
  destruct (Z.leb_spec OBJECT_TABLE_SIZE oid); [by simplify_eq|].
  destruct (_ =? 0); [by simplify_eq|].
  destruct (map_pages k d _) as [k1 o] eqn:Hmap.
  assert (Hdq := Forall_get _ _ _ oid (kw_dq k Hk) (kw_dqs k Hk) ltac:(lia)).
  destruct Hdq as (Q1 & Q2 & Q3 & Q4 & Q5).
  apply map_pages_ok in Hmap; [|done|done|].
  2: { unfold dq_pages. repeat (apply Forall_cons; split; [split; [set_solver|done]|]). done. }
  destruct o; by simplify_eq.
Qed.
End methods.

(** A change of the state is backed by the kind of the object, the method and the
    rights of the invoked capability. *)
Record authorised {D} (kd : ObjectKind) (oid r method : Z) (k k' : KState D) : Prop := {
  au_map : pt k' ≠ pt k ∨ domain_maps k' ≠ domain_maps k →
    submask Rights.MAP r ∧
    (kd = Kind.Extent ∧ method = X_MAP ∨ kd = Kind.DeviceQueue ∧ method = DQ_MAP);
  au_frames : fa k' ≠ fa k →
    kd = Kind.Memory ∧ method = M_ALLOC ∨
    submask Rights.MAP r ∧
    (kd = Kind.Extent ∧ method = X_MAP ∨ kd = Kind.DeviceQueue ∧ method = DQ_MAP);
  au_notify : notify k' ≠ notify k →
    kd = Kind.Notification ∧
    (method = N_SIGNAL ∧ submask Rights.WRITE r ∨ method = N_POLL ∧ submask Rights.READ r);
  au_word : ∀ o, 0 <= o → o ≠ oid → (notify k').[o] = (notify k).[o];
  au_dev : dev k' ≠ dev k →
    kd = Kind.DeviceQueue ∧ method = DQ_SUBMIT ∧ submask Rights.WRITE r;
}.

Lemma authorised_id {D} kd oid r method (k : KState D) : authorised kd oid r method k k.
Proof. split; naive_solver. Qed.

Section dispatch.
Context `{Bitflags} `{MapperLaws} {D : Type} `{BlockDev D}.
Implicit Types (k : KState D).

Lemma extra_rights_table :
  extra_rights Kind.Notification N_SIGNAL = Rights.WRITE ∧
  extra_rights Kind.Notification N_POLL = Rights.READ ∧
  extra_rights Kind.Extent X_MAP = Rights.MAP ∧
  extra_rights Kind.DeviceQueue DQ_MAP = Rights.MAP ∧
  extra_rights Kind.DeviceQueue DQ_SUBMIT = Rights.WRITE.
Proof. by repeat split. Qed.

Lemma map_auth kd oid r method k k' :
  submask Rights.MAP r →
  (kd = Kind.Extent ∧ method = X_MAP ∨ kd = Kind.DeviceQueue ∧ method = DQ_MAP) →
  notify k' = notify k → dev k' = dev k → authorised kd oid r method k k'.
Proof. intros Hm Hk Hn Hd. split; rewrite ?Hn, ?Hd; tauto. Qed.

Lemma alloc_step k f x d : k_wf k → Memory.alloc (fa k) = (f, x) →
  k_wf (set_mem k f (pt k)) ∧ core_kept k (set_mem k f (pt k)) ∧ mem_step d k (set_mem k f (pt k)).
Proof.
  intros Hk Ha. destruct (alloc_wf (pt k) (fa k) f x (kw_pt k Hk) Ha) as [Hwf Hx].
  split; [rewrite <- (set_maps_id k); apply k_wf_mem; [done|done|apply Hk..]|].
  split; [by repeat split|]. split; [|done]. simpl. destruct x as [y|].
  - destruct Hx as (_ & -> & _). set_solver.
  - destruct Hx as [-> ->]. done.
Qed.

Lemma notify_step k l d : k_wf k → zlen l = OBJECT_TABLE_SIZE →
  k_wf (set_notify k l) ∧ core_kept k (set_notify k l) ∧ mem_step d k (set_notify k l).
Proof. intros [] Hl. split; [by split|]. by repeat split. Qed.

Lemma dispatch_ok k d kd oid r method arg k' res :
  k_wf k → 0 <= d < MAX_DOMAINS → 0 <= oid →
  dispatch_method k d kd oid r method arg = (k', res) →
  (k_wf k' ∧ core_kept k k' ∧ mem_step d k k') ∧ authorised kd oid r method k k'.
Proof.
  intros Hk Hd Ho Hm.
  assert (Hid : (k_wf k ∧ core_kept k k ∧ mem_step d k k) ∧ authorised kd oid r method k k).
  { split; [|apply authorised_id]. split; [done|]. by split. }
  destruct extra_rights_table as (X1 & X2 & X3 & X4 & X5). unfold dispatch_method in Hm.
  destruct (rights_contains r (extra_rights kd method)) eqn:Hx; simpl in Hm; [|by simplify_eq].
  apply rights_contains_spec in Hx.
  destruct (arm kd method Kind.Memory M_ALLOC) eqn:E.
  { apply arm_true in E as [-> ->]. destruct (Memory.alloc (fa k)) as [f x] eqn:Ha.
    destruct (alloc_step k f x d Hk Ha) as (Q1 & Q2 & Q3).
    destruct x; injection Hm as <- _; (split; [done|split; simpl; try done; naive_solver]). }
  clear E. destruct (arm kd method Kind.Memory M_FREE); [by simplify_eq|].
  destruct (arm kd method Kind.Notification N_SIGNAL) eqn:E.
  { apply arm_true in E as [-> ->]. rewrite X1 in Hx. injection Hm as <- _. unfold notify_signal.
    destruct (_ <? _); [|done].
    destruct (notify_step k (notify k).[oid := Z.lor (notify k).[oid] arg] d Hk) as (Q1 & Q2 & Q3);
      [rewrite zlen_aset; apply Hk|].
    split; [done|]. split; simpl; try naive_solver.
    intros o Ho0 Hne. by rewrite aget_aset_ne by lia. }
  clear E. destruct (arm kd method Kind.Notification N_POLL) eqn:E.
  { apply arm_true in E as [-> ->]. rewrite X2 in Hx. unfold notify_take in Hm.
    destruct (_ <=? _); [by simplify_eq|]. injection Hm as <- _.
    destruct (notify_step k (notify k).[oid := 0] d Hk) as (Q1 & Q2 & Q3);
      [rewrite zlen_aset; apply Hk|].
    split; [done|]. split; simpl; try naive_solver.
    intros o Ho0 Hne. by rewrite aget_aset_ne by lia. }
  clear E. destruct (arm kd method Kind.Extent X_READ); [by simplify_eq|].
  destruct (arm kd method Kind.Extent X_MAP) eqn:E.
  { apply arm_true in E as [-> ->]. rewrite X3 in Hx.
    apply extent_map_ok in Hm as (Q1 & Q2 & Q3 & Q4 & Q5); [|done..].
    split; [done|]. apply map_auth; auto. }
  clear E. destruct (arm kd method Kind.DeviceQueue DQ_INFO); [by simplify_eq|].
  destruct (arm kd method Kind.DeviceQueue DQ_MAP) eqn:E.
  { apply arm_true in E as [-> ->]. rewrite X4 in Hx.
    apply devqueue_map_ok in Hm as (Q1 & Q2 & Q3 & Q4 & Q5); [|done..].
    split; [done|]. apply map_auth; auto. }
  clear E. destruct (arm kd method Kind.DeviceQueue DQ_REPORT); [by simplify_eq|].
  destruct (arm kd method Kind.DeviceQueue DQ_SUBMIT) eqn:E; [|by simplify_eq].
  apply arm_true in E as [-> ->]. rewrite X5 in Hx. unfold devqueue_submit in Hm.
  destruct (_ <=? _); [by simplify_eq|]. destruct (_ =? _); [by simplify_eq|].
  destruct (BlockDev.run (read_sector arg) (dev k)) as [dv [sect|]]; injection Hm as <- _;
    (split; [split; [by destruct Hk; split|by repeat split]|split; simpl; naive_solver]).
Qed.
End dispatch.

(** ** Endpoints and parked tasks *)

Definition block_reason_of (s : EpState) : Z :=
  match s with SendWait => BLOCK_SEND | _ => BLOCK_RECV end.

(** Task [t] is parked on endpoint [oid], as slot [ep] says. *)
Definition parked_on (t : Task) (oid : Z) (ep : EpSlot) : Prop :=
  t_present t = true ∧ t_blocked t = true ∧ t_wait_ep t = oid ∧
  t_block_reason t = block_reason_of (state ep) ∧ t_domain t = peer_domain ep.

(** Endpoint slots and parked tasks agree in both directions: a waiting slot names a
    live task parked on it, and a parked task is the one its slot names. *)
Record rendezvous (s : Scheduler) (eps : list EpSlot) : Prop := {
  rv_slot oid : 0 <= oid < OBJECT_TABLE_SIZE → state eps.[oid] ≠ Idle →
    1 <= peer_task eps.[oid] < MAX_TASKS ∧ parked_on (tasks s).[peer_task eps.[oid]] oid eps.[oid];
  rv_task i : 0 <= i < MAX_TASKS → t_present (tasks s).[i] = true → t_blocked (tasks s).[i] = true →
    0 <= t_wait_ep (tasks s).[i] < OBJECT_TABLE_SIZE ∧
    state eps.[t_wait_ep (tasks s).[i]] ≠ Idle ∧ peer_task eps.[t_wait_ep (tasks s).[i]] = i;
  rv_xfer oid : 0 <= oid < OBJECT_TABLE_SIZE → 0 <= xfer_cptr eps.[oid];
}.

Definition domains_ok (s : Scheduler) : Prop :=
  ∀ i, 0 <= i < MAX_TASKS → 0 <= t_domain (tasks s).[i] < MAX_DOMAINS.

Record k_inv {D} (k : KState D) : Prop := {
  ki_wf : k_wf k;
  ki_sched : sched_ok (ss k);
  ki_dom : domains_ok (sched (ss k));
  ki_rv : rendezvous (sched (ss k)) (endpoints k);
}.

Lemma same_context_parked t t' oid ep : same_context t t' → parked_on t oid ep → parked_on t' oid ep.
Proof.
  intros (_ & Hp & _ & Hd & Hb & _ & _ & _ & Hr & Hw) (? & ? & ? & ? & ?).
  unfold parked_on. by rewrite Hp, Hb, Hw, Hr, Hd.
Qed.

(** A rendezvous completes: the slot becomes idle and its task is woken. *)
Lemma rendezvous_meet s eps oid status reply rc :
  zlen (tasks s) = MAX_TASKS → zlen eps = OBJECT_TABLE_SIZE →
  rendezvous s eps → 0 <= oid < OBJECT_TABLE_SIZE → state eps.[oid] ≠ Idle →
  rendezvous (unblock s (peer_task eps.[oid]) status reply rc)
    eps.[oid := set_state Idle eps.[oid]].
Proof.
  intros Hlen Hel [Hs Ht Hx] Ho Hne. destruct (Hs oid Ho Hne) as [Hp Hpk].
  set (q := peer_task eps.[oid]) in *.
  assert (Hget : ∀ i, 0 <= i → (tasks (unblock s q status reply rc)).[i] =
    if decide (q = i) then set_blocked false (set_ipc status reply rc (tasks s).[i]) else (tasks s).[i]).
  { intros i Hi. rewrite unblock_task by (done || lia). do 2 case_decide; naive_solver lia. }
  assert (Hep : ∀ j, 0 <= j → (eps.[oid := set_state Idle eps.[oid]]).[j] =
    if decide (oid = j) then set_state Idle eps.[oid] else eps.[j])
    by (intros j Hj; rewrite aget_aset by (rewrite ?Hel; lia); done).
  split.
  - intros j Hj. rewrite Hep by lia. destruct (decide (oid = j)) as [->|Hoj]; [done|]. intros Hnj.
    destruct (Hs j Hj Hnj) as [Hpj Hpkj]. split; [done|]. rewrite Hget by lia.
    destruct (decide (q = peer_task eps.[j])) as [E|]; [|done].
    destruct Hpk as (_ & _ & W1 & _), Hpkj as (_ & _ & W2 & _). rewrite <- E in W2. congruence.
  - intros i Hi. rewrite Hget by lia. case_decide; [done|]. intros Hpi Hbi.
    destruct (Ht i Hi Hpi Hbi) as (H1 & H2 & H3). split; [done|]. rewrite Hep by lia.
    case_decide as E; [|done]. rewrite <- E in H3. done.
  - intros j Hj. rewrite Hep by lia. case_decide; [by apply (Hx oid)|by apply Hx].
Qed.

(** A caller parks on an idle slot. *)
Lemma rendezvous_park s s' eps oid ep :
  zlen eps = OBJECT_TABLE_SIZE → rendezvous s eps → 0 <= oid < OBJECT_TABLE_SIZE →
  state eps.[oid] = Idle → state ep ≠ Idle → 1 <= peer_task ep < MAX_TASKS → 0 <= xfer_cptr ep →
  t_blocked (tasks s).[peer_task ep] = false →
  others_kept s s' (peer_task ep) → parked_on (tasks s').[peer_task ep] oid ep →
  rendezvous s' eps.[oid := ep].
Proof.
  intros Hel [Hs Ht Hx] Ho Hidle Hne Hp Hxf Hnb Hoth Hpk. set (q := peer_task ep) in *.
  assert (Hep : ∀ j, 0 <= j → (eps.[oid := ep]).[j] = if decide (oid = j) then ep else eps.[j])
    by (intros j Hj; rewrite aget_aset by (rewrite ?Hel; lia); done).
  split.
  - intros j Hj. rewrite Hep by lia. destruct (decide (oid = j)) as [<-|Hoj]; [done|]. intros Hnj.
    destruct (Hs j Hj Hnj) as [Hpj Hpkj]. split; [done|]. eapply same_context_parked; [|done].
    apply Hoth; [lia|]. intros E. destruct Hpkj as (_ & Hb & _). rewrite E in Hb. congruence.
  - intros i Hi Hpi Hbi. destruct (decide (i = q)) as [->|Hiq].
    + destruct Hpk as (_ & _ & -> & _). rewrite Hep by lia. by rewrite decide_True.
    + destruct (Hoth i Hi Hiq) as (_ & P & _ & _ & B & _ & _ & _ & _ & W).
      rewrite P in Hpi. rewrite B in Hbi. rewrite W.
      destruct (Ht i Hi Hpi Hbi) as (H1 & H2 & H3). split; [done|]. rewrite Hep by lia.
      case_decide as E; [|done]. by rewrite <- E in H2.
  - intros j Hj. rewrite Hep by lia. case_decide; [done|by apply Hx].
Qed.

Lemma set_caps_wf {D} (k : KState D) c :
  k_wf k → sys_wf c → zlen (s_tables c) = MAX_DOMAINS → k_wf (set_caps k c).
Proof. intros []. by split. Qed.

Lemma set_endpoints_wf {D} (k : KState D) l :
  k_wf k → zlen l = OBJECT_TABLE_SIZE → k_wf (set_endpoints k l).
Proof. intros []. by split. Qed.

Lemma set_ss_wf {D} (k : KState D) s : k_wf k → k_wf (set_ss k s).
Proof. intros []. by split. Qed.

Section ipc.
Context `{Bitflags} `{Mapper} {D : Type} `{BlockDev D}.
Implicit Types (k : KState D).

(** The capability operations of a MOVE. *)
Definition move_ops (src c dst : Z) : list cap_op :=
  [OpDelegate src dst c rights_all 0; OpClear src c].

Lemma transfer_refines k src c dst k' res :
  k_wf k → 0 <= src → 0 <= dst → 0 <= c → do_cap_transfer k src c dst = (k', res) →
  match res with
  | Ok c' => Forall (op_ok MAX_DOMAINS) (move_ops src c dst) ∧ src ≠ dst ∧ 0 <= c' < CAP_TABLE_SLOTS ∧
      k' = set_caps k (Authority.run (caps k) (move_ops src c dst))
  | Err st => k' = k ∧ st ≠ StOk
  end.
Proof.
  intros Hk Hs Hd Hc Hm. unfold do_cap_transfer in Hm.
  destruct (Z.eqb_spec src dst); cbn [orb] in Hm; [by injection Hm as <- <-|].
  destruct (Z.leb_spec MAX_DOMAINS src); cbn [orb] in Hm; [by injection Hm as <- <-|].
  destruct (Z.leb_spec MAX_DOMAINS dst); [by injection Hm as <- <-|].
  assert (Hct : ct_wf (table k dst)) by (apply table_wf; [apply Hk|rewrite (kw_tables k Hk); lia]).
  destruct (delegate _ _ _ _ _ _) as [ct [c'|st]] eqn:Hdel; injection Hm as <- <-.
  - destruct (delegate_Ok _ _ _ _ _ _ _ _ Hct Hdel) as (e & He & _ & _ & Hr & _).
    apply entry_at_range in He. split; [|split; [done|]; split; [done|]].
    + repeat (apply Forall_cons; split); simpl; repeat split; try lia; done.
    + unfold Authority.run, move_ops. cbn [foldl exec]. unfold table, objects in Hdel.
      by rewrite Hdel.
  - apply delegate_Err in Hdel as (_ & Hne & _); done.
Qed.

(** The transfer an endpoint performs, when one is asked for. *)
Definition transfer_opt k (src xfer dst : Z) : KState D * result Z Status :=
  if negb (xfer =? CPTR_NONE) then do_cap_transfer k src xfer dst else (k, Ok CPTR_NONE).

(** What the two parties of a rendezvous get. *)
Definition sender_result (res : result Z Status) : Z * Z * Z :=
  match res with Ok _ => (status_code StOk, 0, CPTR_NONE) | Err e => (status_code e, 0, CPTR_NONE) end.
Definition receiver_result (res : result Z Status) (msg : Z) : Z * Z * Z :=
  match res with Ok c => (status_code StOk, msg, c) | Err e => (status_code e, 0, CPTR_NONE) end.

Definition IDone3 (r : Z * Z * Z) : ipc_result := IDone r.1.1 r.1.2 r.2.
Definition wake3 k (task : Z) (r : Z * Z * Z) : KState D := wake k task r.1.1 r.1.2 r.2.

Definition send_permitted (xfer r : Z) : Prop :=
  xfer = CPTR_NONE ∨ submask Rights.GRANT_CAP r ∧ xfer < CAP_TABLE_SLOTS.
#[global] Instance send_permitted_dec xfer r : Decision (send_permitted xfer r).
Proof. unfold send_permitted, submask. apply _. Defined.

(** The four things [ep_send] can do. *)
Lemma ep_send_cases k dom oid msg xfer r saved :
  ep_send k dom oid msg xfer r saved =
  let ep := (endpoints k).[oid] in
  let fail st := (k, IDone (status_code st) 0 CPTR_NONE) in
  if decide (OBJECT_TABLE_SIZE <= oid) then fail ErrBadCPtr
  else if decide (send_permitted xfer r) then
    match state ep with
    | RecvWait =>
        let '(k', res) := transfer_opt (upd_ep k oid (set_state Idle)) dom xfer (peer_domain ep) in
        (wake3 k' (peer_task ep) (receiver_result res msg), IDone3 (sender_result res))
    | SendWait => fail ErrRights
    | Idle =>
        let '(s, next) := block_current (ss k) saved BLOCK_SEND (wrap 16 oid) in
        (set_ss (upd_ep k oid (λ _, mkEp SendWait (wrap 16 (current (sched (ss k)))) (wrap 16 dom) msg xfer)) s,
         IPark next)
    end
  else fail (if rights_contains r Rights.GRANT_CAP then ErrBadCPtr else ErrRights).
Proof.
  unfold ep_send, transfer_opt. cbv zeta. destruct (Z.leb_spec OBJECT_TABLE_SIZE oid).
  { by rewrite decide_True by lia. }
  rewrite (decide_False (P := OBJECT_TABLE_SIZE <= oid)) by lia.
  unfold send_permitted. destruct (Z.eqb_spec xfer CPTR_NONE) as [->|Hx]; cbn [negb andb].
  - rewrite decide_True by by left. destruct (state _); [reflexivity|reflexivity|]. simpl.
    by unfold wake3, IDone3.
  - destruct (rights_contains r Rights.GRANT_CAP) eqn:Hg; cbn [negb].
    + apply rights_contains_spec in Hg. destruct (Z.leb_spec CAP_TABLE_SLOTS xfer).
      * rewrite decide_False; [done|]. intros [?|[_ ?]]; [done|lia].
      * rewrite decide_True by (right; split; [done|lia]). destruct (state _); [reflexivity..|].
        destruct (do_cap_transfer _ _ _ _) as [k' [c|e]]; reflexivity.
    + rewrite decide_False; [done|]. rewrite <- rights_contains_spec, Hg. intros [?|[? _]]; done.
Qed.

Lemma ep_recv_cases k dom oid saved :
  ep_recv k dom oid saved =
  let ep := (endpoints k).[oid] in
  let fail st := (k, IDone (status_code st) 0 CPTR_NONE) in
  if decide (OBJECT_TABLE_SIZE <= oid) then fail ErrBadCPtr
  else
    match state ep with
    | SendWait =>
        let '(k', res) := transfer_opt (upd_ep k oid (set_state Idle)) (peer_domain ep) (xfer_cptr ep) dom in
        (wake3 k' (peer_task ep) (sender_result res), IDone3 (receiver_result res (msg0 ep)))
    | RecvWait => fail ErrRights
    | Idle =>
        let '(s, next) := block_current (ss k) saved BLOCK_RECV (wrap 16 oid) in
        (set_ss (upd_ep k oid (λ ep, mkEp RecvWait (wrap 16 (current (sched (ss k)))) (wrap 16 dom)
                                       (msg0 ep) (xfer_cptr ep))) s, IPark next)
    end.
Proof.
  unfold ep_recv, transfer_opt. cbv zeta. destruct (Z.leb_spec OBJECT_TABLE_SIZE oid).
  { by rewrite decide_True by lia. }
  rewrite decide_False by lia. destruct (state _); [reflexivity| |reflexivity].
  destruct (negb _); [|reflexivity]. destruct (do_cap_transfer _ _ _ _) as [k' [c|e]]; reflexivity.
Qed.
End ipc.

(** A capability-space step without mints, in terms of [Authority]. *)
Definition caps_step `{Bitflags} (c c' : sys) : Prop :=
  ∃ ops, Forall (op_ok MAX_DOMAINS) ops ∧ Forall (λ op, is_mint op = false) ops ∧
    c' = Authority.run c ops.

Lemma caps_step_refl `{Bitflags} c : caps_step c c.
Proof. exists []. by repeat split. Qed.

Lemma caps_step_wf `{Bitflags} c c' :
  sys_wf c → zlen (s_tables c) = MAX_DOMAINS → caps_step c c' →
  sys_wf c' ∧ zlen (s_tables c') = MAX_DOMAINS.
Proof.
  intros Hwf Hlen (ops & Hok & _ & ->). split; [apply run_wf; [done|by rewrite Hlen]|].
  rewrite <- Hlen. clear. revert c. induction ops as [|op ops IH]; intros c; [done|].
  simpl. by rewrite IH, exec_tables_len.
Qed.

Section ipc_inv.
Context `{Bitflags} `{Mapper} {D : Type} `{BlockDev D}.
Implicit Types (k : KState D).

Lemma transfer_opt_ok k src xfer dst k' res :
  k_wf k → 0 <= src → 0 <= dst → 0 <= xfer → transfer_opt k src xfer dst = (k', res) →
  ∃ c, k' = set_caps k c ∧ caps_step (caps k) c ∧ s_ot c = objects k.
Proof.
  intros Hk Hs Hd Hx Ht. unfold transfer_opt in Ht. destruct (negb _).
  - pose proof (transfer_refines k src xfer dst k' res Hk Hs Hd Hx Ht) as Hr. destruct res as [c'|st].
    + destruct Hr as (Hok & _ & _ & ->). eexists. split; [done|]. split; [|done]. eexists. split; [done|].
      split; [|done]. repeat constructor.
    + destruct Hr as [-> _]. exists (caps k). split; [by destruct k|split; [apply caps_step_refl|done]].
  - injection Ht as <- _. exists (caps k). split; [by destruct k|split; [apply caps_step_refl|done]].
Qed.

Lemma upd_ep_wf k i f : k_wf k → k_wf (upd_ep k i f).
Proof. intros Hk. apply set_endpoints_wf; [done|]. rewrite zlen_aset. apply Hk. Qed.

Lemma meet_inv k oid c r :
  k_inv k → 0 <= oid < OBJECT_TABLE_SIZE → state (endpoints k).[oid] ≠ Idle → caps_step (caps k) c →
  k_inv (wake3 (set_caps (upd_ep k oid (set_state Idle)) c) (peer_task (endpoints k).[oid]) r).
Proof.
  intros [Hk Hs Hd Hr] Ho Hne Hc. destruct (rv_slot _ _ Hr oid Ho Hne) as [Hp _].
  pose proof (sp_len _ (so_pre _ Hs)) as Hlen.
  destruct (caps_step_wf _ _ (kw_caps k Hk) (kw_tables k Hk) Hc) as [Hcw Hct].
  unfold wake3, wake, with_sched_k. split.
  - apply set_ss_wf, set_caps_wf; [by apply upd_ep_wf|done..].
  - by apply (wake_ok (ss k) (peer_task (endpoints k).[oid])); [|lia].
  - intros i Hi. simpl. rewrite unblock_task by (done || lia). case_decide; by apply Hd.
  - simpl. apply rendezvous_meet; [done|apply Hk|done..].
Qed.

(** [current_domain] is the domain of the running task. *)
Lemma current_domain_task k :
  k_inv k → current_domain k = t_domain (tasks (sched (ss k))).[current (sched (ss k))] ∧
  0 <= current_domain k < MAX_DOMAINS.
Proof.
  intros [_ [_ (Hc & _) (_ & _ & Hdom)] Hd _]. unfold current_domain. rewrite Hdom.
  specialize (Hd _ Hc). unfold MAX_DOMAINS in *. lia.
Qed.

Lemma park_inv k oid ep saved n :
  k_inv k → 0 <= oid < OBJECT_TABLE_SIZE → state (endpoints k).[oid] = Idle → state ep ≠ Idle →
  current (sched (ss k)) ≠ 0 → 0 <= n → clock_ok (ss k) n →
  peer_task ep = wrap 16 (current (sched (ss k))) → peer_domain ep = wrap 16 (current_domain k) →
  0 <= xfer_cptr ep →
  k_inv (set_ss (set_endpoints k (endpoints k).[oid := ep])
    (block_current (ss k) saved (block_reason_of (state ep)) (wrap 16 oid)).1).
Proof.
  intros Hi Ho Hidle Hne Hc0 Hn Hclk Hpt Hpd Hx. destruct (current_domain_task k Hi) as [Hcd Hcr].
  destruct Hi as [Hk Hs Hd Hr]. destruct (so_cur _ Hs) as (Hc & Hcp & Hcb).
  assert (W1 : wrap 16 (current (sched (ss k))) = current (sched (ss k)))
    by (apply wrap_id; unfold fits, MAX_TASKS in *; lia).
  assert (W2 : wrap 16 (current_domain k) = current_domain k)
    by (apply wrap_id; unfold fits, MAX_DOMAINS in *; lia).
  assert (W3 : wrap 16 oid = oid) by (apply wrap_id; unfold fits, OBJECT_TABLE_SIZE in *; lia).
  rewrite W1 in Hpt. rewrite W2 in Hpd. rewrite W3.
  destruct (block_ok (ss k) n saved (block_reason_of (state ep)) oid Hs Hc0 Hn Hclk)
    as (Hok & Hoth & _ & Hctx & _).
  generalize dependent (block_current (ss k) saved (block_reason_of (state ep)) oid).1.
  intros st' Hok Hoth Hctx. destruct Hctx as (_ & C1 & _ & C2 & C3 & _ & _ & _ & C4 & C5). split.
  - apply set_ss_wf, set_endpoints_wf; [done|]. rewrite zlen_aset. apply Hk.
  - done.
  - intros i Hi'. destruct (decide (i = current (sched (ss k)))) as [->|Hic].
    + simpl in *. rewrite C2. by apply Hd.
    + simpl. destruct (Hoth i Hi' Hic) as (_ & _ & _ & -> & _). by apply Hd.
  - simpl in *. apply (rendezvous_park (sched (ss k))); [apply Hk|done|done|done|done|lia|done|..];
      rewrite Hpt; [done|done|].
    unfold parked_on. rewrite C1, C2, C3, C4, C5, Hpd, Hcd. done.
Qed.

Lemma ep_send_inv k oid msg xfer r saved n k' res :
  k_inv k → 0 <= oid → 0 <= xfer → current (sched (ss k)) ≠ 0 → 0 <= n → clock_ok (ss k) n →
  ep_send k (current_domain k) oid msg xfer r saved = (k', res) →
  k_inv k' ∧ caps_step (caps k) (caps k').
Proof.
  intros Hi Ho Hx Hc0 Hn Hclk He. rewrite ep_send_cases in He. cbv zeta in He.
  assert (Hid : k_inv k ∧ caps_step (caps k) (caps k)) by (split; [done|apply caps_step_refl]).
  destruct (decide (OBJECT_TABLE_SIZE <= oid)); [by injection He as <- _|].
  destruct (decide (send_permitted xfer r)); [|by injection He as <- _].
  destruct (state (endpoints k).[oid]) eqn:Hst.
  - pose proof (park_inv k oid (mkEp SendWait (wrap 16 (current (sched (ss k)))) (wrap 16 (current_domain k))
      msg xfer) saved n Hi ltac:(lia) Hst ltac:(done) Hc0 Hn Hclk eq_refl eq_refl Hx) as Hp.
    change (block_reason_of (state _)) with BLOCK_SEND in Hp.
    destruct (block_current (ss k) saved BLOCK_SEND (wrap 16 oid)) as [st1 next].
    injection He as <- _. split; [exact Hp|apply caps_step_refl].
  - by injection He as <- _.
  - destruct (rv_slot _ _ (ki_rv k Hi) oid ltac:(lia) ltac:(by rewrite Hst)) as [Hp (_ & _ & _ & _ & Hpd)].
    destruct (current_domain_task k Hi) as [_ Hcr].
    assert (Hpr : 0 <= peer_domain (endpoints k).[oid])
      by (rewrite <- Hpd; apply (ki_dom k Hi); lia).
    destruct (transfer_opt _ _ _ _) as [k1 x] eqn:Hto. injection He as <- _.
    apply transfer_opt_ok in Hto as (c & -> & Hc & _); [|by apply upd_ep_wf, Hi|lia..|done].
    split; [apply meet_inv; [done|lia|by rewrite Hst|done]|done].
Qed.

Lemma ep_recv_inv k oid saved n k' res :
  k_inv k → 0 <= oid → current (sched (ss k)) ≠ 0 → 0 <= n → clock_ok (ss k) n →
  ep_recv k (current_domain k) oid saved = (k', res) →
  k_inv k' ∧ caps_step (caps k) (caps k').
Proof.
  intros Hi Ho Hc0 Hn Hclk He. rewrite ep_recv_cases in He. cbv zeta in He.
  assert (Hid : k_inv k ∧ caps_step (caps k) (caps k)) by (split; [done|apply caps_step_refl]).
  destruct (decide (OBJECT_TABLE_SIZE <= oid)); [by injection He as <- _|].
  destruct (state (endpoints k).[oid]) eqn:Hst.
  - pose proof (park_inv k oid (mkEp RecvWait (wrap 16 (current (sched (ss k)))) (wrap 16 (current_domain k))
      (msg0 (endpoints k).[oid]) (xfer_cptr (endpoints k).[oid])) saved n Hi ltac:(lia) Hst ltac:(done)
      Hc0 Hn Hclk eq_refl eq_refl (rv_xfer _ _ (ki_rv k Hi) oid ltac:(lia))) as Hp.
    change (block_reason_of (state _)) with BLOCK_RECV in Hp.
    destruct (block_current (ss k) saved BLOCK_RECV (wrap 16 oid)) as [st1 next].
    injection He as <- _. split; [exact Hp|apply caps_step_refl].
  - destruct (rv_slot _ _ (ki_rv k Hi) oid ltac:(lia) ltac:(by rewrite Hst)) as [Hp (_ & _ & _ & _ & Hpd)].
    destruct (current_domain_task k Hi) as [_ Hcr].
    assert (Hpr : 0 <= peer_domain (endpoints k).[oid])
      by (rewrite <- Hpd; apply (ki_dom k Hi); lia).
    destruct (transfer_opt _ _ _ _) as [k1 x] eqn:Hto. injection He as <- _.
    apply transfer_opt_ok in Hto as (c & -> & Hc & _);
      [|by apply upd_ep_wf, Hi|lia..|by apply (rv_xfer _ _ (ki_rv k Hi)); lia].
    split; [apply meet_inv; [done|lia|by rewrite Hst|done]|done].
  - by injection He as <- _.
Qed.
End ipc_inv.

(** ** System calls *)

(** What an endpoint operation on [oid] leaves alone. *)
Record ep_frame {D} (oid : Z) (k k' : KState D) : Prop := {
  ef_ot : objects k' = objects k;
  ef_notify : notify k' = notify k;
  ef_exts : extents k' = extents k;
  ef_dqs : devqueues k' = devqueues k;
  ef_maps : domain_maps k' = domain_maps k;
  ef_fa : fa k' = fa k;
  ef_pt : pt k' = pt k;
  ef_dev : dev k' = dev k;
  ef_eps : ∀ o, 0 <= o → o ≠ oid → (endpoints k').[o] = (endpoints k).[o];
}.

Section syscalls.
Context `{Bitflags} `{MapperLaws} {D : Type} `{BlockDev D}.
Implicit Types (k : KState D).

Lemma ep_frame_id oid k : ep_frame oid k k.
Proof. by split. Qed.

Lemma ep_frame_upd oid k f s c :
  0 <= oid → s_ot c = objects k → ep_frame oid k (set_ss (set_caps (upd_ep k oid f) c) s).
Proof. intros Ho Hc. split; try done. intros o Ho' Hne. simpl. by rewrite aget_aset_ne by lia. Qed.

Lemma ep_frame_park oid k f s : 0 <= oid → ep_frame oid k (set_ss (upd_ep k oid f) s).
Proof. intros Ho. split; try done. intros o Ho' Hne. simpl. by rewrite aget_aset_ne by lia. Qed.

Lemma ep_send_frame k dom oid msg xfer r saved k' res :
  k_wf k → rendezvous (sched (ss k)) (endpoints k) → domains_ok (sched (ss k)) →
  0 <= oid → 0 <= dom → 0 <= xfer →
  ep_send k dom oid msg xfer r saved = (k', res) → ep_frame oid k k'.
Proof.
  intros Hk Hr Hd Ho Hdom Hx He. rewrite ep_send_cases in He. cbv zeta in He.
  destruct (decide (OBJECT_TABLE_SIZE <= oid)); [injection He as <- _; apply ep_frame_id|].
  destruct (decide (send_permitted xfer r)); [|injection He as <- _; apply ep_frame_id].
  destruct (state (endpoints k).[oid]) eqn:Hst.
  - destruct (block_current _ _ _ _) as [st1 next]. injection He as <- _. by apply ep_frame_park.
  - injection He as <- _. apply ep_frame_id.
  - destruct (rv_slot _ _ Hr oid ltac:(lia) ltac:(by rewrite Hst)) as [Hp (_ & _ & _ & _ & Hpd)].
    assert (Hpr : 0 <= peer_domain (endpoints k).[oid]) by (rewrite <- Hpd; apply Hd; lia).
    destruct (transfer_opt _ _ _ _) as [k1 x] eqn:Hto. injection He as <- _.
    apply transfer_opt_ok in Hto as (c & -> & _ & Hc); [|by apply upd_ep_wf|lia..|done].
    by apply ep_frame_upd.
Qed.

Lemma ep_recv_frame k dom oid saved k' res :
  k_wf k → rendezvous (sched (ss k)) (endpoints k) → domains_ok (sched (ss k)) →
  0 <= oid → 0 <= dom → ep_recv k dom oid saved = (k', res) → ep_frame oid k k'.
Proof.
  intros Hk Hr Hd Ho Hdom He. rewrite ep_recv_cases in He. cbv zeta in He.
  destruct (decide (OBJECT_TABLE_SIZE <= oid)); [injection He as <- _; apply ep_frame_id|].
  destruct (state (endpoints k).[oid]) eqn:Hst.
  - destruct (block_current _ _ _ _) as [st1 next]. injection He as <- _. by apply ep_frame_park.
  - destruct (rv_slot _ _ Hr oid ltac:(lia) ltac:(by rewrite Hst)) as [Hp (_ & _ & _ & _ & Hpd)].
    assert (Hpr : 0 <= peer_domain (endpoints k).[oid]) by (rewrite <- Hpd; apply Hd; lia).
    assert (Hxf := rv_xfer _ _ Hr oid ltac:(lia)).
    destruct (transfer_opt _ _ _ _) as [k1 x] eqn:Hto. injection He as <- _.
    apply transfer_opt_ok in Hto as (c & -> & _ & Hc); [|by apply upd_ep_wf|lia..|done].
    by apply ep_frame_upd.
  - injection He as <- _. apply ep_frame_id.
Qed.

(** [resolve] accepts exactly the valid entries with INVOKE. *)
Lemma resolve_ok k d cptr method e :
  resolve k d cptr method = Ok e ↔
  entry_at (table k d) cptr = Some e ∧ valid (objects k) e ∧ submask Rights.INVOKE (rights e).
Proof.
  unfold resolve. rewrite invoke_alt, lookup_alt, <- check_entry_ok.
  destruct (entry_at (table k d) cptr) as [e'|]; [|crush].
  destruct (check_entry (objects k) e') eqn:Hc; try (split; crush).
  destruct (rights_contains (rights e') Rights.INVOKE) eqn:Hr.
  - apply rights_contains_spec in Hr. split; crush.
  - split; [done|]. intros ([= <-] & _ & Hs). apply rights_contains_spec in Hs. congruence.
Qed.

Lemma resolve_oid k d cptr method e :
  k_wf k → 0 <= d < MAX_DOMAINS → 0 <= cptr → resolve k d cptr method = Ok e → 0 <= object_id e.
Proof.
  intros Hk Hd Hc (He & _)%resolve_ok.
  assert (Hct : ct_wf (table k d)) by (apply table_wf; [apply Hk|by rewrite (kw_tables k Hk)]).
  by apply (entry_at_typed (table k d) cptr).
Qed.

(** One [cap_invoke_ipc] keeps the invariant and takes only [Authority] steps. *)
Lemma cap_invoke_ipc_inv k cptr method arg0 xfer saved n k' res :
  k_inv k → 0 <= cptr → 0 <= xfer → current (sched (ss k)) ≠ 0 → 0 <= n → clock_ok (ss k) n →
  cap_invoke_ipc k cptr method arg0 xfer saved = (k', res) →
  k_inv k' ∧ caps_step (caps k) (caps k').
Proof.
  intros Hi Hc Hx Hc0 Hn Hclk Hm. unfold cap_invoke_ipc in Hm.
  destruct (current_domain_task k Hi) as [_ Hcd].
  assert (Hid : k_inv k ∧ caps_step (caps k) (caps k)) by (split; [done|apply caps_step_refl]).
  destruct (resolve k _ cptr method) as [e|st] eqn:Hr; [|by injection Hm as <- _].
  pose proof (resolve_oid _ _ _ _ _ (ki_wf k Hi) Hcd Hc Hr) as Ho.
  destruct (arm _ _ _ E_SEND); [by apply (ep_send_inv _ _ _ _ _ _ n) in Hm|].
  destruct (arm _ _ _ E_RECV); [by apply (ep_recv_inv _ _ _ n) in Hm|].
  destruct (negb _); [by injection Hm as <- _|].
  destruct (dispatch_method _ _ _ _ _ _ _) as [k1 [st reply]] eqn:Hd. injection Hm as <- _.
  apply dispatch_ok in Hd as [(Hk & (C1 & C2 & C3 & _) & _) _]; [|apply Hi|done..].
  rewrite C1. split; [|apply caps_step_refl]. destruct Hi. split; [done|by rewrite C3..|].
  by rewrite C3, C2.
Qed.
End syscalls.

(** ** Reaping a domain *)

Lemma unmap_all_effect p f vas :
  pt_wf p f →
  pt_wf (unmap_all p vas) f ∧
  (∀ va, va ∈ vas → translate (unmap_all p vas) va = None) ∧
  (∀ va, (∀ va', va' ∈ vas → vpn va ≠ vpn va') → translate (unmap_all p vas) va = translate p va).
Proof.
  revert p. induction vas as [|v vas IH]; intros p Hp; [set_solver|].
  destruct (unmap_page p v) as [p1 b] eqn:Hu.
  destruct (unmap_page_effect p f v p1 b Hp Hu) as (Hp1 & Hv & Hoth).
  replace (unmap_all p (v :: vas)) with (unmap_all p1 vas) by (unfold unmap_all; simpl; by rewrite Hu).
  destruct (IH p1 Hp1) as (Hwf & Hin & Hout). split; [done|]. split.
  - intros va. rewrite elem_of_cons. intros [->|?]; [|by apply Hin].
    destruct (decide (Exists (λ va', vpn v = vpn va') vas)) as [He|He].
    + apply Exists_exists in He as (va' & Hva' & Hvv).
      rewrite (translate_same_page _ va' v) by done. by apply Hin.
    + rewrite Hout; [done|]. intros va' Hva' Hvv. apply He, Exists_exists. by exists va'.
  - intros va Hva. rewrite Hout; [|set_solver]. apply Hoth. apply Hva. set_solver.
Qed.

Section reap.
Context `{Bitflags} {D : Type}.
Implicit Types (k : KState D).

(** The ledger invariant after one domain's pages are gone. *)
Lemma ledger_reap k d :
  k_wf k → 0 <= d < MAX_DOMAINS →
  let p := unmap_all (pt k) (ledger (domain_maps k).[d]) in
  pt_wf p (fa k) ∧
  ledger_ok p (domain_maps k).[d := mkDM (entries (domain_maps k).[d]) 0].
Proof.
  intros Hk Hd p. set (l := domain_maps k) in *. set (dm := mkDM _ 0).
  assert (Hlen : zlen l = MAX_DOMAINS) by apply Hk.
  destruct (unmap_all_effect (pt k) (fa k) (ledger l.[d]) (kw_pt k Hk)) as (Hwf & Hin & Hout).
  fold p in Hwf, Hin, Hout. split; [done|]. destruct (kw_ledger k Hk) as [Hnd Hmaps]. fold l in Hnd, Hmaps.
  pose proof (all_maps_aset l d dm ltac:(by rewrite Hlen)) as Hp.
  change (ledger dm) with (@nil Z) in Hp. rewrite app_nil_r in Hp.
  rewrite <- Hp in Hnd. apply NoDup_app in Hnd as (Hnd & Hdisj & _). split; [done|].
  assert (Hsub : ∀ va, va ∈ ledger l.[d] → va ∈ grant_vas).
  { intros va Hva. apply Hmaps. rewrite <- Hp. apply elem_of_app. by right. }
  intros va. split.
  - intros Hva. assert (Ha : va ∈ all_maps l) by (rewrite <- Hp; apply elem_of_app; by left).
    apply Hmaps in Ha as [Hg Ht]. split; [done|]. rewrite Hout; [done|].
    intros va' Hva' Hv. apply grant_vpn in Hv as ->; [|done|by apply Hsub].
    by apply (Hdisj va').
  - intros [Hg Ht]. destruct (decide (va ∈ ledger l.[d])) as [Hl|Hl]; [by rewrite Hin in Ht|].
    rewrite Hout in Ht.
    + assert (Ha : va ∈ all_maps l) by by apply Hmaps.
      rewrite <- Hp in Ha. apply elem_of_app in Ha as [?|?]; done.
    + intros va' Hva' Hv. apply grant_vpn in Hv as ->; [done|done|by apply Hsub].
Qed.

Lemma reap_eq k d task :
  k_wf k → 0 <= d < MAX_DOMAINS →
  reap_domain k d task =
  let k1 := set_endpoints (set_caps k (set_table (caps k) d CapTable_new)) (scrub task <$> endpoints k) in
  set_maps (set_mem k1 (fa k) (unmap_all (pt k) (ledger (domain_maps k).[d])))
    (domain_maps k).[d := mkDM (entries (domain_maps k).[d]) 0].
Proof.
  intros Hk Hd. unfold reap_domain. rewrite (proj2 (Z.ltb_lt d MAX_DOMAINS)) by lia.
  cbv zeta. cbn [domain_maps set_endpoints set_caps].
  destruct (Z.ltb_spec 0 (count (domain_maps k).[d])); [done|].
  assert (Hdm : dm_wf (domain_maps k).[d]) by (apply Forall_aget; [apply Hk|by rewrite (kw_maps k Hk)]).
  destruct Hdm as [_ Hc]. assert (Hc0 : count (domain_maps k).[d] = 0) by lia.
  unfold ledger. rewrite Hc0. change (take (Z.to_nat 0) _) with (@nil Z).
  rewrite <- Hc0. replace (mkDM _ (count _)) with (domain_maps k).[d] by by destruct ((domain_maps k).[d]).
  rewrite aset_id by (rewrite (kw_maps k Hk); lia). done.
Qed.

Lemma reap_wf k d task :
  k_wf k → 0 <= d < MAX_DOMAINS →
  k_wf (reap_domain k d task) ∧ caps (reap_domain k d task) = exec (caps k) (OpReset d).
Proof.
  intros Hk Hd. rewrite reap_eq by done. cbv zeta. split; [|done].
  destruct (ledger_reap k d Hk Hd) as [Hwf Hl].
  assert (Hdm : dm_wf (domain_maps k).[d]) by (apply Forall_aget; [apply Hk|by rewrite (kw_maps k Hk)]).
  apply k_wf_mem; [|done| | |done].
  - apply set_endpoints_wf; [apply set_caps_wf; [done|..]|].
    + apply set_table_wf; [apply Hk|apply CapTable_new_wf].
    + simpl. rewrite zlen_aset. apply Hk.
    + unfold zlen. rewrite length_fmap. apply Hk.
  - rewrite zlen_aset. apply Hk.
  - apply Forall_aset; [apply Hk|]. destruct Hdm. split; [done|]. simpl. unfold MAX_MAPS_PER_DOMAIN. lia.
Qed.

(** Scrubbing for a task that is not parked finds nothing. *)
Lemma scrub_none k task :
  k_wf k → rendezvous (sched (ss k)) (endpoints k) →
  t_blocked (tasks (sched (ss k))).[task] = false → scrub task <$> endpoints k = endpoints k.
Proof.
  intros Hk Hr Hb. rewrite <- (list_fmap_id (endpoints k)) at 2. apply list_fmap_ext.
  intros n ep Hep. pose proof (lookup_lt_Some _ _ _ Hep) as Hn. set (i := Z.of_nat n).
  assert (Hi : 0 <= i < OBJECT_TABLE_SIZE) by (rewrite <- (kw_eps k Hk); unfold zlen; lia).
  assert (ep = (endpoints k).[i]) as ->
    by (symmetry; apply aget_lookup; unfold i; by rewrite Nat2Z.id).
  unfold scrub, id.
  destruct (bool_decide_reflect (state (endpoints k).[i] = Idle)) as [|Hne]; [done|]. simpl.
  destruct (Z.eqb_spec (peer_task (endpoints k).[i]) task) as [<-|]; [|done].
  destruct (rv_slot _ _ Hr i Hi Hne) as [_ (_ & Hbt & _)]. congruence.
Qed.
End reap.

(** ** Creation and delegation of root capabilities *)

Section root_inv.
Context `{Bitflags} {D : Type}.
Implicit Types (k : KState D).

Lemma k_inv_caps k c :
  k_inv k → sys_wf c → zlen (s_tables c) = MAX_DOMAINS → k_inv (set_caps k c).
Proof. intros [] Hc Hl. split; try done. by apply set_caps_wf. Qed.

(** A payload write that concerns neither capabilities nor the scheduler. *)
Definition payload_ok (f : KState D → Z → option (KState D)) : Prop :=
  ∀ k oid k', k_inv k → 0 <= oid → f k oid = Some k' → k_inv k' ∧ caps k' = caps k.

Lemma exec_caps k op : k_inv k → op_ok MAX_DOMAINS op → k_inv (set_caps k (exec (caps k) op)).
Proof.
  intros Hi Hop. pose proof (ki_wf k Hi) as Hk. apply k_inv_caps; [done|..].
  - apply exec_wf; [apply Hk|]. by rewrite (kw_tables k Hk).
  - rewrite exec_tables_len. apply Hk.
Qed.

Lemma mint_root_inv k kd r f k' res :
  k_inv k → fits 16 (raw kd) → fits 16 r → payload_ok f →
  mint_root k kd r f = (k', res) → k_inv k'.
Proof.
  intros Hi Hkd Hr Hf Hm. unfold mint_root in Hm.
  pose proof (exec_caps k (OpCreate kd) Hi Hkd) as Hi1. simpl in Hi1. unfold objects in Hm.
  destruct (create_object (s_ot (caps k)) kd) as [ot [oid|]] eqn:Hc; [|by injection Hm as <- _].
  simpl in Hi1. apply create_object_Some in Hc as (Ho & _); [|apply Hi].
  destruct (f _ oid) as [k2|] eqn:Hfk; [|by injection Hm as <- _].
  destruct (Hf _ oid k2 Hi1 ltac:(lia) Hfk) as [Hi2 _].
  assert (Hop : op_ok MAX_DOMAINS (OpMint 0 oid r 0)).
  { unfold OBJECT_TABLE_SIZE, MAX_DOMAINS in *. repeat split; (lia || apply Hr). }
  pose proof (exec_caps k2 _ Hi2 Hop) as Hi3. simpl in Hi3.
  unfold table in Hm. destruct (mint _ _ _ _ _) as [ct x]. injection Hm as <- _. exact Hi3.
Qed.

Lemma payload_none : payload_ok (λ k _, Some k).
Proof. intros k oid k' Hi _ [= <-]. done. Qed.

Lemma delegate_from_root_inv k d c mask bdg k' res :
  k_inv k → 0 <= d → 0 <= c → fits 16 bdg → delegate_from_root k d c mask bdg = (k', res) → k_inv k'.
Proof.
  intros Hi Hd Hc Hb Hm. unfold delegate_from_root in Hm.
  destruct (Z.eqb_spec d 0); [by injection Hm as <- _|].
  destruct (Z.leb_spec MAX_DOMAINS d); simpl in Hm; [by injection Hm as <- _|].
  assert (Hop : op_ok MAX_DOMAINS (OpDelegate 0 d c mask bdg)).
  { unfold MAX_DOMAINS in *. repeat split; (lia || apply Hb). }
  pose proof (exec_caps k _ Hi Hop) as Hi1. simpl in Hi1. unfold table, objects in Hm.
  destruct (delegate _ _ _ _ _ _) as [ct x]. injection Hm as <- _. exact Hi1.
Qed.

Lemma mint_extent_inv k l n h frame k' res :
  k_inv k → fits 52 frame → mint_extent_inner k l n h frame = (k', res) → k_inv k'.
Proof.
  intros Hi Hfr Hm. eapply mint_root_inv; [exact Hi| | | |exact Hm].
  - by vm_compute.
  - unfold payload_rights. rewrite !rights_union_spec. by vm_compute.
  - intros k1 oid k2 Hi1 Ho Hf. destruct (_ <=? _); [done|]. injection Hf as <-.
    destruct Hi1 as [[]]. split; [|done]. split; [|done..]. split; try done; simpl.
    + by rewrite zlen_aset.
    + by apply Forall_aset.
Qed.

Lemma create_device_queue_inv k v mgc scratch k' res :
  k_inv k → fits 52 (v_desc_phys v) → fits 52 (v_avail_phys v) → fits 52 (v_used_phys v) →
  fits 52 (v_hdr_phys v) → fits 52 (v_doorbell_phys v) →
  create_device_queue k v mgc scratch = (k', res) → k_inv k'.
Proof.
  intros Hi F1 F2 F3 F4 F5 Hm. unfold create_device_queue, device_queue_desc in Hm.
  destruct (v_present v); simpl in Hm; [|by injection Hm as <- _].
  eapply mint_root_inv; [exact Hi| | | |exact Hm].
  - by vm_compute.
  - unfold payload_rights. rewrite !rights_union_spec. by vm_compute.
  - intros k1 oid k2 Hi1 Ho Hf. destruct (_ <=? _); [done|]. injection Hf as <-.
    destruct Hi1 as [[]]. split; [|done]. split; [|done..]. split; try done; simpl.
    + by rewrite zlen_aset.
    + apply Forall_aset; [done|]. unfold dq_fits. simpl. auto.
Qed.

Lemma capspace0_wf (st : SState) f p (dv : D) :
  pt_wf p f → (∀ va, va ∈ grant_vas → translate p va = None) → k_wf (capspace0 st f p dv).
Proof.
  intros Hp Hg.
  split; unfold capspace0; cbn [caps notify endpoints extents devqueues domain_maps pt fa s_tables s_ot];
    rewrite ?zlen_replicate; try done.
  - split; [apply ObjectTable_new_wf|]. split; [|apply Forall_replicate, CapTable_new_wf].
    by apply Forall_replicate.
  - by apply Forall_replicate.
  - apply Forall_replicate. by repeat split.
  - apply Forall_replicate. by vm_compute.
  - assert (Hnil : all_maps (replicate (Z.to_nat MAX_DOMAINS) DM_EMPTY) = []) by by vm_compute.
    split; rewrite Hnil; [apply NoDup_nil_2|]. intros va. split; [by intros ?%elem_of_nil|].
    intros [Hva Ht]. by rewrite Hg in Ht.
Qed.

(** The initial statics satisfy the invariant over a good scheduler and hierarchy
    whose granted addresses are unmapped. *)
Lemma capspace0_inv (st : SState) f p (dv : D) :
  sched_ok st → domains_ok (sched st) → pt_wf p f →
  (∀ i, 0 <= i < MAX_TASKS → t_blocked (tasks (sched st)).[i] = false) →
  (∀ va, va ∈ grant_vas → translate p va = None) → k_inv (capspace0 st f p dv).
Proof.
  intros Hs Hd Hp Hb Hg. split; [by apply capspace0_wf|done..|].
  split; cbn [endpoints capspace0 ss].
  - intros oid Ho. rewrite aget_replicate by (unfold OBJECT_TABLE_SIZE in *; lia). done.
  - intros i Hi _ Hbi. by rewrite Hb in Hbi.
  - intros oid Ho. rewrite aget_replicate by (unfold OBJECT_TABLE_SIZE in *; lia). done.
Qed.
End root_inv.

(** ** The properties *)

Section properties.
Context `{Bitflags} `{MapperLaws} {D : Type} `{BlockDev D}.
Implicit Types (k : KState D).

(** The entry the destination of a MOVE receives. *)
Definition moved (e : CapEntry) : CapEntry := child_of e rights_all 0.

Lemma table_set_table k d ct x :
  k_wf k → 0 <= d < MAX_DOMAINS → 0 <= x →
  (s_tables (set_table (caps k) d ct)).[x] = if decide (d = x) then ct else table k x.
Proof.
  intros Hk Hd Hx. unfold set_table, table. simpl. by rewrite aget_aset by (rewrite ?(kw_tables k Hk); lia).
Qed.

(** A transfer that succeeds. *)
Lemma transfer_Ok k src c dst k' c' :
  k_wf k → 0 <= src → 0 <= dst → 0 <= c → do_cap_transfer k src c dst = (k', Ok c') →
  ∃ e, src ≠ dst ∧ entry_at (table k src) c = Some e ∧ valid (objects k) e ∧
    submask Rights.DELEGATE (rights e) ∧ 0 <= c' < CAP_TABLE_SLOTS ∧
    entry_at (table k dst) c' = None ∧ derives e (moved e) ∧
    k' = set_caps k (caps k') ∧ objects k' = objects k ∧
    ∀ d x, 0 <= d < MAX_DOMAINS → 0 <= x →
      entry_at (table k' d) x =
        if decide (d = src ∧ x = c) then None
        else if decide (d = dst ∧ x = c') then Some (moved e) else entry_at (table k d) x.
Proof.
  intros Hk Hs Hd Hc Ht. destruct (transfer_refines k src c dst k' _ Hk Hs Hd Hc Ht) as (Hops & Hne & Hc' & Hk').
  apply Forall_cons in Hops as [(Hs' & Hd' & _) Hops].
  apply Forall_cons in Hops as [(_ & Hcs) _].
  assert (Hct : ∀ d, 0 <= d < MAX_DOMAINS → ct_wf (table k d))
    by (intros d ?; apply table_wf; [apply Hk|by rewrite (kw_tables k Hk)]).
  unfold do_cap_transfer in Ht. rewrite (proj2 (Z.eqb_neq src dst)) in Ht by done.
  destruct (Z.leb_spec MAX_DOMAINS src); [lia|]. destruct (Z.leb_spec MAX_DOMAINS dst); [lia|].
  cbn [orb] in Ht.
  destruct (delegate _ _ _ _ _ _) as [ct [x|]] eqn:Hdel; [|done]. injection Ht as Hkt ->.
  apply delegate_Ok in Hdel as (e & He & Hv & Hdl & _ & Hn & ->); [|by apply Hct].
  exists e. do 6 (split; [done|]). split.
  { repeat split. unfold moved, child_of. simpl. rewrite rights_inter_spec. apply submask_land_l. }
  split; [by rewrite Hk'|]. split; [by rewrite Hk'|]. intros d y Hd0 Hy. subst k'.
  unfold table at 1. cbn [caps set_caps]. unfold set_table at 1. cbn [s_tables].
  rewrite aget_aset by (simpl; rewrite ?zlen_aset, ?(kw_tables k Hk); lia).
  rewrite (aget_aset_ne _ dst src), table_set_table by (done || lia). fold (table k src).
  destruct (decide (src = d)) as [<-|Hsd].
  - rewrite (decide_False (P := src = dst ∧ _)) by naive_solver. unfold clear_slot.
    rewrite entry_at_insert by (by apply Hct || lia). do 2 case_decide; naive_solver.
  - rewrite (decide_False (P := d = src ∧ _)) by naive_solver.
    destruct (decide (dst = d)) as [<-|Hdd]; [|by rewrite decide_False by naive_solver].
    rewrite entry_at_insert by (by apply Hct || lia). do 2 case_decide; naive_solver.
Qed.

(** A valid capability with DELEGATE moves to any other domain with room. *)
Lemma transfer_complete k src c dst e j :
  k_wf k → 0 <= src < MAX_DOMAINS → 0 <= dst < MAX_DOMAINS → src ≠ dst →
  entry_at (table k src) c = Some e → valid (objects k) e → submask Rights.DELEGATE (rights e) →
  0 <= j < CAP_TABLE_SLOTS → entry_at (table k dst) j = None → ∃ k' c', do_cap_transfer k src c dst = (k', Ok c').
Proof.
  intros Hk Hs Hd Hne He Hv Hdl Hj Hn. unfold do_cap_transfer. rewrite (proj2 (Z.eqb_neq src dst)) by done.
  destruct (Z.leb_spec MAX_DOMAINS src); [lia|]. destruct (Z.leb_spec MAX_DOMAINS dst); [lia|]. cbn [orb].
  assert (Hct : ct_wf (table k dst)) by (apply table_wf; [apply Hk|by rewrite (kw_tables k Hk)]).
  destruct (delegate _ _ _ _ _ _) as [ct [x|st]] eqn:E; [by do 2 eexists|].
  apply delegate_Err in E as (_ & _ & Hfull); [|done]. destruct Hfull as [_ Hfull]; [by exists e|]. by destruct (Hfull j Hj).
Qed.

(** C13: a capability transfer is an atomic MOVE. On success the domains differ, the
    source held a valid capability with DELEGATE, its slot is now empty, a slot of the
    destination that was free holds the same object, epoch and type with no more rights,
    and no other slot of any domain has changed. On any failure nothing has changed at
    all, and a failure is never reported as success. *)
Theorem transfer_move k src c dst :
  k_wf k → 0 <= src → 0 <= dst → 0 <= c →
  let '(k', res) := do_cap_transfer k src c dst in
  match res with
  | Ok c' => ∃ e, src ≠ dst ∧ entry_at (table k src) c = Some e ∧ valid (objects k) e ∧
      submask Rights.DELEGATE (rights e) ∧ 0 <= c' < CAP_TABLE_SLOTS ∧
      entry_at (table k dst) c' = None ∧ derives e (moved e) ∧
      k' = set_caps k (caps k') ∧ objects k' = objects k ∧
      ∀ d x, 0 <= d < MAX_DOMAINS → 0 <= x →
        entry_at (table k' d) x =
          if decide (d = src ∧ x = c) then None
          else if decide (d = dst ∧ x = c') then Some (moved e) else entry_at (table k d) x
  | Err st => k' = k ∧ st ≠ StOk
  end.
Proof.
  intros Hk Hs Hd Hc. destruct (do_cap_transfer k src c dst) as [k' [c'|st]] eqn:Ht.
  - by apply (transfer_Ok k src c dst).
  - exact (transfer_refines k src c dst k' _ Hk Hs Hd Hc Ht).
Qed.

(** After a rendezvous on [oid]: capabilities as in [kt], slot idle, the parked peer
    awake with result [r], everybody else's context as before. *)
Definition met (k kt k' : KState D) (oid : Z) (r : Z * Z * Z) : Prop :=
  let peer := peer_task (endpoints k).[oid] in
  caps k' = caps kt ∧ state (endpoints k').[oid] = Idle ∧
  t_blocked (tasks (sched (ss k'))).[peer] = false ∧
  take_ipc_result (sched (ss k')) peer = r ∧
  current (sched (ss k')) = current (sched (ss k)) ∧
  others_kept (sched (ss k)) (sched (ss k')) peer.

Lemma met_intro k c oid r :
  k_inv k → 0 <= oid < OBJECT_TABLE_SIZE → state (endpoints k).[oid] ≠ Idle →
  let kt := set_caps (upd_ep k oid (set_state Idle)) c in
  met k kt (wake3 kt (peer_task (endpoints k).[oid]) r) oid r.
Proof.
  intros [Hk Hs Hd Hr] Ho Hne kt. destruct (rv_slot _ _ Hr oid Ho Hne) as [Hp _].
  pose proof (sp_len _ (so_pre _ Hs)) as Hlen. unfold met. split; [done|]. split.
  { simpl. by rewrite aget_aset_eq by (rewrite (kw_eps k Hk); lia). }
  assert (Hp0 : 0 <= peer_task (endpoints k).[oid]) by lia.
  destruct (wake_ok (ss k) (peer_task (endpoints k).[oid]) r.1.1 r.1.2 r.2 Hs Hp0) as (_ & Hcu & Hok).
  assert (Hget : (tasks (sched (ss (wake3 kt (peer_task (endpoints k).[oid]) r)))).[peer_task (endpoints k).[oid]] =
    set_blocked false (set_ipc r.1.1 r.1.2 r.2 (tasks (sched (ss k))).[peer_task (endpoints k).[oid]])).
  { simpl. rewrite unblock_task by (done || lia). by rewrite decide_True by lia. }
  split; [by rewrite Hget|]. split; [|by split].
  unfold take_ipc_result. rewrite Hget. destruct (Z.leb_spec MAX_TASKS (peer_task (endpoints k).[oid])); [lia|].
  by destruct r as [[? ?] ?].
Qed.


(** Every change from [k] to [k'] is backed by invoking [method] on [e]. *)
Record backed (e : CapEntry) (method : Z) k k' : Prop := {
  bk_auth : authorised (type_tag e) (object_id e) (rights e) method k k';
  bk_mem : mem_step (current_domain k) k k';
  bk_ot : objects k' = objects k;
  bk_exts : extents k' = extents k;
  bk_dqs : devqueues k' = devqueues k;
  bk_eps : ∀ o, 0 <= o → o ≠ object_id e → (endpoints k').[o] = (endpoints k).[o];
  bk_ipc : caps k' ≠ caps k ∨ endpoints k' ≠ endpoints k ∨ ss k' ≠ ss k →
    type_tag e = Kind.Endpoint ∧ (method = E_SEND ∨ method = E_RECV);
}.

Lemma ep_frame_backed e method k k' :
  ep_frame (object_id e) k k' → type_tag e = Kind.Endpoint → method = E_SEND ∨ method = E_RECV →
  backed e method k k'.
Proof.
  intros [] Ht Hme. split; try done.
  - split; rewrite ?ef_pt0, ?ef_maps0, ?ef_fa0, ?ef_notify0, ?ef_dev0; first [done|tauto].
  - unfold mem_step. by rewrite ef_maps0, ef_fa0.
Qed.

(** C3: no ambient authority. A system call that names no valid capability with INVOKE
    in the caller's own table changes nothing. Otherwise every change it makes is backed
    by that capability: page tables and the mapping ledger change only through a MAP
    right on an extent or a device queue; frames leave the allocator only for M_ALLOC
    on a memory object or for such a mapping, and no frame is ever returned to it;
    pending bits change only for the named notification and only with WRITE (signal) or
    READ (poll); the disk is touched only with WRITE on a device queue; endpoints,
    tasks and capability tables change only through an endpoint, and no other endpoint
    than the named one; no object is created, revoked or rewritten; no other domain's
    ledger moves. *)
Theorem no_ambient_authority k cptr method arg0 xfer saved k' res :
  k_inv k → 0 <= cptr → 0 <= xfer → cap_invoke_ipc k cptr method arg0 xfer saved = (k', res) →
  match resolve k (current_domain k) cptr method with
  | Err st => k' = k ∧ res = IDone (status_code st) 0 CPTR_NONE
  | Ok e =>
      entry_at (table k (current_domain k)) cptr = Some e ∧ valid (objects k) e ∧
      submask Rights.INVOKE (rights e) ∧ backed e method k k'
  end.
Proof.
  intros Hi Hc Hx Hm. unfold cap_invoke_ipc in Hm. destruct (current_domain_task k Hi) as [_ Hcd].
  destruct (resolve k _ cptr method) as [e|st] eqn:Hr; [|by injection Hm as <- <-].
  pose proof (resolve_oid _ _ _ _ _ (ki_wf k Hi) Hcd Hc Hr) as Ho.
  apply resolve_ok in Hr as (He & Hv & Hin). do 3 (split; [done|]).
  destruct (arm _ _ _ E_SEND) eqn:E1.
  { apply arm_true in E1 as [Ht Hme]. apply ep_frame_backed; [|done|by left].
    eapply ep_send_frame; [apply Hi..|exact Ho|apply Hcd|exact Hx|exact Hm]. }
  destruct (arm _ _ _ E_RECV) eqn:E2.
  { apply arm_true in E2 as [Ht Hme]. apply ep_frame_backed; [|done|by right].
    eapply ep_recv_frame; [apply Hi..|exact Ho|apply Hcd|exact Hm]. }
  clear E1 E2. destruct (negb _).
  { injection Hm as <- _. split; try done; [apply authorised_id|tauto]. }
  destruct (dispatch_method _ _ _ _ _ _ _) as [k1 [st reply]] eqn:Hd. injection Hm as <- _.
  apply dispatch_ok in Hd as [(_ & (C1 & C2 & C3 & C4 & C5) & Hmem) Hau]; [|apply Hi|done..].
  split; try done; unfold objects; rewrite ?C1, ?C2, ?C3; tauto.
Qed.

(** C17: reaping. After [reap_domain] the dead domain holds no capability, every page it
    had been granted is unmapped and its ledger is empty, while all other capability
    tables, objects and ledgers, every translation outside its granted pages and the
    frame allocator are as before; the invariant is kept. A task that was running, so
    not parked, leaves no endpoint slot behind. *)
Theorem reap_spec k d task :
  k_wf k → 0 <= d < MAX_DOMAINS →
  let k' := reap_domain k d task in
  k_wf k' ∧ objects k' = objects k ∧ fa k' = fa k ∧
  (∀ d' c, 0 <= d' < MAX_DOMAINS → 0 <= c →
    entry_at (table k' d') c = if decide (d' = d) then None else entry_at (table k d') c) ∧
  (∀ va, va ∈ ledger (domain_maps k).[d] → translate (pt k') va = None) ∧
  (∀ va, (∀ va', va' ∈ ledger (domain_maps k).[d] → vpn va ≠ vpn va') →
    translate (pt k') va = translate (pt k) va) ∧
  ledger (domain_maps k').[d] = [] ∧
  (∀ d', 0 <= d' → d' ≠ d → (domain_maps k').[d'] = (domain_maps k).[d']) ∧
  (rendezvous (sched (ss k)) (endpoints k) → t_blocked (tasks (sched (ss k))).[task] = false →
    endpoints k' = endpoints k).
Proof.
  intros Hk Hd k'. destruct (reap_wf k d task Hk Hd) as [Hk' _]. split; [done|].
  destruct (unmap_all_effect (pt k) (fa k) (ledger (domain_maps k).[d]) (kw_pt k Hk)) as (_ & Hin & Hout).
  unfold k'. rewrite reap_eq by done. cbv zeta. split; [done|]. split; [done|]. split.
  { intros d' c Hd' Hc. unfold table at 1.
    change (caps (set_maps _ _)) with (set_table (caps k) d CapTable_new).
    rewrite table_set_table by (done || lia). rewrite (decide_ext (d = d') (d' = d)) by naive_solver.
    case_decide; [by apply entry_at_new|done]. }
  split; [done|]. split; [done|]. cbn [domain_maps set_maps].
  rewrite aget_aset_eq by (rewrite (kw_maps k Hk); lia). split; [done|]. split.
  - intros d' Hd0 Hne. by rewrite aget_aset_ne by lia.
  - intros Hr Hb. by apply scrub_none.
Qed.
End properties.

(** ** Instances

    Two tasks in domains 1 and 2 sharing an endpoint; domain 1 also holds a memory
    capability it may pass on, and an extent it may map. *)

#[local] Existing Instance l1_mapper.
#[local] Existing Instance l1_mapper_laws.

Definition demo_run : SState := sched_run demo_ss [Tick 0x900].
Definition demo_disk : adisk := mkAdisk ∅ [] [].
Definition demo_k0 : KState adisk := capspace0 demo_run demo_fa demo_ps demo_disk.
Definition demo_k1 := (create_endpoint demo_k0).1.
Definition demo_k2 := (init_root demo_k1).1.
Definition demo_k3 := (mint_extent_mapped demo_k2 2 5 7 0x9000).1.
Definition demo_k4 := (delegate_from_root demo_k3 1 0 0xff 0).1.
Definition demo_k5 := (delegate_from_root demo_k4 2 0 0xff 0).1.
Definition demo_k6 := (delegate_from_root demo_k5 1 1 0xff 0).1.
Definition demo_k7 := (delegate_from_root demo_k6 1 2 0xff 0).1.
(** Task 1 sends a word and its memory capability; nobody waits, so it parks. *)
Definition demo_k8 := (cap_invoke_ipc demo_k7 0 E_SEND 0xCA11 1 0x2100).1.

Lemma demo_run_ok : sched_ok demo_run.
Proof. apply sched_run_ok; [apply demo_sched_ok|by repeat split|by apply demo_clock; vm_compute]. Qed.

Lemma demo_k0_inv : k_inv demo_k0.
Proof.
  apply capspace0_inv; [exact demo_run_ok| |exact demo_pt_wf| |].
  - intros i Hi. assert (Hc : i = 0 ∨ i = 1 ∨ i = 2 ∨ i = 3 ∨ i = 4) by (unfold MAX_TASKS in Hi; lia).
    destruct Hc as [->|[->|[->|[->| ->]]]]; by vm_compute.
  - intros i Hi. assert (Hc : i = 0 ∨ i = 1 ∨ i = 2 ∨ i = 3 ∨ i = 4) by (unfold MAX_TASKS in Hi; lia).
    destruct Hc as [->|[->|[->|[->| ->]]]]; by vm_compute.
  - intros va Hva. unfold grant_vas in Hva. rewrite !elem_of_cons, elem_of_nil in Hva.
    destruct Hva as [->|[->|[->|[->|[->|[->|[]]]]]]]; by vm_compute.
Qed.

Lemma demo_k7_inv : k_inv demo_k7.
Proof.
  assert (H1 : k_inv demo_k1).
  { refine (mint_root_inv _ _ _ _ _ _ demo_k0_inv _ _ payload_none (surjective_pairing _)); by vm_compute. }
  assert (H2 : k_inv demo_k2).
  { refine (mint_root_inv _ _ _ _ _ _ H1 _ _ payload_none (surjective_pairing _)); by vm_compute. }
  assert (H3 : k_inv demo_k3).
  { refine (mint_extent_inv _ 2 5 7 0x9000 _ _ H2 _ (surjective_pairing _)). by vm_compute. }
  assert (Hstep : ∀ (k : KState adisk) d c, k_inv k → 0 <= d → 0 <= c → k_inv (delegate_from_root k d c 0xff 0).1).
  { intros k d c Hk Hd Hc. eapply delegate_from_root_inv; [exact Hk|exact Hd|exact Hc| |apply surjective_pairing].
    by vm_compute. }
  unfold demo_k7, demo_k6, demo_k5, demo_k4. repeat (apply Hstep; [|lia|lia]). exact H3.
Qed.

Lemma demo_k8_inv : k_inv demo_k8.
Proof.
  assert (Hc : current (sched (ss demo_k7)) ≠ 0) by by vm_compute.
  assert (Hk : clock_ok (ss demo_k7) 100) by by vm_compute.
  refine (proj1 (cap_invoke_ipc_inv demo_k7 0 E_SEND 0xCA11 1 0x2100 100 _ _ demo_k7_inv
    _ _ Hc _ Hk (surjective_pairing _))); lia.
Qed.

(** The memory capability of domain 1 moves to slot 1 of domain 2. *)
Lemma transfer_move_witness :
  let k' := (do_cap_transfer demo_k7 1 1 2).1 in
  (do_cap_transfer demo_k7 1 1 2).2 = Ok 1 ∧ entry_at (table k' 1) 1 = None ∧
  ∃ e, entry_at (table demo_k7 1) 1 = Some e ∧ entry_at (table k' 2) 1 = Some (moved e).
Proof.
  cbv zeta. pose proof (transfer_move demo_k7 1 1 2 (ki_wf _ demo_k7_inv) ltac:(lia) ltac:(lia) ltac:(lia)) as H.
  assert (E : (do_cap_transfer demo_k7 1 1 2).2 = Ok 1) by by vm_compute.
  destruct (do_cap_transfer demo_k7 1 1 2) as [k' res]. cbn [fst snd] in *. subst res.
  destruct H as (e & _ & He & _ & _ & _ & _ & _ & _ & _ & Hall).
  split; [reflexivity|]. rewrite (Hall 1 1), (Hall 2 1) by (unfold MAX_DOMAINS; lia).
  split; [reflexivity|]. exists e. split; [exact He|reflexivity].
Defined.


(** Mapping the extent succeeds through the MAP right in slot 2 of domain 1. *)
Lemma no_ambient_authority_witness :
  let k' := (cap_invoke_ipc demo_k7 2 X_MAP 0 CPTR_NONE 0).1 in
  pt k' ≠ pt demo_k7 ∧
  ∃ e, entry_at (table demo_k7 1) 2 = Some e ∧ submask Rights.MAP (rights e) ∧ type_tag e = Kind.Extent.
Proof.
  cbv zeta.
  assert (Hx : 0 <= CPTR_NONE) by (unfold CPTR_NONE; lia).
  assert (Hne : translate (pt (cap_invoke_ipc demo_k7 2 X_MAP 0 CPTR_NONE 0).1) EXTENT_MAP_BASE ≠
    translate (pt demo_k7) EXTENT_MAP_BASE) by (vm_compute; discriminate).
  assert (Ed : current_domain demo_k7 = 1) by (vm_compute; reflexivity).
  assert (Er : match resolve demo_k7 1 2 X_MAP with Ok e => type_tag e = Kind.Extent | Err _ => False end)
    by (vm_compute; reflexivity).
  destruct (cap_invoke_ipc demo_k7 2 X_MAP 0 CPTR_NONE 0) as [k' res] eqn:E. cbn [fst] in *.
  assert (Hpt : pt k' ≠ pt demo_k7) by (intros Ep; apply Hne; rewrite Ep; reflexivity).
  split; [exact Hpt|]. clear Hne.
  pose proof (no_ambient_authority demo_k7 2 X_MAP 0 CPTR_NONE 0 k' res demo_k7_inv ltac:(lia) Hx E) as H.
  rewrite Ed in H. destruct (resolve demo_k7 1 2 X_MAP) as [e|st]; [|contradiction].
  destruct H as (He & _ & _ & Hb). exists e. split; [exact He|]. split; [|exact Er].
  exact (proj1 (au_map _ _ _ _ _ _ (bk_auth _ _ _ _ Hb) (or_introl Hpt))).
Defined.

(** Domain 1 has mapped its extent and is reaped. *)
Lemma reap_spec_witness :
  let k := (cap_invoke_ipc demo_k7 2 X_MAP 0 CPTR_NONE 0).1 in
  translate (pt k) EXTENT_MAP_BASE ≠ None ∧
  translate (pt (reap_domain k 1 1)) EXTENT_MAP_BASE = None ∧
  entry_at (table (reap_domain k 1 1) 1) 0 = None.
Proof.
  cbv zeta.
  assert (Hc : current (sched (ss demo_k7)) ≠ 0) by by vm_compute.
  assert (Hk : clock_ok (ss demo_k7) 100) by by vm_compute.
  assert (Hx : 0 <= CPTR_NONE) by (unfold CPTR_NONE; lia).
  assert (Hl : EXTENT_MAP_BASE ∈ ledger (domain_maps (cap_invoke_ipc demo_k7 2 X_MAP 0 CPTR_NONE 0).1).[1])
    by (apply list_elem_of_In; vm_compute; left; reflexivity).
  assert (Ht : translate (pt (cap_invoke_ipc demo_k7 2 X_MAP 0 CPTR_NONE 0).1) EXTENT_MAP_BASE ≠ None)
    by (vm_compute; discriminate).
  destruct (cap_invoke_ipc demo_k7 2 X_MAP 0 CPTR_NONE 0) as [k res] eqn:E. cbn [fst] in *.
  destruct (cap_invoke_ipc_inv demo_k7 2 X_MAP 0 CPTR_NONE 0 100 k res demo_k7_inv
    ltac:(lia) Hx Hc ltac:(lia) Hk E) as [Hi _].
  split; [exact Ht|].
  destruct (reap_spec k 1 1 (ki_wf _ Hi) ltac:(unfold MAX_DOMAINS; lia)) as (_ & _ & _ & Htab & Hun & _).
  split; [exact (Hun _ Hl)|]. rewrite (Htab 1 0) by (unfold MAX_DOMAINS; lia). reflexivity.
Defined.
