(* ===== verification/Kernel.v ===== *)
(** * The kernel as a whole ([sched.rs], [syscall.rs], [supervisor.rs], [interrupts.rs])

    Admission of tasks, the system-call dispatcher and its assembly entry, termination of
    a faulting task with reaping and supervised restart, and the exception handlers; and
    the kernel as a transition system whose events are the kernel's own operations at
    boot, timer ticks, system calls of the running task and its faults.

    [Kern] adds to the capability space the words of [TASK_STACKS], the two fields of
    [PER_CPU] the scheduler does not own, and the supervisor's three statics. *)

From S2P Require Import Prelude Capability CapTable Authority FrameSpec Memory Paging Sched Gdt Context BlockDev ObjStore VirtioBlk Capspace.

Definition SYS_CAP_INVOKE : Z := 1.
Definition CPTR_NULL : Z := 0xffff.
Definition FAULT_DOMAIN : Z := 4.
Definition U16_MAX : Z := 0xffff.

Record Kern {D : Type} := mkKern {
  ks : KState D;
  kmem : gmap Z Z;           (* TASK_STACKS, by address *)
  user_rsp_scratch : Z;      (* PER_CPU *)
  reply_cptr : Z;
  f_entry : Z;               (* FAULTER_ENTRY, FAULTER_STACK_TOP, FAULTER_RESTARTS *)
  f_stack_top : Z;
  f_restarts : Z;
}.
Arguments Kern D : clear implicits.

(** What a system call does: return a status and a reply, or park the caller and switch
    to a saved context. *)
Inductive sys_result := SRet (status reply : Z) | SPark (next_rsp : Z).
#[global] Instance sys_result_eq_dec : EqDecision sys_result.
Proof. solve_decision. Defined.

(** How an exception handler leaves: back to the interrupted code, in an endless halt, or
    into another task. *)
Inductive trap_result := TResume | THalt | TSwitch (next_rsp : Z).

(** Page-fault error code bits. *)
Definition PF_PROTECTION_VIOLATION : Z := 0.
Definition PF_USER_MODE : Z := 2.

Section kernel.
Context `{Bitflags} `{Mapper} {D : Type} `{BlockDev D}.
(** The selectors of [gdt::init] and the address of [TASK_STACKS]. *)
Variable (sel : GdtSelectors) (stacks : Z).
Implicit Types (k : Kern D).

Definition with_ks k (x : KState D) : Kern D :=
  mkKern D x (kmem k) (user_rsp_scratch k) (reply_cptr k) (f_entry k) (f_stack_top k) (f_restarts k).
Definition with_kmem k (x : gmap Z Z) : Kern D :=
  mkKern D (ks k) x (user_rsp_scratch k) (reply_cptr k) (f_entry k) (f_stack_top k) (f_restarts k).
Definition with_reply k (x : Z) : Kern D :=
  mkKern D (ks k) (kmem k) (user_rsp_scratch k) x (f_entry k) (f_stack_top k) (f_restarts k).
Definition with_scratch k (x : Z) : Kern D :=
  mkKern D (ks k) (kmem k) x (reply_cptr k) (f_entry k) (f_stack_top k) (f_restarts k).
Definition with_restarts k (x : Z) : Kern D :=
  mkKern D (ks k) (kmem k) (user_rsp_scratch k) (reply_cptr k) (f_entry k) (f_stack_top k) x.
Definition sch k : Scheduler := sched (ss (ks k)).

(** ** Admission *)

(** The tail of [admit] and [admit_user]: the frame, the task, the count. *)
Definition place_task k (i : Z) (frame : gmap Z Z * Z) (dom period rel budget : Z) : Kern D :=
  let now := now_ns (ss (ks k)) in
  let t := new_task frame.2 (task_kstack_top stacks i) dom period rel budget now in
  with_ks (with_kmem k frame.1) (with_sched_k (ks k) (publish_task (sch k) i t)).

(** [admit]: a kernel task, in the root domain. *)
Definition admit_kernel k (entry cptr period rel budget : Z) : Kern D * option Z :=
  if period =? 0 then (k, None)
  else if negb (bool_decide (admit_check (ks k) cptr = StOk)) then (k, None)
  else match free_slot (sch k) with
       | None => (k, None)
       | Some i =>
           (place_task k i (build_task_frame sel stacks (kmem k) i entry) 0 period rel budget, Some i)
       end.

Definition admit_user k (user_entry_va user_stack_top mem_cptr cptr domain period rel budget : Z) :
    Kern D * option Z :=
  if period =? 0 then (k, None)
  else if negb (bool_decide (admit_check (ks k) cptr = StOk)) then (k, None)
  else match free_slot (sch k) with
       | None => (k, None)
       | Some i =>
           (place_task k i (build_task_frame_inner sel stacks (kmem k) i user_entry_va true user_stack_top
              mem_cptr) domain period rel budget, Some i)
       end.

(** ** [supervisor.rs] *)

Definition register_faulter k (entry stack_top budget : Z) : Kern D :=
  mkKern D (ks k) (kmem k) (user_rsp_scratch k) (reply_cptr k) entry stack_top budget.

(** The capabilities of a fresh instance: [mem] in its domain and [ts], which gates its
    admission. *)
Definition restart_grants (s : KState D) : KState D * option Z * option Z :=
  let '(s, m) := init_root s in
  let '(s, mem) := match m with
                   | Some m => delegate_from_root s FAULT_DOMAIN m Rights.INVOKE 0
                   | None => (s, None)
                   end in
  let '(s, ts) := mint_timeslice s in
  (s, mem, ts).

Definition on_domain_death k (domain : Z) : Kern D :=
  if negb (domain =? FAULT_DOMAIN) then k
  else
    let left := f_restarts k in
    if left =? 0 then k
    else
      let k := with_restarts k (left - 1) in
      let '(s, mem, ts) := restart_grants (ks k) in
      let k := with_ks k s in
      match mem, ts with
      | Some fm, Some ft =>
          (admit_user k (f_entry k) (f_stack_top k) fm ft FAULT_DOMAIN 5000000 5000000 1000000).1
      | _, _ => k
      end.

(** ** [terminate_current] *)

(** Freeing the slot of task [cur]. *)
Definition kill (s : Scheduler) (cur : Z) : Scheduler :=
  let s := upd_task s cur set_dead in
  if 0 <? num s then mkSched (tasks s) (num s - 1) (current s) else s.

(** The new state and the context [jump_to_task] restores. *)
Definition terminate_current k : Kern D * Z :=
  let cur := current (sch k) in
  let domain := t_domain (tasks (sch k)).[cur] in
  let k := with_ks k (with_sched_k (ks k) (kill (sch k) cur)) in
  let k := with_ks k (reap_domain (ks k) domain (wrap 16 cur)) in
  let k := on_domain_death k domain in
  let k := with_ks k (set_ss (ks k) (switch_next (ss (ks k)))) in
  (k, t_rsp (tasks (sch k)).[current (sch k)]).

(** ** [syscall_dispatch] *)

Definition syscall_dispatch k (nr cptr method arg0 _arg1 _arg2 xfer saved : Z) : Kern D * sys_result :=
  let k := with_reply k CPTR_NULL in
  if negb (nr =? SYS_CAP_INVOKE) then (k, SRet (status_code ErrMethod) 0)
  else if (U16_MAX <? cptr) || (U16_MAX <? method) || (U16_MAX <? xfer)
  then (k, SRet (status_code ErrBadCPtr) 0)
  else
    match cap_invoke_ipc (ks k) cptr method arg0 xfer saved with
    | (s, IDone st reply rc) => (with_reply (with_ks k s) rc, SRet st reply)
    | (s, IPark next) => (with_ks k s, SPark next)
    end.

(** The rest of the call when a parked task, running again, resumes it: [take_ipc_result]
    in [ep_send] or [ep_recv], then the tail of [syscall_dispatch]. *)
Definition syscall_resume k : Kern D * sys_result :=
  let '(st, reply, rc) := take_ipc_result (sch k) (current (sch k)) in
  (with_reply k rc, SRet st reply).

(** ** The timer *)

Definition timer_tick k (rsp : Z) : Kern D := with_ks k (set_ss (ks k) (schedule_tick (ss (ks k)) rsp).1).

(** ** [interrupts.rs] *)

Definition faulted_in_ring3 (cs : Z) : bool := Z.land cs 3 =? 3.
Definition terminate_ring3 k : Kern D * trap_result :=
  let '(k, next) := terminate_current k in (k, TSwitch next).

(** [guard] is [stack_guard_base()]; [cr2] is the faulting address. *)
Definition page_fault_handler (guard : Z) k (cs cr2 error_code : Z) : Kern D * trap_result :=
  if negb (Z.testbit error_code PF_USER_MODE) && (guard <=? cr2) && (cr2 <? guard + 0x1000) then (k, THalt)
  else if faulted_in_ring3 cs then terminate_ring3 k
  else if negb (Z.testbit error_code PF_PROTECTION_VIOLATION) &&
          (0xffffffff80000000 <=? cr2) && (cr2 <? 0xffffffffc0000000) then
    let '(p, f, ok) := manual_map (pt (ks k)) (fa (ks k)) cr2 in
    (with_ks k (set_mem (ks k) f p), if ok then TResume else THalt)
  else (k, THalt).

Definition general_protection_handler k (cs : Z) : Kern D * trap_result :=
  if faulted_in_ring3 cs then terminate_ring3 k else (k, THalt).
Definition invalid_opcode_handler k (cs : Z) : Kern D * trap_result :=
  if faulted_in_ring3 cs then terminate_ring3 k else (k, THalt).
Definition double_fault_handler k : Kern D * trap_result := (k, THalt).
Definition breakpoint_handler k : Kern D * trap_result := (k, TResume).
Definition spurious_interrupt_handler k : Kern D * trap_result := (k, TResume).

(** ** Events *)

Inductive kevent :=
  (* the kernel's own operations, at boot *)
  | KMemory | KNotification | KEndpoint | KTimeslice
  | KExtent (l n h frame : Z) | KDeviceQueue (v : VirtioBlk) (mgc scratch : Z)
  | KDelegate (d c mask bdg : Z) | KInvoke (d c method arg : Z) | KRevokeTimeslice (c : Z)
  | KAdmit (entry cptr period rel budget : Z)
  | KAdmitUser (entry stack_top mem_cptr cptr dom period rel budget : Z)
  | KRegister (entry stack_top budget : Z)
  (* interrupts and system calls *)
  | KTick (rsp : Z)
  | KSyscall (nr cptr method arg0 arg1 arg2 xfer saved : Z)
  | KSysResume
  | KFault.

Definition kstep k (ev : kevent) : Kern D :=
  match ev with
  | KMemory => with_ks k (init_root (ks k)).1
  | KNotification => with_ks k (create_notification (ks k)).1
  | KEndpoint => with_ks k (create_endpoint (ks k)).1
  | KTimeslice => with_ks k (mint_timeslice (ks k)).1
  | KExtent l n h frame => with_ks k (mint_extent_mapped (ks k) l n h frame).1
  | KDeviceQueue v mgc scratch => with_ks k (create_device_queue (ks k) v mgc scratch).1
  | KDelegate d c mask bdg => with_ks k (delegate_from_root (ks k) d c mask bdg).1
  | KInvoke d c method arg => with_ks k (cap_invoke_in (ks k) d c method arg).1
  | KRevokeTimeslice c => with_ks k (revoke_timeslice (ks k) c).1
  | KAdmit entry cptr period rel budget => (admit_kernel k entry cptr period rel budget).1
  | KAdmitUser entry st m cptr dom period rel budget =>
      (admit_user k entry st m cptr dom period rel budget).1
  | KRegister entry st budget => register_faulter k entry st budget
  | KTick rsp => timer_tick k rsp
  | KSyscall nr cptr method a0 a1 a2 xfer saved =>
      (syscall_dispatch k nr cptr method a0 a1 a2 xfer saved).1
  | KSysResume => (syscall_resume k).1
  | KFault => (terminate_current k).1
  end.

Definition krun k (evs : list kevent) : Kern D := foldl kstep k evs.
End kernel.

(** ** Capability operations of the kernel, as traces *)

Section caps.
Context `{Bitflags} `{Mapper} {D : Type} `{BlockDev D}.
Implicit Types (s : KState D).

Lemma caps_step_evolves c c' : zlen (s_tables c) = MAX_DOMAINS → caps_step c c' → evolves c c'.
Proof.
  intros Hl (ops & Hok & Hm & ->). exists ops. rewrite Hl. split; [done|]. split; [done|]. intros o _ _.
  eapply Forall_impl; [exact Hm|]. by intros [].
Qed.

Lemma mint_root_evolves s kd r f s' res :
  k_wf s → fits 16 (raw kd) → fits 16 r → (∀ k oid k', f k oid = Some k' → caps k' = caps k) →
  mint_root s kd r f = (s', res) → evolves (caps s) (caps s').
Proof.
  intros Hk Hkd Hr Hf Hm. unfold mint_root in Hm. unfold objects in Hm.
  assert (Hlen := kw_tables s Hk).
  destruct (create_object (s_ot (caps s)) kd) as [ot [oid|]] eqn:Hc; [|injection Hm as <- _; apply evolves_refl].
  assert (Hex : exec (caps s) (OpCreate kd) = mkSys ot (s_tables (caps s))) by (simpl; by rewrite Hc).
  assert (Hev1 : evolves (caps s) (mkSys ot (s_tables (caps s)))) by (rewrite <- Hex; by apply evolves_exec).
  destruct (f _ oid) as [s2|] eqn:Hfk; [|by injection Hm as <- _].
  apply Hf in Hfk. cbn [caps set_caps] in Hfk.
  apply create_object_Some in Hc as (Ho & Hab & _ & _); [|apply Hk].
  destruct (mint _ _ _ _ _) as [ct x] eqn:Hmt. injection Hm as <- _. cbn [caps set_caps].
  exists [OpCreate kd; OpMint 0 oid r 0]. rewrite Hlen. split; [|split].
  - repeat (apply Forall_cons; split); [done| |by apply Forall_nil].
    unfold OBJECT_TABLE_SIZE, MAX_DOMAINS in *. repeat split; (lia || apply Hr).
  - unfold Authority.run. cbn [foldl]. rewrite Hex. simpl. unfold table in Hmt. rewrite Hfk in Hmt |- *.
    cbn [s_ot s_tables] in Hmt. by rewrite Hmt.
  - intros o Ho' Hp. repeat (apply Forall_cons; split); [done| |by apply Forall_nil].
    intros ->. unfold exists_in in Hp. congruence.
Qed.

(** Minting without a payload touches nothing but the capability space. *)
Lemma mint_root_pure s kd r s' res :
  mint_root s kd r (λ k _, Some k) = (s', res) → s' = set_caps s (caps s').
Proof.
  unfold mint_root. destruct (create_object _ _) as [ot [oid|]]; [|intros [= <- _]; by destruct s].
  destruct (mint _ _ _ _ _) as [ct x]. by intros [= <- _].
Qed.

Lemma delegate_root_evolves s d c mask bdg s' res :
  k_wf s → 0 <= d → 0 <= c → fits 16 bdg → delegate_from_root s d c mask bdg = (s', res) →
  s' = set_caps s (caps s') ∧ evolves (caps s) (caps s').
Proof.
  intros Hk Hd Hc Hb Hm. unfold delegate_from_root in Hm.
  assert (Hid : s = set_caps s (caps s) ∧ evolves (caps s) (caps s)) by (split; [by destruct s|apply evolves_refl]).
  destruct (Z.eqb_spec d 0); [by injection Hm as <- _|].
  destruct (Z.leb_spec MAX_DOMAINS d); simpl in Hm; [by injection Hm as <- _|].
  pose proof (evolves_exec (caps s) (OpDelegate 0 d c mask bdg)) as He. simpl in He. unfold table, objects in Hm.
  destruct (delegate _ _ _ _ _ _) as [ct x]. injection Hm as <- _. split; [done|]. apply He; [|done].
  rewrite (kw_tables s Hk). unfold MAX_DOMAINS in *. repeat split; (lia || apply Hb).
Qed.

(** Only the capability space changes, and no capability appears for an existing object. *)
Definition caps_only s s' : Prop := s' = set_caps s (caps s') ∧ evolves (caps s) (caps s').

Lemma caps_only_refl s : caps_only s s.
Proof. split; [by destruct s|apply evolves_refl]. Qed.

Lemma caps_only_trans s1 s2 s3 : k_wf s1 → caps_only s1 s2 → caps_only s2 s3 → caps_only s1 s3.
Proof.
  intros Hk [E1 Hv1] [E2 Hv2]. split; [by rewrite E2, E1 at 1|].
  eapply evolves_trans; [apply Hk|exact Hv1|exact Hv2].
Qed.

Lemma caps_only_wf s s' : k_wf s → caps_only s s' → k_wf s'.
Proof.
  intros Hk [E He]. destruct (evolves_wf _ _ (kw_caps s Hk) He) as [Hw Hl]. rewrite E.
  apply set_caps_wf; [done|done|]. rewrite Hl. apply Hk.
Qed.

Lemma mint_pure_only s kd r s' res :
  k_wf s → fits 16 (raw kd) → fits 16 r → mint_root s kd r (λ k _, Some k) = (s', res) → caps_only s s'.
Proof.
  intros Hk Hkd Hr Hm. split; [by eapply mint_root_pure|].
  eapply mint_root_evolves; [exact Hk|exact Hkd|exact Hr| |exact Hm]. by intros ? ? ? [= ->].
Qed.

Lemma init_root_only s s' res : k_wf s → init_root s = (s', res) → caps_only s s'.
Proof.
  intros Hk. apply mint_pure_only; [done|by vm_compute|]. rewrite !rights_union_spec. by vm_compute.
Qed.
Lemma mint_timeslice_only s s' res : k_wf s → mint_timeslice s = (s', res) → caps_only s s'.
Proof. intros Hk. apply mint_pure_only; [done|by vm_compute|by vm_compute]. Qed.

(** A minted root capability: a new object, and an entry in a free slot of table 0. *)
Lemma mint_pure_Some s kd r s' c :
  k_wf s → fits 16 (raw kd) → mint_root s kd r (λ k _, Some k) = (s', Some c) →
  0 <= c < CAP_TABLE_SLOTS ∧ ∃ oid ot e, 0 <= oid < OBJECT_TABLE_SIZE ∧
    create_object (objects s) kd = (ot, Some oid) ∧ e = minted ot oid r 0 ∧ entry_at (table s 0) c = None ∧
    caps s' = set_table (mkSys ot (s_tables (caps s))) 0 (mkCapTable (slots (table s 0)).[c := Some e]).
Proof.
  intros Hk Hkd Hm. unfold mint_root in Hm.
  destruct (create_object (objects s) kd) as [ot [oid|]] eqn:Hc; [|done].
  pose proof (create_object_Some _ _ _ _ (proj1 (kw_caps s Hk)) Hc) as (Ho & _).
  assert (Hct : ct_wf (table s 0)) by (apply table_wf; [apply Hk|rewrite (kw_tables s Hk); by vm_compute]).
  destruct (mint _ _ _ _ _) as [ct x] eqn:Hmt. destruct x as [c'|]; [|done]. injection Hm as <- ->.
  apply mint_Ok in Hmt as (Hcr & _ & Hn & _ & _ & ->); [|exact Hct]. split; [done|].
  exists oid, ot, (minted ot oid r 0). done.
Qed.
End caps.

(** ** Scheduler steps *)

Lemma free_slot_Some s i :
  free_slot s = Some i → 1 <= i < MAX_TASKS ∧ t_present (tasks s).[i] = false.
Proof.
  unfold free_slot. intros Hh. assert (Hin : i ∈ filter (λ i, negb (t_present (tasks s).[i]) = true) (seqZ 1 (MAX_TASKS - 1))).
  { destruct (filter _ _); simplify_eq/=. by left. }
  apply list_elem_of_filter in Hin as [Hp Hr]. apply elem_of_seqZ in Hr. apply negb_true_iff in Hp.
  split; [lia|done].
Qed.

Lemma free_slot_None s : free_slot s = None → ∀ i, 1 <= i < MAX_TASKS → t_present (tasks s).[i] = true.
Proof.
  unfold free_slot. intros Hh i Hi. destruct (t_present (tasks s).[i]) eqn:Hp; [done|].
  assert (Hin : i ∈ filter (λ i, negb (t_present (tasks s).[i]) = true) (seqZ 1 (MAX_TASKS - 1))).
  { apply list_elem_of_filter. rewrite Hp. split; [done|]. apply elem_of_seqZ. lia. }
  destruct (filter _ _); [|done]. by apply not_elem_of_nil in Hin.
Qed.

Lemma head_filter {A} (P : A → Prop) `{∀ x, Decision (P x)} l x :
  head (filter P l) = Some x → ∃ l1 l2, l = l1 ++ x :: l2 ∧ ∀ y, y ∈ l1 → ¬ P y.
Proof.
  induction l as [|z l IH]; [done|]. rewrite filter_cons. case_decide as Hz.
  - intros [= ->]. exists [], l. split; [done|]. by intros y ?%not_elem_of_nil.
  - intros (l1 & l2 & -> & Hl)%IH. exists (z :: l1), l2. split; [done|]. intros y [->|?]%elem_of_cons; auto.
Qed.

Lemma free_slot_least s i : free_slot s = Some i → ∀ j, 1 <= j < i → t_present (tasks s).[j] = true.
Proof.
  intros (l1 & l2 & Hl & Hn)%head_filter j Hj.
  assert (Hat : seqZ 1 (MAX_TASKS - 1) !! length l1 = Some i).
  { rewrite Hl. by rewrite list_lookup_middle. }
  apply lookup_seqZ in Hat as [Hi Hlen].
  assert (Hin : j ∈ l1).
  { apply list_elem_of_lookup. exists (Z.to_nat (j - 1)).
    rewrite <- (lookup_app_l _ (i :: l2)), <- Hl by lia. apply lookup_seqZ. lia. }
  apply Hn in Hin. by destruct (t_present _).
Qed.

Lemma publish_pre s i t :
  sched_pre s → 1 <= i < MAX_TASKS → t_present (tasks s).[i] = false → task_wf t → t_present t = true →
  sched_pre (publish_task s i t).
Proof.
  intros [Hlen HF Hidle Hnum] Hi Hp Hwf Ht. unfold publish_task. split; cbn [tasks num].
  - by rewrite zlen_aset.
  - by apply Forall_aset.
  - by rewrite aget_aset_ne by lia.
  - rewrite count_present_aset by (rewrite Hlen; lia). rewrite Hp, Ht, Hnum. simpl. lia.
Qed.

Lemma count_present_nonneg l : 0 <= count_present l.
Proof. induction l as [|t l IH]; simpl; [lia|]. destruct (t_present t); simpl; lia. Qed.

Lemma kill_pre s c :
  sched_pre s → 1 <= c < MAX_TASKS → t_present (tasks s).[c] = true →
  sched_pre (kill s c) ∧ tasks (kill s c) = (tasks s).[c := set_dead (tasks s).[c]].
Proof.
  intros [Hlen HF Hidle Hnum] Hc Hp. unfold kill, upd_task. cbn [num tasks current].
  assert (Hn : 0 < num s).
  { pose proof (count_present_aset (tasks s) c (set_dead (tasks s).[c]) ltac:(rewrite Hlen; lia)) as He.
    rewrite Hp in He. simpl in He. pose proof (count_present_nonneg (tasks s).[c := set_dead (tasks s).[c]]). lia. }
  rewrite (proj2 (Z.ltb_lt 0 (num s)) Hn). split; [|done]. split; cbn [tasks num].
  - by rewrite zlen_aset.
  - apply Forall_aset; [done|]. assert (Hw : task_wf (tasks s).[c]) by (apply Forall_aget; [done|rewrite Hlen; lia]).
    exact Hw.
  - by rewrite aget_aset_ne by lia.
  - rewrite count_present_aset by (rewrite Hlen; lia). rewrite Hp, Hnum. simpl. lia.
Qed.

(** The fields endpoints rely on. *)
Definition rv_same (t t' : Task) : Prop :=
  t_present t' = t_present t ∧ t_blocked t' = t_blocked t ∧ t_wait_ep t' = t_wait_ep t ∧
  t_block_reason t' = t_block_reason t ∧ t_domain t' = t_domain t.

Lemma same_context_rv t t' : same_context t t' → rv_same t t'.
Proof. unfold same_context, rv_same. naive_solver. Qed.

Definition parked (t : Task) : Prop := t_present t = true ∧ t_blocked t = true.

(** Tasks that are not parked, before and after, do not matter to endpoints. *)
Lemma rendezvous_ext s s' eps :
  (∀ i, 0 <= i < MAX_TASKS →
    rv_same (tasks s).[i] (tasks s').[i] ∨ (¬ parked (tasks s).[i] ∧ ¬ parked (tasks s').[i])) →
  rendezvous s eps → rendezvous s' eps.
Proof.
  intros Hs [H1 H2 H3]. split; [| |done].
  - intros oid Ho Hne. destruct (H1 oid Ho Hne) as [Hp Hpk]. split; [done|].
    assert (Hp' : 0 <= peer_task eps.[oid] < MAX_TASKS) by lia. destruct (Hs _ Hp') as [Hr|[Hn _]].
    + destruct Hr as (E1 & E2 & E3 & E4 & E5). unfold parked_on. by rewrite E1, E2, E3, E4, E5.
    + destruct Hn. by destruct Hpk as (? & ? & _).
  - intros i Hi Hp Hb. destruct (Hs i Hi) as [(E1 & E2 & E3 & _)|[_ Hn]]; [|by destruct Hn].
    rewrite E1 in Hp. rewrite E2 in Hb. rewrite E3. by apply H2.
Qed.

Lemma tick_rv st rsp n i :
  sched_ok st → 0 <= n → clock_ok st (n + 1) → 0 <= i < MAX_TASKS →
  rv_same (tasks (sched st)).[i] (tasks (sched (schedule_tick st rsp).1)).[i].
Proof.
  intros [Hpre Hcur Hcoh] Hn Hclk Hi. destruct (tick_now st n rsp Hn Hclk) as [_ Hnow].
  pose proof (current_wf _ Hpre Hcur) as Hcw. destruct Hcur as (Hc & Hcp & Hcb).
  unfold schedule_tick. cbn [sched]. destruct (num (sched st) <=? 1); [done|]. cbn [fst].
  set (st1 := with_sched _ _).
  assert (Hpre1 : sched_pre (sched st1)).
  { apply upd_pre; [done|done|by apply set_rsp_wf|done|]. intros _. apply (sp_idle _ Hpre). }
  destruct (switch_next_ok st1 Hpre1 Hnow) as (_ & _ & Hctx). specialize (Hctx i Hi).
  apply same_context_rv in Hctx. unfold st1 in Hctx at 1. cbn [sched with_sched] in Hctx.
  rewrite tasks_upd in Hctx by (rewrite ?(sp_len _ Hpre); lia).
  case_decide as E; [|exact Hctx]. subst i. exact Hctx.
Qed.

(** ** The invariant between a death and the next selection *)

(** [k_inv] without what it says of the running task, which is gone. *)
Record k_pre {D} (s : KState D) : Prop := {
  kp_wf : k_wf s;
  kp_sched : sched_pre (sched (ss s));
  kp_dom : domains_ok (sched (ss s));
  kp_rv : rendezvous (sched (ss s)) (endpoints s);
}.

Lemma inv_pre {D} (s : KState D) : k_inv s → k_pre s.
Proof. intros []. split; [done|by apply so_pre|done|done]. Qed.

Lemma domains_ext s s' :
  (∀ i, 0 <= i < MAX_TASKS → t_domain (tasks s').[i] = t_domain (tasks s).[i]) → domains_ok s → domains_ok s'.
Proof. intros He Hd i Hi. rewrite He by done. by apply Hd. Qed.

Section inv.
Context `{Bitflags} `{Mapper} {D : Type} `{BlockDev D}.
Implicit Types (s : KState D).

Lemma caps_only_pre s s' : k_pre s → caps_only s s' → k_pre s'.
Proof.
  intros [Hw Hs Hd Hr] Hc. pose proof (caps_only_wf s s' Hw Hc) as Hw'. destruct Hc as [E _].
  rewrite E in Hw' |- *. by split.
Qed.

Lemma switch_inv s : k_pre s → 0 <= now_ns (ss s) < u64_max → k_inv (set_ss s (switch_next (ss s))).
Proof.
  intros [Hw Hs Hd Hr] Hnow. destruct (switch_next_ok (ss s) Hs Hnow) as (Hok & _ & Hctx).
  split; [by apply set_ss_wf|done|..]; cbn [ss endpoints set_ss].
  - eapply domains_ext; [|exact Hd]. intros i Hi. apply (Hctx i Hi).
  - eapply rendezvous_ext; [|exact Hr]. intros i Hi. left. apply same_context_rv. auto.
Qed.

Lemma tick_inv s rsp n :
  k_inv s → 0 <= n → clock_ok (ss s) (n + 1) → k_inv (set_ss s (schedule_tick (ss s) rsp).1).
Proof.
  intros [Hw Hs Hd Hr] Hn Hclk. pose proof (tick_rv (ss s) rsp n) as Hrv.
  destruct (tick_ok (ss s) n rsp Hs Hn Hclk) as [Hok _].
  split; [by apply set_ss_wf|exact Hok|..]; cbn [ss endpoints set_ss].
  - eapply domains_ext; [|exact Hd]. intros i Hi. apply (Hrv i Hs Hn Hclk Hi).
  - eapply rendezvous_ext; [|exact Hr]. intros i Hi. left. auto.
Qed.

(** Publishing a new task in a free slot. *)
Lemma publish_k s i t :
  k_pre s → 1 <= i < MAX_TASKS → t_present (tasks (sched (ss s))).[i] = false →
  task_wf t → t_present t = true → t_blocked t = false → 0 <= t_domain t < MAX_DOMAINS →
  k_pre (with_sched_k s (publish_task (sched (ss s)) i t)).
Proof.
  intros [Hw Hs Hd Hr] Hi Hp Hwf Ht Hb Hdom. unfold with_sched_k.
  assert (Hget : ∀ j, 0 <= j → (tasks (publish_task (sched (ss s)) i t)).[j] =
    if decide (i = j) then t else (tasks (sched (ss s))).[j]).
  { intros j Hj. unfold publish_task. cbn [tasks]. rewrite aget_aset by (rewrite ?(sp_len _ Hs); lia). done. }
  split; cbn [ss set_ss endpoints sched with_sched].
  - by apply set_ss_wf.
  - by apply publish_pre.
  - intros j Hj. rewrite Hget by lia. case_decide; [done|by apply Hd].
  - eapply rendezvous_ext; [|exact Hr]. intros j Hj. rewrite Hget by lia. unfold parked.
    case_decide; [right|by left]. subst j. rewrite Hp, Hb. naive_solver.
Qed.

Lemma publish_inv s i t :
  k_inv s → 1 <= i < MAX_TASKS → t_present (tasks (sched (ss s))).[i] = false →
  task_wf t → t_present t = true → t_blocked t = false → 0 <= t_domain t < MAX_DOMAINS →
  k_inv (with_sched_k s (publish_task (sched (ss s)) i t)).
Proof.
  intros Hk Hi Hp Hwf Ht Hb Hdom.
  destruct (publish_k s i t (inv_pre s Hk) Hi Hp Hwf Ht Hb Hdom) as [P1 P2 P3 P4].
  split; [done| |done|done]. destruct Hk as [_ [_ (Hc & Hcp & Hcb) Hcoh] _ _].
  assert (Hne : i ≠ current (sched (ss s))) by (intros ->; congruence).
  split; [done|..]; unfold current_ok, coherent, with_sched_k in *; cbn in *; rewrite aget_aset_ne by lia; done.
Qed.

(** The running task is removed, then its domain is reaped. *)
Lemma death_pre s d :
  k_inv s → current (sched (ss s)) ≠ 0 → 0 <= d < MAX_DOMAINS →
  let cur := current (sched (ss s)) in
  let s1 := with_sched_k s (kill (sched (ss s)) cur) in
  k_pre (reap_domain s1 d (wrap 16 cur)) ∧ endpoints (reap_domain s1 d (wrap 16 cur)) = endpoints s ∧
  ss (reap_domain s1 d (wrap 16 cur)) = ss s1 ∧ caps (reap_domain s1 d (wrap 16 cur)) = exec (caps s) (OpReset d).
Proof.
  intros [Hw [Hs (Hc & Hcp & Hcb) _] Hd Hr] Hc0 Hdr cur s1. fold cur in Hc, Hcp, Hcb, Hc0.
  assert (Hcr : 1 <= cur < MAX_TASKS) by lia.
  destruct (kill_pre _ cur Hs Hcr Hcp) as [Hs1 Ht1].
  assert (Hget : ∀ j, 0 <= j → (tasks (kill (sched (ss s)) cur)).[j] =
    if decide (cur = j) then set_dead (tasks (sched (ss s))).[cur] else (tasks (sched (ss s))).[j]).
  { intros j Hj. rewrite Ht1, aget_aset by (rewrite ?(sp_len _ Hs); lia). done. }
  assert (Hr1 : rendezvous (sched (ss s1)) (endpoints s1)).
  { eapply rendezvous_ext; [|exact Hr]. intros j Hj. cbn [s1 ss with_sched_k set_ss sched with_sched].
    rewrite Hget by lia. unfold parked. case_decide; [right|by left]. subst j. simpl. split; naive_solver congruence. }
  assert (Hw1 : k_wf s1) by by apply set_ss_wf.
  assert (Hwrap : wrap 16 cur = cur) by (apply wrap_id; unfold fits, MAX_TASKS in *; lia).
  assert (Hep : scrub (wrap 16 cur) <$> endpoints s1 = endpoints s1).
  { apply scrub_none; [done|done|]. rewrite Hwrap. cbn [s1 ss with_sched_k set_ss sched with_sched].
    rewrite Hget by lia. by rewrite decide_True. }
  destruct (reap_wf s1 d (wrap 16 cur) Hw1 Hdr) as [Hw2 Hcaps].
  pose proof (reap_eq s1 d (wrap 16 cur) Hw1 Hdr) as Heq. cbv zeta in Heq. rewrite Hep in Heq.
  assert (He2 : endpoints (reap_domain s1 d (wrap 16 cur)) = endpoints s) by by rewrite Heq.
  assert (Hss2 : ss (reap_domain s1 d (wrap 16 cur)) = ss s1) by by rewrite Heq.
  split; [|done]. split; [done|..]; rewrite Hss2; [done| |by rewrite He2].
  eapply domains_ext; [|exact Hd]. intros j Hj. cbn [s1 ss with_sched_k set_ss sched with_sched].
  rewrite Hget by lia. case_decide; [by subst|done].
Qed.
End inv.

(** ** What a death does to the other domains' capabilities *)

(** Objects that exist are untouched, every domain but [d] keeps its capabilities, and
    only the root domain and [d] may gain any. *)
Definition grows (d : Z) (c c' : sys) : Prop :=
  (∀ o, 0 <= o < OBJECT_TABLE_SIZE → exists_in c o → (metas (s_ot c')).[o] = (metas (s_ot c)).[o]) ∧
  (∀ d' x e, d' ≠ d → holds c d' x e → holds c' d' x e) ∧
  (∀ d' x e, d' ≠ d → d' ≠ 0 → holds c' d' x e → holds c d' x e).

Lemma grows_refl d c : grows d c c.
Proof. split; [done|]. by split. Qed.

Lemma grows_trans d c1 c2 c3 : grows d c1 c2 → grows d c2 c3 → grows d c1 c3.
Proof.
  intros (A1 & A2 & A3) (B1 & B2 & B3). split; [|split; [by auto|by auto]].
  intros o Ho Hp. rewrite B1; [by apply A1|done|]. unfold exists_in. by rewrite A1.
Qed.

(** Liveness of a capability for an existing object only depends on that object. *)
Lemma grows_valid d c c' e :
  grows d c c' → 0 <= object_id e → valid (s_ot c) e → valid (s_ot c') e.
Proof.
  intros (G & _) Ho (V1 & V2 & V3 & V4). unfold valid. rewrite G by done. done.
Qed.

Lemma holds_table_in s d ct d' c e :
  0 <= d < zlen (s_tables s) →
  holds (set_table s d ct) d' c e ↔
  if decide (d = d') then 0 <= c ∧ entry_at ct c = Some e else holds s d' c e.
Proof.
  intros Hd. split; [by apply holds_set_table|]. unfold holds, set_table. simpl. rewrite zlen_aset.
  case_decide as E.
  - subst d'. intros [Hc He]. rewrite aget_aset_eq by lia. done.
  - intros (Hd' & Hc & He). rewrite aget_aset_ne by lia. done.
Qed.

Lemma set_table_id c d : 0 <= d < zlen (s_tables c) → set_table c d (s_tables c).[d] = c.
Proof. intros Hd. unfold set_table. rewrite aset_id by done. by destruct c. Qed.

Lemma create_grows c kd ot oid d :
  sys_wf c → create_object (s_ot c) kd = (ot, Some oid) → grows d c (mkSys ot (s_tables c)).
Proof.
  intros (Hot & _) Hc. apply create_object_Some in Hc as (Ho & Hab & _ & ->); [|done].
  split; [|by split]. intros o Ho' Hp. simpl. unfold exists_in in Hp.
  rewrite aget_aset_ne; [done|lia|lia|]. intros ->. congruence.
Qed.

(** Adding an entry in a free slot of table [d0], which is the root's or [d]'s. *)
Lemma insert_grows c d0 x e d :
  sys_wf c → 0 <= d0 < zlen (s_tables c) → d0 = 0 ∨ d0 = d → 0 <= x < CAP_TABLE_SLOTS →
  entry_at (s_tables c).[d0] x = None →
  grows d c (set_table c d0 (mkCapTable (slots (s_tables c).[d0]).[x := e])).
Proof.
  intros Hwf Hd0 Hor Hx Hn. pose proof (table_wf c d0 Hwf Hd0) as Hct. split; [done|]. split.
  - intros d' y e' Hne Hh. apply holds_table_in; [done|]. case_decide as E; [subst d'|done].
    destruct Hh as (_ & Hy & He). split; [done|]. rewrite entry_at_insert by (done || lia).
    case_decide; [|done]. subst y. congruence.
  - intros d' y e' Hne H0 Hh. apply holds_table_in in Hh; [|done]. rewrite decide_False in Hh; [done|].
    intros ->. by destruct Hor.
Qed.

Lemma reset_grows c d :
  0 <= d < zlen (s_tables c) → grows d c (exec c (OpReset d)).
Proof.
  intros Hd. split; [done|]. simpl. split.
  - intros d' y e Hne Hh. apply holds_table_in; [done|]. by rewrite decide_False by done.
  - intros d' y e Hne _ Hh. apply holds_table_in in Hh; [|done]. by rewrite decide_False in Hh by done.
Qed.

Section death.
Context `{Bitflags} `{Mapper} {D : Type} `{BlockDev D}.
Implicit Types (s : KState D).

Lemma root_table_wf s d : k_wf s → 0 <= d < MAX_DOMAINS → ct_wf (table s d).
Proof. intros Hk Hd. apply table_wf; [apply Hk|]. by rewrite (kw_tables s Hk). Qed.

Lemma mint_pure_grows s kd r d s' res :
  k_wf s → fits 16 (raw kd) → mint_root s kd r (λ s _, Some s) = (s', res) → grows d (caps s) (caps s').
Proof.
  intros Hk Hkd Hm. assert (Hz : 0 <= 0 < MAX_DOMAINS) by by vm_compute.
  destruct res as [c|].
  - apply (mint_pure_Some _ _ _ _ _ Hk Hkd) in Hm as (Hc & oid & ot & e & Ho & Hcr & -> & Hn & ->).
    eapply grows_trans; [eapply create_grows; [apply Hk|exact Hcr]|].
    assert (Hex : mkSys ot (s_tables (caps s)) = exec (caps s) (OpCreate kd)) by (simpl; unfold objects in Hcr; by rewrite Hcr).
    apply (insert_grows (mkSys ot (s_tables (caps s))) 0); [| |by left|done|done].
    + rewrite Hex. apply exec_wf; [apply Hk|done].
    + simpl. by rewrite (kw_tables s Hk).
  - unfold mint_root in Hm. destruct (create_object (objects s) kd) as [ot [oid|]] eqn:Hc; [|injection Hm as <-; apply grows_refl].
    destruct (mint _ _ _ _ _) as [ct [c|e]] eqn:Hmt; [done|]. injection Hm as <-. cbn [caps set_caps].
    apply mint_Err in Hmt as [-> _]; [|exact (root_table_wf s 0 Hk Hz)].
    unfold table. cbn [caps set_caps]. rewrite set_table_id; [|simpl; by rewrite (kw_tables s Hk)].
    eapply create_grows; [apply Hk|exact Hc].
Qed.

Lemma delegate_root_grows s d c mask bdg s' res :
  k_wf s → delegate_from_root s d c mask bdg = (s', res) → 0 <= d → grows d (caps s) (caps s').
Proof.
  intros Hk Hm Hd0. unfold delegate_from_root in Hm.
  destruct (Z.eqb_spec d 0); [injection Hm as <- _; apply grows_refl|].
  destruct (Z.leb_spec MAX_DOMAINS d); simpl in Hm; [injection Hm as <- _; apply grows_refl|].
  assert (Hd : 0 <= d < MAX_DOMAINS) by lia. pose proof (root_table_wf s d Hk Hd) as Hct.
  destruct (delegate _ _ _ _ _ _) as [ct [x|e]] eqn:Hdl; injection Hm as <- _; cbn [caps set_caps].
  - apply delegate_Ok in Hdl as (e & _ & _ & _ & Hx & Hn & ->); [|done].
    apply insert_grows; [apply Hk|by rewrite (kw_tables s Hk)|by right|done|done].
  - apply delegate_Err in Hdl as [-> _]; [|done].
    unfold table. rewrite set_table_id by (by rewrite (kw_tables s Hk)). apply grows_refl.
Qed.

Lemma restart_grants_step s :
  k_wf s → caps_only s (restart_grants s).1.1 ∧ grows FAULT_DOMAIN (caps s) (caps (restart_grants s).1.1).
Proof.
  intros Hw. unfold restart_grants.
  destruct (init_root s) as [s1 m] eqn:E1. pose proof (init_root_only _ _ _ Hw E1) as C1.
  pose proof (caps_only_wf _ _ Hw C1) as W1.
  pose proof (mint_pure_grows _ Kind.Memory _ FAULT_DOMAIN _ _ Hw ltac:(by vm_compute) E1) as G1.
  set (p := match m with Some m => _ | None => _ end).
  assert (C2 : caps_only s1 p.1 ∧ grows FAULT_DOMAIN (caps s1) (caps p.1)).
  { unfold p. destruct m as [m|]; [|split; [apply caps_only_refl|apply grows_refl]].
    destruct (delegate_from_root s1 _ m _ _) as [s2 r2] eqn:E2. cbn [fst]. split.
    - apply (delegate_root_evolves _ _ _ _ _ _ _ W1) in E2; [done|by vm_compute| |by vm_compute].
      apply (mint_pure_Some _ _ _ _ _ Hw) in E1 as [Hm _]; [lia|by vm_compute].
    - eapply delegate_root_grows; [exact W1|exact E2|by vm_compute]. }
  destruct p as [s2 mem]. cbn [fst] in C2. destruct C2 as [C2 G2]. pose proof (caps_only_wf _ _ W1 C2) as W2.
  destruct (mint_timeslice s2) as [s3 ts] eqn:E3. pose proof (mint_timeslice_only _ _ _ W2 E3) as C3.
  pose proof (mint_pure_grows _ Kind.TimeSlice _ FAULT_DOMAIN _ _ W2 ltac:(by vm_compute) E3) as G3. cbn [fst]. split.
  - eapply caps_only_trans; [done|exact C1|]. by eapply caps_only_trans.
  - eapply grows_trans; [exact G1|]. by eapply grows_trans.
Qed.
End death.

(** ** Restart *)

(** What minting a root capability to a new object does. *)
Record minted_root {D} (s s' : KState D) (kd : ObjectKind) (r c oid : Z) : Prop := {
  mr_slot : 0 <= c < CAP_TABLE_SLOTS;
  mr_free : entry_at (table s 0) c = None;
  mr_oid : 0 <= oid < OBJECT_TABLE_SIZE;
  mr_new : ¬ exists_in (caps s) oid;
  mr_root x : 0 <= x → entry_at (table s' 0) x =
    if decide (c = x) then Some (mkCapEntry oid r 0 kd 0) else entry_at (table s 0) x;
  mr_others d : 0 < d → table s' d = table s d;
  mr_objects o : 0 <= o → (metas (objects s')).[o] =
    if decide (oid = o) then mkObjectMeta kd 0 true else (metas (objects s)).[o];
}.

Section restart.
Context `{Bitflags} `{Mapper} {D : Type} `{BlockDev D}.
Variable (sel : GdtSelectors) (stacks : Z).
Implicit Types (k : Kern D) (s : KState D).

Lemma mint_pure_spec s kd r s' c :
  k_wf s → fits 16 (raw kd) → mint_root s kd r (λ s _, Some s) = (s', Some c) → ∃ oid, minted_root s s' kd r c oid.
Proof.
  intros Hk Hkd Hm. apply (mint_pure_Some _ _ _ _ _ Hk Hkd) in Hm as (Hc & oid & ot & e & Ho & Hcr & -> & Hn & Hcaps).
  exists oid. assert (Hz : 0 <= 0 < MAX_DOMAINS) by by vm_compute. pose proof (root_table_wf s 0 Hk Hz) as Hct.
  pose proof (kw_caps s Hk) as (Hot & _). assert (Hlen : zlen (metas (objects s)) = OBJECT_TABLE_SIZE) by apply Hot.
  apply create_object_Some in Hcr as (_ & Hab & _ & ->); [|done].
  split; [done|done|done| | | |].
  - unfold exists_in. fold (objects s). congruence.
  - intros x Hx. unfold table at 1. rewrite Hcaps. cbn [set_table s_tables].
    rewrite aget_aset_eq by (rewrite (kw_tables s Hk); lia). rewrite entry_at_insert by (done || lia).
    case_decide; [|done]. unfold minted. cbn [metas]. rewrite aget_aset_eq by (rewrite Hlen; lia). done.
  - intros d Hd. unfold table at 1. rewrite Hcaps. cbn [set_table s_tables]. by rewrite aget_aset_ne by lia.
  - intros o Ho'. unfold objects at 1. rewrite Hcaps. cbn [set_table s_ot metas].
    by rewrite aget_aset by (rewrite ?Hlen; lia).
Qed.

Lemma mint_pure_succeeds s kd r i a :
  k_wf s → 0 <= i < OBJECT_TABLE_SIZE → ¬ exists_in (caps s) i →
  0 <= a < CAP_TABLE_SLOTS → entry_at (table s 0) a = None →
  ∃ s' c, mint_root s kd r (λ s _, Some s) = (s', Some c).
Proof.
  intros Hk Hi Hni Ha Hna. unfold mint_root. assert (Hz : 0 <= 0 < MAX_DOMAINS) by by vm_compute.
  pose proof (root_table_wf s 0 Hk Hz) as Hct. pose proof (kw_caps s Hk) as (Hot & _).
  destruct (create_object (objects s) kd) as [ot [oid|]] eqn:Hc.
  2:{ apply create_object_None in Hc as [_ Hall]; [|done]. by destruct Hni; apply Hall. }
  destruct (mint _ _ _ _ _) as [ct [c|e]] eqn:Hm; [by eexists _, c|].
  apply create_object_Some in Hc as (Ho & _ & _ & ->); [|done].
  apply mint_Err in Hm as (_ & _ & [Hall|[Hge|Hab]]); [by destruct (Hall a Ha)|lia| |exact Hct].
  unfold objects in Hab. cbn [caps set_caps s_ot metas] in Hab.
  rewrite aget_aset_eq in Hab by (rewrite (proj1 Hot); lia). done.
Qed.

(** Something free is left after one of two is taken. *)
Lemma minted_left s s' kd r c oid i j a b :
  minted_root s s' kd r c oid → i ≠ j → 0 <= i < OBJECT_TABLE_SIZE → 0 <= j < OBJECT_TABLE_SIZE →
  ¬ exists_in (caps s) i → ¬ exists_in (caps s) j → a ≠ b → 0 <= a < CAP_TABLE_SLOTS → 0 <= b < CAP_TABLE_SLOTS →
  entry_at (table s 0) a = None → entry_at (table s 0) b = None →
  ∃ i' a', 0 <= i' < OBJECT_TABLE_SIZE ∧ ¬ exists_in (caps s') i' ∧ 0 <= a' < CAP_TABLE_SLOTS ∧
    entry_at (table s' 0) a' = None.
Proof.
  intros [] Hij Hi Hj Ni Nj Hab Ha Hb Na Nb.
  exists (if decide (oid = i) then j else i), (if decide (c = a) then b else a).
  unfold exists_in in *. change (s_ot (caps s')) with (objects s').
  repeat split; try (case_decide; lia).
  - rewrite mr_objects0 by (case_decide; lia).
    destruct (decide (oid = i)); (rewrite decide_False by congruence); done.
  - rewrite mr_root0 by (case_decide; lia).
    destruct (decide (c = a)); (rewrite decide_False by congruence); done.
Qed.

(** Delegating a new memory object into the empty table of the restarted domain. *)
Lemma delegate_to_fault s m oid :
  let all := rights_union Rights.READ (rights_union Rights.WRITE
    (rights_union Rights.INVOKE (rights_union Rights.MAP Rights.DELEGATE))) in
  k_wf s → 0 <= m → 0 <= oid < OBJECT_TABLE_SIZE →
  entry_at (table s 0) m = Some (mkCapEntry oid all 0 Kind.Memory 0) →
  (metas (objects s)).[oid] = mkObjectMeta Kind.Memory 0 true →
  (∀ c, 0 <= c → entry_at (table s FAULT_DOMAIN) c = None) →
  ∃ s' fm, delegate_from_root s FAULT_DOMAIN m Rights.INVOKE 0 = (s', Some fm) ∧ 0 <= fm ∧
    objects s' = objects s ∧ table s' 0 = table s 0 ∧
    ∀ c, 0 <= c → entry_at (table s' FAULT_DOMAIN) c =
      if decide (fm = c) then Some (mkCapEntry oid Rights.INVOKE 0 Kind.Memory 0) else None.
Proof.
  intros all Hk Hm Ho He Hmeta Hempty. unfold delegate_from_root. change (_ || _) with false.
  assert (Hd : 0 <= FAULT_DOMAIN < MAX_DOMAINS) by by vm_compute. pose proof (root_table_wf s _ Hk Hd) as Hct.
  assert (Hv : valid (objects s) (mkCapEntry oid all 0 Kind.Memory 0)).
  { unfold valid. cbn [object_id type_tag epoch]. rewrite Hmeta. split; [apply Ho|done]. }
  assert (Hall : all = 0x2f) by (unfold all; rewrite !rights_union_spec; reflexivity).
  destruct (delegate _ _ _ _ _ _) as [ct [fm|st]] eqn:Hdl.
  - apply delegate_Ok in Hdl as (e & He' & _ & _ & Hfm & _ & ->); [|done]. rewrite He in He'. injection He' as <-.
    set (ct := mkCapTable _). eexists _, fm. split; [reflexivity|]. split; [lia|]. split; [done|].
    assert (Ht : ∀ x, 0 <= x → table (set_caps s (set_table (caps s) FAULT_DOMAIN ct)) x =
      if decide (FAULT_DOMAIN = x) then ct else table s x) by (intros x Hx; exact (table_set_table s _ ct x Hk Hd Hx)).
    split; [by rewrite Ht by lia|]. intros c Hc. rewrite Ht, decide_True by (done || lia). unfold ct.
    rewrite entry_at_insert by (done || lia).
    case_decide; [|by apply Hempty]. unfold child_of. cbn [object_id rights epoch type_tag].
    by rewrite Hall, rights_inter_spec.
  - apply delegate_Err in Hdl as (_ & _ & Hfull); [|done]. destruct Hfull as [_ Hfull].
    + eexists. split; [exact He|]. split; [exact Hv|]. cbn [rights]. rewrite Hall. by vm_compute.
    + assert (Hr : 0 <= 0 < CAP_TABLE_SLOTS) by by vm_compute. destruct (Hfull 0 Hr). by apply Hempty.
Qed.

(** The grants of a restart succeed when two objects and two root slots are free. *)
Lemma restart_grants_ok s i j a b :
  k_wf s → (∀ c, 0 <= c → entry_at (table s FAULT_DOMAIN) c = None) →
  i ≠ j → 0 <= i < OBJECT_TABLE_SIZE → 0 <= j < OBJECT_TABLE_SIZE →
  ¬ exists_in (caps s) i → ¬ exists_in (caps s) j → a ≠ b → 0 <= a < CAP_TABLE_SLOTS → 0 <= b < CAP_TABLE_SLOTS →
  entry_at (table s 0) a = None → entry_at (table s 0) b = None →
  ∃ s' fm ft oid, restart_grants s = (s', Some fm, Some ft) ∧ admit_check s' ft = StOk ∧
    0 <= fm ∧ 0 <= oid < OBJECT_TABLE_SIZE ∧ ¬ exists_in (caps s) oid ∧
    (metas (objects s')).[oid] = mkObjectMeta Kind.Memory 0 true ∧
    ∀ c, 0 <= c → entry_at (table s' FAULT_DOMAIN) c =
      if decide (fm = c) then Some (mkCapEntry oid Rights.INVOKE 0 Kind.Memory 0) else None.
Proof.
  intros Hk Hempty Hij Hi Hj Ni Nj Hab Ha Hb Na Nb. unfold restart_grants.
  destruct (mint_pure_succeeds s Kind.Memory (rights_union Rights.READ (rights_union Rights.WRITE
    (rights_union Rights.INVOKE (rights_union Rights.MAP Rights.DELEGATE)))) i a Hk Hi Ni Ha Na) as (s1 & m & E1).
  unfold init_root. rewrite E1. pose proof (init_root_only s s1 (Some m) Hk E1) as C1.
  pose proof (caps_only_wf _ _ Hk C1) as W1.
  apply mint_pure_spec in E1 as (oid & M1); [|done|by vm_compute].
  destruct (minted_left _ _ _ _ _ _ i j a b M1) as (i' & a' & Hi' & Ni' & Ha' & Na'); [done..|].
  destruct (delegate_to_fault s1 m oid) as (s2 & fm & E2 & Hfm & Hobj & Hroot & Hdom); [done|..].
  { apply M1. } { apply M1. }
  { rewrite (mr_root _ _ _ _ _ _ M1) by apply M1. by rewrite decide_True. }
  { rewrite (mr_objects _ _ _ _ _ _ M1) by apply M1. by rewrite decide_True. }
  { intros c Hc. rewrite (mr_others _ _ _ _ _ _ M1) by by vm_compute. by apply Hempty. }
  rewrite E2. assert (W2 : k_wf s2).
  { eapply caps_only_wf; [exact W1|]. apply (delegate_root_evolves _ _ _ _ _ _ _ W1) in E2; [done|by vm_compute|apply M1|by vm_compute]. }
  destruct (mint_pure_succeeds s2 Kind.TimeSlice Rights.INVOKE i' a' W2 Hi') as (s3 & ft & E3).
  { unfold exists_in. fold (objects s2). by rewrite Hobj. } { done. } { by rewrite Hroot. }
  unfold mint_timeslice. rewrite E3. apply mint_pure_spec in E3 as (oid' & M3); [|done|by vm_compute].
  exists s3, fm, ft, oid. split; [done|]. split; [|split; [done|split; [apply M1|split; [apply M1|split]]]].
  - unfold admit_check. apply invoke_ok. exists (mkCapEntry oid' Rights.INVOKE 0 Kind.TimeSlice 0).
    rewrite (mr_root _ _ _ _ _ _ M3) by apply M3. rewrite decide_True by done. split; [done|].
    split; [|reflexivity]. unfold valid. cbn [object_id type_tag epoch].
    rewrite (mr_objects _ _ _ _ _ _ M3) by apply M3. rewrite decide_True by done. split; [apply M3|done].
  - rewrite (mr_objects _ _ _ _ _ _ M3) by apply M1. rewrite decide_False.
    + rewrite Hobj, (mr_objects _ _ _ _ _ _ M1) by apply M1. by rewrite decide_True.
    + intros ->. apply (mr_new _ _ _ _ _ _ M3). unfold exists_in. fold (objects s2).
      rewrite Hobj, (mr_objects _ _ _ _ _ _ M1) by apply M1. by rewrite decide_True.
  - intros c Hc. rewrite (mr_others _ _ _ _ _ _ M3) by by vm_compute. by apply Hdom.
Qed.
End restart.

(** ** Steps of the kernel *)

Definition clock_kept (st st' : SState) : Prop := ticks st' = ticks st ∧ tick_ns st' = tick_ns st.

Section steps.
Context `{Bitflags} `{Mapper} {D : Type} `{BlockDev D}.
Variable (sel : GdtSelectors) (stacks : Z).
Implicit Types (k : Kern D) (s : KState D).

(** At most one task is published, in a free slot. *)
Definition published s s' : Prop :=
  s' = s ∨ ∃ i t, 1 <= i < MAX_TASKS ∧ t_present (tasks (sched (ss s))).[i] = false ∧ task_wf t ∧
    t_present t = true ∧ t_blocked t = false ∧ 0 <= t_domain t < MAX_DOMAINS ∧
    s' = with_sched_k s (publish_task (sched (ss s)) i t).

Lemma published_pre s s' : k_pre s → published s s' → k_pre s'.
Proof. intros Hp [->|(i & t & A1 & A2 & A3 & A4 & A5 & A6 & ->)]; [done|]. by apply publish_k. Qed.

Lemma published_inv s s' : k_inv s → published s s' → k_inv s'.
Proof. intros Hp [->|(i & t & A1 & A2 & A3 & A4 & A5 & A6 & ->)]; [done|]. by apply publish_inv. Qed.

Lemma published_rest s s' :
  published s s' → caps s' = caps s ∧ now_ns (ss s') = now_ns (ss s) ∧
  ticks (ss s') = ticks (ss s) ∧ tick_ns (ss s') = tick_ns (ss s) ∧ endpoints s' = endpoints s.
Proof. by intros [->|(i & t & _ & _ & _ & _ & _ & _ & ->)]. Qed.

Lemma new_task_wf rsp ktop dom period rel budget now :
  0 <= now → fits 64 period → 0 <= rel → task_wf (new_task rsp ktop dom period rel budget now).
Proof.
  intros Hn Hp Hr. unfold task_wf, new_task, sat_add64. simpl. unfold fits, u64_max in *. lia.
Qed.

Lemma place_task_published k i frame dom period rel budget :
  free_slot (sch k) = Some i → 0 <= now_ns (ss (ks k)) → 0 <= dom < MAX_DOMAINS → fits 64 period → 0 <= rel →
  published (ks k) (ks (place_task stacks k i frame dom period rel budget)).
Proof.
  intros Hf Hn Hd Hp Hr. apply free_slot_Some in Hf as [Hi Hpr]. right.
  exists i, (new_task frame.2 (task_kstack_top stacks i) dom period rel budget (now_ns (ss (ks k)))).
  split; [done|]. split; [done|]. split; [by apply new_task_wf|done].
Qed.

Lemma admit_published k entry cptr period rel budget :
  0 <= now_ns (ss (ks k)) → fits 64 period → 0 <= rel →
  published (ks k) (ks (admit_kernel sel stacks k entry cptr period rel budget).1).
Proof.
  intros Hn Hp Hr. unfold admit_kernel. destruct (period =? 0); [by left|]. destruct (negb _); [by left|].
  destruct (free_slot (sch k)) as [i|] eqn:Hf; [|by left]. by apply place_task_published.
Qed.

Lemma admit_user_published k entry st mem cptr dom period rel budget :
  0 <= now_ns (ss (ks k)) → 0 <= dom < MAX_DOMAINS → fits 64 period → 0 <= rel →
  published (ks k) (ks (admit_user sel stacks k entry st mem cptr dom period rel budget).1).
Proof.
  intros Hn Hd Hp Hr. unfold admit_user. destruct (period =? 0); [by left|]. destruct (negb _); [by left|].
  destruct (free_slot (sch k)) as [i|] eqn:Hf; [|by left]. by apply place_task_published.
Qed.

(** A restart mints and delegates fresh capabilities, then may publish one task. *)
Lemma on_domain_death_step k d :
  k_wf (ks k) → 0 <= now_ns (ss (ks k)) →
  ∃ s, caps_only (ks k) s ∧ published s (ks (on_domain_death sel stacks k d)) ∧
    grows d (caps (ks k)) (caps s).
Proof.
  intros Hw Hnow. unfold on_domain_death.
  assert (Hid : ∃ s, caps_only (ks k) s ∧ published s (ks k) ∧ grows d (caps (ks k)) (caps s)).
  { exists (ks k). split; [apply caps_only_refl|]. split; [by left|apply grows_refl]. }
  destruct (Z.eqb_spec d FAULT_DOMAIN) as [->|]; cbn [negb]; [|done]. destruct (_ =? 0); [done|].
  cbn [ks with_restarts]. pose proof (restart_grants_step (ks k) Hw) as [C Hg].
  destruct (restart_grants (ks k)) as [[s3 mem] ts]. cbn [fst] in C, Hg.
  exists s3. split; [done|]. split; [|done]. destruct mem as [fm|]; [|by left]. destruct ts as [ft|]; [|by left].
  eapply admit_user_published; cbn [ks with_ks].
  - destruct C as [-> _]. exact Hnow.
  - by vm_compute.
  - by vm_compute.
  - lia.
Qed.

(** What [published] leaves alone. *)
Lemma published_tasks s s' i :
  sched_pre (sched (ss s)) → published s s' → 0 <= i < MAX_TASKS → t_present (tasks (sched (ss s))).[i] = true →
  (tasks (sched (ss s'))).[i] = (tasks (sched (ss s))).[i].
Proof.
  intros Hs [->|(j & t & Hj & Hab & _ & _ & _ & _ & ->)] Hi Hp; [done|].
  unfold with_sched_k, publish_task. cbn [ss set_ss sched with_sched tasks].
  rewrite aget_aset_ne; [done|lia|lia|]. intros ->. congruence.
Qed.

Definition cur_domain k : Z := t_domain (tasks (sch k)).[current (sch k)].

(** The state in which [on_domain_death] runs: the task is gone, its domain reaped. *)
Definition dead_state k : Kern D :=
  with_ks k (reap_domain (with_sched_k (ks k) (kill (sch k) (current (sch k)))) (cur_domain k)
    (wrap 16 (current (sch k)))).

Lemma terminate_eq k :
  let k2 := on_domain_death sel stacks (dead_state k) (cur_domain k) in
  let k' := with_ks k2 (set_ss (ks k2) (switch_next (ss (ks k2)))) in
  terminate_current sel stacks k = (k', t_rsp (tasks (sch k')).[current (sch k')]).
Proof. reflexivity. Qed.

(** [dead_state] satisfies the weaker invariant. *)
Lemma dead_state_pre k :
  k_inv (ks k) → current (sch k) ≠ 0 →
  k_pre (ks (dead_state k)) ∧ endpoints (ks (dead_state k)) = endpoints (ks k) ∧
  ss (ks (dead_state k)) = with_sched (ss (ks k)) (kill (sch k) (current (sch k))) ∧
  caps (ks (dead_state k)) = exec (caps (ks k)) (OpReset (cur_domain k)).
Proof. intros Hi Hc0. apply death_pre; [done|done|]. apply Hi. apply Hi. Qed.

Lemma dead_tasks k i :
  k_inv (ks k) → current (sch k) ≠ 0 → 0 <= i < MAX_TASKS → 
  (tasks (sch (dead_state k))).[i] =
  if decide (current (sch k) = i) then set_dead (tasks (sch k)).[i] else (tasks (sch k)).[i].
Proof.
  intros Hi Hc0 Hr. destruct (dead_state_pre k Hi Hc0) as (_ & _ & Hss & _). unfold sch in *. rewrite Hss.
  destruct Hi as [_ [Hs (Hc & Hcp & _) _] _ _]. cbn [sched with_sched].
  destruct (kill_pre _ _ Hs ltac:(split; [|apply Hc]; lia) Hcp) as [_ ->].
  rewrite aget_aset by (rewrite ?(sp_len _ Hs); lia). case_decide; naive_solver.
Qed.

(** The death of the running task: what it keeps and what it changes. *)
Lemma terminate_step k n :
  k_inv (ks k) → current (sch k) ≠ 0 → 0 <= n → clock_ok (ss (ks k)) n →
  let '(k', next) := terminate_current sel stacks k in
  (k_inv (ks k') ∧ evolves (caps (ks k)) (caps (ks k')) ∧ clock_kept (ss (ks k)) (ss (ks k'))) ∧
  grows (cur_domain k) (caps (ks k)) (caps (ks k')) ∧ endpoints (ks k') = endpoints (ks k) ∧
  (∀ i, 0 <= i < MAX_TASKS → i ≠ current (sch k) → t_present (tasks (sch k)).[i] = true →
    same_context (tasks (sch k)).[i] (tasks (sch k')).[i]) ∧
  ready (tasks (sch k')).[current (sch k')] = true ∧ next = t_rsp (tasks (sch k')).[current (sch k')].
Proof.
  intros Hi Hc0 Hn Hclk. pose proof (clock_now _ _ Hn Hclk) as Hnow.
  rewrite terminate_eq. cbv zeta.
  destruct (dead_state_pre k Hi Hc0) as (Hp & He & Hss & Hcaps).
  set (k2 := on_domain_death sel stacks (dead_state k) (cur_domain k)).
  assert (Hnow2 : now_ns (ss (ks (dead_state k))) = now_ns (ss (ks k))) by by rewrite Hss.
  destruct (on_domain_death_step (dead_state k) (cur_domain k)) as (s3 & Hco & Hpub & Hg); [apply Hp|lia|]. fold k2 in Hpub.
  pose proof (caps_only_pre _ _ Hp Hco) as Hp3. pose proof (published_pre _ _ Hp3 Hpub) as Hp4.
  destruct (published_rest _ _ Hpub) as (Q1 & Q2 & Q3 & Q4 & Q5).
  assert (Hss3 : ss s3 = ss (ks (dead_state k))) by by rewrite (proj1 Hco).
  assert (He3 : endpoints s3 = endpoints (ks (dead_state k))) by by rewrite (proj1 Hco).
  assert (Hnow4 : 0 <= now_ns (ss (ks k2)) < u64_max) by (by rewrite Q2, Hss3, Hnow2).
  destruct (switch_next_ok _ (kp_sched _ Hp4) Hnow4) as (_ & Hrdy & Hctx).
  assert (Hdr : 0 <= cur_domain k < MAX_DOMAINS) by (apply Hi; apply Hi).
  unfold sch in *. cbn [ks with_ks ss set_ss caps endpoints].
  split; [split; [by apply switch_inv|split]|split; [|split; [|split; [|done]]]].
  - rewrite Q1. eapply evolves_trans; [apply Hi| |apply Hco]. rewrite Hcaps.
    apply evolves_exec; [|done]. simpl. by rewrite (kw_tables _ (ki_wf _ Hi)).
  - split; cbn [switch_next publish_current with_sched ticks tick_ns].
    + by rewrite Q3, Hss3, Hss.
    + by rewrite Q4, Hss3, Hss.
  - rewrite Q1. eapply grows_trans; [|exact Hg]. rewrite Hcaps. apply reset_grows. by rewrite (kw_tables _ (ki_wf _ Hi)).
  - by rewrite Q5, He3, He.
  - intros i Hir Hne Hpi. transitivity (tasks (sched (ss (ks k2)))).[i]; [|by apply Hctx].
    pose proof (dead_tasks k i Hi Hc0 Hir) as Hdt. unfold sch in Hdt. rewrite decide_False in Hdt by done.
    rewrite (published_tasks s3 _ i (kp_sched _ Hp3) Hpub Hir); rewrite Hss3, Hdt; [reflexivity|done].
Qed.

(** Without a restart the domain and its task are gone. *)
Lemma terminate_dead k n :
  k_inv (ks k) → current (sch k) ≠ 0 → 0 <= n → clock_ok (ss (ks k)) n →
  cur_domain k ≠ FAULT_DOMAIN ∨ f_restarts k = 0 →
  (∀ c e, ¬ holds (caps (ks (terminate_current sel stacks k).1)) (cur_domain k) c e) ∧
  t_present (tasks (sch (terminate_current sel stacks k).1)).[current (sch k)] = false.
Proof.
  intros Hi Hc0 Hn Hclk Hor. pose proof (clock_now _ _ Hn Hclk) as Hnow. rewrite terminate_eq. cbv zeta. cbn [fst].
  destruct (dead_state_pre k Hi Hc0) as (Hp & _ & Hss & Hcaps).
  assert (E : on_domain_death sel stacks (dead_state k) (cur_domain k) = dead_state k).
  { unfold on_domain_death. destruct (Z.eqb_spec (cur_domain k) FAULT_DOMAIN); cbn [negb]; [|done].
    change (f_restarts (dead_state k)) with (f_restarts k). destruct Hor as [?|Hz]; [done|]. by rewrite Hz. }
  assert (Hcr : 0 <= current (sch k) < MAX_TASKS) by apply Hi.
  assert (Hdr : 0 <= cur_domain k < zlen (s_tables (caps (ks k)))).
  { rewrite (kw_tables _ (ki_wf _ Hi)). apply Hi. apply Hi. }
  rewrite E. unfold sch at 1. cbn [ks with_ks caps ss set_ss]. rewrite Hcaps. split.
  - intros c e Hh. simpl in Hh. apply holds_set_table in Hh; [|done]. rewrite decide_True in Hh by done.
    destruct Hh as [Hc He]. by rewrite entry_at_new in He.
  - assert (Hnow2 : now_ns (ss (ks (dead_state k))) = now_ns (ss (ks k))) by by rewrite Hss.
    destruct (switch_next_ok (ss (ks (dead_state k))) (kp_sched _ Hp)) as (_ & _ & Hctx); [by rewrite Hnow2|].
    destruct (Hctx _ Hcr) as (_ & -> & _). change (sched (ss (ks (dead_state k)))) with (sch (dead_state k)).
    rewrite dead_tasks by done. by rewrite decide_True.
Qed.

(** ** Every event *)

(** What the kernel guarantees of its own calls, and the hardware of system calls and
    faults: they come from a ring-3 task, never the idle task. *)
Definition kevent_ok k (ev : kevent) : Prop :=
  match ev with
  | KExtent _ _ _ frame => fits 52 frame
  | KDeviceQueue v _ _ => fits 52 (v_desc_phys v) ∧ fits 52 (v_avail_phys v) ∧ fits 52 (v_used_phys v) ∧
      fits 52 (v_hdr_phys v) ∧ fits 52 (v_doorbell_phys v)
  | KDelegate d c _ bdg => 0 <= d ∧ 0 <= c ∧ fits 16 bdg
  | KInvoke d c _ _ => 0 <= d ∧ 0 <= c
  | KRevokeTimeslice c => 0 <= c
  | KAdmit _ _ period rel _ => fits 64 period ∧ 0 <= rel
  | KAdmitUser _ _ _ _ dom period rel _ => 0 <= dom < MAX_DOMAINS ∧ fits 64 period ∧ 0 <= rel
  | KSyscall _ cptr _ _ _ _ xfer _ => current (sch k) ≠ 0 ∧ 0 <= cptr ∧ 0 <= xfer
  | KSysResume | KFault => current (sch k) ≠ 0
  | _ => True
  end.

Fixpoint kevents_ok k (evs : list kevent) : Prop :=
  match evs with
  | [] => True
  | ev :: evs => kevent_ok k ev ∧ kevents_ok (kstep sel stacks k ev) evs
  end.

Definition kstep_safe k k' : Prop :=
  k_inv (ks k') ∧ evolves (caps (ks k)) (caps (ks k')) ∧ clock_kept (ss (ks k)) (ss (ks k')).

Lemma same_ks_safe k k' : k_inv (ks k) → ks k' = ks k → kstep_safe k k'.
Proof. intros Hi E. unfold kstep_safe. rewrite E. split; [done|]. split; [apply evolves_refl|done]. Qed.

Lemma mint_kept k kd r f s' res :
  k_inv (ks k) → fits 16 (raw kd) → fits 16 r → (∀ s oid s', f s oid = Some s' → caps s' = caps s ∧ ss s' = ss s) →
  mint_root (ks k) kd r f = (s', res) → evolves (caps (ks k)) (caps s') ∧ clock_kept (ss (ks k)) (ss s').
Proof.
  intros Hi Hkd Hr Hc Hm. split.
  - eapply mint_root_evolves; [apply Hi|exact Hkd|exact Hr| |exact Hm]. intros ? ? ? Hs. by apply Hc in Hs as [-> _].
  - unfold mint_root in Hm. destruct (create_object _ _) as [ot [oid|]]; [|by injection Hm as <- _].
    destruct (f _ oid) as [s2|] eqn:Hfk; [|by injection Hm as <- _].
    apply Hc in Hfk as [_ Hss]. destruct (mint _ _ _ _ _) as [ct x]. injection Hm as <- _.
    cbn [ss set_caps]. by rewrite Hss.
Qed.
End steps.

Section events.
Context `{Bitflags} `{MapperLaws} {D : Type} `{BlockDev D}.
Variable (sel : GdtSelectors) (stacks : Z).
Implicit Types (k : Kern D) (s : KState D).

Lemma transfer_opt_ss s src xfer dst : ss (transfer_opt s src xfer dst).1 = ss s.
Proof.
  unfold transfer_opt. destruct (negb _); [|done]. unfold do_cap_transfer. destruct (_ || _); [done|].
  by destruct (delegate _ _ _ _ _ _) as [ct []].
Qed.

Lemma ipc_clock s cptr method arg0 xfer saved :
  k_inv s → 0 <= cptr → clock_kept (ss s) (ss (cap_invoke_ipc s cptr method arg0 xfer saved).1).
Proof.
  intros Hi Hc. unfold cap_invoke_ipc. destruct (current_domain_task s Hi) as [_ Hcd].
  destruct (resolve s _ cptr method) as [e|st] eqn:Hr; [|done].
  pose proof (resolve_oid _ _ _ _ _ (ki_wf s Hi) Hcd Hc Hr) as Ho.
  destruct (arm _ _ _ E_SEND).
  { rewrite ep_send_cases. cbv zeta. case_decide; [done|]. case_decide; [|done]. destruct (state _); [done|done|].
    pose proof (transfer_opt_ss (upd_ep s (object_id e) (set_state Idle)) (current_domain s) xfer
      (peer_domain (endpoints s).[object_id e])) as Hs.
    destruct (transfer_opt _ _ _ _) as [s1 r]. cbn [fst] in Hs. unfold clock_kept. simpl. by rewrite Hs. }
  destruct (arm _ _ _ E_RECV).
  { rewrite ep_recv_cases. cbv zeta. case_decide; [done|]. destruct (state _); [done| |done].
    pose proof (transfer_opt_ss (upd_ep s (object_id e) (set_state Idle)) (peer_domain (endpoints s).[object_id e])
      (xfer_cptr (endpoints s).[object_id e]) (current_domain s)) as Hs.
    destruct (transfer_opt _ _ _ _) as [s1 r]. cbn [fst] in Hs. unfold clock_kept. simpl. by rewrite Hs. }
  destruct (negb _); [done|].
  destruct (dispatch_method _ _ _ _ _ _ _) as [k1 [st reply]] eqn:Hd.
  apply dispatch_ok in Hd as [(_ & (_ & _ & C3 & _) & _) _]; [|apply Hi|done..]. cbn [fst]. by rewrite C3.
Qed.

Lemma syscall_safe k nr cptr method a0 a1 a2 xfer saved n :
  k_inv (ks k) → current (sch k) ≠ 0 → 0 <= cptr → 0 <= xfer → 0 <= n → clock_ok (ss (ks k)) n →
  kstep_safe k (syscall_dispatch k nr cptr method a0 a1 a2 xfer saved).1.
Proof.
  intros Hi Hc0 Hc Hx Hn Hclk. unfold syscall_dispatch.
  destruct (negb _); [by apply same_ks_safe|]. destruct (_ || _); [by apply same_ks_safe|].
  cbn [ks with_reply]. pose proof (ipc_clock (ks k) cptr method a0 xfer saved Hi Hc) as Hck.
  destruct (cap_invoke_ipc _ _ _ _ _ _) as [s' r] eqn:Hm. cbn [fst] in Hck.
  apply (cap_invoke_ipc_inv _ _ _ _ _ _ n) in Hm as [Hi' Hst]; [|done..].
  apply caps_step_evolves in Hst; [|apply Hi]. by destruct r.
Qed.

Lemma invoke_safe k d c method arg :
  k_inv (ks k) → 0 <= d → 0 <= c → kstep_safe k (with_ks k (cap_invoke_in (ks k) d c method arg).1).
Proof.
  intros Hi Hd Hc. unfold cap_invoke_in. set (d' := Z.min d _).
  assert (Hdr : 0 <= d' < MAX_DOMAINS) by (unfold d', MAX_DOMAINS; lia).
  destruct (resolve (ks k) d' c method) as [e|st] eqn:Hr; [|by apply same_ks_safe].
  pose proof (resolve_oid _ _ _ _ _ (ki_wf _ Hi) Hdr Hc Hr) as Ho.
  destruct (dispatch_method _ _ _ _ _ _ _) as [s' r] eqn:Hm. cbn [fst].
  apply dispatch_ok in Hm as [(Hw & (C1 & C2 & C3 & _) & _) _]; [|apply Hi|done..].
  unfold kstep_safe. cbn [ks with_ks]. rewrite C1, C3. split; [|split; [apply evolves_refl|done]].
  destruct Hi. split; [done|by rewrite C3..|]. by rewrite C3, C2.
Qed.

Lemma revoke_safe k c : k_inv (ks k) → 0 <= c → kstep_safe k (with_ks k (revoke_timeslice (ks k) c).1).
Proof.
  intros Hi Hc. unfold revoke_timeslice. pose proof (ki_wf _ Hi) as Hw.
  assert (Hct : ct_wf (table (ks k) 0)) by (apply table_wf; [apply Hw|rewrite (kw_tables _ Hw); by vm_compute]).
  destruct (lookup _ c _) as [e|st] eqn:Hl; [|by apply same_ks_safe].
  assert (Hop : op_ok MAX_DOMAINS (OpRevoke (object_id e))).
  { apply lookup_ok in Hl as [Hl _]. by apply (entry_at_typed (table (ks k) 0) c). }
  pose proof (exec_caps (ks k) _ Hi Hop) as Hi1. simpl in Hi1. unfold objects.
  pose proof (evolves_exec (caps (ks k)) (OpRevoke (object_id e))) as He. simpl in He.
  destruct (revoke _ _) as [ot st]. split; [exact Hi1|]. split; [|done]. apply He; [|done].
  apply Hop.
Qed.

Lemma payload16 : fits 16 payload_rights.
Proof. unfold payload_rights. rewrite !rights_union_spec. by vm_compute. Qed.

Lemma extent_safe k l n h frame :
  k_inv (ks k) → fits 52 frame → kstep_safe k (with_ks k (mint_extent_mapped (ks k) l n h frame).1).
Proof.
  intros Hi Hf. unfold mint_extent_mapped. destruct (mint_extent_inner _ _ _ _ _) as [s' res] eqn:Hm. cbn [fst].
  split; [by eapply mint_extent_inv|]. apply (mint_kept k) in Hm; [done|done|by vm_compute|apply payload16|].
  intros s oid s2 Hs. destruct (_ <=? _); [done|]. by injection Hs as <-.
Qed.

Lemma device_queue_safe k v mgc scratch :
  k_inv (ks k) → fits 52 (v_desc_phys v) ∧ fits 52 (v_avail_phys v) ∧ fits 52 (v_used_phys v) ∧
      fits 52 (v_hdr_phys v) ∧ fits 52 (v_doorbell_phys v) →
  kstep_safe k (with_ks k (create_device_queue (ks k) v mgc scratch).1).
Proof.
  intros Hi (F1 & F2 & F3 & F4 & F5). destruct (create_device_queue _ _ _ _) as [s' res] eqn:Hm. cbn [fst].
  split; [by eapply create_device_queue_inv|]. unfold create_device_queue in Hm.
  destruct (device_queue_desc v) as [q|]; [|injection Hm as <- _; split; [apply evolves_refl|done]].
  apply (mint_kept k) in Hm; [done|done|by vm_compute|apply payload16|].
  intros s oid s2 Hs. destruct (_ <=? _); [done|]. by injection Hs as <-.
Qed.

Lemma delegate_safe k d c mask bdg :
  k_inv (ks k) → 0 <= d ∧ 0 <= c ∧ fits 16 bdg →
  kstep_safe k (with_ks k (delegate_from_root (ks k) d c mask bdg).1).
Proof.
  intros Hi (Hd & Hc & Hb). destruct (delegate_from_root _ _ _ _ _) as [s' res] eqn:Hm. cbn [fst].
  split; [by apply (delegate_from_root_inv (ks k) d c mask bdg s' res)|].
  apply delegate_root_evolves in Hm as [E He]; [|apply Hi|done..]. split; [done|]. cbn [ks with_ks]. by rewrite E.
Qed.

Lemma union16 a b : fits 16 a → fits 16 b → fits 16 (rights_union a b).
Proof.
  intros Ha Hb. rewrite rights_union_spec. by apply fits_lor.
Qed.

(** Every event keeps the invariant, changes capabilities only through operations that
    spare existing objects, and advances the clock at most by one tick. *)
Lemma kstep_ok k ev n :
  k_inv (ks k) → kevent_ok k ev → 0 <= n → clock_ok (ss (ks k)) (n + 1) →
  k_inv (ks (kstep sel stacks k ev)) ∧ evolves (caps (ks k)) (caps (ks (kstep sel stacks k ev))) ∧
  clock_ok (ss (ks (kstep sel stacks k ev))) n.
Proof.
  intros Hi Hev Hn Hclk. assert (Hn1 : 0 <= n + 1) by lia.
  assert (Hsafe : ∀ k', kstep_safe k k' →
    k_inv (ks k') ∧ evolves (caps (ks k)) (caps (ks k')) ∧ clock_ok (ss (ks k')) n).
  { intros k' (S1 & S2 & S3 & S4). split; [done|]. split; [done|]. unfold clock_ok in *. rewrite S3, S4. nia. }
  pose proof (clock_now _ _ Hn1 Hclk) as Hnow.
  assert (Hmint : ∀ kd r, fits 16 (raw kd) → fits 16 r →
    kstep_safe k (with_ks k (mint_root (ks k) kd r (λ s _, Some s)).1)).
  { intros kd r Hkd Hr. destruct (mint_root _ _ _ _) as [s' res] eqn:Hm. cbn [fst].
    split; [eapply mint_root_inv; [done|exact Hkd|exact Hr|apply payload_none|exact Hm]|].
    eapply mint_kept; [done|exact Hkd|exact Hr| |exact Hm]. by intros ? ? ? [= ->]. }
  assert (Hpub : ∀ k', published (ks k) (ks k') → kstep_safe k k').
  { intros k' Hp. destruct (published_rest _ _ Hp) as (Q1 & _ & Q3 & Q4 & _). split; [by eapply published_inv|].
    rewrite Q1. split; [apply evolves_refl|done]. }
  destruct ev; cbn [kstep]; simpl in Hev.
  - apply Hsafe, Hmint; [by vm_compute|]. repeat apply union16; by vm_compute.
  - apply Hsafe, Hmint; [by vm_compute|]. repeat apply union16; by vm_compute.
  - apply Hsafe, Hmint; [by vm_compute|]. repeat apply union16; by vm_compute.
  - apply Hsafe, Hmint; by vm_compute.
  - apply Hsafe. by apply extent_safe.
  - apply Hsafe. by apply device_queue_safe.
  - apply Hsafe. by apply delegate_safe.
  - apply Hsafe. destruct Hev. by apply invoke_safe.
  - apply Hsafe. by apply revoke_safe.
  - apply Hsafe, Hpub. destruct Hev. apply admit_published; [lia|done..].
  - apply Hsafe, Hpub. destruct Hev as (? & ? & ?). apply admit_user_published; [lia|done..].
  - apply Hsafe. by apply same_ks_safe.
  - unfold timer_tick. cbn [ks with_ks]. split; [exact (tick_inv (ks k) rsp n Hi Hn Hclk)|].
    cbn [caps ss set_ss]. split; [apply evolves_refl|]. exact (proj1 (tick_now _ n rsp Hn Hclk)).
  - apply Hsafe. destruct Hev as (? & ? & ?). by apply (syscall_safe _ _ _ _ _ _ _ _ _ (n + 1)).
  - apply Hsafe. unfold syscall_resume. destruct (take_ipc_result _ _) as [[st r] rc]. by apply same_ks_safe.
  - apply Hsafe. pose proof (terminate_step sel stacks k (n + 1) Hi Hev Hn1 Hclk) as Ht.
    destruct (terminate_current sel stacks k) as [k' next]. apply Ht.
Qed.
End events.

(** ** Properties *)

Section properties.
Context `{Bitflags} `{MapperLaws} {D : Type} `{BlockDev D}.
Variable (sel : GdtSelectors) (stacks : Z).
Implicit Types (k : Kern D) (s : KState D).

Lemma krun_ok k evs :
  k_inv (ks k) → kevents_ok sel stacks k evs → clock_ok (ss (ks k)) (zlen evs) →
  k_inv (ks (krun sel stacks k evs)) ∧ evolves (caps (ks k)) (caps (ks (krun sel stacks k evs))).
Proof.
  revert k. induction evs as [|ev evs IH]; intros k Hi Hev Hclk; [by split; [|apply evolves_refl]|].
  destruct Hev as [Hev Hevs]. assert (Hlen : zlen (ev :: evs) = zlen evs + 1) by (unfold zlen; simpl; lia).
  rewrite Hlen in Hclk. assert (Hn : 0 <= zlen evs) by (unfold zlen; lia).
  destruct (kstep_ok sel stacks k ev (zlen evs) Hi Hev Hn Hclk) as (Hi' & He & Hclk').
  destruct (IH _ Hi' Hevs Hclk') as [Hr Hr2]. split; [done|].
  eapply evolves_trans; [apply Hi|exact He|exact Hr2].
Qed.

(** C1: the kernel invariant. Whatever the kernel does at boot, and whatever system calls,
    faults and ticks follow, in any order: capability tables, page tables and mapping
    ledgers stay well formed, the running task is live and the published stack pointers
    and domain are its own, every task's domain exists, and endpoints and parked tasks
    agree in both directions. *)
Theorem kernel_invariant k evs :
  k_inv (ks k) → kevents_ok sel stacks k evs → clock_ok (ss (ks k)) (zlen evs) →
  k_inv (ks (krun sel stacks k evs)).
Proof. intros Hi Hev Hclk. by apply krun_ok. Qed.

(** C2: confinement in the running kernel. Over any such execution, a capability for an
    object that existed at the start derives from one held at the start, with the same
    epoch and type and no more rights; and it is in a domain other than that one's only
    if that one carried DELEGATE. System calls, transfers, faults and restarts create no
    authority over existing objects. *)
Theorem kernel_confinement k evs d' c' e' :
  k_inv (ks k) → kevents_ok sel stacks k evs → clock_ok (ss (ks k)) (zlen evs) →
  holds (caps (ks (krun sel stacks k evs))) d' c' e' →
  object_id e' < OBJECT_TABLE_SIZE → exists_in (caps (ks k)) (object_id e') →
  ∃ d c e, holds (caps (ks k)) d c e ∧ derives e e' ∧ (d = d' ∨ submask Rights.DELEGATE (rights e)).
Proof.
  intros Hi Hev Hclk Hh Ho Hex. destruct (krun_ok k evs Hi Hev Hclk) as [_ He].
  eapply evolves_ancestor; [apply Hi|exact He|exact Hh|exact Ho|exact Hex].
Qed.

Definition faulty_handlers (guard cs cr2 error_code : Z) k : list (Kern D * trap_result) :=
  [page_fault_handler sel stacks guard k cs cr2 error_code;
   general_protection_handler sel stacks k cs; invalid_opcode_handler sel stacks k cs].

(** C4: fault isolation. A page fault, protection fault or invalid opcode in ring 3 never
    halts the kernel: the handler switches to a ready task, the invariant holds, every
    other task keeps its saved context, every endpoint its state, and every other domain
    its live capabilities; no domain other than the dead one and the root's gains any.
    A domain that is not restarted is left without capability, and its task's slot free. *)
Theorem fault_isolation k n guard cs cr2 error_code h :
  k_inv (ks k) → current (sch k) ≠ 0 → 0 <= n → clock_ok (ss (ks k)) n →
  faulted_in_ring3 cs = true → Z.testbit error_code PF_USER_MODE = true →
  h ∈ faulty_handlers guard cs cr2 error_code k →
  ∃ k' next, h = (k', TSwitch next) ∧ k_inv (ks k') ∧
    next = t_rsp (tasks (sch k')).[current (sch k')] ∧ ready (tasks (sch k')).[current (sch k')] = true ∧
    (∀ i, 0 <= i < MAX_TASKS → i ≠ current (sch k) → t_present (tasks (sch k)).[i] = true →
      same_context (tasks (sch k)).[i] (tasks (sch k')).[i]) ∧
    endpoints (ks k') = endpoints (ks k) ∧
    (∀ d c e, d ≠ cur_domain k → holds (caps (ks k)) d c e → valid (objects (ks k)) e →
      holds (caps (ks k')) d c e ∧ valid (objects (ks k')) e) ∧
    (∀ d c e, d ≠ cur_domain k → d ≠ 0 → holds (caps (ks k')) d c e → holds (caps (ks k)) d c e) ∧
    (cur_domain k ≠ FAULT_DOMAIN ∨ f_restarts k = 0 →
      (∀ c e, ¬ holds (caps (ks k')) (cur_domain k) c e) ∧
      t_present (tasks (sch k')).[current (sch k)] = false).
Proof.
  intros Hi Hc0 Hn Hclk Hcs Hus Hh. pose proof (terminate_step sel stacks k n Hi Hc0 Hn Hclk) as Ht.
  assert (Hq : h = ((terminate_current sel stacks k).1, TSwitch (terminate_current sel stacks k).2)).
  { unfold faulty_handlers, page_fault_handler, general_protection_handler, invalid_opcode_handler in Hh.
    rewrite Hcs, Hus in Hh. cbn [negb andb] in Hh. unfold terminate_ring3 in Hh.
    destruct (terminate_current sel stacks k). set_solver. }
  pose proof (terminate_dead sel stacks k n Hi Hc0 Hn Hclk) as Hd.
  destruct (terminate_current sel stacks k) as [k' next]. cbn [fst snd] in Hq, Hd.
  destruct Ht as ((T1 & _) & T2 & T3 & T4 & T5 & T6).
  exists k', next. do 6 (split; [done|]). pose proof T2 as (_ & G2 & G3). split; [|by split].
  intros d c e Hne Hh0 Hv. split; [by apply G2|]. eapply grows_valid; [exact T2| |exact Hv].
  apply (holds_typed (caps (ks k)) d c e); [apply Hi|done].
Qed.
(** The task and the frame [admit_user] leaves. *)
Definition user_task_at k k' (i entry stack_top mem_cptr dom period rel budget : Z) : Prop :=
  let t := (tasks (sch k')).[i] in
  t = new_task (task_kstack_top stacks i - FRAME_BYTES) (task_kstack_top stacks i) dom period rel budget
        (now_ns (ss (ks k))) ∧
  words_at (kmem k') (t_rsp t) (frame_words (initial_ctx sel stacks i entry true stack_top mem_cptr)) ∧
  ∀ a, ¬ (t_rsp t <= a < t_rsp t + FRAME_BYTES) → kmem k' !! a = kmem k !! a.

Lemma admit_user_Some k entry st m cptr dom period rel budget i :
  zlen (tasks (sch k)) = MAX_TASKS → period ≠ 0 → admit_check (ks k) cptr = StOk → free_slot (sch k) = Some i →
  let '(k', res) := admit_user sel stacks k entry st m cptr dom period rel budget in
  res = Some i ∧ user_task_at k k' i entry st m dom period rel budget ∧
  ks k' = with_sched_k (ks k) (publish_task (sch k) i (tasks (sch k')).[i]) ∧ f_restarts k' = f_restarts k.
Proof.
  intros Hlen Hp Ha Hf. destruct (free_slot_Some _ _ Hf) as [Hi _]. unfold admit_user.
  destruct (Z.eqb_spec period 0); [done|]. rewrite Ha, Hf. cbn [bool_decide negb]. rewrite bool_decide_true by done.
  cbn [negb]. pose proof (build_frame_words sel stacks (kmem k) i entry true st m) as Hb.
  destruct (build_task_frame_inner _ _ _ _ _ _ _ _) as [mem' p]. destruct Hb as (-> & Hw & Hout).
  assert (Hget : (tasks (sch (place_task stacks k i (mem', task_kstack_top stacks i - FRAME_BYTES) dom period rel budget))).[i]
    = new_task (task_kstack_top stacks i - FRAME_BYTES) (task_kstack_top stacks i) dom period rel budget (now_ns (ss (ks k)))).
  { unfold place_task, sch, with_sched_k, publish_task. cbn. rewrite aget_aset_eq; [done|]. fold (sch k). rewrite Hlen. lia. }
  split; [done|]. unfold user_task_at. rewrite Hget. done.
Qed.

(** C27: admission to ring 3. [admit_user] admits exactly when the period is not zero, root
    slot [cptr] holds a live capability with INVOKE, whatever its type, and a task slot is
    free. It then takes the lowest free slot, leaves on that slot's own stack the frame
    that enters ring 3 at the given address, stack and RDI, and changes nothing else. A
    rejected request changes nothing. *)
Theorem admit_user_spec k entry st m cptr dom period rel budget :
  sched_pre (sch k) →
  let '(k', res) := admit_user sel stacks k entry st m cptr dom period rel budget in
  let gate := ∃ e, entry_at (table (ks k) 0) cptr = Some e ∧ valid (objects (ks k)) e ∧
                submask Rights.INVOKE (rights e) in
  match res with
  | None => k' = k ∧ (period = 0 ∨ ¬ gate ∨ ∀ i, 1 <= i < MAX_TASKS → t_present (tasks (sch k)).[i] = true)
  | Some i => period ≠ 0 ∧ gate ∧ 1 <= i < MAX_TASKS ∧ t_present (tasks (sch k)).[i] = false ∧
      (∀ j, 1 <= j < i → t_present (tasks (sch k)).[j] = true) ∧
      user_task_at k k' i entry st m dom period rel budget ∧
      ks k' = with_sched_k (ks k) (publish_task (sch k) i (tasks (sch k')).[i]) ∧ f_restarts k' = f_restarts k
  end.
Proof.
  intros Hs. pose proof (sp_len _ Hs) as Hlen.
  assert (Hgate : admit_check (ks k) cptr = StOk ↔ ∃ e, entry_at (table (ks k) 0) cptr = Some e ∧
    valid (objects (ks k)) e ∧ submask Rights.INVOKE (rights e)) by apply invoke_ok.
  destruct (Z.eqb_spec period 0) as [Hp|Hp].
  { unfold admit_user. rewrite (proj2 (Z.eqb_eq period 0) Hp). split; [done|by left]. }
  destruct (decide (admit_check (ks k) cptr = StOk)) as [Ha|Ha].
  2:{ unfold admit_user. rewrite (proj2 (Z.eqb_neq period 0) Hp), bool_decide_false by done. split; [done|].
      right. left. by rewrite <- Hgate. }
  destruct (free_slot (sch k)) as [i|] eqn:Hf.
  - pose proof (admit_user_Some k entry st m cptr dom period rel budget i Hlen Hp Ha Hf) as Hu.
    destruct (admit_user _ _ _ _ _ _ _ _ _ _ _) as [k' res]. destruct Hu as (-> & Hu).
    destruct (free_slot_Some _ _ Hf) as [Hi Hab]. split; [done|]. split; [by apply Hgate|]. split; [done|]. split; [done|].
    split; [by apply free_slot_least|done].
  - unfold admit_user. rewrite (proj2 (Z.eqb_neq period 0) Hp), bool_decide_true by done. rewrite Hf. cbn [negb].
    split; [done|]. right. right. by apply free_slot_None.
Qed.
Lemma on_domain_death_restarts k i j a b :
  k_pre (ks k) → 0 < f_restarts k → (∃ c, 1 <= c < MAX_TASKS ∧ t_present (tasks (sch k)).[c] = false) →
  (∀ c, 0 <= c → entry_at (table (ks k) FAULT_DOMAIN) c = None) →
  i ≠ j → 0 <= i < OBJECT_TABLE_SIZE → 0 <= j < OBJECT_TABLE_SIZE →
  ¬ exists_in (caps (ks k)) i → ¬ exists_in (caps (ks k)) j →
  a ≠ b → 0 <= a < CAP_TABLE_SLOTS → 0 <= b < CAP_TABLE_SLOTS →
  entry_at (table (ks k) 0) a = None → entry_at (table (ks k) 0) b = None →
  let k' := on_domain_death sel stacks k FAULT_DOMAIN in
  f_restarts k' = f_restarts k - 1 ∧
  ∃ t fm oid, 1 <= t < MAX_TASKS ∧ t_present (tasks (sch k)).[t] = false ∧
    user_task_at k k' t (f_entry k) (f_stack_top k) fm FAULT_DOMAIN 5000000 5000000 1000000 ∧
    ¬ exists_in (caps (ks k)) oid ∧ 0 <= oid < OBJECT_TABLE_SIZE ∧ 0 <= fm ∧
    (metas (objects (ks k'))).[oid] = mkObjectMeta Kind.Memory 0 true ∧
    ∀ c, 0 <= c → entry_at (table (ks k') FAULT_DOMAIN) c =
      if decide (fm = c) then Some (mkCapEntry oid Rights.INVOKE 0 Kind.Memory 0) else None.
Proof.
  intros Hp Hleft (c0 & Hc0 & Hfree) Hempty Hij Hi Hj Ni Nj Hab Ha Hb Na Nb. unfold on_domain_death.
  change (negb (FAULT_DOMAIN =? FAULT_DOMAIN)) with false. cbv iota.
  destruct (Z.eqb_spec (f_restarts k) 0); [lia|]. cbn [ks with_restarts].
  destruct (restart_grants_ok (ks k) i j a b) as (s & fm & ft & oid & E & Hadm & Hfm & Ho & Hno & Hmeta & Htab); [apply Hp|done..|].
  rewrite E. pose proof (restart_grants_step (ks k) (kp_wf _ Hp)) as [[Hco _] _]. rewrite E in Hco. cbn [fst] in Hco.
  set (k1 := with_ks _ s). assert (Hss : ss (ks k1) = ss (ks k)) by (cbn [k1 ks with_ks]; by rewrite Hco).
  assert (Hsch : sch k1 = sch k) by (unfold sch; by rewrite Hss).
  destruct (free_slot (sch k1)) as [t|] eqn:Hf.
  2:{ rewrite Hsch in Hf. rewrite (free_slot_None _ Hf c0 Hc0) in Hfree. done. }
  pose proof (admit_user_Some k1 (f_entry k1) (f_stack_top k1) fm ft FAULT_DOMAIN 5000000 5000000 1000000 t) as Hu.
  destruct (admit_user _ _ _ _ _ _ _ _ _ _ _) as [k' res]. cbn [fst].
  destruct Hu as (-> & Hu & Hks & Hr); [rewrite Hsch; apply Hp|lia|done|done|].
  apply free_slot_Some in Hf as [Ht Hft]. rewrite Hsch in Hft.
  split; [by rewrite Hr|]. exists t, fm, oid. split; [done|]. split; [done|]. split.
  - unfold user_task_at in Hu |- *. rewrite Hss in Hu. exact Hu.
  - split; [done|]. split; [done|]. split; [done|]. unfold table, objects. rewrite Hks. exact (conj Hmeta Htab).
Qed.

(** C28: supervised restart. When the faulter's domain dies with restarts left, and two
    objects and two root slots are free, its budget falls by one and a fresh instance is
    admitted: its domain holds exactly one capability, INVOKE on a new memory object that
    nobody held before, at the slot passed in RDI; and its task, unblocked in a slot free
    after the death, starts at the registered entry and stack. *)
Theorem restart_spec k n i j a b :
  k_inv (ks k) → current (sch k) ≠ 0 → 0 <= n → clock_ok (ss (ks k)) n →
  cur_domain k = FAULT_DOMAIN → 0 < f_restarts k →
  i ≠ j → 0 <= i < OBJECT_TABLE_SIZE → 0 <= j < OBJECT_TABLE_SIZE →
  ¬ exists_in (caps (ks k)) i → ¬ exists_in (caps (ks k)) j →
  a ≠ b → 0 <= a < CAP_TABLE_SLOTS → 0 <= b < CAP_TABLE_SLOTS →
  entry_at (table (ks k) 0) a = None → entry_at (table (ks k) 0) b = None →
  let k' := (terminate_current sel stacks k).1 in
  f_restarts k' = f_restarts k - 1 ∧
  ∃ t fm oid,
    (∀ c e, holds (caps (ks k')) FAULT_DOMAIN c e ↔
      c = fm ∧ e = mkCapEntry oid Rights.INVOKE 0 Kind.Memory 0) ∧
    valid (objects (ks k')) (mkCapEntry oid Rights.INVOKE 0 Kind.Memory 0) ∧ ¬ exists_in (caps (ks k)) oid ∧
    1 <= t < MAX_TASKS ∧ (t = current (sch k) ∨ t_present (tasks (sch k)).[t] = false) ∧
    let T := (tasks (sch k')).[t] in
    t_present T = true ∧ t_blocked T = false ∧ t_domain T = FAULT_DOMAIN ∧
    t_kstack_top T = task_kstack_top stacks t ∧
    words_at (kmem k') (t_rsp T) (frame_words (initial_ctx sel stacks t (f_entry k) true (f_stack_top k) fm)).
Proof.
  intros Hi Hc0 Hn Hclk Hdom Hleft Hij Hir Hjr Ni Nj Hab Ha Hb Na Nb. pose proof (clock_now _ _ Hn Hclk) as Hnow.
  pose proof (terminate_step sel stacks k n Hi Hc0 Hn Hclk) as Hst.
  rewrite terminate_eq in Hst |- *. cbv zeta in Hst |- *. destruct Hst as ((Hinv & _) & _).
  destruct (dead_state_pre k Hi Hc0) as (Hp & _ & Hss & Hcaps). rewrite Hdom in *.
  pose proof (on_domain_death_step sel stacks (dead_state k) FAULT_DOMAIN) as Hstep.
  assert (Hcr : 1 <= current (sch k) < MAX_TASKS).
  { destruct Hi as [_ [_ ([Hlo Hhi] & _) _] _ _]. unfold sch in *. lia. }
  assert (Hdr : 0 <= FAULT_DOMAIN < MAX_DOMAINS) by by vm_compute. pose proof (ki_wf _ Hi) as Hw.
  assert (Htab : ∀ x, 0 <= x → table (ks (dead_state k)) x = if decide (FAULT_DOMAIN = x) then CapTable_new else table (ks k) x).
  { intros x Hx. unfold table at 1. rewrite Hcaps. simpl. by apply table_set_table. }
  destruct (on_domain_death_restarts (dead_state k) i j a b) as (Hr & t & fm & oid & Ht & Hab' & Hu & Hno & Ho & Hfm & Hmeta & Htf);
    [done|done| | |done|done|done| | |done|done|done| | |].
  { exists (current (sch k)). split; [done|]. rewrite dead_tasks by (done || lia). by rewrite decide_True. }
  { intros c Hc. rewrite Htab, decide_True by done. by apply entry_at_new. }
  { by rewrite Hcaps. } { by rewrite Hcaps. }
  { by rewrite Htab, decide_False by done. } { by rewrite Htab, decide_False by done. }
  destruct Hstep as (s3 & Hco & Hpub & _); [apply Hp|rewrite Hss; exact (proj1 Hnow)|].
  pose proof (published_pre _ _ (caps_only_pre _ _ Hp Hco) Hpub) as Hp4.
  destruct (published_rest _ _ Hpub) as (_ & Q2 & _).
  assert (Hnow4 : now_ns (ss (ks (on_domain_death sel stacks (dead_state k) FAULT_DOMAIN))) = now_ns (ss (ks k))).
  { rewrite Q2, (proj1 Hco). cbn [ss set_caps]. by rewrite Hss. }
  set (k2 := on_domain_death _ _ _ _) in *.
  destruct (switch_next_ok (ss (ks k2)) (kp_sched _ Hp4)) as (_ & _ & Hctx); [by rewrite Hnow4|].
  specialize (Hctx t ltac:(lia)). cbn [fst].
  change (sch (with_ks k2 _)) with (sched (switch_next (ss (ks k2)))). cbn [ks with_ks caps ss set_ss kmem f_restarts].
  split; [exact Hr|]. exists t, fm, oid. split; [|split; [|split; [by rewrite Hcaps in Hno|split; [done|split]]]].
  - intros c e. unfold holds. fold (table (ks k2) FAULT_DOMAIN).
    assert (Hlen : zlen (s_tables (caps (ks k2))) = MAX_DOMAINS) by apply (kp_wf _ Hp4). rewrite Hlen. split.
    + intros (_ & Hc & He). rewrite Htf in He by done. case_decide; naive_solver.
    + intros [-> ->]. rewrite Htf, decide_True by done. done.
  - unfold valid. cbn [object_id type_tag epoch]. change (objects (set_ss _ _)) with (objects (ks k2)). rewrite Hmeta.
    split; [apply Ho|done].
  - rewrite dead_tasks in Hab' by (done || lia). case_decide; [by left|by right].
  - destruct Hu as (Hnew & Hwords & _). destruct Hctx as (-> & -> & -> & -> & -> & _). unfold sch in Hnew, Hwords.
    rewrite Hnew in Hwords |- *. done.
Qed.
(** A transferred capability lands in a slot that was empty, and is live. *)
Definition fresh_cap s s' (d c : Z) : Prop :=
  entry_at (table s d) c = None ∧ ∃ e, entry_at (table s' d) c = Some e ∧ valid (objects s') e.

Lemma transfer_fresh s src c dst s' c' :
  k_wf s → 0 <= src → 0 <= dst → 0 <= c → do_cap_transfer s src c dst = (s', Ok c') → fresh_cap s s' dst c'.
Proof.
  intros Hk Hs Hd Hc Ht. pose proof (transfer_refines s src c dst s' _ Hk Hs Hd Hc Ht) as (_ & Hne & Hcr & _).
  unfold do_cap_transfer in Ht. rewrite (proj2 (Z.eqb_neq src dst)) in Ht by done.
  destruct (Z.leb_spec MAX_DOMAINS src); [done|]. destruct (Z.leb_spec MAX_DOMAINS dst); [done|]. cbn [orb] in Ht.
  assert (Hct : ct_wf (table s dst)) by (apply root_table_wf; [done|lia]).
  destruct (delegate _ _ _ _ _ _) as [ct [x|]] eqn:Hdel; [|done]. injection Ht as <- ->.
  apply delegate_Ok in Hdel as (e & _ & Hv & _ & _ & Hn & ->); [|done]. split; [done|].
  exists (child_of e rights_all 0). split; [|exact Hv]. unfold table at 1. cbn [caps set_caps set_table s_tables].
  rewrite aget_aset_ne, aget_aset_eq by (rewrite ?(kw_tables s Hk); lia).
  rewrite entry_at_insert by (done || lia). by rewrite decide_True.
Qed.

(** The only capability a completed call reports is one just received. *)
Lemma ipc_reply_fresh s cptr method arg0 xfer saved s' st reply rc :
  k_inv s → 0 <= cptr → cap_invoke_ipc s cptr method arg0 xfer saved = (s', IDone st reply rc) →
  rc = CPTR_NONE ∨ st = status_code StOk ∧ fresh_cap s s' (current_domain s) rc.
Proof.
  intros Hi Hc Hm. unfold cap_invoke_ipc in Hm. destruct (current_domain_task s Hi) as [_ Hcd].
  destruct (resolve s _ cptr method) as [e|] eqn:Hr; [|injection Hm as _ _ _ <-; by left].
  pose proof (resolve_oid _ _ _ _ _ (ki_wf s Hi) Hcd Hc Hr) as Ho.
  destruct (arm _ _ _ E_SEND).
  { rewrite ep_send_cases in Hm. cbv zeta in Hm. case_decide; [injection Hm as _ _ _ <-; by left|].
    case_decide; [|injection Hm as _ _ _ <-; by left]. destruct (state _); [done|injection Hm as _ _ _ <-; by left|].
    destruct (transfer_opt _ _ _ _) as [s1 []]; injection Hm as _ _ _ <-; by left. }
  destruct (arm _ _ _ E_RECV).
  { rewrite ep_recv_cases in Hm. cbv zeta in Hm. case_decide; [injection Hm as _ _ _ <-; by left|].
    set (oid := object_id e) in *. destruct (state _) eqn:Hst; [done| |injection Hm as _ _ _ <-; by left].
    assert (Hor : 0 <= oid < OBJECT_TABLE_SIZE) by lia.
    destruct (rv_slot _ _ (ki_rv s Hi) oid Hor ltac:(by rewrite Hst)) as [Hp (_ & _ & _ & _ & Hpd)].
    assert (Hpr : 0 <= peer_domain (endpoints s).[oid]) by (rewrite <- Hpd; apply (ki_dom s Hi); lia).
    pose proof (rv_xfer _ _ (ki_rv s Hi) oid Hor) as Hx. unfold transfer_opt in Hm.
    destruct (negb _); [|injection Hm as _ _ _ <-; by left].
    destruct (do_cap_transfer _ _ _ _) as [s1 [c|err]] eqn:Ht; injection Hm as <- <- _ <-; [|by left].
    right. split; [done|]. exact (transfer_fresh _ _ _ _ _ _ (upd_ep_wf s oid _ (ki_wf s Hi)) Hpr (proj1 Hcd) Hx Ht). }
  destruct (negb _); [injection Hm as _ _ _ <-; by left|].
  destruct (dispatch_method _ _ _ _ _ _ _) as [s1 [st1 r1]]. injection Hm as _ _ _ <-. by left.
Qed.

(** C23: the system-call boundary. A call with another number fails with [ErrMethod] and one
    whose slot, method or transfer slot exceeds 16 bits fails with [ErrBadCPtr], in both
    cases with no effect. The slot reported in RDX is the null sentinel, or the call
    succeeded and it names a live capability of the caller's domain in a slot that was
    empty before; a call that parks reports nothing. *)
Theorem syscall_dispatch_spec k nr cptr method a0 a1 a2 xfer saved :
  k_inv (ks k) → 0 <= cptr →
  let '(k', r) := syscall_dispatch k nr cptr method a0 a1 a2 xfer saved in
  (nr ≠ SYS_CAP_INVOKE → ks k' = ks k ∧ r = SRet (status_code ErrMethod) 0 ∧ reply_cptr k' = CPTR_NULL) ∧
  (nr = SYS_CAP_INVOKE → U16_MAX < cptr ∨ U16_MAX < method ∨ U16_MAX < xfer →
    ks k' = ks k ∧ r = SRet (status_code ErrBadCPtr) 0 ∧ reply_cptr k' = CPTR_NULL) ∧
  match r with
  | SRet st reply => reply_cptr k' = CPTR_NULL ∨
      st = status_code StOk ∧ fresh_cap (ks k) (ks k') (current_domain (ks k)) (reply_cptr k')
  | SPark _ => reply_cptr k' = CPTR_NULL
  end.
Proof.
  intros Hi Hc. unfold syscall_dispatch. destruct (Z.eqb_spec nr SYS_CAP_INVOKE) as [->|Hne]; cbn [negb].
  2:{ split; [done|]. split; [done|by left]. }
  destruct ((U16_MAX <? cptr) || (U16_MAX <? method) || (U16_MAX <? xfer)) eqn:Hr.
  { split; [done|]. split; [done|by left]. }
  assert (Hno : ¬ (U16_MAX < cptr ∨ U16_MAX < method ∨ U16_MAX < xfer)).
  { rewrite !orb_false_iff, !Z.ltb_ge in Hr. lia. }
  cbn [ks with_reply]. destruct (cap_invoke_ipc _ _ _ _ _ _) as [s' [st reply rc|next]] eqn:Hm.
  - split; [done|]. split; [done|]. by eapply ipc_reply_fresh.
  - split; [done|]. by split.
Qed.
End properties.

(** ** [syscall_entry] *)

Section entry.
Context `{Bitflags} `{Mapper} {D : Type} `{BlockDev D} `{CallAbi}.
(** The address of [PER_CPU], and where a call that blocks leaves its context. *)
Variable (per_cpu saved : Z).
Implicit Types (k : Kern D) (m : Mach (Kern D)).

Definition set_kernel_rsp0 k (x : Z) : Kern D :=
  let s := ss (ks k) in
  with_ks k (set_ss (ks k) (mkSS (sched s) (tss_rsp0 s) x (current_dom s) (ticks s) (tick_ns s))).

(** [PerCpu], by offset. *)
Definition PER_CPU : PerCpuEnv (Kern D) :=
  {| pc_base := per_cpu;
     pc_get k off := if off =? 0 then kernel_rsp0 (ss (ks k)) else if off =? 8 then user_rsp_scratch k else reply_cptr k;
     pc_set k off v := if off =? 0 then set_kernel_rsp0 k v else if off =? 8 then with_scratch k v else with_reply k v |}.
#[local] Existing Instance PER_CPU.

Definition syscall_entry : list instr :=
  [Swapgs; GsStoreRsp 8; GsLoadRsp 0; PushGs 8; Push R11; Push RCX; Push R9;
   Mov R9 R8; Mov R8 R10; Mov RCX RDX; Mov RDX RSI; Mov RSI RDI; Mov RDI RAX;
   Call; AddRsp 8; Mov RSI RDX; GsLoad RDX 16; Pop RCX; Pop R11; Pop RDI;
   Xor R8; Xor R9; Xor R10; MovToRsp RDI; Xor RDI; Swapgs; Sysretq].

(** [syscall_dispatch] as called: six arguments in registers, the seventh on the stack. *)
Definition dispatch_call k (g : Regs) (top : Z) : called (Kern D) :=
  match syscall_dispatch k (rdi g) (rsi g) (rdx g) (rcx g) (r8 g) (r9 g) top saved with
  | (k', SRet st reply) => Back k' st (Some reply)
  | (k', SPark _) => Away k'
  end.

(** The registers a system call returns with. *)
Definition sysret_regs (g g' : Regs) (st reply rc : Z) : Prop :=
  rax g' = st ∧ rsi g' = reply ∧ rdx g' = rc ∧ rcx g' = rcx g ∧ r11 g' = r11 g ∧
  rdi g' = 0 ∧ r8 g' = 0 ∧ r9 g' = 0 ∧ r10 g' = 0 ∧
  ∀ r, r ∈ callee_saved → get_reg g' r = get_reg g r.

(** The machine at the [call]. *)
Definition at_call m : Mach (Kern D) :=
  let g := regs m in
  let g1 := set_reg (set_reg (set_reg (set_reg (set_reg (set_reg g R9 (r8 g)) R8 (r10 g)) RCX (rdx g)) RDX (rsi g))
              RSI (rdi g)) RDI (rax g) in
  let top := kernel_rsp0 (ss (ks (env m))) in
  mkM _ g1 (top - 32) (kgs m) (gs m) (write_words (mem m) (top - 32) [r9 g; rcx g; r11 g; rsp m])
    (with_scratch (env m) (rsp m)).

Definition epilogue : list instr :=
  [AddRsp 8; Mov RSI RDX; GsLoad RDX 16; Pop RCX; Pop R11; Pop RDI;
   Xor R8; Xor R9; Xor R10; MovToRsp RDI; Xor RDI; Swapgs; Sysretq].

Lemma step_gs_store m off :
  gs m = per_cpu → step_instr m (GsStoreRsp off) = Some (with_env m (pc_set (env m) off (rsp m))).
Proof. intros E. unfold step_instr. cbn [pc_base PER_CPU]. by rewrite E, Z.eqb_refl. Qed.
Lemma step_gs_rsp m off :
  gs m = per_cpu → step_instr m (GsLoadRsp off) = Some (with_rsp m (pc_get (env m) off)).
Proof. intros E. unfold step_instr. cbn [pc_base PER_CPU]. by rewrite E, Z.eqb_refl. Qed.
Lemma step_gs_push m off :
  gs m = per_cpu → rsp m mod 8 = 0 → step_instr m (PushGs off) = Some (pushed m [pc_get (env m) off]).
Proof. intros E Ha. unfold step_instr. cbn [pc_base PER_CPU]. rewrite E, Z.eqb_refl. by apply push_pushed. Qed.
Lemma step_gs_load m r off :
  gs m = per_cpu →
  step_instr m (GsLoad r off) = Some (with_regs m (set_reg (regs m) r (pc_get (env m) off))).
Proof. intros E. unfold step_instr. cbn [pc_base PER_CPU]. by rewrite E, Z.eqb_refl. Qed.

Lemma entry_to_call fn m :
  kgs m = per_cpu → kernel_rsp0 (ss (ks (env m))) mod 8 = 0 →
  exec_asm fn syscall_entry m = exec_asm fn (Call :: epilogue) (at_call m).
Proof.
  intros Hk Ha. unfold syscall_entry. set (top := kernel_rsp0 _) in *.
  erewrite exec_step by reflexivity.
  erewrite exec_step by (by apply step_gs_store).
  erewrite exec_step by (by apply step_gs_rsp).
  set (M := with_rsp _ _). assert (Hm : rsp M = top) by done.
  erewrite exec_step by (apply step_gs_push; [exact Hk|by rewrite Hm]).
  etransitivity; [apply (exec_pushes fn [R11; RCX; R9]); apply pushed_aligned; by rewrite Hm|].
  rewrite pushed_pushed. do 6 (erewrite exec_step by reflexivity). reflexivity.
Qed.

(** From the return of the call to ring 3. *)
Lemma epilogue_returns fn m urip ufl ursp :
  gs m = per_cpu → rsp m mod 8 = 0 → words_at (mem m) (rsp m + 8) [urip; ufl; ursp] →
  ∃ m', exec_asm fn epilogue m = Some (Sysretted m' urip ufl) ∧
    rsp m' = ursp ∧ gs m' = kgs m ∧ kgs m' = gs m ∧ mem m' = mem m ∧ env m' = env m ∧
    regs m' = tabulate (λ r, match r with
      | RSI => rdx (regs m) | RDX => reply_cptr (env m) | RCX => urip | R11 => ufl
      | RDI | R8 | R9 | R10 => 0 | r => get_reg (regs m) r end).
Proof.
  intros Hg Ha Hw. unfold epilogue. do 2 (erewrite exec_step by reflexivity).
  erewrite exec_step by (by apply step_gs_load).
  set (M := with_regs _ _). assert (HM : rsp M mod 8 = 0).
  { change (rsp M) with (rsp m + 8). rewrite <- (aligned_sub (rsp m) (-1) Ha). done. }
  pose proof (exec_pops fn [RCX; R11; RDI] [urip; ufl; ursp]
    [Xor R8; Xor R9; Xor R10; MovToRsp RDI; Xor RDI; Swapgs; Sysretq] M HM eq_refl Hw) as Hpop.
  eexists. split; [etransitivity; [exact Hpop|]|].
  - do 6 (erewrite exec_step by reflexivity). rewrite exec_sysret. reflexivity.
  - do 5 (split; [reflexivity|]). reflexivity.
Qed.

(** C24: the system-call path, from the [syscall] instruction to [sysretq]. Entered from ring
    3 with the per-CPU block behind the kernel's GS base, [syscall_entry] passes the user's
    registers to [syscall_dispatch] in order. When the call returns, the user resumes at
    its own RIP, RFLAGS and RSP with GS exchanged back, RAX, RSI and RDX the status, reply
    and reply slot, its callee-saved registers as before, and every other register zero:
    no kernel value leaks. Only the task's own kernel stack is written. When the caller
    parks, the path has switched away with the dispatcher's state. *)
Theorem syscall_entry_spec `{!CallAbiLaws} m :
  kgs m = per_cpu → kernel_rsp0 (ss (ks (env m))) mod 16 = 0 →
  let g := regs m in
  let top := kernel_rsp0 (ss (ks (env m))) in
  match syscall_dispatch (with_scratch (env m) (rsp m)) (rax g) (rdi g) (rsi g) (rdx g) (r10 g) (r8 g) (r9 g) saved with
  | (k', SRet st reply) => ∃ m',
      exec_asm dispatch_call syscall_entry m = Some (Sysretted m' (rcx g) (r11 g)) ∧
      rsp m' = rsp m ∧ gs m' = gs m ∧ kgs m' = kgs m ∧ env m' = k' ∧
      sysret_regs g (regs m') st reply (reply_cptr k') ∧
      ∀ a, ¬ (top - 32 - stack_use <= a < top) → mem m' !! a = mem m !! a
  | (k', SPark _) => ∃ m',
      exec_asm dispatch_call syscall_entry m = Some (Switched m') ∧ env m' = k'
  end.
Proof.
  intros Hk Ha g top. assert (Ha8 : top mod 8 = 0) by by apply mod16_mod8.
  rewrite entry_to_call by done. set (M := at_call m).
  assert (Hsp : rsp M = top - 32) by done.
  assert (Hal : rsp M mod 16 = 0).
  { rewrite Hsp. replace (top - 32) with (top + (-2) * 16) by lia. by rewrite Z.mod_add. }
  assert (Hin : words_at (mem M) (top - 32) [r9 g; rcx g; r11 g; rsp m]) by apply write_words_in.
  assert (Htop : mem M !! rsp M = Some (r9 g)) by (rewrite Hsp, <- (Z.add_0_r (top - 32)); by apply (Hin 0%nat)).
  assert (Hcall : dispatch_call (env M) (regs M) (default 0 (mem M !! rsp M)) =
    match syscall_dispatch (with_scratch (env m) (rsp m)) (rax g) (rdi g) (rsi g) (rdx g) (r10 g) (r8 g) (r9 g) saved with
    | (k', SRet st reply) => Back k' st (Some reply) | (k', SPark _) => Away k' end) by (rewrite Htop; reflexivity).
  destruct (syscall_dispatch _ _ _ _ _ _ _ _ _) as [k' [st reply|next]].
  2:{ rewrite (exec_call_away _ _ _ _ Hal Hcall). by eexists. }
  rewrite (exec_call _ _ _ _ _ _ Hal Hcall). set (M2 := mkM _ _ _ _ _ _ _).
  destruct (epilogue_returns dispatch_call M2 (rcx g) (r11 g) (rsp m)) as (m' & Hex & Q1 & Q2 & Q3 & Q4 & Q5 & Q6).
  - done.
  - by apply mod16_mod8.
  - intros j w Hj. cbn [M2 mem rsp]. rewrite scratch_outside by lia. rewrite Hsp.
    replace (top - 32 + 8 + 8 * Z.of_nat j) with (top - 32 + 8 * Z.of_nat (S j)) by lia. by apply (Hin (S j)).
  - exists m'. split; [done|]. split; [done|]. split; [done|]. split; [by rewrite Q3|]. split; [done|]. split.
    + rewrite Q6. unfold sysret_regs. repeat (split; [reflexivity|]). intros r Hr.
      rewrite get_tabulate. cbn [M2 regs from_option].
      assert (Hs : get_reg (clobber (regs M)) r = get_reg g r).
      { rewrite clobber_saved by done. unfold callee_saved in Hr. by destruct r; set_solver. }
      unfold callee_saved in Hr. rewrite <- Hs. destruct r; try reflexivity; set_solver.
    + intros a Hout. pose proof stack_use_pos. rewrite Q4. cbn [M2 mem]. rewrite scratch_outside by (rewrite Hsp; lia).
      apply write_words_out. change (zlen _) with 4. fold top. lia.
Qed.
End entry.

(** ** Instances *)

#[local] Existing Instance l1_mapper.
#[local] Existing Instance l1_mapper_laws.

Definition demo_sel : GdtSelectors := mkSel 0x08 0x10 0x23 0x1b 0x28.
Definition demo_stacks : Z := 0x20000.
(** Task 1 runs, in domain 1. *)
Definition demo_kern : Kern adisk := mkKern adisk demo_k7 ∅ 0 0 0x400000 0x800000 2.

(** Task 1 sends its memory capability and parks; task 2 receives it. *)
Definition demo_exchange : list kevent :=
  [KSyscall 1 0 E_SEND 0xCA11 0 0 1 0x2100; KTick 0x4100; KSyscall 1 0 E_RECV 0 0 0 0xffff 0x4100].
(** A time slice, and the faulter admitted in domain 4 with the earliest deadline. *)
Definition demo_faulter : list kevent :=
  [KTimeslice; KAdmitUser 0x400000 0x800000 0 3 4 5000000 1500000 1000000; KTick 0x2100].

Definition demo_faulting : Kern adisk := krun demo_sel demo_stacks demo_kern demo_faulter.

Lemma demo_kern_inv : k_inv (ks demo_kern).
Proof. exact demo_k7_inv. Qed.

Lemma demo_faulting_inv : k_inv (ks demo_faulting).
Proof.
  apply krun_ok; [apply demo_kern_inv| |by vm_compute]. repeat split; by vm_compute.
Qed.

Lemma kernel_invariant_witness :
  k_inv (ks (krun demo_sel demo_stacks demo_kern (demo_exchange ++ [KFault]))) ∧
  current (sch (krun demo_sel demo_stacks demo_kern demo_exchange)) = 2.
Proof.
  split; [|by vm_compute]. apply (kernel_invariant demo_sel demo_stacks demo_kern).
  - exact demo_kern_inv.
  - repeat split; by vm_compute.
  - by vm_compute.
Defined.

(** The capability domain 2 ends up with derives from one held at the start. *)
Lemma kernel_confinement_witness :
  ∃ d c e0, holds (caps demo_k7) d c e0 ∧ derives e0 (mkCapEntry 1 0x2f 0 Kind.Memory 0) ∧
    (d = 2 ∨ submask Rights.DELEGATE (rights e0)).
Proof.
  apply (kernel_confinement demo_sel demo_stacks demo_kern demo_exchange 2 1).
  - exact demo_kern_inv.
  - repeat split; by vm_compute.
  - by vm_compute.
  - repeat split; by vm_compute.
  - by vm_compute.
  - by vm_compute.
Defined.

Lemma fault_isolation_witness :
  ∃ k' next, general_protection_handler demo_sel demo_stacks demo_kern 0x23 = (k', TSwitch next) ∧ k_inv (ks k') ∧
    t_present (tasks (sch k')).[1] = false.
Proof.
  destruct (fault_isolation demo_sel demo_stacks demo_kern 10 0x5000 0x23 0 4
    (general_protection_handler demo_sel demo_stacks demo_kern 0x23)) as (k' & next & E & Hi & _ & _ & _ & _ & _ & _ & Hd).
  - exact demo_kern_inv.
  - by vm_compute.
  - lia.
  - by vm_compute.
  - done.
  - done.
  - right. left.
  - exists k', next. split; [exact E|]. split; [exact Hi|]. apply Hd. left. by vm_compute.
Defined.

Lemma restart_spec_witness :
  f_restarts (terminate_current demo_sel demo_stacks demo_faulting).1 = 1.
Proof.
  apply (restart_spec demo_sel demo_stacks demo_faulting 10 40 41 40 41).
  - exact demo_faulting_inv.
  - by vm_compute.
  - lia.
  - by vm_compute.
  - by vm_compute.
  - by vm_compute.
  - lia.
  - by vm_compute.
  - by vm_compute.
  - by vm_compute.
  - by vm_compute.
  - lia.
  - by vm_compute.
  - by vm_compute.
  - by vm_compute.
  - by vm_compute.
Defined.

(** Admitted with the memory capability of root slot 1: the gate does not look at types. *)
Lemma admit_user_spec_witness :
  ∃ k', admit_user demo_sel demo_stacks demo_kern 0x400000 0x800000 0 1 1 5000000 5000000 1000000 = (k', Some 3) ∧
    user_task_at demo_sel demo_stacks demo_kern k' 3 0x400000 0x800000 0 1 5000000 5000000 1000000.
Proof.
  pose proof (admit_user_spec demo_sel demo_stacks demo_kern 0x400000 0x800000 0 1 1 5000000 5000000 1000000
    (so_pre _ (ki_sched _ demo_kern_inv))) as Hs.
  assert (E : (admit_user demo_sel demo_stacks demo_kern 0x400000 0x800000 0 1 1 5000000 5000000 1000000).2 = Some 3) by by vm_compute.
  destruct (admit_user demo_sel demo_stacks demo_kern 0x400000 0x800000 0 1 1 5000000 5000000 1000000) as [k' res].
  cbn [snd] in E. subst res. exists k'. split; [reflexivity|]. apply Hs.
Defined.

#[local] Existing Instance quiet.
#[local] Existing Instance quiet_laws.

Lemma syscall_dispatch_spec_witness :
  let r := syscall_dispatch demo_kern 1 0x10000 0 0 0 0 0xffff 0 in
  ks r.1 = demo_k7 ∧ r.2 = SRet (status_code ErrBadCPtr) 0.
Proof.
  pose proof (syscall_dispatch_spec demo_kern 1 0x10000 0 0 0 0 0xffff 0 demo_kern_inv ltac:(lia)) as Hs.
  destruct (syscall_dispatch demo_kern 1 0x10000 0 0 0 0 0xffff 0) as [k' r]. destruct Hs as (_ & Hs & _).
  destruct Hs as (Hk & Hr & _); [reflexivity|left; unfold U16_MAX; lia|]. split; [exact Hk|exact Hr].
Defined.

(** Task 1 reads its extent: [cap_invoke(2, X_READ)]. *)
Definition demo_user_regs : Regs :=
  set_reg (set_reg (set_reg (set_reg (set_reg (set_reg (set_reg zero_regs RAX 1) RDI 2) RSI X_READ) R9 0xffff)
    RCX 0x400010) R11 0x202) RBX 77.
Definition demo_enter : Mach (Kern adisk) := mkM _ demo_user_regs 0x7ffff0 0 0xa000 ∅ demo_kern.

Lemma syscall_entry_spec_witness :
  ∃ m', exec_asm (H := PER_CPU 0xa000) (dispatch_call 0x2100) syscall_entry demo_enter = Some (Sysretted m' 0x400010 0x202) ∧
    rsp m' = 0x7ffff0 ∧ rax (regs m') = 0 ∧ rbx (regs m') = 77 ∧ r8 (regs m') = 0.
Proof.
  pose proof (syscall_entry_spec 0xa000 0x2100 demo_enter eq_refl) as Hs. cbv zeta in Hs.
  assert (Ha : kernel_rsp0 (ss (ks (env demo_enter))) mod 16 = 0) by by vm_compute.
  specialize (Hs Ha).
  assert (E : ∃ reply, (syscall_dispatch (with_scratch demo_kern 0x7ffff0) 1 2 X_READ 0 0 0 0xffff 0x2100).2 = SRet 0 reply)
    by (eexists; vm_compute; reflexivity).
  change (syscall_dispatch _ _ _ _ _ _ _ _ _) with
    (syscall_dispatch (with_scratch demo_kern 0x7ffff0) 1 2 X_READ 0 0 0 0xffff 0x2100) in Hs.
  destruct (syscall_dispatch (with_scratch demo_kern 0x7ffff0) 1 2 X_READ 0 0 0 0xffff 0x2100) as [k' r].
  cbn [snd] in E. destruct E as [reply ->]. destruct Hs as (m' & Hex & Hsp & _ & _ & _ & (R1 & _ & _ & _ & _ & _ & R8' & _ & _ & Rc) & _).
  exists m'. split; [exact Hex|]. split; [exact Hsp|]. split; [exact R1|]. split; [|exact R8'].
  apply (Rc RBX). by left.
Defined.
