(* ===== verification/Idt.v ===== *)
(** * Exception delivery ([interrupts::init_idt])

    The interrupt descriptor table the kernel loads, and which handler of [Kernel] each
    exception reaches through it. The table is the [x86_64] crate's: [new] is empty,
    [set_handler_fn] makes a present gate of privilege 0 that keeps the current stack, and
    [set_stack_index] selects an entry of the TSS's interrupt stack table. [raise] and
    [software_int] are the processor's delivery rules for such a table: a gate that is not
    present raises #NP, and a contributory exception raised while a contributory one (or a
    page fault) is being delivered becomes a double fault. *)

From S2P Require Import Prelude Capability CapTable Paging Sched Gdt Apic BlockDev VirtioBlk Capspace Kernel.

Inductive Handler :=
  | HBreakpoint | HDoubleFault | HPageFault | HGeneralProtection | HInvalidOpcode | HTimer | HSpurious.

Record Gate := mkGate { g_handler : Handler; g_ist : option Z }.
Abbreviation Idt := (gmap Z Gate).

Definition set_handler (h : Handler) : Gate := mkGate h None.
Definition set_stack_index (g : Gate) (i : Z) : Gate := mkGate (g_handler g) (Some i).

Definition init_idt : Idt :=
  let idt := ∅ in
  let idt := <[3 := set_handler HBreakpoint]> idt in
  let idt := <[8 := set_stack_index (set_handler HDoubleFault) DOUBLE_FAULT_IST_INDEX]> idt in
  let idt := <[14 := set_stack_index (set_handler HPageFault) PAGE_FAULT_IST_INDEX]> idt in
  let idt := <[13 := set_handler HGeneralProtection]> idt in
  let idt := <[6 := set_handler HInvalidOpcode]> idt in
  let idt := <[TIMER_VECTOR := set_handler HTimer]> idt in
  <[SPURIOUS_VECTOR := set_handler HSpurious]> idt.

(** ** The processor *)

Definition contributory (v : Z) : bool := bool_decide (v ∈ [0; 10; 11; 12; 13; 14]).

(** The gate an exception enters; [None] is a shutdown. *)
Definition double_fault (idt : Idt) : option Gate := idt !! 8.
Definition raise (idt : Idt) (v : Z) : option Gate :=
  match idt !! v with
  | Some g => Some g
  | None =>
      if contributory v then double_fault idt
      else match idt !! 11 with Some g => Some g | None => double_fault idt end
  end.

(** [int n] at privilege [cpl]: every gate has privilege 0. *)
Definition software_int (idt : Idt) (v cpl : Z) : option Gate :=
  if cpl =? 0 then raise idt v else raise idt 13.

(** The stack a handler runs on: an entry of the interrupt stack table, rsp0 on a change of
    privilege, or the interrupted one. *)
Definition entry_stack (t : TaskStateSegment) (g : Gate) (cs rsp : Z) : Z :=
  match g_ist g with
  | Some i => (interrupt_stack_table t).[i]
  | None => if faulted_in_ring3 cs then (privilege_stack_table t).[0] else rsp
  end.

Section delivery.
Context `{Bitflags} `{Mapper} {D : Type} `{BlockDev D}.
Variable (sel : GdtSelectors) (stacks : Z).

(** The handler of an exception gate; the timer's gate enters [Context.timer_isr]. *)
Definition enter (guard : Z) (k : Kern D) (cs cr2 error_code : Z) (g : Gate) : option (Kern D * trap_result) :=
  match g_handler g with
  | HBreakpoint => Some (breakpoint_handler k)
  | HDoubleFault => Some (double_fault_handler k)
  | HPageFault => Some (page_fault_handler sel stacks guard k cs cr2 error_code)
  | HGeneralProtection => Some (general_protection_handler sel stacks k cs)
  | HInvalidOpcode => Some (invalid_opcode_handler sel stacks k cs)
  | HTimer => None
  | HSpurious => Some (spurious_interrupt_handler k)
  end.

Definition exception (guard : Z) (k : Kern D) (v cs cr2 error_code : Z) : option (Kern D * trap_result) :=
  g ← raise init_idt v; enter guard k cs cr2 error_code g.

Lemma below_32 (P : Z → Prop) : Forall P (seqZ 0 32) → ∀ v, 0 <= v < 32 → P v.
Proof. intros HP v Hv. rewrite Forall_forall in HP. apply HP, elem_of_seqZ. lia. Qed.

(** C22: what each exception does. With the table the kernel loads, a breakpoint resumes and
    an invalid opcode, a protection fault or a page fault runs its own handler, the one
    that isolates ring 3. Every other exception, a divide error or a debug trap of a
    ring-3 program included, has no gate: it ends in the double-fault handler and halts
    the machine whatever the privilege level it was raised at. A software interrupt in
    ring 3 is a protection fault for any vector. *)
Theorem exception_delivery guard (k : Kern D) v cs cr2 error_code :
  0 <= v < 32 →
  exception guard k v cs cr2 error_code =
    Some (if v =? 3 then (k, TResume)
          else if v =? 6 then invalid_opcode_handler sel stacks k cs
          else if v =? 13 then general_protection_handler sel stacks k cs
          else if v =? 14 then page_fault_handler sel stacks guard k cs cr2 error_code
          else (k, THalt)) ∧
  ∀ n, software_int init_idt n 3 = init_idt !! 13.
Proof.
  intros Hv. split; [|done]. revert v Hv. apply below_32.
  change (seqZ 0 32) with (Z.of_nat <$> seq 0 32). repeat (constructor; [reflexivity|]). constructor.
Qed.
End delivery.

(** ** Stacks *)

(** The handlers that must not run on a broken stack do not. Through the table and the
    task-state segment [gdt::init] fills, the double-fault and page-fault handlers start
    at the top of their own stacks, whatever was interrupted; every other gate, the
    timer's included, starts on the interrupted stack in ring 0 and on rsp0 from ring 3;
    and no gate selects a stack that was never set. *)
Theorem idt_stacks t df pf top v g cs rsp :
  length (interrupt_stack_table t) = 7%nat → length (privilege_stack_table t) = 3%nat →
  init_idt !! v = Some g →
  entry_stack (init_tss t df pf top) g cs rsp =
    if v =? 8 then df + IST_STACK_SIZE
    else if v =? 14 then pf + IST_STACK_SIZE
    else if faulted_in_ring3 cs then top else rsp.
Proof.
  intros Hi Hp Hg. unfold init_idt in Hg.
  assert (E0 : (privilege_stack_table (init_tss t df pf top)).[0] = top) by (cbn [init_tss privilege_stack_table]; apply aget_aset_eq; unfold zlen; lia).
  assert (E1 : (interrupt_stack_table (init_tss t df pf top)).[PAGE_FAULT_IST_INDEX] = pf + IST_STACK_SIZE).
  { cbn [init_tss interrupt_stack_table]. apply aget_aset_eq. rewrite zlen_aset. unfold zlen, PAGE_FAULT_IST_INDEX. lia. }
  assert (E2 : (interrupt_stack_table (init_tss t df pf top)).[DOUBLE_FAULT_IST_INDEX] = df + IST_STACK_SIZE).
  { cbn [init_tss interrupt_stack_table]. rewrite aget_aset_ne by by vm_compute. apply aget_aset_eq. unfold zlen, DOUBLE_FAULT_IST_INDEX. lia. }
  unfold entry_stack. rewrite E0.
  repeat (apply lookup_insert_Some in Hg as [[<- <-]|[_ Hg]]; [by rewrite ?E1, ?E2|]). by rewrite lookup_empty in Hg.
Qed.

(** ** Instances *)

(** A ring-3 divide error. *)
Lemma exception_delivery_witness :
  exception demo_sel demo_stacks 0x5000 demo_kern 0 0x23 0 0 = Some (demo_kern, THalt) ∧ faulted_in_ring3 0x23 = true.
Proof. split; [apply (exception_delivery demo_sel demo_stacks 0x5000 demo_kern 0 0x23 0 0); lia|reflexivity]. Defined.

Lemma idt_stacks_witness :
  entry_stack (init_tss tss_new 0x10000 0x20000 0x8000) (mkGate HPageFault (Some 1)) 0x23 0x7000 = 0x20000 + 0x5000.
Proof. apply (idt_stacks tss_new 0x10000 0x20000 0x8000 14 (mkGate HPageFault (Some 1)) 0x23 0x7000); reflexivity. Defined.
