(* ===== verification/User.v ===== *)
(** * The ring-3 programs ([kernel/src/user.rs])

    The four position-independent programs the kernel copies into user pages, as lists of
    instructions with the source's operands, and [setup_user_task], which maps and fills
    their pages.

    A program runs on the general registers, the zero flag and a memory [W] reached by
    virtual address, until it enters the kernel: by [syscall], by [ud2], or by a fault.
    The virtio driver's memory is the one it was granted: a virtual address goes through
    the page tables, where a store needs a writable user page, to the RAM and the device
    registers of [VirtioDriver]. The device acts before each read of the used ring, as in
    the kernel's own driver. *)

From S2P Require Import Prelude Capability CapTable Authority Memory Paging Sched Gdt Context BlockDev ObjStore VirtioBlk Capspace VirtioDriver.

(** ** Instructions *)

(** [base + index * scale + disp]. *)
Record addr := mkAddr { a_base : reg; a_index : option (reg * Z); a_disp : Z }.

Inductive uinstr :=
  | UMovI (dst : reg) (v : Z)                 (* mov r64, imm *)
  | UMov (dst src : reg)                      (* mov r64, r64 *)
  | UMov32 (dst src : reg)                    (* mov r32, r32 *)
  | UMovzx16 (dst src : reg)                  (* movzx r32, r16 *)
  | UXor (r : reg)                            (* xor r32, r32 *)
  | ULoad (dst : reg) (n : nat) (a : addr)    (* mov r64, [a]; movzx r32, word ptr [a] *)
  | UStore (n : nat) (a : addr) (src : reg)   (* mov [a], r64 or r16 *)
  | UStoreI (n : nat) (a : addr) (v : Z)      (* mov byte/word/dword ptr [a], imm *)
  | ULea (dst : reg) (a : addr)               (* lea r64, [a] *)
  | ULea32 (dst : reg) (a : addr)             (* lea r32, [a32] *)
  | UDiv16 (r : reg)                          (* div r16 *)
  | UCmp16 (a b : reg)                        (* cmp r16, r16 *)
  | UDec (r : reg)                            (* dec r64 *)
  | UJmp (t : nat) | UJe (t : nat) | UJnz (t : nat)
  | UPause
  | USyscall
  | UUd2.

(** Why a program stops running. *)
Inductive ustop := AtSyscall | AtUd2 | AtFault.

Class UserMem (W : Type) := {
  um_load : W → Z → nat → option (W * Z);
  um_store : W → Z → nat → Z → option W;
}.

Record UState {W : Type} := mkU { u_regs : Regs; u_zf : bool; u_pc : nat; u_mem : W }.
Arguments UState W : clear implicits.

Section run.
Context {W : Type} `{UserMem W}.
Implicit Types (u : UState W).

Definition reg_of u (r : reg) : Z := get_reg (u_regs u) r.
Definition ea u (a : addr) : Z :=
  wrap 64 (reg_of u (a_base a) +
    match a_index a with Some (r, sc) => reg_of u r * sc | None => 0 end + a_disp a).

Definition u_next u : UState W := mkU W (u_regs u) (u_zf u) (S (u_pc u)) (u_mem u).
Definition u_set u (r : reg) (v : Z) : UState W := mkU W (set_reg (u_regs u) r v) (u_zf u) (S (u_pc u)) (u_mem u).
Definition u_flag u (z : bool) : UState W := mkU W (u_regs u) z (u_pc u) (u_mem u).
Definition u_goto u (t : nat) : UState W := mkU W (u_regs u) (u_zf u) t (u_mem u).
Definition u_with u (m : W) : UState W := mkU W (u_regs u) (u_zf u) (u_pc u) m.

(** The low half-word of a register replaced. *)
Definition low16 (old v : Z) : Z := old - wrap 16 old + v.

Definition uexec u (i : uinstr) : UState W * option ustop :=
  match i with
  | UMovI dst v => (u_set u dst v, None)
  | UMov dst src => (u_set u dst (reg_of u src), None)
  | UMov32 dst src => (u_set u dst (wrap 32 (reg_of u src)), None)
  | UMovzx16 dst src => (u_set u dst (wrap 16 (reg_of u src)), None)
  | UXor r => (u_flag (u_set u r 0) true, None)
  | ULoad dst n a =>
      match um_load (u_mem u) (ea u a) n with
      | Some (m, v) => (u_set (u_with u m) dst v, None)
      | None => (u, Some AtFault)
      end
  | UStore n a src =>
      match um_store (u_mem u) (ea u a) n (reg_of u src) with
      | Some m => (u_next (u_with u m), None)
      | None => (u, Some AtFault)
      end
  | UStoreI n a v =>
      match um_store (u_mem u) (ea u a) n v with
      | Some m => (u_next (u_with u m), None)
      | None => (u, Some AtFault)
      end
  | ULea dst a => (u_set u dst (ea u a), None)
  | ULea32 dst a => (u_set u dst (wrap 32 (ea u a)), None)
  | UDiv16 r =>
      let d := wrap 16 (reg_of u r) in
      let n := wrap 16 (reg_of u RDX) * 2 ^ 16 + wrap 16 (reg_of u RAX) in
      if (d =? 0) || (2 ^ 16 <=? n / d) then (u, Some AtFault)
      else
        let g := set_reg (u_regs u) RAX (low16 (reg_of u RAX) (n / d)) in
        (mkU W (set_reg g RDX (low16 (reg_of u RDX) (n mod d))) (u_zf u) (S (u_pc u)) (u_mem u), None)
  | UCmp16 a b => (u_next (u_flag u (wrap 16 (reg_of u a) =? wrap 16 (reg_of u b))), None)
  | UDec r => let v := wrap 64 (reg_of u r - 1) in (u_flag (u_set u r v) (v =? 0), None)
  | UJmp t => (u_goto u t, None)
  | UJe t => (if u_zf u then u_goto u t else u_next u, None)
  | UJnz t => (if u_zf u then u_next u else u_goto u t, None)
  | UPause => (u_next u, None)
  | USyscall => (u_next u, Some AtSyscall)
  | UUd2 => (u, Some AtUd2)
  end.

Definition running (x : UState W * option ustop) : bool := match x.2 with None => true | Some _ => false end.
Definition ustep (prog : list uinstr) (x : UState W * option ustop) : UState W * option ustop :=
  match prog !! u_pc x.1 with
  | Some i => uexec x.1 i
  | None => (x.1, Some AtFault)
  end.
Definition urun (prog : list uinstr) (fuel : positive) (u : UState W) : UState W * option ustop :=
  while_pos running (ustep prog) fuel (u, None).
End run.

(** ** The programs *)

Definition at_reg (r : reg) (disp : Z) : addr := mkAddr r None disp.

Definition client_main : list uinstr :=
  [UMov RBX RDI;
   UMovI RAX 1; UMov RDI RBX; UMovI RSI 1; UMovI RDX 0xCA11; UXor R10; UXor R8; UMovI R9 1; USyscall;
   UMovI RAX 1; UMovI RDI 1; UMovI RSI 1; UXor RDX; UXor R10; UXor R8; UMovI R9 0xffff; USyscall;
   UJmp 17].

Definition server_main : list uinstr :=
  [UMov RBX RDI;
   UMovI RAX 1; UMov RDI RBX; UMovI RSI 2; UXor RDX; UXor R10; UXor R8; UMovI R9 0xffff; USyscall;
   UMov R12 RDX;
   UMovI RAX 1; UMov RDI R12; UMovI RSI 1; UXor RDX; UXor R10; UXor R8; UMovI R9 0xffff; USyscall;
   UJmp 1].

Definition faulter_main : list uinstr :=
  [UMov RBX RDI;
   UMovI RAX 1; UMov RDI RBX; UMovI RSI 1; UXor RDX; UXor R10; UXor R8; UMovI R9 0xffff; USyscall;
   UUd2].

(** The labels [3:] and [4:] of [driver_main]. *)
Definition driver_poll : nat := 36.
Definition driver_done : nat := 42.
Definition DRIVER_POLLS : Z := 100000000.

Definition driver_main : list uinstr :=
  [UMov RBX RDI;
   UMovI RBP 0x1000000;
   ULoad R12 8 (at_reg RBP 0x3800);
   ULoad R13 8 (at_reg RBP 0x3808);
   ULoad R14 8 (at_reg RBP 0x3810);
   ULoad R15 8 (at_reg RBP 0x3818);
   (* desc0 *)
   UStore 8 (at_reg RBP 0x00) R12;
   UStoreI 4 (at_reg RBP 0x08) 16;
   UStoreI 2 (at_reg RBP 0x0c) 1;
   UStoreI 2 (at_reg RBP 0x0e) 1;
   (* desc1 *)
   ULea RAX (at_reg R12 512);
   UStore 8 (at_reg RBP 0x10) RAX;
   UStoreI 4 (at_reg RBP 0x18) 512;
   UStoreI 2 (at_reg RBP 0x1c) 3;
   UStoreI 2 (at_reg RBP 0x1e) 2;
   (* desc2 *)
   ULea RAX (at_reg R12 1024);
   UStore 8 (at_reg RBP 0x20) RAX;
   UStoreI 4 (at_reg RBP 0x28) 1;
   UStoreI 2 (at_reg RBP 0x2c) 2;
   UStoreI 2 (at_reg RBP 0x2e) 0;
   (* the request header and status *)
   UStoreI 4 (at_reg RBP 0x3000) 0;
   UStoreI 4 (at_reg RBP 0x3004) 0;
   UStore 8 (at_reg RBP 0x3008) R13;
   UStoreI 1 (at_reg RBP 0x3400) 0xff;
   (* publish *)
   ULoad RAX 2 (at_reg RBP 0x1002);
   UMov32 RCX RAX;
   UXor RDX;
   UDiv16 R14;
   UMovzx16 R9 RDX;
   UStoreI 2 (mkAddr RBP (Some (R9, 2)) 0x1004) 0;
   ULea32 RAX (at_reg RCX 1);
   UStore 2 (at_reg RBP 0x1002) RAX;
   UMov32 RCX RAX;
   (* doorbell *)
   ULea R10 (mkAddr RBP (Some (R15, 1)) 0x4000);
   UStoreI 2 (at_reg R10 0) 0;
   (* poll *)
   UMovI R11 100000000;
   ULoad RAX 2 (at_reg RBP 0x2002);
   UCmp16 RAX RCX;
   UJe driver_done;
   UPause;
   UDec R11;
   UJnz driver_poll;
   (* report *)
   ULoad RDX 8 (at_reg RBP 0x3200);
   UMovI RAX 1;
   UMov RDI RBX;
   UMovI RSI 3;
   UXor R10;
   UXor R8;
   UMovI R9 0xffff;
   USyscall;
   UUd2].

(** ** The driver's memory *)

Section driver.
Context {V : Type} `{VirtioDev V}.
Variable (hhdm : Z) (p : PState).
Implicit Types (s : VState V).

(** The physical address of an access of [n] bytes by ring 3. *)
Definition user_phys (va : Z) (n : nat) (write : bool) : option Z :=
  match translate p va with
  | Some e =>
      if Z.testbit e 2 && (negb write || Z.testbit e 1) && (va mod 4096 + Z.of_nat n <=? 4096)
      then Some (entry_phys e + va mod 4096) else None
  | None => None
  end.

(** The device acts before the driver looks at the used ring. *)
Definition dq_load s (va : Z) (n : nat) : option (VState V * Z) :=
  match user_phys va n false with
  | Some pa =>
      let s := if pa - pa mod 4096 =? v_used_phys (vb s) then device_runs s else s in
      Some (vread hhdm s (hhdm + pa) n)
  | None => None
  end.
Definition dq_store s (va : Z) (n : nat) (x : Z) : option (VState V) :=
  match user_phys va n true with
  | Some pa => Some (vwrite hhdm s (hhdm + pa) n x)
  | None => None
  end.
#[export] Instance dq_mem : UserMem (VState V) := {| um_load := dq_load; um_store := dq_store |}.
End driver.

(** ** [setup_user_task]

    Bytes of physical memory are the bytes of its words; [blob] is the program's code. *)

Definition rd_byte (p : PState) (a : Z) : Z := wrap 8 (Z.shiftr (rd (pmem p) (a - a mod 8)) (8 * (a mod 8))).
Definition wr_byte (p : PState) (a b : Z) : PState :=
  let w := rd (pmem p) (a - a mod 8) in
  let sh := 8 * (a mod 8) in
  wr p (a - a mod 8) (Z.lor (Z.ldiff w (Z.shiftl 0xff sh)) (Z.shiftl b sh)).
(** [copy_nonoverlapping]. *)
Fixpoint copy_bytes (p : PState) (a : Z) (bytes : list Z) : PState :=
  match bytes with
  | [] => p
  | b :: bytes => copy_bytes (wr_byte p a b) (a + 1) bytes
  end.

Section setup.
Context `{Mapper}.

Definition setup_user_task (p : PState) (f : FrameAllocator) (code_va stack_va : Z) (blob : list Z) :
    PState * FrameAllocator * option (Z * Z) :=
  match map_user_page p f code_va false true with
  | (p, f, None) => (p, f, None)
  | (p, f, Some code_fnum) =>
      match map_user_page p f stack_va true false with
      | (p, f, None) => (p, f, None)
      | (p, f, Some _) => (copy_bytes p (code_fnum * 4096) blob, f, Some (code_va, stack_va + 0x1000))
      end
  end.
End setup.

(** ** Copying the code *)

Lemma rd_wr_byte p a b a' :
  fits 8 b → rd_byte (wr_byte p a b) a' = if decide (a = a') then b else rd_byte p a'.
Proof.
  intros Hb. unfold rd_byte, wr_byte. cbn [wr pmem]. rewrite rd_insert.
  pose proof (Z.mod_pos_bound a 8 ltac:(lia)). pose proof (Z.mod_pos_bound a' 8 ltac:(lia)).
  destruct (decide (a - a mod 8 = a' - a' mod 8)) as [E|E].
  2:{ destruct (decide (a = a')) as [->|]; done. }
  rewrite <- E. apply Z.bits_inj'. intros i Hi. unfold wrap.
  destruct (decide (a = a')) as [<-|Hne].
  - destruct (Z.ltb_spec i 8).
    + rewrite Z.mod_pow2_bits_low, Z.shiftr_spec, Z.lor_spec, Z.ldiff_spec, !Z.shiftl_spec by lia.
      replace (i + 8 * (a mod 8) - 8 * (a mod 8)) with i by lia.
      replace (Z.testbit 0xff i) with true by (change 0xff with (Z.ones 8); by rewrite Z.ones_spec_low by lia).
      by rewrite andb_false_r.
    + rewrite Z.mod_pow2_bits_high by lia. by rewrite (fits_testbit 8) by (done || lia).
  - destruct (Z.ltb_spec i 8); [|by rewrite !Z.mod_pow2_bits_high by lia].
    rewrite !Z.mod_pow2_bits_low, !Z.shiftr_spec, Z.lor_spec, Z.ldiff_spec, !Z.shiftl_spec by lia.
    assert (Hd : i + 8 * (a' mod 8) - 8 * (a mod 8) < 0 ∨ 8 <= i + 8 * (a' mod 8) - 8 * (a mod 8)) by lia.
    set (j := i + 8 * (a' mod 8) - 8 * (a mod 8)) in *.
    assert (Hb1 : Z.testbit b j = false).
    { destruct Hd; [by apply Z.testbit_neg_r|by apply (fits_testbit 8)]. }
    assert (Hb2 : Z.testbit 255 j = false).
    { destruct Hd; [by apply Z.testbit_neg_r|by apply (fits_testbit 8)]. }
    rewrite Hb1, Hb2. by rewrite orb_false_r, andb_true_r.
Qed.

Lemma copy_bytes_rd p a bytes x :
  Forall (fits 8) bytes →
  rd_byte (copy_bytes p a bytes) x = if (a <=? x) && (x <? a + zlen bytes) then bytes.[x - a] else rd_byte p x.
Proof.
  intros Hf. revert p a. induction Hf as [|b bytes Hb _ IH]; intros p a; cbn [copy_bytes].
  { unfold zlen. cbn [length]. destruct (Z.leb_spec a x), (Z.ltb_spec x (a + Z.of_nat 0)); simpl; try done; lia. }
  rewrite IH, rd_wr_byte by done. unfold zlen. cbn [length].
  destruct (decide (a = x)) as [->|Hne].
  - rewrite (proj2 (Z.leb_gt (x + 1) x)), Z.leb_refl by lia.
    rewrite (proj2 (Z.ltb_lt x (x + Z.of_nat (S (length bytes))))) by lia. cbn [andb]. by rewrite Z.sub_diag.
  - destruct (Z.leb_spec (a + 1) x), (Z.leb_spec a x), (Z.ltb_spec x (a + 1 + Z.of_nat (length bytes))),
      (Z.ltb_spec x (a + Z.of_nat (S (length bytes)))); simpl; try done; try lia.
    unfold aget. replace (Z.to_nat (x - a)) with (S (Z.to_nat (x - (a + 1)))) by lia. done.
Qed.

Lemma copy_bytes_out p a bytes x :
  a mod 4096 = 0 → zlen bytes <= 4096 → ¬ (a <= x < a + 4096) → rd (pmem (copy_bytes p a bytes)) x = rd (pmem p) x.
Proof.
  intros Ha Hl Hx.
  assert (Hgen : ∀ bytes p y, a <= y → y + zlen bytes <= a + 4096 →
    rd (pmem (copy_bytes p y bytes)) x = rd (pmem p) x).
  { clear p bytes Hl. intros bytes. unfold zlen. induction bytes as [|b bytes IH]; intros p y H1 H2; [done|].
    cbn [copy_bytes length] in *. rewrite IH by lia. unfold wr_byte. cbn [wr pmem]. rewrite rd_insert.
    rewrite decide_False; [done|]. intros E. apply Hx. pose proof (Z.mod_pos_bound y 8 ltac:(lia)).
    assert (a mod 8 = 0) by (rewrite (Z.div_mod a 4096), Ha, Z.add_0_r by lia;
      change 4096 with (512 * 8); rewrite (Z.mul_comm _ (_ / _)), Z.mul_assoc; apply Z.mod_mul; lia).
    pose proof (Z.div_mod y 8 ltac:(lia)). pose proof (Z.div_mod a 8 ltac:(lia)). lia. }
  by apply Hgen; lia.
Qed.

Lemma copy_bytes_cr3 p a bytes : cr3 (copy_bytes p a bytes) = cr3 p.
Proof. revert p a. induction bytes as [|b bytes IH]; intros p a; [done|]. simpl. by rewrite IH. Qed.

Section setup_spec.
Context `{MapperLaws}.

(** What the task finds: its code, readable and executable only, and a zeroed stack,
    writable and not executable, in two different frames. *)
Definition task_pages (p : PState) (code_va stack_va : Z) (blob : list Z) : Prop :=
  ∃ ce se c s, translate p code_va = Some ce ∧ translate p stack_va = Some se ∧
    c ≠ s ∧ grants ce (c * 4096) false true false ∧ grants se (s * 4096) true false false ∧
    (∀ i, 0 <= i < zlen blob → rd_byte p (c * 4096 + i) = blob.[i]) ∧ zeroed p (s * 4096).

Lemma frame_fits f : 0 <= f < 2 ^ 52 → f * 4096 < 2 ^ 52 → fits 52 (f * 4096).
Proof. intros Hf Hlt. unfold fits. lia. Qed.

(** What the new task leaves alone, whatever becomes of it. *)
Lemma setup_keeps p f code_va stack_va blob p' f' r :
  pt_wf p f → zlen blob <= 4096 → setup_user_task p f code_va stack_va blob = (p', f', r) →
  pt_wf p' f' ∧ mem_set f' ⊆ mem_set f ∧
  (∀ va, vpn va ≠ vpn code_va → vpn va ≠ vpn stack_va → translate p' va = translate p va).
Proof.
  intros Hwf Hl Hs. unfold setup_user_task in Hs.
  destruct (map_user_page p f code_va false true) as [[p1 f1] r1] eqn:E1.
  destruct (map_user_page_spec _ _ _ _ _ _ _ _ Hwf E1) as (Hwf1 & Ho1 & Hr1).
  destruct (map_user_page_tables _ _ _ _ _ _ _ _ Hwf E1) as (Hsub1 & Hk1 & Ht1).
  destruct r1 as [c|]; [|by simplify_eq; auto].
  destruct (map_user_page p1 f1 stack_va true false) as [[p2 f2] r2] eqn:E2.
  destruct (map_user_page_spec _ _ _ _ _ _ _ _ Hwf1 E2) as (Hwf2 & Ho2 & Hr2).
  destruct (map_user_page_tables _ _ _ _ _ _ _ _ Hwf1 E2) as (Hsub2 & Hk2 & Ht2).
  assert (Hoth : ∀ va, vpn va ≠ vpn code_va → vpn va ≠ vpn stack_va → translate p2 va = translate p va)
    by (intros va V1 V2; by rewrite Ho2, Ho1).
  destruct r2 as [s|]; simplify_eq; [|split; [done|]; split; [set_solver|done]].
  destruct Hr1 as (_ & N1 & _). destruct (Ht1 c eq_refl) as [Hnc _].
  pose proof (outside_tables p2 (copy_bytes p2 (c * 4096) blob) c (Hk2 c N1 Hnc) (copy_bytes_cr3 _ _ _)
    (λ a Ha, copy_bytes_out p2 (c * 4096) blob a ltac:(apply Z.mod_mul; lia) Hl Ha)) as Hcp.
  split; [|split; [set_solver|]].
  - eapply (pt_wf_ext p2 _ f' f'); [|apply Hwf2|done|done]. intros va. destruct (Hcp va) as (A & B & _). auto.
  - intros va V1 V2. destruct (Hcp va) as (_ & _ & ->). by apply Hoth.
Qed.

(** Setting up a task. On success the code and stack pages, free before, are mapped as
    W^X asks, the code page holds the program, the stack is zero, and the task starts at
    [code_va] with its stack pointer at the end of the stack page. Whatever the outcome,
    every other page keeps its translation; on failure only the code page may have been
    mapped. *)
Theorem setup_user_task_spec p f code_va stack_va blob p' f' r :
  pt_wf p f → vpn code_va ≠ vpn stack_va → Forall (fits 8) blob → zlen blob <= 4096 →
  (∀ g, g ∈ mem_set f → g * 4096 < 2 ^ 52) →
  setup_user_task p f code_va stack_va blob = (p', f', r) →
  pt_wf p' f' ∧ mem_set f' ⊆ mem_set f ∧
  (∀ va, vpn va ≠ vpn code_va → vpn va ≠ vpn stack_va → translate p' va = translate p va) ∧
  match r with
  | Some (entry, top) => entry = code_va ∧ top = stack_va + 0x1000 ∧
      translate p code_va = None ∧ translate p stack_va = None ∧ task_pages p' code_va stack_va blob
  | None => translate p' stack_va = translate p stack_va
  end.
Proof.
  intros Hwf Hne Hb Hl Hlow Hs. destruct (setup_keeps _ _ _ _ _ _ _ _ Hwf Hl Hs) as (K1 & K2 & K3).
  split; [done|]. split; [done|]. split; [done|]. clear K1 K2 K3. unfold setup_user_task in Hs.
  destruct (map_user_page p f code_va false true) as [[p1 f1] r1] eqn:E1.
  destruct (map_user_page_spec _ _ _ _ _ _ _ _ Hwf E1) as (Hwf1 & Ho1 & Hr1).
  destruct (map_user_page_tables _ _ _ _ _ _ _ _ Hwf E1) as (Hsub1 & Hk1 & Ht1).
  destruct r1 as [c|]; [|by simplify_eq; auto].
  destruct (map_user_page p1 f1 stack_va true false) as [[p2 f2] r2] eqn:E2.
  destruct (map_user_page_spec _ _ _ _ _ _ _ _ Hwf1 E2) as (Hwf2 & Ho2 & Hr2).
  destruct (map_user_page_tables _ _ _ _ _ _ _ _ Hwf1 E2) as (Hsub2 & Hk2 & Ht2).
  destruct r2 as [s|]; simplify_eq.
  2:{ destruct Hr2 as [-> _]. by apply Ho1. }
  destruct Hr1 as (L1 & N1 & Z1 & F1 & T1). destruct Hr2 as (L2 & N2 & Z2 & F2 & T2).
  destruct (Ht1 c eq_refl) as [Hnc Hcr]. destruct (Ht2 s eq_refl) as [Hns Hsr].
  assert (Hcs : c ≠ s) by (intros ->; apply N1, L2).
  assert (Hal : c * 4096 mod 4096 = 0) by (apply Z.mod_mul; lia).
  pose proof (outside_tables p2 (copy_bytes p2 (c * 4096) blob) c (Hk2 c N1 Hnc) (copy_bytes_cr3 _ _ _)
    (λ a Ha, copy_bytes_out p2 (c * 4096) blob a Hal Hl Ha)) as Hcp.
  split; [done|]. split; [done|]. split; [done|]. split; [by rewrite <- (Ho1 stack_va) by congruence|].
  assert (Fc : fits 52 (c * 4096)) by (apply frame_fits; [done|apply Hlow, L1]).
  assert (Fs : fits 52 (s * 4096)) by (apply frame_fits; [done|apply Hlow, Hsub1, L2]).
  exists (Z.lor (page_of (c * 4096)) (user_leaf false true false)),
    (Z.lor (page_of (s * 4096)) (user_leaf true false false)), c, s.
  destruct (Hcp code_va) as (_ & _ & ->). destruct (Hcp stack_va) as (_ & _ & ->).
  rewrite !page_of_frame by done. split; [by rewrite Ho2|]. split; [done|]. split; [done|].
  split; [rewrite <- (page_of_frame c) at 1 by done; by apply user_leaf_grants|].
  split; [rewrite <- (page_of_frame s) at 1 by done; by apply user_leaf_grants|]. split.
  - intros i Hi. rewrite copy_bytes_rd by done.
    rewrite (proj2 (Z.leb_le _ _)), (proj2 (Z.ltb_lt _ _)) by lia. cbn [andb]. f_equal. lia.
  - intros i Hi. rewrite copy_bytes_out by (done || lia). by apply Z2.
Qed.
End setup_spec.

(** ** Running a program *)

Section steps.
Context {W : Type} `{UserMem W}.
Variable (prog : list uinstr) (Q : UState W * option ustop → Prop).
Implicit Types (u : UState W).

Definition ends (k : Z) (x : UState W * option ustop) : Prop := reaches running (ustep prog) Q k x.

Lemma ends_step k u i x :
  prog !! u_pc u = Some i → uexec u i = x → ends (k - 1) x → ends k (u, None).
Proof. intros Hi Hx Hr. apply reaches_step; [done|]. unfold ustep. cbn [fst]. rewrite Hi, Hx. exact Hr. Qed.

Lemma ends_load k u r n a m v :
  prog !! u_pc u = Some (ULoad r n a) → um_load (u_mem u) (ea u a) n = Some (m, v) →
  ends (k - 1) (mkU W (set_reg (u_regs u) r v) (u_zf u) (S (u_pc u)) m, None) → ends k (u, None).
Proof. intros Hi Hl. eapply ends_step; [exact Hi|]. unfold uexec. by rewrite Hl. Qed.

Lemma ends_store k u n a r m :
  prog !! u_pc u = Some (UStore n a r) → um_store (u_mem u) (ea u a) n (reg_of u r) = Some m →
  ends (k - 1) (mkU W (u_regs u) (u_zf u) (S (u_pc u)) m, None) → ends k (u, None).
Proof. intros Hi Hl. eapply ends_step; [exact Hi|]. unfold uexec. by rewrite Hl. Qed.

Lemma ends_storei k u n a v m :
  prog !! u_pc u = Some (UStoreI n a v) → um_store (u_mem u) (ea u a) n v = Some m →
  ends (k - 1) (mkU W (u_regs u) (u_zf u) (S (u_pc u)) m, None) → ends k (u, None).
Proof. intros Hi Hl. eapply ends_step; [exact Hi|]. unfold uexec. by rewrite Hl. Qed.

Lemma ends_stop k u i u' st : prog !! u_pc u = Some i → uexec u i = (u', Some st) → Q (u', Some st) → 1 <= k → ends k (u, None).
Proof. intros Hi Hx HQ Hk. eapply ends_step; [done..|]. apply reaches_done; [lia|done|done]. Qed.
End steps.

(** Register instructions, by computation. *)
Ltac ustate := unfold u_set, u_next, u_flag, u_goto, u_with, reg_of; cbn [u_regs u_zf u_pc u_mem].
Ltac ustep_reg := eapply ends_step; [reflexivity|cbn [uexec]; reflexivity|]; ustate.

(** ** The driver's accesses *)

Section accesses.
Context {V : Type} `{VirtioDev V}.
Variable (hhdm : Z) (p : PState) (v : VirtioBlk) (mgc scratch : Z).
Implicit Types (m : Z → Z) (d : V).

(** What [create_device_queue] records of the driver's queue. *)
Definition dq_meta : DqMeta :=
  mkDq (v_desc_phys v) (v_avail_phys v) (v_used_phys v) (v_hdr_phys v) (v_doorbell_phys v) (v_qsize v) mgc scratch.

(** The pages of [DQ_MAP] are mapped. *)
Definition dq_granted : Prop :=
  Forall (λ pg, ∃ e, translate p pg.1.1.1 = Some e ∧ grants e pg.1.1.2 pg.1.2 false pg.2) (dq_pages dq_meta).

Definition frame_addr (a : Z) : Prop := a mod 4096 = 0 ∧ fits 52 a.

Lemma vpn_offset base o : fits 63 base → base mod 4096 = 0 → 0 <= o < 4096 → vpn (base + o) = vpn base.
Proof.
  intros Hf Hb Ho. unfold fits in Hf. rewrite <- (vpn_page_of (base + o)), <- (vpn_page_of base). f_equal.
  rewrite !page_of_div by (unfold fits; lia). f_equal.
  rewrite (Z.div_mod base 4096), Hb, Z.add_0_r by lia.
  rewrite (Z.mul_comm 4096), Z.div_add_l, Z.div_mul by lia. rewrite (Z.div_small o) by lia. lia.
Qed.

Lemma user_phys_page base o n wr e phys w nc :
  fits 63 base → base mod 4096 = 0 → 0 <= o → o + Z.of_nat n <= 4096 → 0 < Z.of_nat n →
  translate p base = Some e → grants e phys w false nc → (wr = true → w = true) →
  user_phys p (base + o) n wr = Some (page_of phys + o).
Proof.
  intros Hf Hb Ho Hn Hpos He (G1 & G2 & G3 & _) Hw. unfold user_phys.
  rewrite (translate_same_page p base (base + o)) by (symmetry; apply vpn_offset; done || lia).
  assert (Hm : (base + o) mod 4096 = o) by (rewrite <- Z.add_mod_idemp_l, Hb by lia; apply Z.mod_small; lia).
  rewrite He, G1, G2, G3, Hm. rewrite (proj2 (Z.leb_le _ _)) by lia. destruct wr, w; try done. by specialize (Hw eq_refl).
Qed.

Lemma frame_page a : frame_addr a → page_of a = a.
Proof.
  intros [Ha Hf]. unfold fits in Hf. rewrite page_of_div by (unfold fits; lia).
  pose proof (Z.div_mod a 4096 ltac:(lia)). lia.
Qed.

Lemma frame_base a o : frame_addr a → 0 <= o < 4096 → a + o - (a + o) mod 4096 = a.
Proof.
  intros [Ha _] Ho. rewrite <- Z.add_mod_idemp_l, Ha, Z.add_0_l, Z.mod_small by lia. lia.
Qed.

Context (Hgr : dq_granted) (Hg : geometry hhdm v).
Context (Hfr : Forall frame_addr [v_desc_phys v; v_avail_phys v; v_used_phys v; v_hdr_phys v]).

Lemma granted_page va phys w nc :
  (va, phys, w, nc) ∈ dq_pages dq_meta → ∃ e, translate p va = Some e ∧ grants e phys w false nc.
Proof. intros Hin. by apply (proj1 (Forall_forall _ _) Hgr _ Hin). Qed.

Lemma store_frame base phys nc o n x m d :
  (base, phys, true, nc) ∈ dq_pages dq_meta → frame_addr phys → fits 63 base → base mod 4096 = 0 →
  vd_mmio (phys + o) = false → 0 <= o → o + Z.of_nat n <= 4096 → 0 < Z.of_nat n →
  dq_store hhdm p (mkV V v m d) (base + o) n x = Some (mkV V v (wr_le m (phys + o) n x) d).
Proof.
  intros Hin Hf Hb Hb0 Hmm Ho Hn Hpos. destruct (granted_page _ _ _ _ Hin) as (e & He & Hgt).
  unfold dq_store. rewrite (user_phys_page base o n true e phys true nc) by done.
  rewrite frame_page by done. f_equal. unfold vwrite. replace (hhdm + (phys + o) - hhdm) with (phys + o) by lia. by rewrite Hmm.
Qed.

Lemma load_frame base phys w nc o n m d :
  (base, phys, w, nc) ∈ dq_pages dq_meta → frame_addr phys → fits 63 base → base mod 4096 = 0 →
  vd_mmio (phys + o) = false → 0 <= o → o + Z.of_nat n <= 4096 → 0 < Z.of_nat n →
  dq_load hhdm p (mkV V v m d) (base + o) n =
  let s := if phys =? v_used_phys v then device_runs (mkV V v m d) else mkV V v m d in
  Some (s, rd_le (ram s) (phys + o) n).
Proof.
  intros Hin Hf Hb Hb0 Hmm Ho Hn Hpos. destruct (granted_page _ _ _ _ Hin) as (e & He & Hgt).
  unfold dq_load. rewrite (user_phys_page base o n false e phys w nc) by done.
  rewrite frame_page, frame_base by (done || lia). cbn [vb].
  destruct (phys =? v_used_phys v); cbv zeta; unfold vread;
    replace (hhdm + (phys + o) - hhdm) with (phys + o) by lia; by rewrite Hmm.
Qed.
End accesses.

(** ** [driver_main] *)

Section driver_run.
Context {V : Type} `{VirtioDev V}.
Variable (hhdm : Z) (p : PState) (v : VirtioBlk) (mgc scratch : Z).
Implicit Types (m : Z → Z) (d : V) (g : Regs).
Context (Hgr : dq_granted p v mgc scratch) (Hg : geometry hhdm v).
Context (Hfr : Forall frame_addr [v_desc_phys v; v_avail_phys v; v_used_phys v; v_hdr_phys v]).
#[local] Instance um : UserMem (VState V) := dq_mem hhdm p.

Lemma frames_of : frame_addr (v_desc_phys v) ∧ frame_addr (v_avail_phys v) ∧ frame_addr (v_used_phys v) ∧ frame_addr (v_hdr_phys v).
Proof. rewrite !Forall_cons in Hfr. tauto. Qed.

Lemma st_desc o n x a m d :
  v_desc_phys v + o = a → 0 <= o → o + Z.of_nat n <= 4096 → 0 < Z.of_nat n →
  um_store (mkV V v m d) (DQ_BASE + o) n x = Some (mkV V v (wr_le m a n x) d).
Proof.
  intros <- Ho Hn Hp. apply (store_frame hhdm p v mgc scratch Hgr DQ_BASE _ false); try done; [set_solver|apply frames_of|].
  apply (ge_ram _ _ Hg (v_desc_phys v)); [set_solver|lia].
Qed.
Lemma st_avail o n x a m d :
  v_avail_phys v + o = a → 0 <= o → o + Z.of_nat n <= 4096 → 0 < Z.of_nat n →
  um_store (mkV V v m d) (DQ_BASE + 0x1000 + o) n x = Some (mkV V v (wr_le m a n x) d).
Proof.
  intros <- Ho Hn Hp. apply (store_frame hhdm p v mgc scratch Hgr (DQ_BASE + 0x1000) _ false); try done; [set_solver|apply frames_of|].
  apply (ge_ram _ _ Hg (v_avail_phys v)); [set_solver|lia].
Qed.
Lemma st_buf o n x a m d :
  v_hdr_phys v + o = a → 0 <= o → o + Z.of_nat n <= 4096 → 0 < Z.of_nat n →
  um_store (mkV V v m d) (DQ_BASE + 0x3000 + o) n x = Some (mkV V v (wr_le m a n x) d).
Proof.
  intros <- Ho Hn Hp. apply (store_frame hhdm p v mgc scratch Hgr (DQ_BASE + 0x3000) _ false); try done; [set_solver|apply frames_of|].
  apply (ge_ram _ _ Hg (v_hdr_phys v)); [set_solver|lia].
Qed.
Lemma ld_avail o n a x m d :
  v_avail_phys v + o = a → rd_le m a n = x → 0 <= o → o + Z.of_nat n <= 4096 → 0 < Z.of_nat n →
  um_load (mkV V v m d) (DQ_BASE + 0x1000 + o) n = Some (mkV V v m d, x).
Proof.
  intros <- <- Ho Hn Hp. cbn [um_load um dq_mem].
  rewrite (load_frame hhdm p v mgc scratch Hgr (DQ_BASE + 0x1000) (v_avail_phys v) true false);
    try done; [|set_solver|apply frames_of|apply (ge_ram _ _ Hg (v_avail_phys v)); [set_solver|lia]].
  pose proof (ge_au _ _ Hg) as Hau. unfold apart in Hau. by rewrite (proj2 (Z.eqb_neq _ _)) by lia.
Qed.
Lemma ld_buf o n a x m d :
  v_hdr_phys v + o = a → rd_le m a n = x → 0 <= o → o + Z.of_nat n <= 4096 → 0 < Z.of_nat n →
  um_load (mkV V v m d) (DQ_BASE + 0x3000 + o) n = Some (mkV V v m d, x).
Proof.
  intros <- <- Ho Hn Hp. cbn [um_load um dq_mem].
  rewrite (load_frame hhdm p v mgc scratch Hgr (DQ_BASE + 0x3000) (v_hdr_phys v) true false);
    try done; [|set_solver|apply frames_of|apply (ge_ram _ _ Hg (v_hdr_phys v)); [set_solver|lia]].
  pose proof (ge_uh _ _ Hg) as Huh. unfold apart in Huh. by rewrite (proj2 (Z.eqb_neq _ _)) by lia.
Qed.
Lemma ld_used m d m' d' :
  vd_poll d m = (d', m') →
  um_load (mkV V v m d) (DQ_BASE + 0x2000 + 2) 2 = Some (mkV V v m' d', used_idx m' (queue_of v)).
Proof.
  intros Hp. cbn [um_load um dq_mem].
  rewrite (load_frame hhdm p v mgc scratch Hgr (DQ_BASE + 0x2000) (v_used_phys v) false false);
    try done; [|set_solver|apply frames_of|apply (ge_ram _ _ Hg (v_used_phys v)); [set_solver|lia]].
  rewrite Z.eqb_refl. unfold device_runs. cbn [vdev ram vb]. by rewrite Hp.
Qed.

(** Polling the used ring from the label [3:], with [j] rounds left. *)
Variable (cptr i : Z).
Definition poll_regs g (j : Z) : Prop :=
  get_reg g RBX = cptr ∧ get_reg g RBP = DQ_BASE ∧ wrap 16 (get_reg g RCX) = wrap 16 (i + 1) ∧
  get_reg g R11 = j.

Section polls.
Variable (Q : UState (VState V) * option ustop → Prop).

(** One round: the device acts; the driver sees the request completed, or counts down. *)
Lemma driver_poll_round k g zf m d m' d' j :
  poll_regs g j → 1 <= j <= DRIVER_POLLS → vd_poll d m = (d', m') → fits 16 (used_idx m' (queue_of v)) →
  (∀ g' zf', used_idx m' (queue_of v) = wrap 16 (i + 1) → poll_regs g' j →
     ends driver_main Q (k - 3) (mkU _ g' zf' driver_done (mkV V v m' d'), None)) →
  (∀ g' zf', used_idx m' (queue_of v) ≠ wrap 16 (i + 1) → poll_regs g' (j - 1) →
     ends driver_main Q (k - 6) (mkU _ g' zf' (if j =? 1 then driver_done else driver_poll) (mkV V v m' d'), None)) →
  ends driver_main Q k (mkU _ g zf driver_poll (mkV V v m d), None).
Proof.
  intros (Hb & Hp & Hc & Hj) Hjr Hpoll Hf Hdone Hmore.
  eapply ends_load; [reflexivity| |].
  { unfold ea, reg_of. cbn [u_regs u_mem a_base a_index a_disp at_reg]. rewrite Hp. exact (ld_used m d m' d' Hpoll). }
  ustep_reg.
  rewrite !get_set_reg, decide_True, decide_False, Hc, (wrap_id 16 _ Hf) by done.
  set (g1 := set_reg g RAX _). ustep_reg.
  destruct (Z.eqb_spec (used_idx m' (queue_of v)) (wrap 16 (i + 1))) as [E|E].
  { replace (k - 1 - 1 - 1) with (k - 3) by lia. apply Hdone; [done|]. unfold g1, poll_regs. by rewrite !get_set_reg. }
  ustep_reg. ustep_reg.
  assert (Ej : get_reg g1 R11 = j) by (unfold g1; by rewrite get_set_reg).
  rewrite Ej, (wrap_id 64 (j - 1)) by (unfold fits, DRIVER_POLLS in *; lia).
  ustep_reg. replace (k - 1 - 1 - 1 - 1 - 1 - 1) with (k - 6) by lia.
  assert (Hr : poll_regs (set_reg g1 R11 (j - 1)) (j - 1)).
  { unfold g1, poll_regs. by rewrite !get_set_reg. }
  specialize (Hmore (set_reg g1 R11 (j - 1)) (j - 1 =? 0) E Hr). revert Hmore.
  replace (j - 1 =? 0) with (j =? 1) by (destruct (Z.eqb_spec j 1), (Z.eqb_spec (j - 1) 0); lia || done).
  by destruct (j =? 1).
Qed.

(** The one system call: [cap_invoke(dq, DQ_REPORT, first word of the data)]. *)
Definition report_call (u : UState (VState V)) m d : Prop :=
  u_mem u = mkV V v m d ∧ reg_of u RAX = 1 ∧ reg_of u RDI = cptr ∧ reg_of u RSI = DQ_REPORT ∧
  reg_of u RDX = rd_le m (v_hdr_phys v + 512) 8 ∧ reg_of u R10 = 0 ∧ reg_of u R8 = 0 ∧ reg_of u R9 = CPTR_NONE.

Lemma driver_report k g zf m d j :
  poll_regs g j → 8 <= k → (∀ u, report_call u m d → Q (u, Some AtSyscall)) →
  ends driver_main Q k (mkU _ g zf driver_done (mkV V v m d), None).
Proof.
  intros (Hb & Hp & _) Hk HQ. eapply ends_load; [reflexivity| |].
  { unfold ea, reg_of. cbn [u_regs u_mem a_base a_index a_disp at_reg]. rewrite Hp.
    apply (ld_buf 0x200 8 (v_hdr_phys v + 512)); [done..|lia|lia]. }
  cbn [u_regs u_zf u_pc]. ustep_reg. ustep_reg. ustep_reg. ustep_reg. ustep_reg. ustep_reg.
  eapply ends_stop; [reflexivity|reflexivity| |lia].
  apply HQ. unfold report_call. ustate. rewrite !get_set_reg. by repeat (split; [done|]).
Qed.

(** RAM when the driver rings the doorbell. *)
Definition driver_ram (lba : Z) m : Z → Z :=
  avail_ram_at v i (header_ram v VIRTIO_BLK_T_IN lba (chain_ram v VIRTIO_BLK_T_IN true m)).

(** What the kernel leaves at the end of the buffer. *)
Definition dq_params (lba : Z) m : Prop :=
  rd_le m (v_hdr_phys v + 2048) 8 = v_hdr_phys v ∧ rd_le m (v_hdr_phys v + 2056) 8 = lba ∧
  rd_le m (v_hdr_phys v + 2064) 8 = v_qsize v ∧ rd_le m (v_hdr_phys v + 2072) 8 = Z.land (v_doorbell_phys v) 0xfff.

Definition param_regs (lba : Z) g : Prop :=
  get_reg g RBX = cptr ∧ get_reg g RBP = DQ_BASE ∧ get_reg g R12 = v_hdr_phys v ∧ get_reg g R13 = lba ∧
  get_reg g R14 = v_qsize v ∧ get_reg g R15 = Z.land (v_doorbell_phys v) 0xfff.

(** Other registers may change under the parameters. *)
Lemma param_regs_set lba g r x :
  r ∉ [RBX; RBP; R12; R13; R14; R15] → param_regs lba g → param_regs lba (set_reg g r x).
Proof. intros Hr Hp. unfold param_regs. rewrite !get_set_reg. destruct r; try done; set_solver. Qed.

Lemma driver_loads k g zf m d lba :
  get_reg g RDI = cptr → dq_params lba m →
  (∀ g', param_regs lba g' → ends driver_main Q (k - 6) (mkU _ g' zf 6 (mkV V v m d), None)) →
  ends driver_main Q k (mkU _ g zf 0 (mkV V v m d), None).
Proof.
  intros Hd (P1 & P2 & P3 & P4) Hk. ustep_reg. ustep_reg. rewrite Hd.
  eapply ends_load; [reflexivity|by apply (ld_buf 0x800 8 (v_hdr_phys v + 2048) (v_hdr_phys v))|]. cbn [u_regs u_zf u_pc].
  eapply ends_load; [reflexivity|by apply (ld_buf 0x808 8 (v_hdr_phys v + 2056) lba)|]. cbn [u_regs u_zf u_pc].
  eapply ends_load; [reflexivity|by apply (ld_buf 0x810 8 (v_hdr_phys v + 2064) (v_qsize v))|]. cbn [u_regs u_zf u_pc].
  eapply ends_load; [reflexivity|by apply (ld_buf 0x818 8 (v_hdr_phys v + 2072) (Z.land (v_doorbell_phys v) 0xfff))|].
  cbn [u_regs u_zf u_pc]. replace (k - 1 - 1 - 1 - 1 - 1 - 1) with (k - 6) by lia. apply Hk.
  unfold param_regs. by rewrite !get_set_reg.
Qed.

(** A store of an immediate, or of a register known by [Ha], under a known RBP. *)
Ltac ustore Hp L :=
  eapply ends_storei; [reflexivity
  |unfold ea, reg_of; cbn [u_regs u_mem a_base a_index a_disp at_reg]; rewrite Hp; apply L; lia
  |cbn [u_regs u_zf u_pc]].
Ltac ustore_reg Hp Ha L :=
  eapply ends_store; [reflexivity
  |unfold ea, reg_of; cbn [u_regs u_mem a_base a_index a_disp at_reg]; rewrite Hp, Ha; apply L; lia
  |cbn [u_regs u_zf u_pc]].

Lemma driver_fills k g zf m d lba :
  param_regs lba g →
  (∀ g', param_regs lba g' →
     ends driver_main Q (k - 18) (mkU _ g' zf 24
       (mkV V v (header_ram v VIRTIO_BLK_T_IN lba (chain_ram v VIRTIO_BLK_T_IN true m)) d), None)) →
  ends driver_main Q k (mkU _ g zf 6 (mkV V v m d), None).
Proof.
  intros Hr Hk. destruct (id Hr) as (_ & Hp & H12 & H13 & _).
  assert (Hf : fits 52 (v_hdr_phys v)) by apply frames_of. unfold fits in Hf.
  assert (Hlea : ∀ g z pc mm o, get_reg g R12 = v_hdr_phys v → 0 <= o <= 1024 →
    ea (mkU (VState V) g z pc mm) (at_reg R12 o) = v_hdr_phys v + o).
  { intros g0 z pc mm o E Ho. unfold ea, reg_of. cbn [u_regs a_base a_index a_disp at_reg]. rewrite E, Z.add_0_r.
    apply wrap_id. unfold fits. lia. }
  ustore_reg Hp H12 (st_desc 0 8 (v_hdr_phys v) (v_desc_phys v)).
  ustore Hp (st_desc 8 4 16 (v_desc_phys v + 8)). ustore Hp (st_desc 12 2 1 (v_desc_phys v + 12)).
  ustore Hp (st_desc 14 2 1 (v_desc_phys v + 14)).
  ustep_reg. rewrite Hlea by (done || lia).
  set (g1 := set_reg g RAX _). assert (Hp1 : get_reg g1 RBP = DQ_BASE) by (unfold g1; by rewrite get_set_reg).
  assert (Ha1 : get_reg g1 RAX = v_hdr_phys v + 512) by (unfold g1; by rewrite get_set_reg).
  ustore_reg Hp1 Ha1 (st_desc 16 8 (v_hdr_phys v + 512) (v_desc_phys v + 16)).
  ustore Hp1 (st_desc 24 4 512 (v_desc_phys v + 24)). ustore Hp1 (st_desc 28 2 3 (v_desc_phys v + 28)).
  ustore Hp1 (st_desc 30 2 2 (v_desc_phys v + 30)).
  ustep_reg. rewrite Hlea by ((unfold g1; by rewrite get_set_reg) || lia).
  set (g2 := set_reg g1 RAX _). assert (Hp2 : get_reg g2 RBP = DQ_BASE) by (unfold g2; by rewrite get_set_reg).
  assert (Ha2 : get_reg g2 RAX = v_hdr_phys v + 1024) by (unfold g2; by rewrite get_set_reg).
  assert (Hr2 : param_regs lba g2) by (by do 2 (apply param_regs_set; [set_solver|])).
  ustore_reg Hp2 Ha2 (st_desc 32 8 (v_hdr_phys v + 1024) (v_desc_phys v + 32)).
  ustore Hp2 (st_desc 40 4 1 (v_desc_phys v + 40)). ustore Hp2 (st_desc 44 2 2 (v_desc_phys v + 44)).
  ustore Hp2 (st_desc 46 2 0 (v_desc_phys v + 46)).
  ustore Hp2 (st_buf 0 4 0 (v_hdr_phys v)). ustore Hp2 (st_buf 4 4 0 (v_hdr_phys v + 4)).
  ustore_reg Hp2 (proj1 (proj2 (proj2 (proj2 Hr2)))) (st_buf 8 8 lba (v_hdr_phys v + 8)).
  ustore Hp2 (st_buf 1024 1 0xff (v_hdr_phys v + 1024)).
  eapply reaches_mono; [apply (Hk g2 Hr2)|lia].
Qed.

Lemma le_split_wrap n x : le_split n (wrap (8 * Z.of_nat n) x) = le_split n x.
Proof.
  revert x. induction n as [|n IH]; intros x; [done|]. cbn [le_split].
  assert (E : 2 ^ (8 * Z.of_nat (S n)) = 256 * 2 ^ (8 * Z.of_nat n)).
  { rewrite Nat2Z.inj_succ. replace (8 * Z.succ (Z.of_nat n)) with (8 + 8 * Z.of_nat n) by lia. by rewrite Z.pow_add_r by lia. }
  assert (Hpos : 0 < 2 ^ (8 * Z.of_nat n)) by (apply Z.pow_pos_nonneg; lia).
  unfold wrap in *. rewrite E, Z.rem_mul_r by lia. f_equal.
  - rewrite (Z.mul_comm 256), Z.mod_add by lia. by rewrite Z.mod_mod.
  - rewrite <- (IH (x / 256)). f_equal. rewrite (Z.mul_comm 256), Z.div_add by lia.
    rewrite (Z.div_small (x mod 256)) by (apply Z.mod_pos_bound; lia). lia.
Qed.

Context (Hdb : fits 52 (v_doorbell_phys v)) (Hdo : Z.land (v_doorbell_phys v) 0xfff <= 4094).

Lemma st_doorbell x m d :
  vd_mmio (v_doorbell_phys v) = true →
  um_store (mkV V v m d) (DQ_BASE + 0x4000 + Z.land (v_doorbell_phys v) 0xfff) 2 x =
  Some (mkV V v m (vd_write d (v_doorbell_phys v) 2 x)).
Proof.
  intros Hmm. destruct (granted_page p v mgc scratch Hgr (DQ_BASE + 0x4000) (v_doorbell_phys v) true true) as (e & He & Hgt);
    [set_solver|]. unfold fits in Hdb.
  assert (Ho : Z.land (v_doorbell_phys v) 0xfff = v_doorbell_phys v mod 4096).
  { change 0xfff with (Z.ones 12). by rewrite Z.land_ones. }
  pose proof (Z.mod_pos_bound (v_doorbell_phys v) 4096 ltac:(lia)).
  cbn [um_store um dq_mem]. unfold dq_store.
  rewrite (user_phys_page p (DQ_BASE + 0x4000) _ 2 true e (v_doorbell_phys v) true true) by (done || lia).
  assert (E : page_of (v_doorbell_phys v) + Z.land (v_doorbell_phys v) 0xfff = v_doorbell_phys v).
  { rewrite Ho, page_of_div by (unfold fits; lia). pose proof (Z.div_mod (v_doorbell_phys v) 4096 ltac:(lia)). lia. }
  rewrite E. unfold vwrite. replace (hhdm + v_doorbell_phys v - hhdm) with (v_doorbell_phys v) by lia. by rewrite Hmm.
Qed.

(** The index arithmetic: the slot by [div], then the next index. *)
Lemma driver_slot k g zf m d lba :
  param_regs lba g → fits 16 i → avail_idx m (queue_of v) = i →
  (∀ g' zf', param_regs lba g' → get_reg g' RCX = i → get_reg g' R9 = i mod v_qsize v →
     ends driver_main Q (k - 5) (mkU _ g' zf' 29 (mkV V v m d), None)) →
  ends driver_main Q k (mkU _ g zf 24 (mkV V v m d), None).
Proof.
  intros Hr Hi Hidx Hk. destruct (id Hr) as (_ & Hp & _ & _ & H14 & _).
  pose proof (ge_size _ _ Hg) as Hq. unfold fits in Hi. change (2 ^ 16) with 65536 in Hi.
  assert (Hslot : 0 <= i mod v_qsize v < v_qsize v) by (apply Z.mod_pos_bound; lia).
  assert (Hquo : 0 <= i / v_qsize v <= i) by (split; [apply Z.div_pos; lia|apply Z.div_le_upper_bound; nia]).
  eapply ends_load; [reflexivity| |].
  { unfold ea, reg_of. cbn [u_regs u_mem a_base a_index a_disp at_reg]. rewrite Hp.
    apply (ld_avail 2 2 (v_avail_phys v + 2) i); [done|exact Hidx|lia..]. }
  cbn [u_regs u_zf u_pc]. ustep_reg. rewrite get_set_reg, decide_True by done.
  rewrite (wrap_id 32 i) by (unfold fits; lia). ustep_reg.
  set (g3 := set_reg _ RDX 0). assert (Ea : get_reg g3 RAX = i) by (unfold g3; by rewrite !get_set_reg).
  assert (E14 : get_reg g3 R14 = v_qsize v) by (unfold g3; by rewrite !get_set_reg).
  assert (Ed : get_reg g3 RDX = 0) by (unfold g3; by rewrite !get_set_reg).
  eapply ends_step; [reflexivity| |].
  { unfold uexec, reg_of. cbn [u_regs u_zf u_pc u_mem]. rewrite Ea, E14, Ed.
    rewrite (wrap_id 16 (v_qsize v)), (wrap_id 16 i), (wrap_id 16 0) by (unfold fits; lia).
    rewrite Z.mul_0_l, Z.add_0_l. rewrite (proj2 (Z.eqb_neq (v_qsize v) 0)), (proj2 (Z.leb_gt (2 ^ 16) (i / v_qsize v))) by lia.
    cbn [orb]. unfold low16. rewrite (wrap_id 16 i), (wrap_id 16 0) by (unfold fits; lia).
    rewrite !Z.sub_diag, !Z.add_0_l. reflexivity. }
  ustep_reg. rewrite get_set_reg, decide_True by done. rewrite (wrap_id 16 (i mod v_qsize v)) by (unfold fits; lia).
  replace (k - 1 - 1 - 1 - 1 - 1) with (k - 5) by lia. apply Hk.
  - unfold g3. by repeat (apply param_regs_set; [set_solver|]).
  - unfold g3. by rewrite !get_set_reg.
  - by rewrite get_set_reg.
Qed.

(** The entry, the index, the doorbell and the bound of the poll. *)
Lemma driver_rings k g zf m d lba :
  param_regs lba g → fits 16 i → get_reg g RCX = i → get_reg g R9 = i mod v_qsize v →
  vd_mmio (v_doorbell_phys v) = true →
  (∀ g' zf', poll_regs g' DRIVER_POLLS →
     ends driver_main Q (k - 7) (mkU _ g' zf' driver_poll
       (mkV V v (avail_ram_at v i m) (vd_write d (v_doorbell_phys v) 2 0)), None)) →
  ends driver_main Q k (mkU _ g zf 29 (mkV V v m d), None).
Proof.
  intros Hr Hi Hc H9 Hmm Hk. destruct (id Hr) as (Hb & Hp & _ & _ & _ & H15).
  pose proof (ge_size _ _ Hg) as Hq. unfold fits in Hi. change (2 ^ 16) with 65536 in Hi.
  assert (Hslot : 0 <= i mod v_qsize v < v_qsize v) by (apply Z.mod_pos_bound; lia).
  assert (Hoff : 0 <= Z.land (v_doorbell_phys v) 0xfff) by (apply Z.land_nonneg; lia).
  eapply ends_storei; [reflexivity| |cbn [u_regs u_zf u_pc]].
  { unfold ea, reg_of. cbn [u_regs u_mem a_base a_index a_disp]. rewrite Hp, H9.
    rewrite wrap_id by (unfold fits, DQ_BASE; lia).
    replace (DQ_BASE + i mod v_qsize v * 2 + 0x1004) with (DQ_BASE + 0x1000 + (4 + 2 * (i mod v_qsize v))) by lia.
    apply (st_avail _ 2 0 (v_avail_phys v + 4 + 2 * (i mod v_qsize v))); lia. }
  ustep_reg. unfold ea, reg_of. cbn [u_regs a_base a_index a_disp at_reg]. rewrite Hc, Z.add_0_r.
  rewrite (wrap_id 64 (i + 1)), (wrap_id 32 (i + 1)) by (unfold fits; lia).
  set (g1 := set_reg g RAX (i + 1)). assert (Hp1 : get_reg g1 RBP = DQ_BASE) by (unfold g1; by rewrite get_set_reg).
  assert (Ha1 : get_reg g1 RAX = i + 1) by (unfold g1; by rewrite get_set_reg).
  ustore_reg Hp1 Ha1 (st_avail 2 2 (i + 1) (v_avail_phys v + 2)).
  ustep_reg. rewrite Ha1, (wrap_id 32 (i + 1)) by (unfold fits; lia).
  ustep_reg. unfold ea, reg_of. cbn [u_regs a_base a_index a_disp].
  set (g2 := set_reg g1 RCX (i + 1)).
  assert (E2 : get_reg g2 RBP = DQ_BASE ∧ get_reg g2 R15 = Z.land (v_doorbell_phys v) 0xfff)
    by (unfold g2, g1; by rewrite !get_set_reg).
  rewrite (proj1 E2), (proj2 E2), Z.mul_1_r, wrap_id by (unfold fits, DQ_BASE; lia).
  set (g3 := set_reg g2 R10 _).
  eapply ends_storei; [reflexivity| |cbn [u_regs u_zf u_pc]].
  { unfold ea, reg_of. cbn [u_regs u_mem a_base a_index a_disp at_reg]. unfold g3.
    rewrite get_set_reg, decide_True, !Z.add_0_r by done. rewrite wrap_id by (unfold fits, DQ_BASE; lia).
    replace (DQ_BASE + Z.land (v_doorbell_phys v) 0xfff + 0x4000)
      with (DQ_BASE + 0x4000 + Z.land (v_doorbell_phys v) 0xfff) by lia. by apply st_doorbell. }
  ustep_reg. replace (k - 1 - 1 - 1 - 1 - 1 - 1 - 1) with (k - 7) by lia.
  unfold wr_le at 1. rewrite <- (le_split_wrap 2 (i + 1)).
  apply Hk. unfold poll_regs, g3, g2, g1. by rewrite !get_set_reg.
Qed.

(** From the entry to the poll. *)
Lemma driver_publishes k g zf m d lba :
  get_reg g RDI = cptr → dq_params lba m → fits 16 i → avail_idx m (queue_of v) = i →
  vd_mmio (v_doorbell_phys v) = true →
  (∀ g' zf', poll_regs g' DRIVER_POLLS →
     ends driver_main Q (k - 36) (mkU _ g' zf' driver_poll
       (mkV V v (driver_ram lba m) (vd_write d (v_doorbell_phys v) 2 0)), None)) →
  ends driver_main Q k (mkU _ g zf 0 (mkV V v m d), None).
Proof.
  intros Hd Hpar Hi Hidx Hmm Hk. apply (driver_loads _ _ _ _ _ lba Hd Hpar). intros g1 R1.
  apply (driver_fills _ _ _ _ _ lba R1). intros g2 R2. set (m1 := header_ram _ _ _ _).
  apply (driver_slot _ _ _ _ _ lba R2 Hi).
  { rewrite <- Hidx. unfold avail_idx. apply rd_bytes_ext. intros x Hx. cbn [queue_of vq_avail] in Hx.
    pose proof (ge_da _ _ Hg). pose proof (ge_ah _ _ Hg). unfold apart in *.
    unfold m1. by rewrite header_ram_out, chain_ram_out by lia. }
  intros g3 z3 R3 C3 S3. apply (driver_rings _ _ _ _ _ lba R3 Hi C3 S3 Hmm). intros g4 z4 R4.
  replace (k - 6 - 18 - 5 - 7) with (k - 36) by lia. by apply Hk.
Qed.

(** The driver publishes the kernel's request: only the order of the writes differs. *)
Lemma wr_le_local m1 m2 a n x b : m1 b = m2 b → wr_le m1 a n x b = wr_le m2 a n x b.
Proof. intros E. unfold wr_le, wr_bytes. by destruct (_ && _). Qed.
Lemma chain_ram_local ty hd m1 m2 a : m1 a = m2 a → chain_ram v ty hd m1 a = chain_ram v ty hd m2 a.
Proof. intros E. unfold chain_ram. destruct hd; by repeat apply wr_le_local. Qed.
Lemma header_ram_local ty lba m1 m2 a : m1 a = m2 a → header_ram v ty lba m1 a = header_ram v ty lba m2 a.
Proof. intros E. by repeat apply wr_le_local. Qed.

Lemma driver_ram_staged lba m a : driver_ram lba m a = staged_ram v VIRTIO_BLK_T_IN lba true i m a.
Proof.
  unfold driver_ram, staged_ram, avail_ram_at. do 2 apply wr_le_local.
  pose proof (ge_dh _ _ Hg) as Hdh. unfold apart in Hdh.
  destruct (decide (v_desc_phys v <= a < v_desc_phys v + 48)) as [Hin|Hout].
  - rewrite header_ram_out by lia. apply chain_ram_local. by rewrite header_ram_out by lia.
  - rewrite chain_ram_out by done. apply header_ram_local. by rewrite chain_ram_out.
Qed.

(** The whole loop, over the request published at the doorbell. *)
Context `{!VirtioLaws V} (lba : Z) (d0 : V) (m0 : Z → Z).
Context (Hi : fits 16 i) (Hq0 : vd_queue d0 = Some (queue_of v)) (Hl0 : vd_last d0 = i).
Context (Hu0 : used_idx m0 (queue_of v) = i) (Hp0 : published v VIRTIO_BLK_T_IN lba true i m0).

Lemma read_req_ok : req_ok (request_of v VIRTIO_BLK_T_IN lba true).
Proof. left. split; [done|]. by eexists. Qed.

Definition still_pending (d : V) (m : Z → Z) : Prop := pending v VIRTIO_BLK_T_IN lba true i d0 m0 d m.
Definition has_completed (d : V) (m : Z → Z) : Prop := completed v VIRTIO_BLK_T_IN lba true i d0 m0 d m.

Lemma poll_step d m d' m' :
  still_pending d m → vd_poll d m = (d', m') →
  still_pending d' m' ∧ used_idx m' (queue_of v) ≠ wrap 16 (i + 1) ∨
  has_completed d' m' ∧ used_idx m' (queue_of v) = wrap 16 (i + 1).
Proof.
  intros Hpe Hp. pose proof (next_ne _ _ _ _ _ _ _ Hi Hl0 Hu0 Hp0) as Hne.
  destruct (device_step hhdm v _ lba true i d0 m0 Hg read_req_ok Hi Hq0 Hp0 d m d' m' Hpe Hp) as [Hpe'|Hco].
  - left. split; [done|]. destruct Hpe' as (_ & _ & ->). congruence.
  - right. split; [done|]. apply Hco.
Qed.

Lemma used_fits d m : still_pending d m ∨ has_completed d m → fits 16 (used_idx m (queue_of v)).
Proof. intros [(_ & _ & ->)|(_ & _ & -> & _)]; [done|]. apply fits_wrap. lia. Qed.

Lemma driver_polls k g zf m d j :
  poll_regs g j → 1 <= j <= DRIVER_POLLS → 6 * j <= k → still_pending d m →
  (∀ g' zf' m' d' j' k', poll_regs g' j' → still_pending d' m' ∨ has_completed d' m' → k - 6 * j <= k' →
     ends driver_main Q k' (mkU _ g' zf' driver_done (mkV V v m' d'), None)) →
  ends driver_main Q k (mkU _ g zf driver_poll (mkV V v m d), None).
Proof.
  intros Hr Hj Hk Hpe Hend.
  assert (Hex : ∃ n, j = Z.of_nat n + 1) by (exists (Z.to_nat (j - 1)); lia). destruct Hex as [n Hn].
  revert k g zf m d j Hn Hr Hj Hk Hpe Hend.
  induction n as [|n IH]; intros k g zf m d j Hn Hr Hj Hk Hpe Hend;
    destruct (vd_poll d m) as [d' m'] eqn:Hp; pose proof (poll_step d m d' m' Hpe Hp) as Hst;
    (eapply driver_poll_round; [exact Hr|lia|exact Hp|apply (used_fits d'); tauto| |]); intros g' zf' Hu Hr'.
  - apply (Hend _ _ _ _ j); [done|tauto|lia].
  - rewrite (proj2 (Z.eqb_eq j 1)) by lia. apply (Hend _ _ _ _ (j - 1)); [done|tauto|lia].
  - apply (Hend _ _ _ _ j); [done|tauto|lia].
  - rewrite (proj2 (Z.eqb_neq j 1)) by lia. apply (IH _ _ _ _ _ (j - 1)); [lia|done|lia|lia|tauto|].
    intros g2 zf2 m2 d2 j2 k2 R2 S2 K2. apply (Hend _ _ _ _ j2); [done|done|lia].
Qed.

(** A device that answers completes the request before the driver gives up. *)
Lemma driver_polls_live `{!VirtioResponsive V} k g zf m d j :
  poll_regs g j → vd_rank d m < j <= DRIVER_POLLS → 6 * j <= k → still_pending d m →
  (∀ g' zf' m' d' j' k', poll_regs g' j' → has_completed d' m' → m' (v_hdr_phys v + 1024) = 0 → k - 6 * j <= k' →
     ends driver_main Q k' (mkU _ g' zf' driver_done (mkV V v m' d'), None)) →
  ends driver_main Q k (mkU _ g zf driver_poll (mkV V v m d), None).
Proof.
  intros Hr Hj Hk Hpe Hend.
  assert (Hrank : ∀ d m, still_pending d m → 0 <= vd_rank d m <= POLL_BOUND)
    by (intros d1 m1; by apply (pending_rank hhdm v _ lba true i d0 m0 Hg read_req_ok Hi Hq0 Hp0)).
  pose proof (Hrank d m Hpe) as Hrk.
  assert (Hex : ∃ n, j = Z.of_nat n + 1) by (exists (Z.to_nat (j - 1)); lia). destruct Hex as [n Hn].
  revert k g zf m d j Hn Hr Hj Hk Hpe Hend Hrk.
  induction n as [|n IH]; intros k g zf m d j Hn Hr Hj Hk Hpe Hend Hrk;
    destruct (vd_poll d m) as [d' m'] eqn:Hp; pose proof (poll_step d m d' m' Hpe Hp) as Hst;
    destruct (pending_req hhdm v _ lba true i d0 m0 Hg Hi Hq0 Hp0 d m Hpe) as (R1 & R2 & R3);
    destruct (vd_rank_law d m _ _ d' m' R1 R2 R3 read_req_ok
      (request_placed hhdm v _ lba true i m0 Hg read_req_ok Hp0) Hp) as [_ Hdec];
    pose proof (next_ne _ _ _ _ _ _ _ Hi Hl0 Hu0 Hp0) as Hne; rewrite (proj1 (proj2 Hpe)) in Hdec;
    (eapply driver_poll_round; [exact Hr|lia|exact Hp|apply (used_fits d'); tauto| |]); intros g' zf' Hu Hr';
    destruct Hst as [[Hs1 Hs2]|[Hs1 Hs2]]; try done.
  - apply (Hend _ _ _ _ j); [done|done| |lia]. destruct Hdec as [[E _]|[_ E]]; [|exact E].
    exfalso. rewrite (proj1 (proj2 Hs1)) in E. congruence.
  - exfalso. destruct Hdec as [[_ E]|[E _]]; [pose proof (Hrank d' m' Hs1); lia|].
    rewrite (proj1 (proj2 Hs1)) in E. congruence.
  - apply (Hend _ _ _ _ j); [done|done| |lia]. destruct Hdec as [[E _]|[_ E]]; [|exact E].
    exfalso. rewrite (proj1 (proj2 Hs1)) in E. congruence.
  - rewrite (proj2 (Z.eqb_neq j 1)) by lia. destruct Hdec as [[_ E]|[E _]].
    2:{ rewrite (proj1 (proj2 Hs1)) in E. congruence. }
    apply (IH _ _ _ _ _ (j - 1)); [lia|done|lia|lia|done| |by apply Hrank].
    intros g2 zf2 m2 d2 j2 k2 RR2 S2 T2 K2. apply (Hend _ _ _ _ j2); [done|done|done|lia].
Qed.
End polls.
End driver_run.

(** ** The driver's correctness *)

Section driver_spec.
Context {V : Type} `{VirtioDev V} `{!VirtioLaws V}.
Variable (hhdm : Z) (p : PState).
Implicit Types (s : VState V).

(** What [DQ_MAP] and the kernel's preparation give the driver. *)
Record driver_ready s (mgc lba : Z) : Prop := {
  dr_idle : idle hhdm s;
  dr_granted : dq_granted p (vb s) mgc lba;
  dr_frames : Forall frame_addr
    [v_desc_phys (vb s); v_avail_phys (vb s); v_used_phys (vb s); v_hdr_phys (vb s)];
  dr_doorbell : v_doorbell_phys (vb s) = vd_doorbell (vdev s);
  dr_doorbell_fits : fits 52 (v_doorbell_phys (vb s)) ∧ Z.land (v_doorbell_phys (vb s)) 0xfff <= 4094;
  dr_params : dq_params (vb s) lba (ram s);
  dr_lba : fits 64 lba;
}.

Definition DRIVER_STEPS : positive := 600000044.
Definition driver_run s (g : Regs) (zf : bool) : UState (VState V) * option ustop :=
  @urun _ (dq_mem hhdm p) driver_main DRIVER_STEPS (mkU _ g zf 0 s).

(** The request the driver leaves to the device is the kernel's. *)
Definition kernel_request s lba : Z → Z := ram (stage hhdm s VIRTIO_BLK_T_IN lba true).

(** What holds of RAM and device at the report. *)
Record reported s (lba : Z) (m : Z → Z) (d : V) (m0 : Z → Z) : Prop := {
  re_request a : m0 a = kernel_request s lba a;
  re_work : blk_work (queue_of (vb s)) (request_of (vb s) VIRTIO_BLK_T_IN lba true)
    (vd_write (vdev s) (vd_doorbell (vdev s)) 2 0) m0 d m;
  re_view l : vd_view d l = vd_view (vdev s) l;
}.
(** The device has served the request, with status 0. *)
Definition served s (lba : Z) (m : Z → Z) (d : V) : Prop :=
  idle hhdm (mkV V (vb s) m d) ∧
  (m (v_hdr_phys (vb s) + 1024) = 0 →
   rd_le m (v_hdr_phys (vb s) + 512) 8 = le_val (take 8 (vd_view (vdev s) lba))).

Lemma vstate_eta s : mkV V (vb s) (ram s) (vdev s) = s.
Proof. by destruct s. Qed.

Section ready.
Context (s : VState V) (mgc lba cptr : Z) (g : Regs) (zf : bool).
Context (Hrdy : driver_ready s mgc lba) (Hrdi : get_reg g RDI = cptr).
Let v := vb s.
Let i := vd_last (vdev s).
Let d0 := vd_write (vdev s) (vd_doorbell (vdev s)) 2 0.
Let m0 := driver_ram v i lba (ram s).

Lemma ready_published : published v VIRTIO_BLK_T_IN lba true i m0.
Proof.
  destruct Hrdy as [[Hg Hq Hd Hl Ha Hu Hc] _ _ _ _ _ Hlba].
  eapply (published_frame hhdm); [exact Hg|apply Hl| |by apply (staged_published hhdm)].
  intros a _. by apply (driver_ram_staged hhdm).
Qed.

Lemma ready_device : fits 16 i ∧ vd_queue d0 = Some (queue_of v) ∧ vd_last d0 = i ∧ used_idx m0 (queue_of v) = i.
Proof.
  destruct Hrdy as [[Hg Hq Hd Hl Ha Hu Hc] _ _ _ _ _ _].
  destruct (vd_doorbell_law (vdev s)) as (_ & Q1 & Q2 & _). split; [done|]. split; [by unfold d0; rewrite Q1|].
  split; [done|]. transitivity (used_idx (ram s) (queue_of v)); [|exact Hu].
  rewrite <- (staged_used hhdm v VIRTIO_BLK_T_IN lba true i (ram s) Hg).
  unfold used_idx. apply rd_bytes_ext. intros a _. by apply (driver_ram_staged hhdm).
Qed.

Lemma ready_reported m d :
  blk_work (queue_of v) (request_of v VIRTIO_BLK_T_IN lba true) d0 m0 d m → reported s lba m d m0.
Proof.
  intros Hw. destruct Hrdy as [[Hg Hq Hd Hl Ha Hu Hc] _ _ _ _ _ _]. split; [|done|].
  - intros a. unfold kernel_request. rewrite <- (vstate_eta s) at 1. rewrite (stage_eq hhdm) by done. cbn [ram].
    rewrite Ha. by apply (driver_ram_staged hhdm).
  - intros l. pose proof (work_effect _ _ _ _ _ _ _ Hw eq_refl) as He.
    by refine (proj1 (effect_none _ _ _ _ _ He) l).
Qed.

Lemma ready_served m d :
  completed v VIRTIO_BLK_T_IN lba true i d0 m0 d m → served s lba m d.
Proof.
  intros Hc. split.
  { by apply (completed_idle hhdm s VIRTIO_BLK_T_IN lba true m0); [apply Hrdy|apply ready_published|]. }
  intros Hst. destruct Hc as (Hw & _ & _ & Hs). destruct (Hs Hst) as [Hread _]. specialize (Hread eq_refl).
  rewrite <- (re_view _ _ _ _ _ (ready_reported m d Hw) lba). cbn [request_of rq_sector] in Hread. rewrite <- Hread.
  unfold rd_le. by f_equal.
Qed.

(** The end of a run of [driver_main]. *)
Definition driver_ends (P : (Z → Z) → V → Prop) (x : UState (VState V) * option ustop) : Prop :=
  ∃ m d, x.2 = Some AtSyscall ∧ report_call v cptr x.1 m d ∧ reported s lba m d m0 ∧ P m d.

Lemma driver_start k P :
  36 <= k → (∀ g' zf', poll_regs cptr i g' DRIVER_POLLS →
    @ends _ (dq_mem hhdm p) driver_main (driver_ends P) (k - 36) (mkU _ g' zf' driver_poll (mkV V v m0 d0), None)) →
  @ends _ (dq_mem hhdm p) driver_main (driver_ends P) k (mkU _ g zf 0 s, None).
Proof.
  intros Hk Hend. rewrite <- (vstate_eta s). destruct Hrdy as [[Hg Hq Hd Hl Ha Hu Hc] Hgr Hfr Hdb [D1 D2] Hpar Hlba].
  apply (driver_publishes hhdm p v mgc lba Hgr Hg Hfr cptr i (driver_ends P) D1 D2 _ _ _ _ _ lba); try done.
  - fold v in Hdb. rewrite Hdb. apply vd_doorbell_law.
  - intros g' zf' Hr. fold v in Hdb. rewrite Hdb. by apply Hend.
Qed.
End ready.

(** C10: the zero-system-call block driver. Given its queue's pages and parameters, [driver_main]
    runs without fault to exactly one system call, the report of the first word of the
    sector through its own capability. The request it left in RAM is, byte for byte, the
    one [submit] would have published; all that happened since is the device's work on
    that request, and no sector has changed. If the driver saw the request completed, the
    queue is idle again, and with status 0 the word reported is the sector's first. *)
Theorem driver_main_spec s mgc lba cptr g zf :
  driver_ready s mgc lba → get_reg g RDI = cptr →
  let '(u, st) := driver_run s g zf in
  st = Some AtSyscall ∧ ∃ m d m0, report_call (vb s) cptr u m d ∧ reported s lba m d m0 ∧
    (used_idx m (queue_of (vb s)) = vd_last (vdev s) ∨ served s lba m d).
Proof.
  intros Hrdy Hrdi. destruct (ready_device s mgc lba Hrdy) as (Hi & Hq0 & Hl0 & Hu0).
  pose proof (ready_published s mgc lba Hrdy) as Hp0.
  set (P := λ m d, used_idx m (queue_of (vb s)) = vd_last (vdev s) ∨ served s lba m d).
  assert (Hends : @ends _ (dq_mem hhdm p) driver_main (driver_ends s lba cptr P) (Zpos DRIVER_STEPS) (mkU _ g zf 0 s, None)).
  { apply (driver_start s mgc lba cptr g zf Hrdy Hrdi); [done|]. intros g' zf' Hr.
    destruct (id Hrdy) as [Hid Hgr Hfr _ _ _ _]. pose proof (id_geometry _ _ Hid) as Hg.
    apply (driver_polls hhdm p _ mgc lba Hgr Hg Hfr cptr _ _ lba _ _ Hi Hq0 Hl0 Hu0 Hp0 _ _ _ _ _ DRIVER_POLLS Hr);
      [unfold DRIVER_POLLS; lia|unfold DRIVER_POLLS, DRIVER_STEPS; lia|split; [apply blk_work_refl|done]|].
    intros g2 z2 m d j2 k2 R2 Hst K2. apply (driver_report hhdm p _ mgc lba Hgr Hg Hfr cptr _ _ _ _ _ _ _ _ R2);
      [unfold DRIVER_POLLS, DRIVER_STEPS in K2; lia|]. intros u Hu. exists m, d. split; [done|]. split; [done|].
    split; [apply (ready_reported s mgc lba Hrdy); by destruct Hst as [Hst|Hst]; apply Hst|].
    destruct Hst as [Hst|Hst]; [left; apply Hst|right; by apply (ready_served s mgc lba Hrdy)]. }
  apply (while_pos_ends _ _ _ DRIVER_STEPS) in Hends as [_ Hq]; [|done].
  unfold driver_run, urun. destruct (while_pos _ _ _ _) as [u st]. destruct Hq as (m & d & E & C & R & HP). eauto 10.
Qed.

(** With a device that answers, the driver reports the first word of its sector, and
    leaves the queue idle. *)
Theorem driver_reads_sector `{!VirtioResponsive V} s mgc lba cptr g zf :
  driver_ready s mgc lba → get_reg g RDI = cptr →
  let '(u, st) := driver_run s g zf in
  st = Some AtSyscall ∧ ∃ m d, report_call (vb s) cptr u m d ∧ idle hhdm (mkV V (vb s) m d) ∧
    (∀ l, vd_view d l = vd_view (vdev s) l) ∧ reg_of u RDX = le_val (take 8 (vd_view (vdev s) lba)).
Proof.
  intros Hrdy Hrdi. destruct (ready_device s mgc lba Hrdy) as (Hi & Hq0 & Hl0 & Hu0).
  pose proof (ready_published s mgc lba Hrdy) as Hp0.
  set (P := λ m d, served s lba m d ∧ m (v_hdr_phys (vb s) + 1024) = 0).
  assert (Hends : @ends _ (dq_mem hhdm p) driver_main (driver_ends s lba cptr P) (Zpos DRIVER_STEPS) (mkU _ g zf 0 s, None)).
  { apply (driver_start s mgc lba cptr g zf Hrdy Hrdi); [done|]. intros g' zf' Hr.
    destruct (id Hrdy) as [Hid Hgr Hfr _ _ _ _]. pose proof (id_geometry _ _ Hid) as Hg.
    assert (Hpe : still_pending (vb s) (vd_last (vdev s)) lba (vd_write (vdev s) (vd_doorbell (vdev s)) 2 0)
      (driver_ram (vb s) (vd_last (vdev s)) lba (ram s)) (vd_write (vdev s) (vd_doorbell (vdev s)) 2 0)
      (driver_ram (vb s) (vd_last (vdev s)) lba (ram s))) by (split; [apply blk_work_refl|done]).
    pose proof (pending_rank hhdm (vb s) _ lba true _ _ _ Hg (read_req_ok (vb s) lba) Hi Hq0 Hp0 _ _ Hpe) as Hrk.
    apply (driver_polls_live hhdm p _ mgc lba Hgr Hg Hfr cptr _ _ lba _ _ Hi Hq0 Hl0 Hu0 Hp0 _ _ _ _ _ DRIVER_POLLS Hr);
      [unfold DRIVER_POLLS, POLL_BOUND in *; lia|unfold DRIVER_POLLS, DRIVER_STEPS; lia|done|].
    intros g2 z2 m d j2 k2 R2 Hst H0 K2. apply (driver_report hhdm p _ mgc lba Hgr Hg Hfr cptr _ _ _ _ _ _ _ _ R2);
      [unfold DRIVER_POLLS, DRIVER_STEPS in K2; lia|]. intros u Hu. exists m, d. split; [done|]. split; [done|].
    split; [apply (ready_reported s mgc lba Hrdy), Hst|]. split; [by apply (ready_served s mgc lba Hrdy)|done]. }
  apply (while_pos_ends _ _ _ DRIVER_STEPS) in Hends as [_ Hq]; [|done].
  unfold driver_run, urun. destruct (while_pos _ _ _ _) as [u st]. destruct Hq as (m & d & E & C & R & [S1 S2] & S3).
  split; [done|]. exists m, d. split; [done|]. split; [done|]. split; [apply R|].
  destruct C as (_ & _ & _ & _ & E4 & _). cbn [fst] in E4. rewrite E4. by apply S2.
Qed.
End driver_spec.

(** ** What [DQ_MAP] grants *)

Section dq_map.
Context `{Bitflags} `{MapperLaws} {D : Type} `{BlockDev D}.
Implicit Types (k : KState D).

Definition page_granted (p : PState) (pg : Z * Z * bool * bool) : Prop :=
  ∃ e, translate p pg.1.1.1 = Some e ∧ grants e pg.1.1.2 pg.1.2 false pg.2.

Lemma map_pages_grants k d pages k' :
  k_wf k → 0 <= d < MAX_DOMAINS → NoDup ((λ pg, pg.1.1.1) <$> pages) →
  Forall (λ pg, (pg.1.1.1 ∈ grant_vas) ∧ fits 52 pg.1.1.2) pages →
  map_pages k d pages = (k', true) →
  Forall (page_granted (pt k')) pages ∧
  ∀ va, va ∈ grant_vas → va ∉ ((λ pg, pg.1.1.1) <$> pages) → translate (pt k') va = translate (pt k) va.
Proof.
  revert k. induction pages as [|[[[va phys] w] nc] pages IH]; intros k Hk Hd Hnd Hpg Hm.
  { injection Hm as <-. split; [constructor|done]. }
  apply Forall_cons in Hpg as [[Hva Hph] Hpgs]. rewrite fmap_cons in Hnd. apply NoDup_cons in Hnd as [Hnew Hnd].
  cbn [map_pages] in Hm. simpl in Hva, Hph, Hnew.
  destruct (map_user_phys (pt k) (fa k) va phys w false nc) as [[p f] o] eqn:Hmap. destruct o; [|done].
  destruct (grant_page k d va phys w nc p f true Hk Hd Hva Hph Hmap) as [Hk' Hsub].
  destruct (map_user_phys_effect _ _ _ _ _ _ _ _ _ _ (kw_pt k Hk) Hph Hmap) as (_ & _ & Hoth & _ & e & He & Hge).
  assert (Hp : pt (record_domain_map (set_mem k f p) d va) = p).
  { unfold record_domain_map. destruct (_ <=? _); [done|]. by destruct (_ <? _). }
  destruct (IH _ Hk' Hd Hnd Hpgs Hm) as [Hall Hkeep]. rewrite Hp in Hkeep. split.
  - constructor; [|done]. exists e. cbn [fst snd]. by rewrite Hkeep.
  - intros va' Hin' Hn'. rewrite fmap_cons, not_elem_of_cons in Hn'. destruct Hn' as [N1 N2].
    rewrite Hkeep by done. apply Hoth. intros Hv. by apply N1, grant_vpn.
Qed.

(** A successful [DQ_MAP] gives the driver the five pages it works through. *)
Lemma devqueue_map_grants k d oid v mgc lba k' :
  k_wf k → 0 <= d < MAX_DOMAINS → 0 <= oid < OBJECT_TABLE_SIZE → (devqueues k).[oid] = dq_meta v mgc lba →
  devqueue_map k d oid = (k', (StOk, DQ_BASE)) → dq_granted (pt k') v mgc lba.
Proof.
  intros Hk Hd Ho Hm Hmap. unfold devqueue_map in Hmap. rewrite (proj2 (Z.leb_gt _ _)), Hm in Hmap by lia.
  destruct (_ =? 0); [done|]. destruct (map_pages k d _) as [k1 []] eqn:Hp; simplify_eq.
  assert (Hq := Forall_get _ _ _ oid (kw_dq k Hk) (kw_dqs k Hk) Ho). rewrite Hm in Hq. destruct Hq as (Q1 & Q2 & Q3 & Q4 & Q5).
  apply map_pages_grants in Hp as [Hall _]; [exact Hall|done|done|by apply (bool_decide_unpack _)|].
  unfold dq_pages. repeat (apply Forall_cons; split; [split; [set_solver|done]|]). done.
Qed.
End dq_map.

(** ** The programs without memory *)

Section protocols.
Context {W : Type} `{UserMem W}.
Implicit Types (u : UState W) (g : Regs).

(** The arguments of a system call: number, cptr, method, arg0, arg1, arg2, transfer. *)
Definition sys_args u : list Z := reg_of u <$> [RAX; RDI; RSI; RDX; R10; R8; R9].

(** The state in which a program stops at its next system call. *)
Definition next_call (prog : list uinstr) u : option (UState W) :=
  match urun prog 20 u with
  | (u, Some AtSyscall) => Some u
  | _ => None
  end.
(** Resumed with the registers [g]. *)
Definition resumed u g (zf : bool) : UState W := mkU W g zf (u_pc u) (u_mem u).

Definition calls (prog : list uinstr) u (args : list Z) (P : UState W → Prop) : Prop :=
  ∃ u', next_call prog u = Some u' ∧ u_mem u' = u_mem u ∧ sys_args u' = args ∧ P u'.

Ltac run_to_call :=
  match goal with |- calls ?prog ?u _ _ =>
    let r := eval vm_compute in (next_call prog u) in
    match r with Some ?x => exists x; split; [vm_compute; reflexivity|]; split; [reflexivity|]; split end
  end.

(** From any registers on entry, and whatever a system call returns in the registers it
    may change. The client sends its message with the capability in slot 1, then tries
    slot 1 again, then loops for ever. The server receives, invokes the capability it was
    given, and receives again on the same endpoint. The faulter allocates once and then
    executes an undefined instruction. *)
Theorem program_protocols g zf m c g1 z1 g2 z2 :
  get_reg g RDI = c → get_reg g2 RBX = c →
  let u0 := mkU W g zf 0 m in
  calls client_main u0 [1; c; E_SEND; 0xCA11; 0; 0; 1] (λ u1,
    calls client_main (resumed u1 g1 z1) [1; 1; M_ALLOC; 0; 0; 0; CPTR_NONE] (λ u2,
      ustep client_main (resumed u2 g2 z2, None) = (resumed u2 g2 z2, None))) ∧
  calls server_main u0 [1; c; E_RECV; 0; 0; 0; CPTR_NONE] (λ u1,
    calls server_main (resumed u1 g1 z1) [1; get_reg g1 RDX; M_ALLOC; 0; 0; 0; CPTR_NONE] (λ u2,
      calls server_main (resumed u2 g2 z2) [1; c; E_RECV; 0; 0; 0; CPTR_NONE] (λ u3, u_pc u3 = u_pc u1))) ∧
  calls faulter_main u0 [1; c; M_ALLOC; 0; 0; 0; CPTR_NONE] (λ u1,
    urun faulter_main 20 (resumed u1 g1 z1) = (resumed u1 g1 z1, Some AtUd2)).
Proof.
  intros Hc H2 u0. change (rdi g = c) in Hc. change (rbx g2 = c) in H2.
  subst u0. split; [|split].
  - run_to_call; [by rewrite <- Hc|]. run_to_call; [done|]. reflexivity.
  - run_to_call; [by rewrite <- Hc|]. run_to_call; [done|]. run_to_call; [by rewrite <- H2|]. reflexivity.
  - run_to_call; [by rewrite <- Hc|]. vm_compute. reflexivity.
Qed.
End protocols.

(** ** Instances *)

#[local] Existing Instance l1_mapper.
#[local] Existing Instance l1_mapper_laws.

(** A faulter's page at the address of the driver's rings. *)
Lemma setup_user_task_spec_witness :
  let r := setup_user_task demo_ps demo_fa 0x1000000 0x1001000 [0x0f; 0x0b] in
  r.2 = Some (0x1000000, 0x1002000) ∧ task_pages r.1.1 0x1000000 0x1001000 [0x0f; 0x0b].
Proof.
  cbv zeta. destruct (setup_user_task demo_ps demo_fa 0x1000000 0x1001000 [0x0f; 0x0b]) as [[p f] r] eqn:E.
  destruct (setup_user_task_spec demo_ps demo_fa 0x1000000 0x1001000 [0x0f; 0x0b] p f r demo_pt_wf) as (_ & _ & _ & Hr).
  - by vm_compute.
  - by repeat constructor.
  - by vm_compute.
  - intros g Hg%demo_fa_range. lia.
  - exact E.
  - assert (Er : r = Some (0x1000000, 0x1002000)).
    { transitivity (setup_user_task demo_ps demo_fa 0x1000000 0x1001000 [0x0f; 0x0b]).2; [by rewrite E|by vm_compute]. }
    split; [exact Er|]. rewrite Er in Hr. apply Hr.
Defined.

(** The demonstration disk of [VirtioDriver], its queue granted and its parameters set. *)
Definition demo_dq_pt : PState :=
  foldl (λ p pg, (map_user_phys p demo_fa pg.1.1.1 pg.1.1.2 pg.1.2 false pg.2).1.1) demo_ps (dq_pages (dq_meta demo_vb 7 5)).
Definition demo_dq_state : VState demo_disk :=
  mkV demo_disk demo_vb
    (wr_le (wr_le (wr_le (λ _, 0) 0x103800 8 0x103000) 0x103808 8 5) 0x103810 8 16)
    (mkDD (Some demo_queue) 0 (λ l, replicate 512 (l mod 256))).

Lemma demo_driver_ready : driver_ready demo_hhdm demo_dq_pt demo_dq_state 7 5.
Proof.
  split; [|by repeat constructor; eexists; (split; [by vm_compute|by repeat split])|by repeat constructor|done|done|by vm_compute|done].
  split; [apply demo_idle; done|done|done|by vm_compute|by vm_compute|by vm_compute|done].
Qed.

Definition demo_entry_regs : Regs := set_reg zero_regs RDI 0.

Lemma driver_main_spec_witness :
  (driver_run demo_hhdm demo_dq_pt demo_dq_state demo_entry_regs false).2 = Some AtSyscall ∧
  ∃ u m d m0, report_call demo_vb 0 u m d ∧ reported demo_hhdm demo_dq_state 5 m d m0.
Proof.
  pose proof (driver_main_spec demo_hhdm demo_dq_pt demo_dq_state 7 5 0 demo_entry_regs false demo_driver_ready eq_refl) as Hd.
  destruct (driver_run _ _ _ _ _) as [u st]. destruct Hd as (Hst & m & d & m0 & Hc & Hr & _).
  split; [exact Hst|]. exists u, m, d, m0. exact (conj Hc Hr).
Defined.

Lemma driver_reads_sector_witness :
  reg_of (driver_run demo_hhdm demo_dq_pt demo_dq_state demo_entry_regs false).1 RDX = 0x0505050505050505.
Proof.
  pose proof (driver_reads_sector demo_hhdm demo_dq_pt demo_dq_state 7 5 0 demo_entry_regs false demo_driver_ready eq_refl) as Hd.
  destruct (driver_run _ _ _ _ _) as [u st]. destruct Hd as (_ & m & d & _ & _ & _ & Hx). exact Hx.
Defined.

Lemma program_protocols_witness :
  calls (W := VState demo_disk) (H := dq_mem demo_hhdm demo_dq_pt) faulter_main (mkU _ demo_entry_regs false 0 demo_dq_state)
    [1; 0; M_ALLOC; 0; 0; 0; CPTR_NONE] (λ _, True).
Proof.
  destruct (@program_protocols _ (dq_mem demo_hhdm demo_dq_pt) demo_entry_regs false demo_dq_state 0 demo_entry_regs false
    demo_entry_regs false eq_refl eq_refl) as (_ & _ & u & H1 & H2 & H3 & _).
  exists u. exact (conj H1 (conj H2 (conj H3 I))).
Defined.
