(* ===== verification/Ipc.v ===== *)
(** * The client and the server, end to end ([kernel/src/user.rs] over the kernel)

    The two ring-3 programs of the IPC demonstration, each stopped at its system calls,
    and the kernel serving those calls: the message and the capability reach the server,
    the client's capability is gone, and the server's first use of it works. *)

From S2P Require Import Prelude Capability CapTable Authority FrameSpec Memory Paging Sched Context BlockDev ObjStore VirtioBlk VirtioDriver Capspace Kernel User.

Section ipc.
Context `{Bitflags} `{MapperLaws} {D : Type} `{BlockDev D} {W : Type} `{UserMem W}.
Implicit Types (k : Kern D) (s : KState D) (u : UState W) (g : Regs).

(** The kernel serves the call at which a program has stopped. *)
Definition serve k u (saved : Z) : Kern D * sys_result :=
  syscall_dispatch k (reg_of u RAX) (reg_of u RDI) (reg_of u RSI) (reg_of u RDX) (reg_of u R10) (reg_of u R8) (reg_of u R9) saved.

Lemma serve_args k u saved nr c m a0 a1 a2 x :
  sys_args u = [nr; c; m; a0; a1; a2; x] → serve k u saved = syscall_dispatch k nr c m a0 a1 a2 x saved.
Proof. unfold sys_args, serve. cbn. by intros [= -> -> -> -> -> -> ->]. Qed.

(** The running task holds in slot [c] an endpoint it may send and grant on, in slot 1 a
    Memory capability it may use and give away; a server of another domain, with room in
    its table, is parked on that endpoint. *)
Record ipc_ready k (c : Z) (ep mem : CapEntry) : Prop := {
  ir_inv : k_inv (ks k);
  ir_user : current (sch k) ≠ 0;
  ir_slot : 0 <= c;
  ir_ep : entry_at (table (ks k) (current_domain (ks k))) c = Some ep;
  ir_ep_valid : valid (objects (ks k)) ep;
  ir_ep_kind : type_tag ep = Kind.Endpoint;
  ir_ep_rights : submask Rights.INVOKE (rights ep) ∧ submask Rights.GRANT_CAP (rights ep);
  ir_mem : entry_at (table (ks k) (current_domain (ks k))) 1 = Some mem;
  ir_mem_valid : valid (objects (ks k)) mem;
  ir_mem_kind : type_tag mem = Kind.Memory;
  ir_mem_rights : submask Rights.INVOKE (rights mem) ∧ submask Rights.DELEGATE (rights mem);
  ir_parked : state (endpoints (ks k)).[object_id ep] = RecvWait;
  ir_other : peer_domain (endpoints (ks k)).[object_id ep] ≠ current_domain (ks k);
  ir_room : ∃ j, 0 <= j < CAP_TABLE_SLOTS ∧ entry_at (table (ks k) (peer_domain (endpoints (ks k)).[object_id ep])) j = None;
}.

Lemma moved_valid ot e : valid ot e → valid ot (moved e).
Proof. done. Qed.

Lemma moved_invoke e : submask Rights.INVOKE (rights e) → submask Rights.INVOKE (rights (moved e)).
Proof.
  unfold moved, child_of, submask. cbn [rights]. rewrite rights_inter_spec, rights_all_spec. intros Hi.
  rewrite Z.land_assoc, Hi. by vm_compute.
Qed.

(** What the server of a parked endpoint is. *)
Lemma parked_peer k c ep mem :
  ipc_ready k c ep mem → let e := (endpoints (ks k)).[object_id ep] in
  0 <= object_id ep < OBJECT_TABLE_SIZE ∧ 1 <= peer_task e < MAX_TASKS ∧ 0 <= peer_domain e < MAX_DOMAINS ∧
  t_domain (tasks (sch k)).[peer_task e] = peer_domain e ∧ peer_task e ≠ current (sch k).
Proof.
  intros Hr e. pose proof (ir_inv _ _ _ _ Hr) as Hi. destruct (current_domain_task _ Hi) as [_ Hcd].
  assert (Hct : ct_wf (table (ks k) (current_domain (ks k))))
    by (apply table_wf; [apply Hi|by rewrite (kw_tables _ (ki_wf _ Hi))]).
  assert (Ho : 0 <= object_id ep < OBJECT_TABLE_SIZE).
  { split; [|apply (ir_ep_valid _ _ _ _ Hr)]. apply (entry_at_typed _ c _ Hct (ir_slot _ _ _ _ Hr) (ir_ep _ _ _ _ Hr)). }
  destruct (rv_slot _ _ (ki_rv _ Hi) (object_id ep) Ho ltac:(by rewrite (ir_parked _ _ _ _ Hr))) as [Hp (_ & Hb & _ & _ & Hd)].
  fold e in Hp, Hb, Hd. split; [done|]. split; [done|]. split; [rewrite <- Hd; apply (ki_dom _ Hi); lia|]. split; [done|].
  intros E. destruct (so_cur _ (ki_sched _ Hi)) as (_ & _ & Hc). unfold sch in E. rewrite E in Hb. congruence.
Qed.

(** The client's send: it succeeds, its capability has moved, the result is staged. *)
Lemma client_send k c ep mem saved :
  ipc_ready k c ep mem →
  let e := (endpoints (ks k)).[object_id ep] in
  ∃ s c', syscall_dispatch k 1 c E_SEND 0xCA11 0 0 1 saved = (with_reply (with_ks k s) CPTR_NONE, SRet 0 0) ∧
    take_ipc_result (sched (ss s)) (peer_task e) = (0, 0xCA11, c') ∧
    current (sched (ss s)) = current (sch k) ∧ current_domain s = current_domain (ks k) ∧ fa s = fa (ks k) ∧
    objects s = objects (ks k) ∧ 0 <= c' < CAP_TABLE_SLOTS ∧
    entry_at (table s (current_domain s)) 1 = None ∧ entry_at (table s (peer_domain e)) c' = Some (moved mem) ∧
    t_domain (tasks (sched (ss s))).[peer_task e] = peer_domain e.
Proof.
  intros Hr e. destruct (parked_peer k c ep mem Hr) as (Ho & Hp & Hpd & Htd & Hpc). fold e in Hp, Hpd, Htd, Hpc.
  destruct Hr as [Hi Hu Hc0 He Hv Hk [R1 R2] Hm Hmv Hmk [R3 R4] Hst Hne (j & Hj & Hjn)]. fold e in Hst, Hne, Hjn.
  destruct (current_domain_task _ Hi) as [_ Hcd]. set (s0 := upd_ep (ks k) (object_id ep) (set_state Idle)).
  assert (Hw0 : k_wf s0) by apply upd_ep_wf, Hi.
  destruct (transfer_complete s0 (current_domain (ks k)) 1 (peer_domain e) mem j) as (s1 & c' & Ht);
    [exact Hw0|exact Hcd|exact Hpd|by apply not_eq_sym|exact Hm|exact Hmv|exact R4|exact Hj|exact Hjn|].
  destruct (transfer_Ok s0 (current_domain (ks k)) 1 (peer_domain e) s1 c' Hw0 (proj1 Hcd) (proj1 Hpd) ltac:(lia) Ht)
    as (e' & _ & He' & _ & _ & Hc' & _ & _ & Hs1 & Hot & Htab).
  assert (e' = mem) as -> by (change (table s0) with (table (ks k)) in He'; congruence).
  assert (Hcc : c < CAP_TABLE_SLOTS).
  { unfold entry_at in He. by destruct (Z.leb_spec CAP_TABLE_SLOTS c). }
  destruct (met_intro (ks k) (caps s1) (object_id ep) (0, 0xCA11, c') Hi Ho ltac:(fold e; by rewrite Hst))
    as (_ & _ & _ & Hres & Hcur & _). fold e in Hres, Hcur. fold s0 in Hres, Hcur. rewrite <- Hs1 in Hres, Hcur.
  exists (wake3 s1 (peer_task e) (0, 0xCA11, c')), c'. split.
  { unfold syscall_dispatch. cbn [negb Z.eqb SYS_CAP_INVOKE Pos.eqb].
    rewrite (proj2 (Z.ltb_ge _ c)) by (unfold U16_MAX, CAP_TABLE_SLOTS in *; lia). cbn [orb ks with_reply].
    unfold cap_invoke_ipc. rewrite (proj2 (resolve_ok (ks k) (current_domain (ks k)) c E_SEND ep) (conj He (conj Hv R1))).
    rewrite Hk. change (arm Kind.Endpoint E_SEND Kind.Endpoint E_SEND) with true. cbv iota.
    rewrite ep_send_cases. cbv zeta. fold e. rewrite decide_False, decide_True, Hst by (lia || by right).
    fold s0. unfold transfer_opt. change (negb (1 =? CPTR_NONE)) with true. cbv iota. by rewrite Ht. }
  split; [exact Hres|]. split; [exact Hcur|]. rewrite Hs1. do 2 (split; [reflexivity|]). split; [exact Hot|]. split; [done|].
  assert (Hd0 : ∀ d, table (wake3 (set_caps s0 (caps s1)) (peer_task e) (0, 0xCA11, c')) d = table s1 d) by (intros d; by rewrite Hs1).
  change (current_domain (wake3 (set_caps s0 (caps s1)) (peer_task e) (0, 0xCA11, c'))) with (current_domain (ks k)).
  rewrite !Hd0, !Htab by lia.
  split; [by rewrite decide_True|]. split; [rewrite decide_False, decide_True by naive_solver; done|].
  cbn [ss wake3 wake with_sched_k set_ss sched with_sched set_caps s0 upd_ep set_endpoints].
  rewrite unblock_task by (apply (sp_len _ (so_pre _ (ki_sched _ Hi))) || lia). by rewrite decide_True by lia.
Qed.

(** A capability that is gone: the call fails and changes nothing. *)
Lemma dispatch_absent k c m saved :
  0 <= c <= U16_MAX → 0 <= m <= U16_MAX → entry_at (table (ks k) (current_domain (ks k))) c = None →
  syscall_dispatch k 1 c m 0 0 0 CPTR_NONE saved = (with_reply k CPTR_NONE, SRet (status_code ErrBadCPtr) 0).
Proof.
  intros Hc Hm He. unfold syscall_dispatch. cbn [negb Z.eqb SYS_CAP_INVOKE Pos.eqb].
  rewrite (proj2 (Z.ltb_ge _ c)), (proj2 (Z.ltb_ge _ m)) by lia. cbn [orb]. change (U16_MAX <? CPTR_NONE) with false. cbv iota.
  cbn [ks with_reply]. unfold cap_invoke_ipc, resolve. by rewrite invoke_alt, He.
Qed.

(** [M_ALLOC] through a Memory capability: the next free frame, if there is one. *)
Lemma dispatch_alloc k c e saved :
  0 <= c <= U16_MAX → entry_at (table (ks k) (current_domain (ks k))) c = Some e → valid (objects (ks k)) e →
  submask Rights.INVOKE (rights e) → type_tag e = Kind.Memory →
  let '(f, r) := Memory.alloc (fa (ks k)) in
  ∃ k', syscall_dispatch k 1 c M_ALLOC 0 0 0 CPTR_NONE saved =
      (k', match r with Some frame => SRet (status_code StOk) frame | None => SRet (status_code ErrRights) 0 end) ∧ fa (ks k') = f.
Proof.
  intros Hc He Hv Hi Hk. unfold syscall_dispatch. cbn [negb Z.eqb SYS_CAP_INVOKE Pos.eqb].
  rewrite (proj2 (Z.ltb_ge _ c)) by lia. change (U16_MAX <? M_ALLOC) with false. change (U16_MAX <? CPTR_NONE) with false.
  cbn [orb ks with_reply]. unfold cap_invoke_ipc.
  rewrite (proj2 (resolve_ok (ks k) (current_domain (ks k)) c M_ALLOC e) (conj He (conj Hv Hi))), Hk.
  change (arm Kind.Memory M_ALLOC Kind.Endpoint E_SEND) with false. change (arm Kind.Memory M_ALLOC Kind.Endpoint E_RECV) with false.
  change (negb (CPTR_NONE =? CPTR_NONE)) with false. cbv iota. unfold dispatch_method.
  assert (rights_contains (rights e) (extra_rights Kind.Memory M_ALLOC) = true) as ->.
  { change (extra_rights Kind.Memory M_ALLOC) with rights_empty. apply rights_contains_spec. rewrite rights_empty_spec. by vm_compute. }
  change (arm Kind.Memory M_ALLOC Kind.Memory M_ALLOC) with true. cbv iota. cbn [negb].
  destruct (Memory.alloc (fa (ks k))) as [f [fr|]]; by eexists.
Qed.

(** C11: the IPC demonstration works end to end. With the server parked on the endpoint, the
    client's first call sends its message and succeeds; its second call, through the
    capability it gave away, fails with [ErrBadCPtr] and changes nothing. When a tick
    then selects the server, its receive returns the client's message and the slot of
    the moved capability, and its next call, through that slot, allocates the next free
    frame, from the same allocator state, or reports that there is none. *)
Theorem client_server k c ep mem g zf m g1 z1 h y n cs h1 y1 saved saved2 saved3 rsp :
  ipc_ready k c ep mem → clock_ok (ss (ks k)) 1 → get_reg g RDI = c → get_reg h RDI = cs →
  let j := peer_task (endpoints (ks k)).[object_id ep] in
  calls client_main (mkU W g zf 0 m) [1; c; E_SEND; 0xCA11; 0; 0; 1] (λ u1,
    let '(k1, r1) := serve k u1 saved in
    r1 = SRet (status_code StOk) 0 ∧
    calls client_main (resumed u1 g1 z1) [1; 1; M_ALLOC; 0; 0; 0; CPTR_NONE] (λ u2,
      let '(k2, r2) := serve k1 u2 saved2 in
      r2 = SRet (status_code ErrBadCPtr) 0 ∧ ks k2 = ks k1 ∧
      let k3 := timer_tick k2 rsp in
      (current (sch k3) = j →
        let '(k4, r4) := syscall_resume k3 in
        r4 = SRet (status_code StOk) 0xCA11 ∧
        (get_reg h1 RDX = reply_cptr k4 →
          calls server_main (mkU W h y 0 n) [1; cs; E_RECV; 0; 0; 0; CPTR_NONE] (λ v1,
            calls server_main (resumed v1 h1 y1) [1; reply_cptr k4; M_ALLOC; 0; 0; 0; CPTR_NONE] (λ v2,
              let '(f, r) := Memory.alloc (fa (ks k)) in
              let '(k5, r5) := serve k4 v2 saved3 in
              fa (ks k5) = f ∧
              r5 = match r with Some frame => SRet (status_code StOk) frame | None => SRet (status_code ErrRights) 0 end)))))).
Proof.
  intros Hr Hclk Hc Hcs j.
  destruct (program_protocols g zf m c g1 z1 (set_reg g1 RBX c) z1 Hc eq_refl) as ((u1 & U1 & M1 & A1 & u2 & U2 & M2 & A2 & _) & _).
  destruct (program_protocols h y n cs h1 y1 (set_reg h1 RBX cs) y1 Hcs eq_refl) as (_ & (v1 & V1 & N1 & B1 & v2 & V2 & N2 & B2 & _) & _).
  destruct (client_send k c ep mem saved Hr) as (s & c' & Es & Hres & Hcur & Hcd & Hfa & Hot & Hc' & Hn1 & He' & Htd). fold j in Hres, Htd.
  exists u1. do 3 (split; [done|]). rewrite (serve_args _ _ _ _ _ _ _ _ _ _ A1), Es. split; [done|].
  exists u2. do 3 (split; [done|]). rewrite (serve_args _ _ _ _ _ _ _ _ _ _ A2).
  rewrite (dispatch_absent _ 1 M_ALLOC) by (done || by vm_compute). split; [done|]. split; [done|].
  destruct (parked_peer k c ep mem Hr) as (_ & Hj & Hjd & _ & Hjc). fold j in Hj, Hjc.
  pose proof (syscall_safe k 1 c E_SEND 0xCA11 0 0 1 saved 0 (ir_inv _ _ _ _ Hr) (ir_user _ _ _ _ Hr) (ir_slot _ _ _ _ Hr)
    ltac:(lia) ltac:(lia) ltac:(unfold clock_ok in *; nia)) as Hsafe. rewrite Es in Hsafe. cbn [fst] in Hsafe. destruct Hsafe as (Hi1 & _ & Hck).
  change (ks (with_reply (with_ks k s) CPTR_NONE)) with s in Hi1, Hck.
  assert (Hclk1 : clock_ok (ss s) 1) by (destruct Hck as [E1 E2]; unfold clock_ok in *; by rewrite E1, E2).
  destruct (tick_ok (ss s) 0 rsp (ki_sched _ Hi1) ltac:(lia) Hclk1) as [_ Hkeep].
  specialize (Hkeep j ltac:(lia) ltac:(rewrite Hcur; done)). cbn [sched_step] in Hkeep.
  pose proof (tick_inv s rsp 0 Hi1 ltac:(lia) Hclk1) as Hi3. set (s3 := set_ss s (schedule_tick (ss s) rsp).1) in *.
  cbv zeta. intros Hcur3. change (current (sched (ss s3)) = j) in Hcur3. unfold syscall_resume.
  change (sch (timer_tick _ rsp)) with (sched (ss s3)). rewrite Hcur3.
  assert (Hres3 : take_ipc_result (sched (ss s3)) j = (0, 0xCA11, c')).
  { rewrite <- Hres. destruct Hkeep as (_ & _ & _ & _ & _ & K1 & K2 & K3 & _). unfold take_ipc_result.
    destruct (MAX_TASKS <=? j); [done|]. change (tasks (sched (ss s3))) with (tasks (sched (schedule_tick (ss s) rsp).1)). by rewrite K1, K2, K3. }
  rewrite Hres3. split; [done|]. cbn [reply_cptr with_reply]. intros Hrdx.
  exists v1. do 3 (split; [done|]). exists v2. do 2 (split; [done|]). split; [by rewrite B2, Hrdx|].
  destruct (current_domain_task s3 Hi3) as [Hdom _]. rewrite Hcur3 in Hdom.
  assert (Hd3 : current_domain s3 = peer_domain (endpoints (ks k)).[object_id ep]).
  { rewrite Hdom, <- Htd. apply Hkeep. }
  set (k4 := with_reply (timer_tick _ rsp) c').
  pose proof (dispatch_alloc k4 c' (moved mem) saved3) as Ha. change (ks k4) with s3 in Ha. change (fa s3) with (fa s) in Ha. rewrite Hfa in Ha.
  destruct (Memory.alloc (fa (ks k))) as [f r]. rewrite (serve_args _ _ _ _ _ _ _ _ _ _ B2), Hrdx.
  destruct Ha as (k5 & -> & Hf5); [unfold U16_MAX, CAP_TABLE_SLOTS in *; lia| | | | |done].
  - rewrite Hd3. exact He'.
  - change (objects s3) with (objects s). rewrite Hot. apply moved_valid, Hr.
  - apply moved_invoke, Hr.
  - apply Hr.
Qed.
End ipc.

(** ** Instances *)

#[local] Existing Instance l1_mapper.
#[local] Existing Instance l1_mapper_laws.

(** Task 1 runs out of budget, task 2 receives on the endpoint and parks, task 1 runs. *)
Definition demo_wait : list kevent := replicate 4 (KTick 0x2100) ++ [KSyscall 1 0 E_RECV 0 0 0 CPTR_NONE 0x4100].
Definition demo_ipc : Kern adisk := krun demo_sel demo_stacks demo_kern demo_wait.
Definition demo_ep : CapEntry := mkCapEntry 0 0x4f 0 Kind.Endpoint 0.
Definition demo_mem : CapEntry := mkCapEntry 1 0x2f 0 Kind.Memory 0.
(** The registers of the server when its receive returns the capability in slot 1. *)
Definition demo_received : Regs := set_reg demo_entry_regs RDX 1.

Lemma demo_ipc_ready : ipc_ready demo_ipc 0 demo_ep demo_mem.
Proof.
  split; try by vm_compute.
  - apply krun_ok; [apply demo_kern_inv|repeat split; by vm_compute|by vm_compute].
  - exists 5. by vm_compute.
Qed.

(** The server's invocation of the moved capability allocates frame 0x100. *)
Lemma client_server_witness :
  ∃ (u1 u2 v2 : UState (VState VirtioDriver.demo_disk)),
    let '(k1, r1) := serve demo_ipc u1 0x2100 in
    let '(k2, r2) := serve k1 u2 0x2100 in
    let '(k4, r4) := syscall_resume (timer_tick k2 0x2100) in
    let '(k5, r5) := serve k4 v2 0x4100 in
    r1 = SRet 0 0 ∧ r2 = SRet 1 0 ∧ r4 = SRet 0 0xCA11 ∧ r5 = SRet 0 0x100.
Proof.
  pose proof (@client_server _ _ _ _ _ (VState VirtioDriver.demo_disk) (dq_mem demo_hhdm demo_dq_pt) demo_ipc 0 demo_ep demo_mem
    demo_entry_regs false demo_dq_state demo_entry_regs false demo_entry_regs false demo_dq_state 0 demo_received false
    0x2100 0x2100 0x4100 0x2100 demo_ipc_ready ltac:(by vm_compute) eq_refl eq_refl) as H.
  cbv zeta in H. destruct H as (u1 & _ & _ & A1 & H). exists u1.
  destruct (serve demo_ipc u1 0x2100) as [k1 r1] eqn:E1. destruct H as (R1 & u2 & _ & _ & A2 & H). exists u2.
  destruct (serve k1 u2 0x2100) as [k2 r2] eqn:E2. destruct H as (R2 & _ & H).
  rewrite (serve_args _ _ _ _ _ _ _ _ _ _ A1) in E1. rewrite (serve_args _ _ _ _ _ _ _ _ _ _ A2) in E2.
  assert (Ek : k2 = (syscall_dispatch (syscall_dispatch demo_ipc 1 0 E_SEND 0xCA11 0 0 1 0x2100).1
    1 1 M_ALLOC 0 0 0 CPTR_NONE 0x2100).1) by (rewrite E1; cbn [fst]; by rewrite E2).
  clear E1 E2.
  assert (Hcur : current (sch (timer_tick k2 0x2100)) = 2) by (rewrite Ek; by vm_compute).
  assert (Hc' : reply_cptr (syscall_resume (timer_tick k2 0x2100)).1 = 1) by (rewrite Ek; by vm_compute).
  specialize (H Hcur). destruct (syscall_resume (timer_tick k2 0x2100)) as [k4 r4]. cbn [fst] in Hc'.
  destruct H as (R4 & H). specialize (H (eq_sym Hc')). destruct H as (v1 & _ & _ & _ & v2 & _ & _ & _ & H). exists v2.
  assert (Ha : (Memory.alloc (fa (ks demo_ipc))).2 = Some 0x100) by by vm_compute.
  destruct (Memory.alloc (fa (ks demo_ipc))) as [f r]. cbn [snd] in Ha. subst r.
  destruct (serve k4 v2 0x4100) as [k5 r5]. destruct H as (_ & R5). exact (conj R1 (conj R2 (conj R4 R5))).
Defined.
