(* ===== verification/Boot.v ===== *)
(** * The boot sequence ([kernel/src/main.rs])

    The part of [kmain_main] that runs once the hardware is up, from [objstore::mount] to
    the point where interrupts are enabled: the object-store and capability self-tests,
    the admission of the ring-3 tasks and the grant of the device queue. It is a program
    over the kernel, the mounted store and the console, in a state monad; a console line
    is a value that carries what the source prints. The block device is the virtio-blk
    driver of [VirtioDriver].

    [init_timer] is the one of [Apic], on the timer's hardware as it is found. The bytes
    of the four programs are the assembler's and are parameters. *)

From Stdlib Require Import Ascii String.
From S2P Require Import Prelude Capability CapTable Authority FrameSpec Memory Paging Apic Sched Gdt Context BlockDev ObjStore VirtioBlk VirtioDriver Capspace Kernel User.

(** ** The boot stack *)

Definition KSTACK_USABLE : Z := 512 * 1024.
(** [base] is the address of [KERNEL_STACK], which the linker aligns to a page. *)
Definition stack_guard_base (base : Z) : Z := base.
Definition stack_top (base : Z) : Z := Z.land (base + 4096 + KSTACK_USABLE) (lnotw 64 0xf).

(** ** The console *)

Inductive line :=
  | LRecovered (cptr rlba rlen rhash : Z) (rst : Status) (rh : Z) (survive : bool)
  | LRecoverMintFailed
  | LNoRoot
  | LExtentPut (lba len hash : Z) (rst : Status) (rhash : Z) (meta : option (Z * Z * Z)) (disk : option Z) (ok : bool)
  | LExtentMasked (no_read wr : Status)
  | LExtentMintFailed
  | LExtentMap (mst : Status) (va : Z) (mapped : option Z) (committed : Z) (ok : bool) (nomap : option Status)
  | LExtentMapMintFailed
  | LExtentLoadFailed
  | LPutFailed
  | LInitRoot (cptr : Z)
  | LAlloc (st : Status) (frame : Z)
  | LFree (st : Status)
  | LStale (st : Status)
  | LInitRootFailed
  | LPerDomain (d2 : Status) (root : Z) (iso : Status)
  | LDelegateFailed
  | LNotify (sig deny p1_st : Status) (p1 p2 : Z)
  | LFaulter (task fm : Z)
  | LFaulterRefused
  | LFaulterIncomplete
  | LIpc (server : option Z) (eps : Z) (client : option Z) (epc cm : Z)
  | LIpcNoTime
  | LIpcIncomplete
  | LGrantGate (st : Z)
  | LRevokedTime (st : Status)
  | LSubmit (sub : option (Status * Z)) (ok : bool)
  | LDqMap (mst : Status) (base : Z) (deny : option Status)
  | LDriver (task : option Z) (dqc : Z)
  | LDriverIncomplete
  | LDqNoDelegate
  | LDqIncomplete (seeded : bool)
  | LPreempt
  | LNoTimer.

(** ** The monad *)

Section monad.
Context {D : Type} `{BlockDev D}.

Record BootSt := mkB { b_kern : Kern D; b_store : Store; b_log : list line }.
Definition boot (A : Type) : Type := BootSt → BootSt * A.

Definition ret {A} (a : A) : boot A := λ b, (b, a).
Definition bind {A B} (m : boot A) (f : A → boot B) : boot B := λ b, let '(b, a) := m b in f a b.

Definition say (l : line) : boot unit := λ b, (mkB (b_kern b) (b_store b) (b_log b ++ [l]), tt).
Definition kern {A} (f : Kern D → Kern D * A) : boot A :=
  λ b, let '(k, a) := f (b_kern b) in (mkB k (b_store b) (b_log b), a).
Definition caps_do {A} (f : KState D → KState D * A) : boot A :=
  kern (λ k, let '(s, a) := f (ks k) in (with_ks k s, a)).
Definition io_do {A} (p : io A) : boot A :=
  caps_do (λ s, let '(d, a) := BlockDev.run p (dev s) in (set_dev s d, a)).
Definition get {A} (f : KState D → A) : boot A := caps_do (λ s, (s, f s)).
(** The object store's calls, over its mounted state. *)
Definition store_do {A} (f : Store → io (Store * A)) : boot A :=
  λ b, let '(b, (st, a)) := io_do (f (b_store b)) b in (mkB (b_kern b) st (b_log b), a).
End monad.
Arguments BootSt D : clear implicits.
Arguments boot D A : clear implicits.

Declare Scope boot_scope.
Delimit Scope boot_scope with boot.
Notation "x <- m ; f" := (bind m (λ x, f)) (at level 100, m at next level, right associativity) : boot_scope.
Notation "m ;; f" := (bind m (λ _, f)) (at level 100, f at level 200, right associativity) : boot_scope.
#[local] Open Scope boot_scope.

(** [Option::and_then] and [Option::map] with an effectful function. *)
Definition and_then {D A B} (o : option A) (f : A → boot D (option B)) : boot D (option B) :=
  match o with Some a => f a | None => ret None end.
Definition map_do {D A B} (o : option A) (f : A → boot D B) : boot D (option B) :=
  match o with Some a => x <- f a; ret (Some x) | None => ret None end.

(** ** The baked parameters of the ring-3 driver *)

Section bake.
Context {V : Type} `{VirtioDev V}.
Variable (hhdm : Z).
Implicit Types (s : VState V).

(** The sentinel in the data area and the four words at the buffer's tail, through the
    direct map. *)
Definition bake (q : DeviceQueueDesc) (lba : Z) s : VState V :=
  let buf := hhdm + q_buf_phys q in
  let s := mkV V (vb s) (wr_bytes (ram s) (buf + 512 - hhdm) (replicate 8 0)) (vdev s) in
  let p := buf + 2048 in
  let s := w64 hhdm s p (q_buf_phys q) in
  let s := w64 hhdm s (p + 8) lba in
  let s := w64 hhdm s (p + 16) (q_qsize q) in
  w64 hhdm s (p + 24) (Z.land (q_doorbell_phys q) 0xfff).

(** What it leaves in RAM. *)
Definition baked_ram (v : VirtioBlk) (lba : Z) (m : Z → Z) : Z → Z :=
  let b := v_hdr_phys v in
  wr_le (wr_le (wr_le (wr_le (wr_bytes m (b + 512) (replicate 8 0)) (b + 2048) 8 b) (b + 2056) 8 lba)
    (b + 2064) 8 (v_qsize v)) (b + 2072) 8 (Z.land (v_doorbell_phys v) 0xfff).

Lemma bake_eq q lba s :
  geometry hhdm (vb s) → device_queue_desc (vb s) = Some q →
  bake q lba s = mkV V (vb s) (baked_ram (vb s) lba (ram s)) (vdev s).
Proof.
  intros Hg Hq. unfold device_queue_desc in Hq. destruct (v_present (vb s)); [|done]. cbn [negb] in Hq. injection Hq as <-.
  unfold bake, w64. cbn [q_buf_phys q_qsize q_doorbell_phys vb ram vdev].
  assert (Hr : ∀ o, 0 <= o < 4096 → vd_mmio (hhdm + v_hdr_phys (vb s) + o - hhdm) = false).
  { intros o Ho. apply (ge_ram _ _ Hg (v_hdr_phys (vb s))); [set_solver|lia]. }
  rewrite <- !Z.add_assoc. rewrite vwrite_ram by (rewrite Z.add_assoc; apply Hr; lia).
  do 3 (rewrite vwrite_ram by (rewrite Z.add_assoc; apply Hr; lia)). unfold baked_ram.
  by rewrite !(Z.add_simpl_l hhdm).
Qed.

Lemma baked_out v lba m a :
  ¬ (v_hdr_phys v + 512 <= a < v_hdr_phys v + 4096) → baked_ram v lba m a = m a.
Proof.
  intros Ha. unfold baked_ram. rewrite !wr_le_out by lia. apply wr_bytes_out. change (zlen _) with 8. lia.
Qed.

Lemma bake_inv q lba s :
  device_queue_desc (vb s) = Some q → vb_inv hhdm s → vb_inv hhdm (bake q lba s).
Proof.
  intros Hq Hi. assert (Hp : v_present (vb s) = true).
  { unfold device_queue_desc in Hq. by destruct (v_present (vb s)). }
  destruct (Hi Hp) as [Hg H1 H2 H3 H4 H5 H6]. rewrite (bake_eq q lba s Hg Hq). intros _.
  pose proof (ge_ah _ _ Hg). pose proof (ge_uh _ _ Hg). unfold apart in *.
  split; cbn [vb ram vdev]; try done.
  - rewrite <- H4. apply rd_bytes_ext. intros x Hx. cbn [queue_of vq_avail] in Hx. apply baked_out. lia.
  - rewrite <- H5. apply rd_bytes_ext. intros x Hx. cbn [queue_of vq_used] in Hx. apply baked_out. lia.
Qed.

Lemma baked_params v lba m :
  geometry hhdm v → fits 64 lba → fits 52 (v_doorbell_phys v) → dq_params v lba (baked_ram v lba m).
Proof.
  intros Hg Hl Hd. pose proof (ge_fits _ _ Hg) as Hf. pose proof (ge_size _ _ Hg) as Hs. unfold fits in *.
  change (2 ^ 64) with (256 ^ Z.of_nat 8) in Hl. assert (H52 : 2 ^ 52 < 256 ^ Z.of_nat 8) by done.
  assert (Hland : 0 <= Z.land (v_doorbell_phys v) 0xfff < 256 ^ Z.of_nat 8).
  { change 0xfff with (Z.ones 12). rewrite Z.land_ones by lia. pose proof (Z.mod_pos_bound (v_doorbell_phys v) (2 ^ 12)). lia. }
  unfold dq_params, baked_ram.
  repeat split; repeat first [rewrite rd_wr_at by (lia || (cbn; lia)) | rewrite rd_wr_le_other by lia]; done.
Qed.
End bake.

(** The same on the block device, whose driver either still has the queue [q] or has
    disabled itself; [bake_guard] is always true in the boot sequence. *)
Section bake_disk.
Context {V : Type} `{VirtioDev V} {VL : VirtioLaws V}.
Variable (hhdm : Z).

Definition disk_vb (d : Disk V hhdm) : VirtioBlk := vb (`d).
Definition bake_guard (q : DeviceQueueDesc) (v : VirtioBlk) : Prop :=
  v_present v = false ∨ device_queue_desc v = Some q.
#[export] Instance bake_guard_dec q v : Decision (bake_guard q v).
Proof. apply _. Defined.

Lemma bake_vb q lba (s : VState V) : vb (bake hhdm q lba s) = vb s.
Proof. unfold bake, w64. by rewrite !vwrite_vb. Qed.

Lemma bake_guard_inv q lba (s : VState V) :
  bake_guard q (vb s) → vb_inv hhdm s → vb_inv hhdm (bake hhdm q lba s).
Proof. intros [Hp|Hq] Hi; [|by apply bake_inv]. unfold vb_inv. by rewrite bake_vb, Hp. Qed.

Definition bake_disk (q : DeviceQueueDesc) (lba : Z) (d : Disk V hhdm) : Disk V hhdm :=
  match decide (bake_guard q (vb (`d))) with
  | left Hg => exist _ (bake hhdm q lba (`d)) (bake_guard_inv q lba (`d) Hg (proj2_sig d))
  | right _ => d
  end.

(** Programs over the block device keep what the driver records. *)
Lemma run_vb {A} (p : io A) (d : Disk V hhdm) : vb_kept (disk_vb d) (disk_vb (BlockDev.run p d).1).
Proof.
  revert d. induction p as [a|lba k IH|lba src k IH|k IH]; intros d; cbn [BlockDev.run].
  - reflexivity.
  - destruct (bd_read d lba) as [d' r] eqn:E. etransitivity; [|apply IH].
    injection E as <- _. unfold disk_vb. cbn [proj1_sig]. unfold read_lba. destruct (is_u64 _); [apply read_sector_vb|reflexivity].
  - destruct (bd_write d lba src) as [d' r] eqn:E. etransitivity; [|apply IH].
    injection E as <- _. unfold disk_vb. cbn [proj1_sig]. unfold write_lba. destruct (_ && _); [apply write_sector_vb|reflexivity].
  - destruct (bd_flush d) as [d' r] eqn:E. etransitivity; [|apply IH].
    injection E as <- _. unfold disk_vb. cbn [proj1_sig]. apply flush_vb.
Qed.
End bake_disk.

(** ** [kmain_main] *)

Section kmain.
Context {V : Type} `{VirtioDev V} {VL : VirtioLaws V} `{Bitflags} `{Mapper}.
(** The direct map, the selectors, [TASK_STACKS] and [KERNEL_STACK]; where a call that
    blocks would save its context; and the code of the four programs. *)
Variable (hhdm : Z) (sel : GdtSelectors) (stacks kstack saved : Z).
Variable (faulter_code server_code client_code driver_code : list Z).

Abbreviation D := (Disk V hhdm).
Abbreviation boot := (boot D).

Definition bytes_of_string (s : string) : list Z := (λ a, Z.of_N (Ascii.N_of_ascii a)) <$> String.list_ascii_of_string s.

(** [X_READ] through a root capability named by its slot. *)
Definition recover_phase : boot unit :=
  r <- store_do (λ st, let* r := recover st in Ret (st, r));
  match r with
  | None => say LNoRoot
  | Some (rlba, rlen, rhash) =>
      c <- caps_do (λ s, mint_extent s rlba rlen rhash);
      match c with
      | None => say LRecoverMintFailed
      | Some c =>
          x <- caps_do (λ s, cap_invoke s c X_READ 0);
          say (LRecovered c rlba rlen rhash x.1 x.2 (bool_decide (x.1 = StOk) && (x.2 =? rhash)))
      end
  end.

Definition EXT_NEG_DOMAIN : Z := 3.
Definition ext_msg : list Z := bytes_of_string "CAIRN-EXTENT-INC5: content-addressed put + Extent cap proof".

(** The unmapped capability: read through it, and through a copy without READ. *)
Definition extent_caps (lba len hash : Z) : boot unit :=
  c <- caps_do (λ s, mint_extent s lba len hash);
  match c with
  | None => say LExtentMintFailed
  | Some ext =>
      x <- caps_do (λ s, cap_invoke s ext X_READ 0);
      meta <- get (λ s, extent_metadata s 0 ext);
      disk <- io_do (extent_content_hash lba len);
      say (LExtentPut lba len hash x.1 x.2 meta disk
        (bool_decide (x.1 = StOk) && (x.2 =? hash) && bool_decide (meta = Some (lba, len, hash)) &&
         bool_decide (disk = Some hash)));;
      nc <- caps_do (λ s, delegate_from_root s EXT_NEG_DOMAIN ext (rights_union Rights.INVOKE Rights.WRITE) 0);
      match nc with
      | None => ret tt
      | Some nc =>
          no_read <- caps_do (λ s, cap_invoke_in s EXT_NEG_DOMAIN nc X_READ 0);
          wr <- caps_do (λ s, cap_invoke_in s EXT_NEG_DOMAIN nc X_WRITE 0);
          say (LExtentMasked no_read.1 wr.1)
      end
  end.

(** The bytes at [va]: the frame [frame] holds [content]; other frames are not modelled. *)
Definition mapped_bytes (p : PState) (va frame len : Z) (content : list Z) : list Z :=
  match translate p va with
  | Some e => if entry_phys e =? frame then take (Z.to_nat len) (drop (Z.to_nat (va mod 4096)) content) else []
  | None => []
  end.

Definition extent_mapping (lba len hash : Z) : boot unit :=
  r <- caps_do (λ s, let '(d, (f, r)) := BlockDev.run (load_extent (fa s) lba len) (dev s) in
                    (set_mem (set_dev s d) f (pt s), r));
  match r with
  | None => say LExtentLoadFailed
  | Some (frame_phys, content) =>
      c <- caps_do (λ s, mint_extent_mapped s lba len hash frame_phys);
      match c with
      | None => say LExtentMapMintFailed
      | Some mext =>
          x <- caps_do (λ s, cap_invoke s mext X_MAP 0);
          mapped_hash <- get (λ s, if bool_decide (x.1 = StOk)
            then Some (fnv1a (mapped_bytes (pt s) x.2 frame_phys len content)) else None);
          nomap <- caps_do (λ s, delegate_from_root s EXT_NEG_DOMAIN mext (rights_union Rights.INVOKE Rights.READ) 0);
          nomap <- map_do nomap (λ c, caps_do (λ s, cap_invoke_in s EXT_NEG_DOMAIN c X_MAP 0));
          say (LExtentMap x.1 x.2 mapped_hash hash (bool_decide (mapped_hash = Some hash)) (fst <$> nomap))
      end
  end.

Definition extent_phase : boot unit :=
  r <- store_do (λ st, put st ext_msg);
  match r with
  | None => say LPutFailed
  | Some (lba, len, hash) => extent_caps lba len hash;; extent_mapping lba len hash
  end.

Definition cap_self_test : boot unit :=
  c <- caps_do init_root;
  match c with
  | None => say LInitRootFailed
  | Some cptr =>
      say (LInitRoot cptr);;
      x <- caps_do (λ s, cap_invoke s cptr M_ALLOC 0);
      say (LAlloc x.1 (x.2 * 4096));;
      x <- caps_do (λ s, cap_invoke s cptr M_ALLOC 0);
      say (LAlloc x.1 (x.2 * 4096));;
      x <- caps_do (λ s, cap_invoke s cptr M_FREE 0x100);
      say (LFree x.1);;
      rs <- caps_do (λ s, demo_revoke_then_invoke s cptr);
      say (LStale rs)
  end.

Definition DEMO_DOMAIN : Z := 2.

Definition perdomain_test : boot unit :=
  c <- caps_do init_root;
  match c with
  | None => ret tt
  | Some root_mem =>
      d <- caps_do (λ s, delegate_from_root s DEMO_DOMAIN root_mem Rights.INVOKE 0);
      match d with
      | None => say LDelegateFailed
      | Some d2_mem =>
          x <- caps_do (λ s, cap_invoke_in s DEMO_DOMAIN d2_mem M_ALLOC 0);
          y <- caps_do (λ s, cap_invoke_in s DEMO_DOMAIN root_mem M_ALLOC 0);
          say (LPerDomain x.1 root_mem y.1)
      end
  end.

Definition notify_test : boot unit :=
  c <- caps_do create_notification;
  match c with
  | None => ret tt
  | Some notif_root =>
      d <- caps_do (λ s, delegate_from_root s DEMO_DOMAIN notif_root (rights_union Rights.INVOKE Rights.WRITE) 0);
      match d with
      | None => ret tt
      | Some notif_d2 =>
          sig <- caps_do (λ s, cap_invoke_in s DEMO_DOMAIN notif_d2 N_SIGNAL 5);
          deny <- caps_do (λ s, cap_invoke_in s DEMO_DOMAIN notif_d2 N_POLL 0);
          p1 <- caps_do (λ s, cap_invoke_in s 0 notif_root N_POLL 0);
          p2 <- caps_do (λ s, cap_invoke_in s 0 notif_root N_POLL 0);
          say (LNotify sig.1 deny.1 p1.1 p1.2 p2.2)
      end
  end.

(** [sched::init] and [capspace::set_current_domain]. *)
Definition init_sched : boot unit :=
  caps_do (λ s, (with_sched_k s (sched_init (stack_top kstack) (sched (ss s))), tt)).
Definition set_current_domain (d : Z) (s : KState D) : KState D :=
  let t := ss s in set_ss s (mkSS (sched t) (tss_rsp0 t) (kernel_rsp0 t) d (ticks t) (tick_ns t)).

Definition setup (code_va stack_va : Z) (code : list Z) : boot (option (Z * Z)) :=
  caps_do (λ s, let '(p, f, r) := setup_user_task (pt s) (fa s) code_va stack_va code in (set_mem s f p, r)).

Definition faulter_phase : boot unit :=
  m <- caps_do init_root;
  fault_mem <- and_then m (λ m, caps_do (λ s, delegate_from_root s FAULT_DOMAIN m Rights.INVOKE 0));
  fault_blob <- setup 0x420000 0x7df000 faulter_code;
  ts <- caps_do mint_timeslice;
  match fault_mem, fault_blob, ts with
  | Some fm, Some (fe, fs), Some ft =>
      kern (λ k, (register_faulter k fe fs 2, tt));;
      i <- kern (λ k, admit_user sel stacks k fe fs fm ft FAULT_DOMAIN 5000000 5000000 1000000);
      match i with
      | Some i => say (LFaulter i fm)
      | None => say LFaulterRefused
      end
  | _, _, _ => say LFaulterIncomplete
  end.

Definition CLIENT_DOMAIN : Z := 1.
Definition SERVER_DOMAIN : Z := 2.

(** The server and the client are admitted, each for its own time slice. *)
Definition admit_ipc (ep_server ep_client client_mem : option Z) (server_blob client_blob : option (Z * Z)) : boot unit :=
  match ep_server, ep_client, client_mem, server_blob, client_blob with
  | Some eps, Some epc, Some cm, Some (se, ss), Some (ce, cs) =>
      t1 <- caps_do mint_timeslice;
      t2 <- caps_do mint_timeslice;
      match t1, t2 with
      | Some t1, Some t2 =>
          s <- kern (λ k, admit_user sel stacks k se ss eps t1 SERVER_DOMAIN 5000000 5000000 1000000);
          c <- kern (λ k, admit_user sel stacks k ce cs epc t2 CLIENT_DOMAIN 5000000 5000000 1000000);
          say (LIpc s eps c epc cm)
      | _, _ => say LIpcNoTime
      end
  | _, _, _, _, _ => say LIpcIncomplete
  end.

Definition ipc_phase : boot unit :=
  ep <- caps_do create_endpoint;
  ep_client <- and_then ep (λ e, caps_do (λ s,
    delegate_from_root s CLIENT_DOMAIN e (rights_union Rights.INVOKE Rights.GRANT_CAP) 0));
  ep_server <- and_then ep (λ e, caps_do (λ s, delegate_from_root s SERVER_DOMAIN e Rights.INVOKE 0));
  m <- caps_do init_root;
  client_mem <- and_then m (λ m, caps_do (λ s,
    delegate_from_root s CLIENT_DOMAIN m (rights_union Rights.INVOKE Rights.DELEGATE) 0));
  server_blob <- setup 0x410000 0x7ef000 server_code;
  client_blob <- setup 0x400000 0x7ff000 client_code;
  admit_ipc ep_server ep_client client_mem server_blob client_blob.

(** An endpoint capability without GRANT_CAP; the call answers before it could park. *)
Definition gate_test : boot unit :=
  ep2 <- caps_do create_endpoint;
  match ep2 with
  | None => ret tt
  | Some ep2 =>
      d <- caps_do (λ s, delegate_from_root s 3 ep2 Rights.INVOKE 0);
      match d with
      | None => ret tt
      | Some ep2_d3 =>
          caps_do (λ s, (set_current_domain 3 s, tt));;
          r <- caps_do (λ s, cap_invoke_ipc s ep2_d3 E_SEND 0xBEEF 5 saved);
          caps_do (λ s, (set_current_domain 0 s, tt));;
          match r with
          | IDone st _ _ => say (LGrantGate st)
          | IPark _ => ret tt
          end
      end
  end.

Definition revoked_test : boot unit :=
  c <- caps_do mint_timeslice;
  match c with
  | None => ret tt
  | Some c =>
      caps_do (λ s, revoke_timeslice s c);;
      st <- get (λ s, admit_check s c);
      say (LRevokedTime st)
  end.

Definition DRIVER_DOMAIN : Z := 5.
Definition DQ_MAGIC : Z := 0xCA1707D0DEAD0007.
Definition DQ_SCRATCH_LBA : Z := 32700.
Definition dq_seed : list Z := le_split 8 DQ_MAGIC ++ replicate 504 0.

Definition driver_phase (dqc : Z) (dq_nomap : option Z) : boot unit :=
  x <- caps_do (λ s, cap_invoke_in s DRIVER_DOMAIN dqc DQ_MAP 0);
  deny <- map_do dq_nomap (λ c, caps_do (λ s, cap_invoke_in s 3 c DQ_MAP 0));
  say (LDqMap x.1 x.2 (fst <$> deny));;
  driver_blob <- setup 0x430000 0x7cf000 driver_code;
  ts <- caps_do mint_timeslice;
  match driver_blob, ts with
  | Some (de, ds), Some dt =>
      d <- kern (λ k, admit_user sel stacks k de ds dqc dt DRIVER_DOMAIN 2000000 2000000 1000000);
      say (LDriver d dqc)
  | _, _ => say LDriverIncomplete
  end.

(** The two delegations, the kernel-mediated read, the driver's parameters and the driver. *)
Definition drive_queue (dqd : DeviceQueueDesc) (dq_root : Z) : boot unit :=
  dq_drv <- caps_do (λ s, delegate_from_root s DRIVER_DOMAIN dq_root
    (rights_union Rights.INVOKE (rights_union Rights.READ (rights_union Rights.WRITE Rights.MAP))) 0);
  dq_nomap <- caps_do (λ s, delegate_from_root s 3 dq_root
    (rights_union Rights.INVOKE (rights_union Rights.READ Rights.WRITE)) 0);
  sub <- map_do dq_nomap (λ c, caps_do (λ s, cap_invoke_in s 3 c DQ_SUBMIT DQ_SCRATCH_LBA));
  say (LSubmit sub (bool_decide (sub = Some (StOk, fnv1a dq_seed))));;
  caps_do (λ s, (set_dev s (bake_disk hhdm dqd DQ_SCRATCH_LBA (dev s)), tt));;
  match dq_drv with
  | Some dqc => driver_phase dqc dq_nomap
  | None => say LDqNoDelegate
  end.

Definition devqueue_phase : boot unit :=
  seeded <- io_do (BlockDev.write_sector DQ_SCRATCH_LBA dq_seed);
  dqd <- get (λ s, device_queue_desc (disk_vb hhdm (dev s)));
  dq_root <- caps_do (λ s, create_device_queue s (disk_vb hhdm (dev s)) DQ_MAGIC DQ_SCRATCH_LBA);
  match seeded, dqd, dq_root with
  | true, Some dqd, Some dq_root => drive_queue dqd dq_root
  | _, _, _ => say (LDqIncomplete seeded)
  end.

(** [apic::init_timer]: it maps the timer's window and sets the tick period. *)
Definition timer_phase {HW : Type} `{ApicHw HW} (apic : HW) : boot bool :=
  caps_do (λ s,
    let '(a, ok) := init_timer (mkApic HW 0 (tick_ns (ss s)) apic (pt s) (fa s)) hhdm in
    let st := ss s in
    (set_mem (set_ss s (mkSS (sched st) (tss_rsp0 st) (kernel_rsp0 st) (current_dom st) (ticks st) (TICK_NS a))) (ap_fa a) (ap_ps a), ok)).

(** From [objstore::mount] to [sti]; whether it gets there. The breakpoint, the heap
    self-test and the count of free frames, between the store's tests and the capability
    ones, change nothing here. *)
Definition kmain_main {HW : Type} `{ApicHw HW} (apic : HW) : boot bool :=
  store_do (λ st, let* st := mount st in Ret (st, tt));;
  recover_phase;;
  extent_phase;;
  cap_self_test;;
  perdomain_test;;
  notify_test;;
  timer <- timer_phase apic;
  if timer then
    init_sched;;
    faulter_phase;;
    ipc_phase;;
    gate_test;;
    revoked_test;;
    devqueue_phase;;
    say LPreempt;;
    ret true
  else
    say LNoTimer;;
    ret false.
End kmain.

(** ** Tables filled from the front

    During boot nothing is ever removed: the object table and each capability table is a
    list of entries followed by free places. *)

Definition pad {A} (n : nat) (x : A) (l : list A) : list A := l ++ replicate (n - length l) x.

Section pad.
Context {A : Type} `{Inhabited A}.
Implicit Types (l : list A) (x y : A).

Lemma pad_position (f : A → bool) n x l :
  Forall (λ y, f y = false) l → f x = true → (length l < n)%nat → position f (pad n x l) = Some (zlen l).
Proof.
  intros Hl Hx Hn. unfold pad. destruct (n - length l)%nat as [|k] eqn:E; [lia|]. clear E Hn.
  unfold zlen. induction Hl as [|y l Hy _ IH]; simpl in *; [by rewrite Hx|]. rewrite Hy, IH. simpl. f_equal. lia.
Qed.

Lemma pad_snoc n x l y : (length l < n)%nat → (pad n x l).[zlen l := y] = pad n x (l ++ [y]).
Proof.
  intros Hn. unfold pad, aset, zlen. rewrite Nat2Z.id, length_app. cbn [length].
  replace (n - length l)%nat with (S (n - (length l + 1))) by lia. simpl.
  rewrite insert_app_r_alt by lia. rewrite Nat.sub_diag. simpl. by rewrite <- (assoc (++)).
Qed.

Lemma pad_get n x l i : 0 <= i < zlen l → (pad n x l).[i] = l.[i].
Proof. intros Hi. unfold pad, aget, zlen in *. by rewrite lookup_total_app_l by lia. Qed.

Lemma pad_out n x l i : zlen l <= i < Z.of_nat n → (pad n x l).[i] = x.
Proof.
  intros Hi. unfold pad, aget, zlen in *. rewrite lookup_total_app_r by lia.
  by rewrite lookup_total_replicate_2 by lia.
Qed.

Lemma pad_set n x l i y : 0 <= i < zlen l → (pad n x l).[i := y] = pad n x l.[i := y].
Proof.
  intros Hi. unfold pad. rewrite length_aset. unfold aset, zlen in *. by rewrite insert_app_l by lia.
Qed.
End pad.

#[global] Instance CapEntry_inhabited : Inhabited CapEntry := populate (mkCapEntry 0 0 0 Kind.Null 0).

Record packed := mkP { p_objs : list ObjectMeta; p_tabs : list (list CapEntry) }.
Definition pack_ot (l : list ObjectMeta) : ObjectTable :=
  mkObjectTable (pad (Z.to_nat OBJECT_TABLE_SIZE) (mkObjectMeta Kind.Null 0 false) l).
Definition pack_ct (l : list CapEntry) : CapTable := mkCapTable (pad (Z.to_nat CAP_TABLE_SLOTS) None (Some <$> l)).
Definition unpack (P : packed) : sys := mkSys (pack_ot (p_objs P)) (pack_ct <$> p_tabs P).

Definition add_obj (P : packed) (kd : ObjectKind) : packed := mkP (p_objs P ++ [mkObjectMeta kd 0 true]) (p_tabs P).
Definition add_cap (P : packed) (d : Z) (e : CapEntry) : packed := mkP (p_objs P) (p_tabs P).[d := (p_tabs P).[d] ++ [e]].
Definition bump (P : packed) (oid : Z) : packed :=
  let m := (p_objs P).[oid] in
  mkP (p_objs P).[oid := mkObjectMeta (kind m) (wrap 32 (current_epoch m + 1)) (present m)] (p_tabs P).

(** At most [n] objects, and [n] capabilities in each domain. *)
Record small (n : Z) (P : packed) : Prop := {
  sm_objs : zlen (p_objs P) <= n;
  sm_present : Forall (λ m, present m = true) (p_objs P);
  sm_tabs : zlen (p_tabs P) = MAX_DOMAINS;
  sm_tab d : 0 <= d < MAX_DOMAINS → zlen (p_tabs P).[d] <= n;
}.

Lemma small_mono n n' P : small n P → n <= n' → small n' P.
Proof. intros [] Hn. split; [lia|done|done|]. intros d Hd. specialize (sm_tab0 d Hd). lia. Qed.

Lemma zlen_snoc {A} (l : list A) x : zlen (l ++ [x]) = zlen l + 1.
Proof. unfold zlen. rewrite length_app. simpl. lia. Qed.

Lemma tab_add_cap P d e d' :
  zlen (p_tabs P) = MAX_DOMAINS → 0 <= d < MAX_DOMAINS → 0 <= d' →
  (p_tabs (add_cap P d e)).[d'] = if decide (d = d') then (p_tabs P).[d] ++ [e] else (p_tabs P).[d'].
Proof. intros Hl Hd Hd'. unfold add_cap. cbn [p_tabs]. rewrite aget_aset by (rewrite ?Hl; lia). done. Qed.

Lemma small_add_cap n P d e : small n P → 0 <= d < MAX_DOMAINS → small (n + 1) (add_cap P d e).
Proof.
  intros [] Hd. split; [simpl; lia|done|unfold add_cap; simpl; by rewrite zlen_aset|].
  intros d' Hd'. rewrite tab_add_cap by (done || lia). pose proof (sm_tab0 d' Hd'). pose proof (sm_tab0 d Hd).
  case_decide; [rewrite zlen_snoc|]; lia.
Qed.

Section packed_ops.
Context `{Bitflags}.
Implicit Types (P : packed) (es : list CapEntry).

Lemma create_packed n P kd :
  small n P → n < 256 →
  create_object (pack_ot (p_objs P)) kd = (pack_ot (p_objs (add_obj P kd)), Some (zlen (p_objs P))).
Proof.
  intros [] Hn. unfold create_object, pack_ot. cbn [metas].
  assert (Hl : (length (p_objs P) < Z.to_nat OBJECT_TABLE_SIZE)%nat) by (unfold zlen, OBJECT_TABLE_SIZE in *; lia).
  rewrite pad_position; [|eapply Forall_impl; [exact sm_present0|by intros ? ->]|done|done].
  by rewrite pad_snoc.
Qed.

Lemma free_packed es : zlen es < 256 → position is_none (slots (pack_ct es)) = Some (zlen es).
Proof.
  intros Hn. unfold pack_ct. cbn [slots]. rewrite pad_position.
  - unfold zlen. by rewrite length_fmap.
  - apply Forall_fmap. by apply Forall_true.
  - done.
  - rewrite length_fmap. unfold zlen, CAP_TABLE_SLOTS in *. lia.
Qed.

Lemma fill_packed es e : zlen es < 256 → (slots (pack_ct es)).[zlen es := Some e] = slots (pack_ct (es ++ [e])).
Proof.
  intros Hn. unfold pack_ct. cbn [slots]. rewrite fmap_app.
  assert (E : zlen es = zlen (Some <$> es)) by (unfold zlen; by rewrite length_fmap). rewrite E.
  apply pad_snoc. rewrite length_fmap. unfold zlen, CAP_TABLE_SLOTS in *. lia.
Qed.

Lemma entry_packed es c : 0 <= c → zlen es < 256 →
  entry_at (pack_ct es) c = if decide (c < zlen es) then Some es.[c] else None.
Proof.
  intros Hc Hn. unfold entry_at, pack_ct. cbn [slots].
  assert (E : zlen (Some <$> es) = zlen es) by (unfold zlen; by rewrite length_fmap).
  destruct (Z.leb_spec CAP_TABLE_SLOTS c); case_decide; try done; [unfold CAP_TABLE_SLOTS in *; lia|..].
  - rewrite pad_get by (rewrite E; lia). unfold aget, zlen in *. apply list_lookup_total_correct.
    by rewrite list_lookup_fmap, (list_lookup_lookup_total_lt es (Z.to_nat c)) by lia.
  - rewrite pad_out by (rewrite E; unfold CAP_TABLE_SLOTS in *; lia). done.
Qed.

(** The object of [e] has its type and epoch. *)
Definition live P (e : CapEntry) : Prop :=
  0 <= object_id e < zlen (p_objs P) ∧ (p_objs P).[object_id e] = mkObjectMeta (type_tag e) (epoch e) true.

Lemma check_packed n P e : small n P → n < 256 → live P e → check_entry (pack_ot (p_objs P)) e = StOk.
Proof.
  intros [] Hn [Ho Hm]. apply check_entry_ok. unfold valid, pack_ot. cbn [metas].
  rewrite pad_get by done. rewrite Hm. split; [unfold OBJECT_TABLE_SIZE; lia|done].
Qed.

Lemma live_add_obj P kd e : live P e → live (add_obj P kd) e.
Proof.
  intros [Ho Hm]. split; cbn [add_obj p_objs]; [rewrite zlen_snoc; lia|].
  rewrite <- Hm. unfold aget, zlen in *. by rewrite lookup_total_app_l by lia.
Qed.

Lemma live_new P kd r : live (add_obj P kd) (mkCapEntry (zlen (p_objs P)) r 0 kd 0).
Proof.
  split; cbn [add_obj p_objs object_id type_tag epoch].
  - rewrite zlen_snoc. unfold zlen. lia.
  - unfold aget, zlen. rewrite Nat2Z.id. by rewrite lookup_total_app_r, Nat.sub_diag by lia.
Qed.

Lemma tab_packed P d : 0 <= d < zlen (p_tabs P) → (s_tables (unpack P)).[d] = pack_ct (p_tabs P).[d].
Proof.
  intros Hd. unfold unpack. cbn [s_tables]. unfold aget, zlen in *. apply list_lookup_total_correct.
  rewrite list_lookup_fmap. by rewrite (list_lookup_lookup_total_lt (p_tabs P) (Z.to_nat d)) by lia.
Qed.

Lemma set_packed P d es : set_table (unpack P) d (pack_ct es) = unpack (mkP (p_objs P) (p_tabs P).[d := es]).
Proof. unfold set_table, unpack. cbn [s_ot s_tables p_objs p_tabs]. f_equal. unfold aset. by rewrite list_fmap_insert. Qed.

(** Minting a root capability to a new object. *)
Definition mint_p P (kd : ObjectKind) (r : Z) : packed :=
  add_cap (add_obj P kd) 0 (mkCapEntry (zlen (p_objs P)) r 0 kd 0).

Lemma mint_packed n P kd r :
  small n P → n < 255 →
  mint (pack_ct (p_tabs P).[0]) (pack_ot (p_objs (add_obj P kd))) (zlen (p_objs P)) r 0 =
  (pack_ct ((p_tabs P).[0] ++ [mkCapEntry (zlen (p_objs P)) r 0 kd 0]), Ok (zlen (p_tabs P).[0])).
Proof.
  intros Hs Hn. pose proof (sm_tab n P Hs 0 ltac:(by vm_compute)) as Ht. unfold mint.
  rewrite free_packed by lia. destruct (live_new P kd r) as [Ho Hm]. cbn [object_id type_tag epoch] in Ho, Hm.
  assert (Hg : (metas (pack_ot (p_objs (add_obj P kd)))).[zlen (p_objs P)] = mkObjectMeta kd 0 true).
  { unfold pack_ot. cbn [metas]. by rewrite pad_get. }
  rewrite Hg. cbn [present negb orb current_epoch kind]. pose proof (sm_objs n P Hs).
  rewrite (proj2 (Z.leb_gt _ _)) by (unfold OBJECT_TABLE_SIZE; lia). cbn [orb].
  rewrite fill_packed by lia. rewrite wrap_id by (unfold fits, zlen in *; lia). done.
Qed.

Lemma delegate_packed n P d c mask bdg :
  small n P → n < 255 → 0 <= d < MAX_DOMAINS → 0 <= c < zlen (p_tabs P).[0] →
  let e := (p_tabs P).[0].[c] in
  rights_contains (rights e) Rights.DELEGATE = true → live P e →
  delegate (pack_ct (p_tabs P).[0]) (pack_ot (p_objs P)) c mask bdg (pack_ct (p_tabs P).[d]) =
  (pack_ct ((p_tabs P).[d] ++ [child_of e mask bdg]), Ok (zlen (p_tabs P).[d])).
Proof.
  intros Hs Hn Hd Hc e He Hl. pose proof (sm_tab n P Hs 0 ltac:(by vm_compute)). pose proof (sm_tab n P Hs d Hd).
  rewrite delegate_alt, entry_packed, decide_True by lia. fold e. rewrite He.
  rewrite (check_packed n P e Hs) by (done || lia). rewrite free_packed, fill_packed by lia.
  rewrite wrap_id by (unfold fits, zlen in *; lia). done.
Qed.
End packed_ops.

(** ** The capability operations during boot *)

(** No endpoint is in use, the boot thread is in the root domain, and the capability
    space is [P]. *)
Record kb {D} (P : packed) (s : KState D) : Prop := {
  kb_wf : k_wf s;
  kb_caps : caps s = unpack P;
  kb_eps : endpoints s = replicate (Z.to_nat OBJECT_TABLE_SIZE) EP_EMPTY;
  kb_dom : current_dom (ss s) = 0;
}.

Section rules.
Context `{Bitflags} `{MapperLaws} {D : Type} `{BlockDev D}.
Implicit Types (s : KState D) (P : packed).

Lemma rights_contains_eq a b : rights_contains a b = bool_decide (submask b a).
Proof.
  destruct (bool_decide_reflect (submask b a)) as [Hs|Hs]; [by apply rights_contains_spec|].
  destruct (rights_contains a b) eqn:E; [|done]. by apply rights_contains_spec in E.
Qed.

Lemma kb_table n P s d : kb P s → small n P → 0 <= d < MAX_DOMAINS → table s d = pack_ct (p_tabs P).[d].
Proof. intros [] [] Hd. unfold table. rewrite kb_caps0, tab_packed by (rewrite sm_tabs0; lia). done. Qed.
Lemma kb_objects P s : kb P s → objects s = pack_ot (p_objs P).
Proof. intros []. unfold objects. by rewrite kb_caps0. Qed.

(** A change outside the capabilities, the endpoints and the scheduler. *)
Lemma kb_kept P s s' : kb P s → k_wf s' → caps s' = caps s → endpoints s' = endpoints s → ss s' = ss s → kb P s'.
Proof. intros [] Hw E1 E2 E3. split; [done|by rewrite E1|by rewrite E2|by rewrite E3]. Qed.

Lemma mint_gen n P s kd r f g :
  kb P s → small n P → n < 255 → fits 16 (raw kd) → fits 16 r →
  (∀ k, f k (zlen (p_objs P)) = Some (g k)) → (∀ k oid k', f k oid = Some k' → caps k' = caps k) →
  (∀ k c, g (set_caps k c) = set_caps (g k) c) → caps (g s) = caps s → k_wf (g s) → endpoints (g s) = endpoints s → ss (g s) = ss s →
  ∃ s', mint_root s kd r f = (s', Some (zlen (p_tabs P).[0])) ∧ s' = set_caps (g s) (unpack (mint_p P kd r)) ∧
    kb (mint_p P kd r) s'.
Proof.
  intros Hk Hs Hn Hkd Hr Hf Hc Hg Eg Hw He Hss. exists (set_caps (g s) (unpack (mint_p P kd r))).
  assert (Hm : mint_root s kd r f = (set_caps (g s) (unpack (mint_p P kd r)), Some (zlen (p_tabs P).[0]))).
  { unfold mint_root. rewrite (kb_objects P s Hk), (create_packed n) by (done || lia). rewrite Hf, Hg.
    unfold table, objects. cbn [caps set_caps s_ot s_tables]. rewrite (kb_caps P s Hk).
    rewrite tab_packed by (rewrite (sm_tabs n P Hs); by vm_compute). rewrite (mint_packed n) by done.
    change (mkSys (pack_ot (p_objs (add_obj P kd))) (s_tables (unpack P))) with (unpack (add_obj P kd)).
    rewrite set_packed. done. }
  split; [done|]. split; [done|]. split; [|done|by cbn [endpoints set_caps]; rewrite He, (kb_eps P s Hk)|].
  - pose proof (mint_root_evolves s kd r f _ _ (kb_wf P s Hk) Hkd Hr Hc Hm) as Hev. cbn [caps set_caps] in Hev.
    destruct (evolves_wf _ _ (kw_caps s (kb_wf P s Hk)) Hev) as [Hsw Hl].
    apply set_caps_wf; [done|done|]. rewrite Hl. apply Hk.
  - cbn [ss set_caps]. rewrite Hss. apply Hk.
Qed.

Lemma mint_pure_p n P s kd r :
  kb P s → small n P → n < 255 → fits 16 (raw kd) → fits 16 r →
  ∃ s', mint_root s kd r (λ k _, Some k) = (s', Some (zlen (p_tabs P).[0])) ∧
    s' = set_caps s (unpack (mint_p P kd r)) ∧ kb (mint_p P kd r) s'.
Proof.
  intros Hk Hs Hn Hkd Hr. apply (mint_gen n P s kd r _ id); try done; [|apply Hk]. by intros ? ? ? [= ->].
Qed.

Lemma set_extents_wf s oid x : k_wf s → fits 52 (data_frame_phys x) → k_wf (set_extents s (extents s).[oid := x]).
Proof. intros [] Hx. split; try done; simpl; [by rewrite zlen_aset|by apply Forall_aset]. Qed.
Lemma set_devqueues_wf s oid x : k_wf s → dq_fits x → k_wf (set_devqueues s (devqueues s).[oid := x]).
Proof. intros [] Hx. split; try done; simpl; [by rewrite zlen_aset|by apply Forall_aset]. Qed.

Lemma mint_extent_p n P s l m h frame :
  kb P s → small n P → n < 255 → fits 52 frame →
  let oid := zlen (p_objs P) in
  ∃ s', mint_extent_inner s l m h frame = (s', Some (zlen (p_tabs P).[0])) ∧
    kb (mint_p P Kind.Extent 0x2f) s' ∧ (extents s').[oid] = mkExt l m h frame ∧ ss s' = ss s ∧ notify s' = notify s ∧ fa s' = fa s ∧ dev s' = dev s.
Proof.
  intros Hk Hs Hn Hf oid. unfold mint_extent_inner.
  assert (Hpr : payload_rights = 0x2f) by (unfold payload_rights; rewrite !rights_union_spec; by vm_compute). rewrite Hpr.
  pose proof (sm_objs n P Hs) as Ho. assert (Hoid : 0 <= oid < OBJECT_TABLE_SIZE) by (unfold oid, zlen, OBJECT_TABLE_SIZE in *; lia).
  destruct (mint_gen n P s Kind.Extent 0x2f (λ k o, if OBJECT_TABLE_SIZE <=? o then None
    else Some (set_extents k (extents k).[o := mkExt l m h frame])) (λ k, set_extents k (extents k).[oid := mkExt l m h frame]))
    as (s' & E & E' & Hk'); try done.
  - intros k. fold oid. by rewrite (proj2 (Z.leb_gt _ _)) by lia.
  - intros k o k' Hs'. destruct (_ <=? _); [done|]. by injection Hs' as <-.
  - apply set_extents_wf; [apply Hk|done].
  - exists s'. split; [done|]. split; [done|]. rewrite E'. cbn [extents set_caps set_extents]. split; [|done].
    apply aget_aset_eq. rewrite (kw_exts s (kb_wf P s Hk)). lia.
Qed.

Lemma create_dq_p n P s v mgc scratch q :
  kb P s → small n P → n < 255 → device_queue_desc v = Some q → dq_fits (dq_meta v mgc scratch) →
  let oid := zlen (p_objs P) in
  ∃ s', create_device_queue s v mgc scratch = (s', Some (zlen (p_tabs P).[0])) ∧
    kb (mint_p P Kind.DeviceQueue 0x2f) s' ∧ (devqueues s').[oid] = dq_meta v mgc scratch ∧
    dev s' = dev s ∧ ss s' = ss s ∧ notify s' = notify s ∧ pt s' = pt s ∧ fa s' = fa s.
Proof.
  intros Hk Hs Hn Hq Hf oid. unfold create_device_queue. rewrite Hq.
  assert (Hqe : q = mkDQD (v_desc_phys v) (v_avail_phys v) (v_used_phys v) (v_hdr_phys v) (v_doorbell_phys v) (v_qsize v)).
  { unfold device_queue_desc in Hq. destruct (v_present v); simpl in Hq; by simplify_eq. }
  assert (Hpr : payload_rights = 0x2f) by (unfold payload_rights; rewrite !rights_union_spec; by vm_compute). rewrite Hpr, Hqe.
  cbn [q_desc_phys q_avail_phys q_used_phys q_buf_phys q_doorbell_phys q_qsize].
  pose proof (sm_objs n P Hs) as Ho. assert (Hoid : 0 <= oid < OBJECT_TABLE_SIZE) by (unfold oid, zlen, OBJECT_TABLE_SIZE in *; lia).
  destruct (mint_gen n P s Kind.DeviceQueue 0x2f (λ k o, if OBJECT_TABLE_SIZE <=? o then None
    else Some (set_devqueues k (devqueues k).[o := dq_meta v mgc scratch])) (λ k, set_devqueues k (devqueues k).[oid := dq_meta v mgc scratch]))
    as (s' & E & E' & Hk'); try done.
  - intros k. fold oid. by rewrite (proj2 (Z.leb_gt _ _)) by lia.
  - intros k o k' Hs'. destruct (_ <=? _); [done|]. by injection Hs' as <-.
  - apply set_devqueues_wf; [apply Hk|done].
  - exists s'. split; [done|]. split; [done|]. rewrite E'. cbn [devqueues dev set_caps set_devqueues]. split; [|done].
    apply aget_aset_eq. rewrite (kw_dqs s (kb_wf P s Hk)). lia.
Qed.

Lemma snoc_get {A} `{Inhabited A} (l : list A) x : (l ++ [x]).[zlen l] = x.
Proof. unfold aget, zlen. rewrite Nat2Z.id. by rewrite lookup_total_app_r, Nat.sub_diag by lia. Qed.

Lemma mint_p_tab n P kd r d :
  small n P → 0 <= d < MAX_DOMAINS →
  (p_tabs (mint_p P kd r)).[d] =
  if decide (0 = d) then (p_tabs P).[0] ++ [mkCapEntry (zlen (p_objs P)) r 0 kd 0] else (p_tabs P).[d].
Proof. intros [] Hd. unfold mint_p. rewrite tab_add_cap by (done || (split; [done|by vm_compute]) || lia). done. Qed.

Lemma small_mint n P kd r : small n P → small (n + 1) (mint_p P kd r).
Proof.
  intros Hs. destruct (id Hs) as [Q1 Q2 Q3 Q4]. split.
  - simpl. rewrite zlen_snoc. lia.
  - apply Forall_app. split; [done|]. by constructor.
  - unfold mint_p, add_cap. simpl. by rewrite zlen_aset.
  - intros d Hd. rewrite (mint_p_tab n) by done. specialize (Q4 d Hd).
    case_decide; [subst d; rewrite zlen_snoc|]; lia.
Qed.

Lemma mint_p_live P kd r : live (mint_p P kd r) (mkCapEntry (zlen (p_objs P)) r 0 kd 0).
Proof. apply live_new. Qed.

(** Delegating the entry [e] of the root table. *)
Lemma delegate_p n P s d c mask oid r kd :
  kb P s → small n P → n < 255 → 1 <= d < MAX_DOMAINS → 0 <= c < zlen (p_tabs P).[0] →
  (p_tabs P).[0].[c] = mkCapEntry oid r 0 kd 0 → submask Rights.DELEGATE r → live P (mkCapEntry oid r 0 kd 0) →
  let P' := add_cap P d (mkCapEntry oid (Z.land r mask) 0 kd 0) in
  ∃ s', delegate_from_root s d c mask 0 = (s', Some (zlen (p_tabs P).[d])) ∧ s' = set_caps s (unpack P') ∧ kb P' s'.
Proof.
  intros Hk Hs Hn Hd Hc He Hdel Hl P'. exists (set_caps s (unpack P')).
  assert (Hm : delegate_from_root s d c mask 0 = (set_caps s (unpack P'), Some (zlen (p_tabs P).[d]))).
  { unfold delegate_from_root. rewrite (proj2 (Z.eqb_neq d 0)), (proj2 (Z.leb_gt MAX_DOMAINS d)) by lia. cbn [orb].
    rewrite !(kb_table n P s) by (done || (unfold MAX_DOMAINS in *; lia)). rewrite (kb_objects P s Hk).
    rewrite (delegate_packed n P) by (rewrite ?He; (done || lia || (by apply rights_contains_spec))).
    rewrite He. unfold child_of. cbn [object_id rights epoch type_tag]. rewrite rights_inter_spec, (kb_caps P s Hk), set_packed. done. }
  split; [done|]. split; [done|].
  pose proof (delegate_root_evolves s d c mask 0 _ _ (kb_wf P s Hk) ltac:(lia) ltac:(lia) ltac:(by vm_compute) Hm) as [_ Hev].
  split; [|done|apply Hk|apply Hk]. eapply caps_only_wf; [apply Hk|]. by split.
Qed.

Lemma resolve_packed n P s d c m e :
  kb P s → small n P → n < 256 → 0 <= d < MAX_DOMAINS → 0 <= c < zlen (p_tabs P).[d] →
  (p_tabs P).[d].[c] = e → live P e → submask Rights.INVOKE (rights e) → resolve s d c m = Ok e.
Proof.
  intros Hk Hs Hn Hd Hc <- Hl Hi. pose proof (sm_tab n P Hs d Hd). unfold resolve.
  rewrite (kb_table n P s), (kb_objects P s), invoke_alt, lookup_alt, entry_packed, decide_True by (done || lia).
  rewrite (check_packed n) by done. by rewrite (proj2 (rights_contains_spec _ _)).
Qed.

Lemma cap_invoke_eq n P s d c m a e :
  kb P s → small n P → n < 256 → 0 <= d < MAX_DOMAINS → 0 <= c < zlen (p_tabs P).[d] →
  (p_tabs P).[d].[c] = e → live P e → submask Rights.INVOKE (rights e) →
  cap_invoke_in s d c m a = dispatch_method s d (type_tag e) (object_id e) (rights e) m a.
Proof.
  intros Hk Hs Hn Hd Hc He Hl Hi. unfold cap_invoke_in. rewrite Z.min_l by (unfold MAX_DOMAINS in *; lia).
  by rewrite (resolve_packed n P s d c m e).
Qed.

Lemma resolve_out n P s d c m :
  kb P s → small n P → n < 256 → 0 <= d < MAX_DOMAINS → zlen (p_tabs P).[d] <= c → resolve s d c m = Err ErrBadCPtr.
Proof.
  intros Hk Hs Hn Hd Hc. pose proof (sm_tab n P Hs d Hd). unfold resolve.
  rewrite (kb_table n P s), invoke_alt, entry_packed, decide_False by (done || (unfold zlen in *; lia)). done.
Qed.

(** A capability of an older epoch. *)
Lemma invoke_stale n P s c e m req :
  kb P s → small n P → n < 256 → 0 <= c < zlen (p_tabs P).[0] → (p_tabs P).[0].[c] = e →
  0 <= object_id e < zlen (p_objs P) → epoch e ≠ current_epoch (p_objs P).[object_id e] →
  invoke (table s 0) (objects s) c m req = ErrRevoked.
Proof.
  intros Hk Hs Hn Hc <- Ho He. pose proof (sm_tab n P Hs 0 ltac:(by vm_compute)). pose proof (sm_objs n P Hs).
  rewrite (kb_table n P s), (kb_objects P s), invoke_alt, entry_packed, decide_True by (done || (split; [done|by vm_compute]) || lia).
  unfold check_entry, pack_ot. cbn [metas]. rewrite pad_get by done.
  rewrite (proj2 (Z.leb_gt _ _)) by (unfold OBJECT_TABLE_SIZE; lia). by rewrite (proj2 (Z.eqb_neq _ _)).
Qed.

(** Revoking the object behind a live root capability. *)
Lemma revoke_p n P s c e :
  kb P s → small n P → n < 256 → 0 <= c < zlen (p_tabs P).[0] → (p_tabs P).[0].[c] = e → live P e → epoch e = 0 →
  let P' := bump P (object_id e) in
  let s' := set_caps s (mkSys (revoke (objects s) (object_id e)).1 (s_tables (caps s))) in
  lookup (table s 0) c (objects s) = Ok e ∧ (revoke (objects s) (object_id e)).2 = StOk ∧ kb P' s' ∧ small n P' ∧
  ∀ m req, invoke (table s' 0) (objects s') c m req = ErrRevoked.
Proof.
  intros Hk Hs Hn Hc He Hl Hep P' s'. pose proof (sm_tab n P Hs 0 ltac:(by vm_compute)). pose proof (sm_objs n P Hs).
  pose proof Hl as [Ho Hm].
  assert (Hr : revoke (objects s) (object_id e) = (pack_ot (p_objs P'), StOk)).
  { rewrite (kb_objects P s Hk). unfold revoke, pack_ot. cbn [metas]. rewrite (proj2 (Z.leb_gt _ _)) by (unfold OBJECT_TABLE_SIZE; lia).
    rewrite !pad_get by done. rewrite Hm. cbn [present negb orb kind current_epoch]. rewrite pad_set by done.
    unfold P', bump. by rewrite Hm. }
  assert (Hs' : small n P').
  { destruct (id Hs) as [Q1 Q2 Q3 Q4]. split; [unfold P', bump; cbn [p_objs]; by rewrite zlen_aset| |done|done].
    unfold P', bump. cbn [p_objs]. apply Forall_aset; [done|]. rewrite Hm. done. }
  assert (Hk' : kb P' s').
  { split; [|unfold s'; rewrite Hr; cbn [caps set_caps fst]; by rewrite (kb_caps P s Hk)|apply Hk|apply Hk].
    apply set_caps_wf; [apply Hk| |apply Hk].
    apply (exec_wf (caps s) (OpRevoke (object_id e))); [apply Hk|cbn; unfold fits; lia]. }
  split.
  { rewrite (kb_table n P s), (kb_objects P s), lookup_alt, entry_packed, decide_True by (done || (split; [done|by vm_compute]) || lia).
    by rewrite He, (check_packed n). }
  split; [by rewrite Hr|]. split; [done|]. split; [done|]. intros m req.
  apply (invoke_stale n P' s' c e); [done|done|done|done|done|unfold P', bump; cbn [p_objs]; by rewrite zlen_aset|].
  unfold P', bump. cbn [p_objs]. rewrite aget_aset_eq by done. rewrite Hm, Hep. by vm_compute.
Qed.

Lemma map_pages_dev s d pages s' ok : map_pages s d pages = (s', ok) → dev s' = dev s.
Proof.
  revert s. induction pages as [|[[[va phys] w] nc] pages IH]; intros s; cbn [map_pages]; [by intros [= <- _]|].
  destruct (map_user_phys _ _ _ _ _ _ _) as [[p f] []]; [|by intros [= <- _]].
  intros ->%IH. unfold record_domain_map. destruct (_ <=? _); [done|]. by destruct (_ <? _).
Qed.

(** Invocations leave the capabilities alone. *)
Lemma dispatch_kb P s d kd oid r m a s' x :
  kb P s → 0 <= d < MAX_DOMAINS → 0 <= oid < OBJECT_TABLE_SIZE → dispatch_method s d kd oid r m a = (s', x) →
  kb P s' ∧ extents s' = extents s ∧ devqueues s' = devqueues s ∧ ss s' = ss s ∧
  (kd ≠ Kind.Notification → notify s' = notify s).
Proof.
  intros Hk Hd Ho Hm. apply dispatch_ok in Hm as [(Hw & (C1 & C2 & C3 & C4 & C5) & _) Ha]; [|apply Hk|done|lia].
  repeat (split; [by apply (kb_kept P s) || done|]). intros Hkd. destruct (decide (notify s' = notify s)) as [|Hne]; [done|].
  by destruct (au_notify _ _ _ _ _ _ Ha Hne).
Qed.

(** The device moves only by a program that runs on it. *)
Lemma dispatch_dev P s d kd oid r m a s' x :
  kb P s → 0 <= d < MAX_DOMAINS → dispatch_method s d kd oid r m a = (s', x) →
  ∃ p : io (option (list Z)), dev s' = (BlockDev.run p (dev s)).1.
Proof.
  intros Hk Hd Hm. unfold dispatch_method in Hm.
  assert (Hid : ∃ p : io (option (list Z)), dev s = (BlockDev.run p (dev s)).1) by by exists (Ret None).
  destruct (negb _); [by simplify_eq|]. destruct (arm kd m Kind.Memory M_ALLOC).
  { destruct (alloc (fa s)) as [f [fr|]]; by simplify_eq. }
  destruct (arm kd m Kind.Memory M_FREE); [by simplify_eq|].
  destruct (arm kd m Kind.Notification N_SIGNAL).
  { unfold notify_signal in Hm. destruct (_ <? _); by simplify_eq. }
  destruct (arm kd m Kind.Notification N_POLL).
  { unfold notify_take in Hm. destruct (_ <=? _); by simplify_eq. }
  destruct (arm kd m Kind.Extent X_READ); [by simplify_eq|].
  destruct (arm kd m Kind.Extent X_MAP).
  { unfold extent_map, record_domain_map in Hm. destruct (_ <=? _); [by simplify_eq|]. destruct (_ =? 0); [by simplify_eq|].
    destruct (map_user_phys _ _ _ _ _ _ _) as [[p f] []]; [destruct (_ <=? _); [|destruct (_ <? _)]|]; by simplify_eq. }
  destruct (arm kd m Kind.DeviceQueue DQ_INFO); [by simplify_eq|].
  destruct (arm kd m Kind.DeviceQueue DQ_MAP).
  { unfold devqueue_map in Hm. destruct (_ <=? _); [by simplify_eq|]. destruct (_ =? 0); [by simplify_eq|].
    destruct (map_pages s d _) as [s1 ok] eqn:E. replace s' with s1 by (destruct ok; by simplify_eq).
    rewrite (map_pages_dev s d _ s1 ok E). done. }
  destruct (arm kd m Kind.DeviceQueue DQ_REPORT); [by simplify_eq|].
  destruct (arm kd m Kind.DeviceQueue DQ_SUBMIT); [|by simplify_eq].
  unfold devqueue_submit in Hm. destruct (_ <=? _); [by simplify_eq|]. destruct (_ =? 0); [by simplify_eq|].
  exists (BlockDev.read_sector a). destruct (BlockDev.run (BlockDev.read_sector a) (dev s)) as [d' [sect|]]; by simplify_eq.
Qed.
End rules.

(** ** Reasoning about boot programs *)

(** What a device keeps whatever programs run on it. *)
Class DevInv (D : Type) `{BlockDev D} := {
  dv : D → Prop;
  dv_run A (p : io A) d : dv d → dv (BlockDev.run p d).1;
}.

(** What each console line promises; the source says so where it prints "expect". *)
Definition expected (l : line) : Prop :=
  match l with
  | LRecovered _ _ _ rhash rst rh survive => rst = StOk ∧ rh = rhash ∧ survive = true
  | LExtentPut lba len hash rst rhash meta disk ok =>
      rst = StOk ∧ rhash = hash ∧ meta = Some (lba, len, hash) ∧ (ok = true ↔ disk = Some hash)
  | LExtentMasked no_read wr => no_read = ErrRights ∧ wr = ErrMethod
  | LExtentMap mst va mapped _ _ nomap =>
      nomap = Some ErrRights ∧ (mst = StOk ∧ va = EXTENT_MAP_BASE ∧ is_Some mapped ∨ mst = ErrMethod ∧ mapped = None)
  | LAlloc st _ => st = StOk ∨ st = ErrRights
  | LFree st => st = ErrMethod
  | LStale st => st = ErrRevoked
  | LPerDomain d2 _ iso => (d2 = StOk ∨ d2 = ErrRights) ∧ iso = ErrBadCPtr
  | LNotify sig deny p1_st p1 p2 => sig = StOk ∧ deny = ErrRights ∧ p1_st = StOk ∧ p1 = 5 ∧ p2 = 0
  | LFaulter _ fm => fm = 0
  | LIpc server eps client epc cm => is_Some server ∧ is_Some client ∧ eps = 2 ∧ epc = 0 ∧ cm = 1
  | LGrantGate st => st = 4
  | LRevokedTime st => st = ErrRevoked
  | LSubmit sub ok => ok = true ∨ ∃ st, sub = Some (st, 0) ∧ st ≠ StOk
  | LDqMap mst base deny => deny = Some ErrRights ∧ (mst = StOk ∧ base = DQ_BASE ∨ mst = ErrMethod ∧ base = 0)
  | LDriver task dqc => is_Some task ∧ dqc = 0
  | LDqIncomplete seeded => seeded = false
  | LRecoverMintFailed | LExtentMintFailed | LExtentMapMintFailed | LInitRootFailed | LDelegateFailed
  | LFaulterRefused | LIpcNoTime | LDqNoDelegate => False
  | _ => True
  end.

Section wp.
Context {D : Type} `{BlockDev D} `{!DevInv D}.
Implicit Types (b : BootSt D).

Definition wpb {A} (m : boot D A) (Q : A → BootSt D → Prop) b : Prop := let '(b', a) := m b in Q a b'.
Definition upd b (s : KState D) : BootSt D := mkB (with_ks (b_kern b) s) (b_store b) (b_log b).
Definition bks b : KState D := ks (b_kern b).

Lemma wpb_bind {A B} (m : boot D A) (f : A → boot D B) Q b : wpb m (λ a, wpb (f a) Q) b → wpb (bind m f) Q b.
Proof. unfold wpb, bind. by destruct (m b). Qed.
Lemma wpb_ret {A} (a : A) (Q : A → BootSt D → Prop) b : Q a b → wpb (ret a) Q b.
Proof. done. Qed.
Lemma wpb_say l (Q : unit → BootSt D → Prop) b : Q tt (mkB (b_kern b) (b_store b) (b_log b ++ [l])) → wpb (say l) Q b.
Proof. done. Qed.
Lemma wpb_caps {A} (f : KState D → KState D * A) (Q : A → BootSt D → Prop) b s a :
  f (bks b) = (s, a) → Q a (upd b s) → wpb (caps_do f) Q b.
Proof. intros E HQ. unfold wpb, caps_do, kern, bks in *. by rewrite E. Qed.
Lemma wpb_kern {A} (f : Kern D → Kern D * A) (Q : A → BootSt D → Prop) b :
  (let '(k, a) := f (b_kern b) in Q a (mkB k (b_store b) (b_log b))) → wpb (kern f) Q b.
Proof. unfold wpb, kern. by destruct (f (b_kern b)). Qed.
Lemma wpb_get {A} (f : KState D → A) (Q : A → BootSt D → Prop) b : Q (f (bks b)) (upd b (bks b)) → wpb (get f) Q b.
Proof. done. Qed.
Lemma wpb_io {A} (p : io A) (Q : A → BootSt D → Prop) b :
  (∀ d a, BlockDev.run p (dev (bks b)) = (d, a) → Q a (upd b (set_dev (bks b) d))) → wpb (io_do p) Q b.
Proof.
  intros HQ. unfold wpb, io_do, caps_do, kern, bks in *. destruct (BlockDev.run p _) as [d a]. by apply HQ.
Qed.
Lemma wpb_store {A} (f : Store → io (Store * A)) (Q : A → BootSt D → Prop) b :
  (∀ d st a, BlockDev.run (f (b_store b)) (dev (bks b)) = (d, (st, a)) →
     Q a (mkB (with_ks (b_kern b) (set_dev (bks b) d)) st (b_log b))) → wpb (store_do f) Q b.
Proof.
  intros HQ. unfold wpb, store_do, io_do, caps_do, kern, bks in *.
  destruct (BlockDev.run _ _) as [d [st a]]. by apply HQ.
Qed.
Lemma wpb_mono {A} (m : boot D A) (Q Q' : A → BootSt D → Prop) b :
  wpb m Q b → (∀ a b', Q a b' → Q' a b') → wpb m Q' b.
Proof. unfold wpb. destruct (m b). auto. Qed.

(** The assertion the phases keep: the capability space is [P], the scheduler satisfies
    [S], no notification is pending, and every line so far was as promised. *)
Record bst (S : SState → Prop) (P : packed) b : Prop := {
  bs_kb : kb P (bks b);
  bs_ss : S (ss (bks b));
  bs_quiet : Forall (λ w, w = 0) (notify (bks b));
  bs_dev : dv (dev (bks b));
  bs_log : Forall expected (b_log b);
}.

Lemma bst_say S P b l : bst S P b → expected l → bst S P (mkB (b_kern b) (b_store b) (b_log b ++ [l])).
Proof. intros [] Hl. split; [done..|]. apply Forall_app. split; [done|]. by constructor. Qed.
Lemma bst_upd S P P' b s :
  bst S P b → kb P' s → ss s = ss (bks b) → notify s = notify (bks b) → (dv (dev (bks b)) → dv (dev s)) → bst S P' (upd b s).
Proof. intros [] Hk E1 E2 E3. split; [done| | |auto|done]; unfold upd, bks; cbn [b_kern ks with_ks]; by rewrite ?E1, ?E2. Qed.
Lemma set_dev_kb P (s : KState D) d : kb P s → kb P (set_dev s d).
Proof. intros [[] ? ? ?]. split; [|done..]. by split. Qed.
Lemma bst_dev {A} S P b (p : io A) d a :
  bst S P b → BlockDev.run p (dev (bks b)) = (d, a) → bst S P (upd b (set_dev (bks b) d)).
Proof.
  intros Hb E. eapply bst_upd; [exact Hb| |done|done|]; [apply set_dev_kb, Hb|]. intros Hd.
  apply (dv_run _ p) in Hd. by rewrite E in Hd.
Qed.
Lemma bst_store {A} S P b (p : io A) d a st :
  bst S P b → BlockDev.run p (dev (bks b)) = (d, a) → bst S P (mkB (with_ks (b_kern b) (set_dev (bks b) d)) st (b_log b)).
Proof. intros Hb E. destruct (bst_dev S P b p d a Hb E). by split. Qed.
End wp.

Section wp_caps.
Context `{Bitflags} `{MapperLaws} {D : Type} `{BlockDev D} `{!DevInv D}.
Implicit Types (b : BootSt D) (P : packed) (S : SState → Prop).

(** What a change of capabilities alone keeps. *)
Definition caps_apart (s s' : KState D) : Prop := s' = set_caps s (caps s').

Lemma wp_mint_pure S n P b kd r (f : KState D → KState D * option Z) (Q : option Z → BootSt D → Prop) :
  bst S P b → small n P → n < 255 → fits 16 (raw kd) → fits 16 r →
  (∀ s, f s = mint_root s kd r (λ k _, Some k)) →
  (∀ b', bst S (mint_p P kd r) b' → caps_apart (bks b) (bks b') → Q (Some (zlen (p_tabs P).[0])) b') →
  wpb (caps_do f) Q b.
Proof.
  intros Hb Hs Hn Hkd Hr Hf HQ. destruct (mint_pure_p n P (bks b) kd r (bs_kb _ _ _ Hb) Hs Hn Hkd Hr) as (s' & E & E' & Hk).
  eapply wpb_caps; [rewrite Hf; exact E|]. apply HQ; [|by rewrite E'].
  eapply bst_upd; [exact Hb|exact Hk|by rewrite E'..].
Qed.

Lemma wp_init_root S n P b (Q : option Z → BootSt D → Prop) :
  bst S P b → small n P → n < 255 →
  (∀ b', bst S (mint_p P Kind.Memory 0x2f) b' → caps_apart (bks b) (bks b') → Q (Some (zlen (p_tabs P).[0])) b') →
  wpb (caps_do init_root) Q b.
Proof.
  intros Hb Hs Hn. apply (wp_mint_pure S n P b Kind.Memory 0x2f); [done|done|done|by vm_compute|by vm_compute|].
  intros s. unfold init_root. by rewrite !rights_union_spec.
Qed.
Lemma wp_notification S n P b (Q : option Z → BootSt D → Prop) :
  bst S P b → small n P → n < 255 →
  (∀ b', bst S (mint_p P Kind.Notification 0xf) b' → caps_apart (bks b) (bks b') → Q (Some (zlen (p_tabs P).[0])) b') →
  wpb (caps_do create_notification) Q b.
Proof.
  intros Hb Hs Hn. apply (wp_mint_pure S n P b Kind.Notification 0xf); [done|done|done|by vm_compute|by vm_compute|].
  intros s. unfold create_notification. by rewrite !rights_union_spec.
Qed.
Lemma wp_endpoint S n P b (Q : option Z → BootSt D → Prop) :
  bst S P b → small n P → n < 255 →
  (∀ b', bst S (mint_p P Kind.Endpoint 0x4f) b' → caps_apart (bks b) (bks b') → Q (Some (zlen (p_tabs P).[0])) b') →
  wpb (caps_do create_endpoint) Q b.
Proof.
  intros Hb Hs Hn. apply (wp_mint_pure S n P b Kind.Endpoint 0x4f); [done|done|done|by vm_compute|by vm_compute|].
  intros s. unfold create_endpoint. by rewrite !rights_union_spec.
Qed.
Lemma wp_timeslice S n P b (Q : option Z → BootSt D → Prop) :
  bst S P b → small n P → n < 255 →
  (∀ b', bst S (mint_p P Kind.TimeSlice 4) b' → caps_apart (bks b) (bks b') → Q (Some (zlen (p_tabs P).[0])) b') →
  wpb (caps_do mint_timeslice) Q b.
Proof. intros Hb Hs Hn. by apply (wp_mint_pure S n P b Kind.TimeSlice 4). Qed.

(** Delegating the capability just minted. *)
Lemma wp_delegate S n P b d c mask oid r kd (f : KState D → KState D * option Z) (Q : option Z → BootSt D → Prop) :
  bst S P b → small n P → n < 255 → 1 <= d < MAX_DOMAINS → 0 <= c < zlen (p_tabs P).[0] →
  (p_tabs P).[0].[c] = mkCapEntry oid r 0 kd 0 → submask Rights.DELEGATE r → live P (mkCapEntry oid r 0 kd 0) →
  (∀ s, f s = delegate_from_root s d c mask 0) →
  (∀ b', bst S (add_cap P d (mkCapEntry oid (Z.land r mask) 0 kd 0)) b' → caps_apart (bks b) (bks b') →
     Q (Some (zlen (p_tabs P).[d])) b') →
  wpb (caps_do f) Q b.
Proof.
  intros Hb Hs Hn Hd Hc He Hdel Hl Hf HQ.
  destruct (delegate_p n P (bks b) d c mask oid r kd (bs_kb _ _ _ Hb) Hs Hn Hd Hc He Hdel Hl) as (s' & E & E' & Hk).
  eapply wpb_caps; [rewrite Hf; exact E|]. apply HQ; [|by rewrite E']. eapply bst_upd; [exact Hb|exact Hk|by rewrite E'..].
Qed.

(** Invoking a live capability. *)
Lemma wp_invoke S n P b d c m a e (f : KState D → KState D * (Status * Z)) (Q : Status * Z → BootSt D → Prop) :
  bst S P b → small n P → n < 256 → 0 <= d < MAX_DOMAINS → 0 <= c < zlen (p_tabs P).[d] →
  (p_tabs P).[d].[c] = e → live P e → submask Rights.INVOKE (rights e) → type_tag e ≠ Kind.Notification →
  f (bks b) = cap_invoke_in (bks b) d c m a →
  (∀ s' x, dispatch_method (bks b) d (type_tag e) (object_id e) (rights e) m a = (s', x) → bst S P (upd b s') →
     extents s' = extents (bks b) → devqueues s' = devqueues (bks b) → Q x (upd b s')) →
  wpb (caps_do f) Q b.
Proof.
  intros Hb Hs Hn Hd Hc He Hl Hi Hnn Hf HQ.
  pose proof (cap_invoke_eq n P (bks b) d c m a e (bs_kb _ _ _ Hb) Hs Hn Hd Hc He Hl Hi) as Hin.
  destruct (dispatch_method (bks b) d (type_tag e) (object_id e) (rights e) m a) as [s' x] eqn:Hm.
  assert (Ho : 0 <= object_id e < OBJECT_TABLE_SIZE).
  { destruct Hl as [Ho _]. pose proof (sm_objs n P Hs). unfold OBJECT_TABLE_SIZE. lia. }
  destruct (dispatch_kb P (bks b) d _ _ _ m a s' x (bs_kb _ _ _ Hb) Hd Ho Hm) as (Hk & E1 & E2 & E3 & E4).
  destruct (dispatch_dev P (bks b) d _ _ _ m a s' x (bs_kb _ _ _ Hb) Hd Hm) as [p Ep].
  eapply wpb_caps; [rewrite Hf, Hin; reflexivity|]. apply HQ; [done| |done|done].
  eapply bst_upd; [exact Hb|done|done|auto|]. rewrite Ep. apply dv_run.
Qed.

(** An invocation that finds no capability. *)
Lemma wp_invoke_out S n P b d c m a (Q : Status * Z → BootSt D → Prop) :
  bst S P b → small n P → n < 256 → 0 <= d < MAX_DOMAINS → zlen (p_tabs P).[d] <= c →
  Q (ErrBadCPtr, 0) (upd b (bks b)) → wpb (caps_do (λ s, cap_invoke_in s d c m a)) Q b.
Proof.
  intros Hb Hs Hn Hd Hc HQ. eapply wpb_caps; [|exact HQ]. unfold cap_invoke_in.
  rewrite Z.min_l by (unfold MAX_DOMAINS in *; lia). by rewrite (resolve_out n P (bks b) d c m (bs_kb _ _ _ Hb)).
Qed.

(** The boot thread invokes through the root table. *)
Lemma cap_invoke_root P b c m a : kb P (bks b) → cap_invoke (bks b) c m a = cap_invoke_in (bks b) 0 c m a.
Proof. intros Hk. unfold cap_invoke, current_domain. by rewrite (kb_dom _ _ Hk). Qed.
End wp_caps.

(** ** Single methods *)

Section methods.
Context `{Bitflags} `{Mapper} {D : Type} `{BlockDev D}.
Implicit Types (s : KState D).

Lemma method_denied s d kd oid r m a :
  ¬ submask (extra_rights kd m) r → dispatch_method s d kd oid r m a = (s, (ErrRights, 0)).
Proof. intros Hn. unfold dispatch_method. rewrite rights_contains_eq, bool_decide_false by done. done. Qed.

Lemma method_read s d oid r a :
  submask Rights.READ r → oid < OBJECT_TABLE_SIZE →
  dispatch_method s d Kind.Extent oid r X_READ a = (s, (StOk, hash (extents s).[oid])).
Proof.
  intros Hr Ho. unfold dispatch_method. rewrite rights_contains_eq, bool_decide_true by exact Hr.
  change (negb true) with false. cbv iota. by rewrite (proj2 (Z.ltb_lt _ _)).
Qed.
Lemma method_write s d oid r a :
  submask Rights.WRITE r → dispatch_method s d Kind.Extent oid r X_WRITE a = (s, (ErrMethod, 0)).
Proof. intros Hr. unfold dispatch_method. by rewrite rights_contains_eq, bool_decide_true by exact Hr. Qed.
Lemma method_map s d oid r a :
  submask Rights.MAP r → dispatch_method s d Kind.Extent oid r X_MAP a = extent_map s d oid.
Proof. intros Hr. unfold dispatch_method. by rewrite rights_contains_eq, bool_decide_true by exact Hr. Qed.
Lemma method_dqmap s d oid r a :
  submask Rights.MAP r → dispatch_method s d Kind.DeviceQueue oid r DQ_MAP a = devqueue_map s d oid.
Proof. intros Hr. unfold dispatch_method. by rewrite rights_contains_eq, bool_decide_true by exact Hr. Qed.
Lemma method_submit s d oid r a :
  submask Rights.WRITE r → dispatch_method s d Kind.DeviceQueue oid r DQ_SUBMIT a = devqueue_submit s oid a.
Proof. intros Hr. unfold dispatch_method. by rewrite rights_contains_eq, bool_decide_true by exact Hr. Qed.
Lemma method_signal s d oid r a :
  submask Rights.WRITE r → dispatch_method s d Kind.Notification oid r N_SIGNAL a = (notify_signal s oid a, (StOk, 0)).
Proof. intros Hr. unfold dispatch_method. by rewrite rights_contains_eq, bool_decide_true by exact Hr. Qed.
Lemma method_poll s d oid r a :
  submask Rights.READ r →
  dispatch_method s d Kind.Notification oid r N_POLL a = ((notify_take s oid).1, (StOk, (notify_take s oid).2)).
Proof.
  intros Hr. unfold dispatch_method. rewrite rights_contains_eq, bool_decide_true by exact Hr.
  change (negb true) with false. cbv iota. by destruct (notify_take s oid).
Qed.
Lemma method_alloc s d oid r a :
  let x := (dispatch_method s d Kind.Memory oid r M_ALLOC a).2 in x.1 = StOk ∨ x.1 = ErrRights.
Proof.
  unfold dispatch_method. destruct (negb _); [by right|]. change (arm Kind.Memory M_ALLOC Kind.Memory M_ALLOC) with true. cbv iota.
  destruct (alloc (fa s)) as [f [fr|]]; [by left|by right].
Qed.
Lemma method_free s d oid r a : dispatch_method s d Kind.Memory oid r M_FREE a = (s, (ErrMethod, 0)).
Proof.
  unfold dispatch_method. rewrite rights_contains_eq, bool_decide_true; [done|].
  change (extra_rights Kind.Memory M_FREE) with rights_empty. rewrite rights_empty_spec. done.
Qed.
End methods.

(** ** The phases *)

(** At most [k] more objects and capabilities; the tables [ds] as before. *)
Record phase_post {D} `{DevInv D} (S : SState → Prop) (n k : Z) (ds : list Z) (P : packed) (b : BootSt D) (P' : packed) : Prop := {
  pp_bst : bst S P' b;
  pp_small : small (n + k) P';
  pp_tabs d : d ∈ ds → (p_tabs P').[d] = (p_tabs P).[d];
  pp_root : zlen (p_tabs P).[0] <= zlen (p_tabs P').[0];
}.
Definition phase {D} `{DevInv D} (S : SState → Prop) (n k : Z) (ds : list Z) (P : packed) (_ : unit) (b : BootSt D) : Prop :=
  ∃ P', phase_post S n k ds P b P'.

(** Forget how the state of the goal came about. *)
Ltac name_state b := match goal with |- wpb _ _ ?x => set (b := x) in *; clearbody b end.

(** The virtio driver keeps its physical addresses, which fit the page tables. *)
#[export] Instance disk_inv {V} `{VirtioDev V} {VL : VirtioLaws V} hhdm : DevInv (Disk V hhdm).
Proof.
  exists (λ d, dq_fits (dq_meta (disk_vb hhdm d) 0 0)). intros A p d Hd. by destruct (run_vb hhdm p d) as [-> | ->].
Defined.

Section phases.
Context {V : Type} `{VirtioDev V} {VL : VirtioLaws V} `{Bitflags} `{MapperLaws}.
Variable (hhdm : Z).
Abbreviation D := (Disk V hhdm).
Implicit Types (b : BootSt D) (P : packed) (S : SState → Prop).

Lemma phase_intro S n k ds P b P' :
  bst S P' b → small (n + k) P' → (∀ d, d ∈ ds → (p_tabs P').[d] = (p_tabs P).[d]) →
  zlen (p_tabs P).[0] <= zlen (p_tabs P').[0] → phase S n k ds P tt b.
Proof. intros. by exists P'. Qed.

(** The entry just minted. *)
Lemma minted_get n P kd r :
  small n P → zlen (p_tabs (mint_p P kd r)).[0] = zlen (p_tabs P).[0] + 1 ∧
  (p_tabs (mint_p P kd r)).[0].[zlen (p_tabs P).[0]] = mkCapEntry (zlen (p_objs P)) r 0 kd 0.
Proof.
  intros Hs. rewrite (mint_p_tab n) by (done || by vm_compute). rewrite decide_True by done.
  split; [apply zlen_snoc|apply snoc_get].
Qed.
Lemma minted_other n P kd r d : small n P → 1 <= d < MAX_DOMAINS → (p_tabs (mint_p P kd r)).[d] = (p_tabs P).[d].
Proof. intros Hs Hd. rewrite (mint_p_tab n) by (done || lia). rewrite decide_False by lia. done. Qed.

Lemma zlen_pos {A} (l : list A) : 0 <= zlen l.
Proof. unfold zlen. lia. Qed.

Lemma wp_mint_extent S n P b l m h frame (f : KState D → KState D * option Z) (Q : option Z → BootSt D → Prop) :
  bst S P b → small n P → n < 255 → fits 52 frame → (∀ s, f s = mint_extent_inner s l m h frame) →
  (∀ b', bst S (mint_p P Kind.Extent 0x2f) b' → (extents (bks b')).[zlen (p_objs P)] = mkExt l m h frame →
     fa (bks b') = fa (bks b) → Q (Some (zlen (p_tabs P).[0])) b') →
  wpb (caps_do f) Q b.
Proof.
  intros Hb Hs Hn Hf Ef HQ. destruct (mint_extent_p n P (bks b) l m h frame (bs_kb _ _ _ Hb) Hs Hn Hf) as (s2 & E2 & Hk2 & X2 & S2 & N2 & F2 & D2).
  eapply wpb_caps; [rewrite Ef; exact E2|]. apply HQ; [|done|done].
  eapply bst_upd; [exact Hb|done|done|done|by rewrite D2].
Qed.

Lemma recover_phase_ok S n P b :
  bst S P b → small n P → n < 254 →
  wpb (recover_phase hhdm) (λ u b', phase S n 1 [1; 2; 3; 4; 5] P u b' ∧ fa (bks b') = fa (bks b)) b.
Proof.
  intros Hb Hs Hn. unfold recover_phase. apply wpb_bind, wpb_store. intros d st r Er.
  pose proof (bst_store S P b _ d _ st Hb Er) as Hb1. clear Er. set (b1 := mkB _ st _) in *.
  assert (F1 : fa (bks b1) = fa (bks b)) by done. clearbody b1. clear Hb.
  destruct r as [[[rlba rlen] rhash]|].
  2:{ apply wpb_say. split; [|done]. apply (phase_intro S n 1 _ P _ P); [by apply bst_say|apply (small_mono n); [done|lia]|done|lia]. }
  apply wpb_bind. apply (wp_mint_extent S n P b1 rlba rlen rhash 0); [done|done|lia|by vm_compute|done|]. intros b2 Hb2 X2 F2.
  destruct (minted_get n P Kind.Extent 0x2f Hs) as [L2 G2]. pose proof (small_mint n P Kind.Extent 0x2f Hs) as Hs2.
  apply wpb_bind. eapply (wp_invoke S (n + 1) _ b2 0 _ X_READ 0); [done|done|lia|by vm_compute| |exact G2|apply mint_p_live|done|done| |].
  { rewrite L2. pose proof (zlen_pos (p_tabs P).[0]). lia. }
  { by apply (cap_invoke_root (mint_p P Kind.Extent 0x2f)), Hb2. }
  intros s3 x Hx Hb3 X3 _. apply wpb_say.
  cbn [type_tag object_id rights] in Hx. pose proof (sm_objs n P Hs).
  rewrite method_read in Hx by (done || (unfold OBJECT_TABLE_SIZE; lia)). injection Hx as <- <-.
  split; [|by rewrite <- F1, <- F2]. apply (phase_intro S n 1 _ P _ (mint_p P Kind.Extent 0x2f)); [|done| |rewrite L2; lia].
  - apply bst_say; [done|]. cbn [expected fst snd]. rewrite X2. cbn [hash]. by rewrite Z.eqb_refl.
  - intros d' Hd'. apply (minted_other n); [done|]. set_unfold. unfold MAX_DOMAINS. lia.
Qed.

(** Delegating a root capability: its copy is the newest capability of [d]. *)
Lemma wp_delegate_root S n P b d c mask mask' oid r kd (Q : option Z → BootSt D → Prop) :
  let e := mkCapEntry oid (Z.land r mask') 0 kd 0 in
  let P' := add_cap P d e in
  bst S P b → small n P → n < 255 → 1 <= d < MAX_DOMAINS → 0 <= c < zlen (p_tabs P).[0] →
  (p_tabs P).[0].[c] = mkCapEntry oid r 0 kd 0 → submask Rights.DELEGATE r → live P (mkCapEntry oid r 0 kd 0) → mask = mask' →
  (∀ b', bst S P' b' → small (n + 1) P' → caps_apart (bks b) (bks b') →
     (p_tabs P').[d].[zlen (p_tabs P).[d]] = e → zlen (p_tabs P').[d] = zlen (p_tabs P).[d] + 1 →
     (∀ d', 0 <= d' → d' ≠ d → (p_tabs P').[d'] = (p_tabs P).[d']) → Q (Some (zlen (p_tabs P).[d])) b') →
  wpb (caps_do (λ s, delegate_from_root s d c mask 0)) Q b.
Proof.
  intros e P' Hb Hs Hn Hd Hc He Hdel Hl -> HQ. apply (wp_delegate S n P b d c mask' oid r kd); try done. intros b' Hb' Hc'.
  assert (Ht : ∀ d', 0 <= d' → (p_tabs P').[d'] = if decide (d = d') then (p_tabs P).[d] ++ [e] else (p_tabs P).[d']).
  { intros d' Hd'. apply tab_add_cap; [apply Hs|lia|done]. }
  apply HQ; [done|apply small_add_cap; [done|lia]|done|..].
  - rewrite Ht, decide_True by (done || lia). apply snoc_get.
  - rewrite Ht, decide_True by (done || lia). apply zlen_snoc.
  - intros d' Hd' Hne. by rewrite Ht, decide_False by (congruence || lia).
Qed.

(** Delegating the root capability just minted. *)
Lemma wp_delegate_new S n P kd r b d mask mask' (Q : option Z → BootSt D → Prop) :
  let P1 := mint_p P kd r in
  let P2 := add_cap P1 d (mkCapEntry (zlen (p_objs P)) (Z.land r mask') 0 kd 0) in
  bst S P1 b → small n P → n < 253 → 1 <= d < MAX_DOMAINS → submask Rights.DELEGATE r → mask = mask' →
  (∀ b', bst S P2 b' → small (n + 2) P2 → caps_apart (bks b) (bks b') →
     (p_tabs P2).[d].[zlen (p_tabs P).[d]] = mkCapEntry (zlen (p_objs P)) (Z.land r mask') 0 kd 0 →
     zlen (p_tabs P2).[d] = zlen (p_tabs P).[d] + 1 →
     (p_tabs P2).[0] = (p_tabs P1).[0] →
     (∀ d', 1 <= d' < MAX_DOMAINS → d' ≠ d → (p_tabs P2).[d'] = (p_tabs P).[d']) →
     Q (Some (zlen (p_tabs P).[d])) b') →
  wpb (caps_do (λ s, delegate_from_root s d (zlen (p_tabs P).[0]) mask 0)) Q b.
Proof.
  intros P1 P2 Hb Hs Hn Hd Hdel Hm HQ. destruct (minted_get n P kd r Hs) as [L1 G1]. pose proof (zlen_pos (p_tabs P).[0]).
  pose proof (minted_other n P kd r d Hs Hd) as E1. fold P1 in E1.
  apply (wp_delegate_root S (n + 1) P1 b d (zlen (p_tabs P).[0]) mask mask' (zlen (p_objs P)) r kd);
    [done|by apply small_mint|lia|done|unfold P1; rewrite L1; lia|exact G1|done|apply mint_p_live|done|].
  rewrite E1. intros b' Hb' Hs' Hc' G' L' O'. apply HQ; try done.
  - by replace (n + 2) with (n + 1 + 1) by lia.
  - apply O'; lia.
  - intros d' Hd' Hne. rewrite O' by lia. by apply (minted_other n).
Qed.

(** Invoking the newest capability of domain [d]. *)
Lemma wp_invoke_new S n P b d c m a e (Q : Status * Z → BootSt D → Prop) :
  bst S P b → small n P → n < 256 → 0 <= d < MAX_DOMAINS → 0 <= c → zlen (p_tabs P).[d] = c + 1 →
  (p_tabs P).[d].[c] = e → live P e → submask Rights.INVOKE (rights e) →
  type_tag e ≠ Kind.Notification →
  (∀ s' x, dispatch_method (bks b) d (type_tag e) (object_id e) (rights e) m a = (s', x) → bst S P (upd b s') →
     extents s' = extents (bks b) → devqueues s' = devqueues (bks b) → Q x (upd b s')) →
  wpb (caps_do (λ s, cap_invoke_in s d c m a)) Q b.
Proof. intros Hb Hs Hn Hd Hc Hl He Hlv Hi Hnn HQ. by apply (wp_invoke S n P b d c m a e); try done; lia. Qed.

Lemma extent_metadata_ok n P b c oid l m h frame :
  kb P (bks b) → small n P → n < 256 → 0 <= c < zlen (p_tabs P).[0] →
  (p_tabs P).[0].[c] = mkCapEntry oid 0x2f 0 Kind.Extent 0 → live P (mkCapEntry oid 0x2f 0 Kind.Extent 0) →
  (extents (bks b)).[oid] = mkExt l m h frame → extent_metadata (bks b) 0 c = Some (l, m, h).
Proof.
  intros Hk Hs Hn Hc He Hl Hx. unfold extent_metadata. change (Z.min 0 _) with 0.
  rewrite (resolve_packed n P (bks b) 0 c X_READ _ Hk Hs Hn ltac:(by vm_compute) Hc He Hl) by done.
  rewrite rights_contains_eq. cbn [type_tag rights object_id]. destruct Hl as [Ho _]. cbn [object_id] in Ho. pose proof (sm_objs n P Hs).
  rewrite !bool_decide_true by done. cbn [andb]. rewrite (proj2 (Z.leb_gt _ _)) by (unfold OBJECT_TABLE_SIZE; lia). by rewrite Hx.
Qed.

Lemma extent_caps_ok S n P b lba len hsh :
  bst S P b → small n P → n < 253 →
  wpb (extent_caps hhdm lba len hsh) (λ u b', phase S n 2 [1; 2; 4; 5] P u b' ∧ fa (bks b') = fa (bks b)) b.
Proof.
  intros Hb Hs Hn. unfold extent_caps. pose proof (zlen_pos (p_tabs P).[0]). pose proof (sm_objs n P Hs) as Hob.
  assert (Hot : zlen (p_objs P) < OBJECT_TABLE_SIZE) by (unfold OBJECT_TABLE_SIZE; lia).
  apply wpb_bind. apply (wp_mint_extent S n P b lba len hsh 0); [done|done|lia|by vm_compute|done|]. intros b2 Hb2 X2 F2.
  destruct (minted_get n P Kind.Extent 0x2f Hs) as [L2 G2]. pose proof (small_mint n P Kind.Extent 0x2f Hs) as Hs2.
  apply wpb_bind. eapply (wp_invoke S (n + 1) _ b2 0 _ X_READ 0); [done|done|lia|by vm_compute| |exact G2|apply mint_p_live|done|done| |].
  { rewrite L2. lia. }
  { by apply (cap_invoke_root (mint_p P Kind.Extent 0x2f)), Hb2. }
  intros s3 x Hx Hb3 X3 _. cbn [type_tag object_id rights] in Hx. rewrite method_read in Hx by done. injection Hx as <- <-.
  apply wpb_bind, wpb_get.
  rewrite (extent_metadata_ok (n + 1) (mint_p P Kind.Extent 0x2f) (upd b2 (bks b2)) _ (zlen (p_objs P)) lba len hsh 0);
    [|apply Hb3|done|lia|rewrite L2; lia|done|apply mint_p_live|done].
  apply wpb_bind, wpb_io. intros d hd Ehd. apply wpb_bind, wpb_say.
  match goal with |- wpb _ _ (mkB _ _ (_ ++ [?l])) => assert (He : expected l) end.
  { cbn [expected fst snd]. rewrite X2. cbn [hash]. rewrite Z.eqb_refl, !bool_decide_true by done. cbn [andb].
    by rewrite bool_decide_eq_true. }
  pose proof (bst_say _ _ _ _ (bst_dev _ _ _ _ d _ Hb3 Ehd) He) as Hb4. set (b4 := mkB _ _ _) in *.
  assert (F4 : fa (bks b4) = fa (bks b)) by exact F2. clearbody b4. clear X2 Hb3 Ehd.
  apply wpb_bind. apply (wp_delegate_new S n P Kind.Extent 0x2f b4 3 _ 6); [done|done|lia|by vm_compute|done| |].
  { by rewrite rights_union_spec. }
  intros b5 Hb5 Hs5 A5 G5 L5 R5 O5. set (P2 := add_cap _ 3 _) in *. pose proof (zlen_pos (p_tabs P).[3]).
  assert (Hlv : live P2 (mkCapEntry (zlen (p_objs P)) (Z.land 0x2f 6) 0 Kind.Extent 0)) by apply live_new.
  apply wpb_bind. eapply (wp_invoke_new S (n + 2) P2 b5 3 _ X_READ 0 _); [done|done|lia|by vm_compute|done|done|exact G5|done|done|done|].
  intros s6 x6 Hx6 Hb6 _ _. rewrite method_denied in Hx6 by (by vm_compute). injection Hx6 as <- <-.
  apply wpb_bind. eapply (wp_invoke_new S (n + 2) P2 _ 3 _ X_WRITE 0 _); [exact Hb6|done|lia|by vm_compute|done|done|exact G5|done|done|done|].
  intros s7 x7 Hx7 Hb7 _ _. cbn [type_tag object_id rights] in Hx7. rewrite method_write in Hx7 by done. injection Hx7 as <- <-.
  apply wpb_say. split; [|unfold bks, upd in *; cbn [b_kern ks with_ks]; by rewrite A5, <- F4].
  apply (phase_intro S n 2 _ P _ P2); [by apply bst_say|done| |rewrite R5, L2; lia].
  intros d' Hd'. apply O5; set_unfold; unfold MAX_DOMAINS; lia.
Qed.

(** [load_extent] keeps the allocator apart from the page tables, and takes a free frame. *)
Lemma load_extent_wf p f lba len (d : D) :
  pt_wf p f →
  let '(_, (f', r)) := BlockDev.run (load_extent f lba len) d in
  pt_wf p f' ∧ match r with Some (phys, _) => ∃ fr, fr ∈ mem_set f ∧ phys = wrap 64 (fr * 4096) | None => True end.
Proof.
  intros Hw. unfold load_extent. destruct (_ || _); [by cbn|].
  destruct (alloc f) as [f1 r] eqn:Ha. destruct (alloc_wf p f f1 r Hw Ha) as [Hw1 Hr]. destruct r as [fr|]; [|by cbn].
  destruct Hr as (Hlow & Hset & Hf & _). rewrite run_bind. cbn [BlockDev.run].
  destruct (BlockDev.run (load_loop _ _ _ _ _) d) as [d' [content|]]; cbn [fst snd].
  - split; [done|]. exists fr. split; [apply Hlow|done].
  - split; [|done]. destruct (free_law f1 fr (proj1 Hw1) ltac:(unfold u64_max; lia)) as (Hi & Hin & Hout).
    split; [done|]. split; [apply Hw|]. intros g Hg. apply (proj2 (proj2 Hw)). destruct Hlow as [Hin' _].
    pose proof (alloc_accepts f fr (proj1 Hw)) as Hacc. rewrite Ha in Hacc. rewrite Hin in Hg by (by apply Hacc). set_solver.
Qed.

Definition frames_fit (f : FrameAllocator) : Prop := ∀ fr, fr ∈ mem_set f → 0 <= fr < 2 ^ 40.

Lemma extent_map_result (s : KState D) d oid :
  oid < OBJECT_TABLE_SIZE → let x := (extent_map s d oid).2 in x = (StOk, EXTENT_MAP_BASE) ∨ x = (ErrMethod, 0).
Proof.
  intros Ho. unfold extent_map. rewrite (proj2 (Z.leb_gt _ _)) by lia. destruct (_ =? 0); [by right|].
  destruct (map_user_phys _ _ _ _ _ _ _) as [[p f] []]; [by left|by right].
Qed.

Lemma set_mem_kb P (s : KState D) f : kb P s → pt_wf (pt s) f → kb P (set_mem s f (pt s)).
Proof. intros [[] ? ? ?] Hw. split; [|done..]. by split. Qed.

Lemma extent_mapping_ok S n P b lba len hsh :
  bst S P b → small n P → n < 253 → frames_fit (fa (bks b)) →
  wpb (extent_mapping hhdm lba len hsh) (phase S n 2 [1; 2; 4; 5] P) b.
Proof.
  intros Hb Hs Hn Hf. unfold extent_mapping. pose proof (zlen_pos (p_tabs P).[0]). pose proof (sm_objs n P Hs) as Hob.
  assert (Hot : zlen (p_objs P) < OBJECT_TABLE_SIZE) by (unfold OBJECT_TABLE_SIZE; lia).
  pose proof (load_extent_wf (pt (bks b)) (fa (bks b)) lba len (dev (bks b)) (kw_pt _ (kb_wf _ _ (bs_kb _ _ _ Hb)))) as Hl.
  destruct (BlockDev.run (load_extent (fa (bks b)) lba len) (dev (bks b))) as [d [f r]] eqn:El.
  destruct Hl as [Hw Hr]. apply wpb_bind. eapply wpb_caps; [by rewrite El|].
  assert (Hb1 : bst S P (upd b (set_mem (set_dev (bks b) d) f (pt (bks b))))).
  { eapply bst_upd; [exact Hb| |done|done|].
    - apply (set_mem_kb P (set_dev (bks b) d)); [apply set_dev_kb, Hb|done].
    - intros Hdv. apply (dv_run _ (load_extent (fa (bks b)) lba len)) in Hdv. by rewrite El in Hdv. }
  set (b1 := upd b _) in *. clearbody b1.
  destruct r as [[phys content]|].
  2:{ apply wpb_say. apply (phase_intro S n 2 _ P _ P); [by apply bst_say|apply (small_mono n); [done|lia]|done|lia]. }
  destruct Hr as (fr & Hfr & ->). specialize (Hf fr Hfr).
  assert (Hph : fits 52 (wrap 64 (fr * 4096))) by (rewrite wrap_id; unfold fits; lia).
  apply wpb_bind. apply (wp_mint_extent S n P b1 lba len hsh (wrap 64 (fr * 4096))); [done|done|lia|done|done|].
  intros b2 Hb2 X2 _. destruct (minted_get n P Kind.Extent 0x2f Hs) as [L2 G2]. pose proof (small_mint n P Kind.Extent 0x2f Hs) as Hs2.
  apply wpb_bind. eapply (wp_invoke S (n + 1) _ b2 0 _ X_MAP 0); [done|done|lia|by vm_compute| |exact G2|apply mint_p_live|done|done| |].
  { rewrite L2. lia. }
  { by apply (cap_invoke_root (mint_p P Kind.Extent 0x2f)), Hb2. }
  intros s3 x Hx Hb3 _ _. cbn [type_tag object_id rights] in Hx. rewrite method_map in Hx by done.
  pose proof (extent_map_result (bks b2) 0 (zlen (p_objs P)) Hot) as Hres. rewrite Hx in Hres. cbn [snd] in Hres.
  apply wpb_bind, wpb_get. set (b3 := upd b2 s3) in *. change (upd b3 (bks b3)) with b3. clearbody b3.
  set (mh := if bool_decide _ then _ else None).
  apply wpb_bind. apply (wp_delegate_new S n P Kind.Extent 0x2f b3 3 _ 5); [done|done|lia|by vm_compute|done| |].
  { by rewrite rights_union_spec. }
  intros b5 Hb5 Hs5 A5 G5 L5 R5 O5. set (P2 := add_cap _ 3 _) in *. pose proof (zlen_pos (p_tabs P).[3]).
  assert (Hlv : live P2 (mkCapEntry (zlen (p_objs P)) (Z.land 0x2f 5) 0 Kind.Extent 0)) by apply live_new.
  apply wpb_bind. unfold map_do. apply wpb_bind.
  eapply (wp_invoke_new S (n + 2) P2 b5 3 _ X_MAP 0 _); [done|done|lia|by vm_compute|done|done|exact G5|done|done|done|].
  intros s6 x6 Hx6 Hb6 _ _. rewrite method_denied in Hx6 by (by vm_compute). injection Hx6 as <- <-.
  apply wpb_ret, wpb_say. apply (phase_intro S n 2 _ P _ P2); [|done| |rewrite R5, L2; lia].
  - apply bst_say; [done|]. cbn [expected]. split; [done|]. unfold mh. destruct Hres as [-> | ->]; [left|right]; by eauto.
  - intros d' Hd'. apply O5; set_unfold; unfold MAX_DOMAINS; lia.
Qed.

Lemma phase_seq {A} S n k ds P (m : boot D unit) (f : unit → boot D A) (Q : A → BootSt D → Prop) b :
  wpb m (phase S n k ds P) b →
  (∀ P' b', bst S P' b' → small (n + k) P' → (∀ d, d ∈ ds → (p_tabs P').[d] = (p_tabs P).[d]) →
     zlen (p_tabs P).[0] <= zlen (p_tabs P').[0] → wpb (f tt) Q b') →
  wpb (bind m f) Q b.
Proof.
  intros Hm Hf. apply wpb_bind. eapply wpb_mono; [exact Hm|]. intros [] b' [P' [H1' H2' H3' H4']]. by eapply Hf.
Qed.

(** The boot thread invokes the root capability it has just minted. *)
Lemma wp_invoke_root S n P kd r b m a (Q : Status * Z → BootSt D → Prop) :
  bst S (mint_p P kd r) b → small n P → n < 255 → kd ≠ Kind.Notification → submask Rights.INVOKE r →
  (∀ s' x, dispatch_method (bks b) 0 kd (zlen (p_objs P)) r m a = (s', x) → bst S (mint_p P kd r) (upd b s') → Q x (upd b s')) →
  wpb (caps_do (λ s, cap_invoke s (zlen (p_tabs P).[0]) m a)) Q b.
Proof.
  intros Hb Hs Hn Hkd Hi HQ. destruct (minted_get n P kd r Hs) as [L G]. pose proof (zlen_pos (p_tabs P).[0]).
  eapply (wp_invoke S (n + 1) _ b 0 _ m a); [exact Hb|by apply small_mint|lia|by vm_compute| |exact G|apply mint_p_live|done|done| |].
  - rewrite L. lia.
  - by apply (cap_invoke_root (mint_p P kd r)), Hb.
  - intros s' x Hx Hb' _ _. by apply HQ.
Qed.

Lemma extent_phase_ok S n P b :
  bst S P b → small n P → n < 251 → frames_fit (fa (bks b)) → wpb (extent_phase hhdm) (phase S n 4 [1; 2; 4; 5] P) b.
Proof.
  intros Hb Hs Hn Hf. unfold extent_phase. apply wpb_bind, wpb_store. intros d st r Er.
  pose proof (bst_store S P b _ d _ st Hb Er) as Hb1. clear Er. set (b1 := mkB _ st _) in *.
  assert (F1 : fa (bks b1) = fa (bks b)) by done. clearbody b1. rewrite <- F1 in Hf.
  destruct r as [[[lba len] hsh]|].
  2:{ apply wpb_say. apply (phase_intro S n 4 _ P _ P); [by apply bst_say|apply (small_mono n); [done|lia]|done|lia]. }
  apply wpb_bind. eapply wpb_mono; [apply (extent_caps_ok S n P b1); [done|done|lia]|].
  intros [] b2 [[P2 [Hb2 Hs2 T2 R2]] F2]. rewrite <- F2 in Hf.
  eapply wpb_mono; [apply (extent_mapping_ok S (n + 2) P2 b2); [done|done|lia|done]|].
  intros [] b3 [P3 [Hb3 Hs3 T3 R3]]. apply (phase_intro S n 4 _ P _ P3); [done| | |lia].
  - by replace (n + 4) with (n + 2 + 2) by lia.
  - intros d' Hd'. by rewrite T3, T2.
Qed.

Lemma cap_self_test_ok S n P b :
  bst S P b → small n P → n < 254 →
  wpb (cap_self_test hhdm)
    (λ _ b', ∃ P', phase_post S n 1 [1; 2; 3; 4; 5] P b' P' ∧ zlen (p_tabs P).[0] < zlen (p_tabs P').[0]) b.
Proof.
  intros Hb Hs Hn. unfold cap_self_test. apply wpb_bind. apply (wp_init_root S n P b); [done|done|lia|].
  intros b1 Hb1 _. apply wpb_bind, wpb_say. apply wpb_bind. apply (wp_invoke_root S n P Kind.Memory 0x2f); [by apply bst_say|done|lia|done|done|].
  intros s2 x2 Hx2 Hb2. apply wpb_bind, wpb_say.
  assert (E2 : expected (LAlloc x2.1 (x2.2 * 4096))).
  { pose proof (method_alloc (bks b1) 0 (zlen (p_objs P)) 0x2f 0) as Hr. cbv zeta in Hr. change (bks _) with (bks b1) in Hx2. by rewrite Hx2 in Hr. }
  pose proof (bst_say _ _ _ _ Hb2 E2) as Hb3. name_state b3. clear Hb1 Hb2 Hx2 E2.
  apply wpb_bind. apply (wp_invoke_root S n P Kind.Memory 0x2f); [done|done|lia|done|done|].
  intros s4 x4 Hx4 Hb4. apply wpb_bind, wpb_say.
  assert (E4 : expected (LAlloc x4.1 (x4.2 * 4096))).
  { pose proof (method_alloc (bks b3) 0 (zlen (p_objs P)) 0x2f 0) as Hr. cbv zeta in Hr. by rewrite Hx4 in Hr. }
  pose proof (bst_say _ _ _ _ Hb4 E4) as Hb5. name_state b5. clear Hb3 Hb4 Hx4 E4 b b1 Hb b3.
  apply wpb_bind. apply (wp_invoke_root S n P Kind.Memory 0x2f); [done|done|lia|done|done|].
  intros s6 x6 Hx6 Hb6. rewrite method_free in Hx6. injection Hx6 as <- <-. apply wpb_bind, wpb_say.
  pose proof (bst_say _ _ _ _ Hb6 (eq_refl : expected (LFree (ErrMethod, 0).1))) as Hb7. name_state b7. clear Hb6 Hb5 b5.
  destruct (minted_get n P Kind.Memory 0x2f Hs) as [L G]. pose proof (zlen_pos (p_tabs P).[0]).
  destruct (revoke_p (n + 1) _ (bks b7) (zlen (p_tabs P).[0]) _ (bs_kb _ _ _ Hb7) (small_mint n P _ _ Hs) ltac:(lia)
    ltac:(rewrite L; lia) G (mint_p_live _ _ _) eq_refl) as (Hl & _ & Hk & Hs' & Hst).
  apply wpb_bind. eapply wpb_caps.
  { unfold demo_revoke_then_invoke. rewrite Hl. unfold cap_invoke_in, resolve. change (Z.min 0 _) with 0. rewrite Hst. reflexivity. }
  apply wpb_say. eexists. split; [split; [|exact Hs'| |]|].
  - apply bst_say; [|done]. eapply bst_upd; [exact Hb7|exact Hk|done..].
  - intros d Hd. cbn [bump p_tabs]. apply (minted_other n); [done|]. set_unfold. unfold MAX_DOMAINS. lia.
  - cbn [bump p_tabs]. rewrite L. lia.
  - cbn [bump p_tabs]. rewrite L. lia.
Qed.

(** A phase that also gives domain 2 one more capability. *)
Definition phase2 S n k ds P (_ : unit) b : Prop :=
  ∃ P', phase_post S n k ds P b P' ∧ zlen (p_tabs P').[2] = zlen (p_tabs P).[2] + 1.

Lemma perdomain_test_ok S n P b :
  bst S P b → small n P → n < 253 → zlen (p_tabs P).[2] < zlen (p_tabs P).[0] →
  wpb (perdomain_test hhdm) (phase2 S n 2 [1; 3; 4; 5] P) b.
Proof.
  intros Hb Hs Hn Hlt. unfold perdomain_test. pose proof (zlen_pos (p_tabs P).[2]).
  apply wpb_bind. apply (wp_init_root S n P b); [done|done|lia|]. intros b1 Hb1 _.
  apply wpb_bind. apply (wp_delegate_new S n P Kind.Memory 0x2f b1 2 _ 4); [done|done|lia|by vm_compute|done|done|].
  intros b2 Hb2 Hs2 _ G2 L2 R2 O2. set (P2 := add_cap _ 2 _) in *.
  assert (Hlv : live P2 (mkCapEntry (zlen (p_objs P)) (Z.land 0x2f 4) 0 Kind.Memory 0)) by apply live_new.
  apply wpb_bind. eapply (wp_invoke_new S (n + 2) P2 b2 2 _ M_ALLOC 0 _); [done|done|lia|by vm_compute|done|done|exact G2|done|done|done|].
  intros s3 x3 Hx3 Hb3 _ _. cbn [type_tag object_id rights] in Hx3.
  pose proof (method_alloc (bks b2) 2 (zlen (p_objs P)) (Z.land 0x2f 4) 0) as Hr. cbv zeta in Hr. rewrite Hx3 in Hr. cbn [snd] in Hr.
  apply wpb_bind. apply (wp_invoke_out S (n + 2) P2); [done|done|lia|by vm_compute|unfold DEMO_DOMAIN; rewrite L2; lia|].
  apply wpb_say. exists P2. split; [|done]. destruct (minted_get n P Kind.Memory 0x2f Hs) as [L1 _].
  split; [by apply bst_say|done| |rewrite R2, L1; lia].
  intros d Hd. apply O2; set_unfold; unfold MAX_DOMAINS; lia.
Qed.

(** Signal, take, take again: the word is empty at the end. *)
Lemma notify_cycle P (s : KState D) oid :
  kb P s → Forall (λ w, w = 0) (notify s) → 0 <= oid < OBJECT_TABLE_SIZE →
  let s1 := notify_signal s oid 5 in
  let s2 := (notify_take s1 oid).1 in
  let s3 := (notify_take s2 oid).1 in
  kb P s1 ∧ (notify_take s1 oid).2 = 5 ∧ kb P s2 ∧ (notify_take s2 oid).2 = 0 ∧ kb P s3 ∧
  ss s3 = ss s ∧ dev s3 = dev s ∧ Forall (λ w, w = 0) (notify s3).
Proof.
  intros Hk Hq Ho s1 s2 s3. pose proof (kw_notify _ (kb_wf _ _ Hk)) as Hl.
  assert (Hz : (notify s).[oid] = 0) by (apply (Forall_aget _ _ oid Hq); by rewrite Hl).
  assert (Hkn : ∀ (s : KState D) l, kb P s → zlen l = OBJECT_TABLE_SIZE → kb P (set_notify s l)).
  { intros t l Ht Hlen. apply (kb_kept P t); try done. destruct (kb_wf _ _ Ht). by split. }
  assert (Ht : ∀ t : KState D, notify_take t oid = (set_notify t (notify t).[oid := 0], (notify t).[oid])).
  { intros t. unfold notify_take. by rewrite (proj2 (Z.leb_gt _ _)) by lia. }
  unfold s3, s2, s1, notify_signal. rewrite (proj2 (Z.ltb_lt _ _)) by lia. rewrite !Ht, Hz. cbn [fst snd notify set_notify ss].
  assert (H1l : zlen (notify s).[oid := Z.lor 0 5] = OBJECT_TABLE_SIZE) by by rewrite zlen_aset.
  split; [by apply Hkn|]. split; [by rewrite aget_aset_eq by (rewrite Hl; lia)|].
  split; [apply Hkn; [by apply Hkn|by rewrite zlen_aset]|]. split; [by rewrite aget_aset_eq by (rewrite H1l; lia)|].
  split; [apply Hkn; [apply Hkn; [by apply Hkn|by rewrite zlen_aset]|by rewrite !zlen_aset]|].
  split; [done|]. split; [done|]. unfold aset. rewrite !list_insert_insert_eq. by apply Forall_insert.
Qed.

Lemma notify_test_ok S n P b :
  bst S P b → small n P → n < 253 → wpb (notify_test hhdm) (phase2 S n 2 [1; 3; 4; 5] P) b.
Proof.
  intros Hb Hs Hn. unfold notify_test. pose proof (zlen_pos (p_tabs P).[2]). pose proof (zlen_pos (p_tabs P).[0]).
  pose proof (sm_objs n P Hs) as Hob. set (oid := zlen (p_objs P)) in *.
  assert (Hot : 0 <= oid < OBJECT_TABLE_SIZE) by (pose proof (zlen_pos (p_objs P)); unfold OBJECT_TABLE_SIZE; lia).
  apply wpb_bind. apply (wp_notification S n P b); [done|done|lia|]. intros b1 Hb1 _.
  apply wpb_bind. apply (wp_delegate_new S n P Kind.Notification 0xf b1 2 _ 6); [done|done|lia|by vm_compute|done| |].
  { by rewrite rights_union_spec. }
  intros b2 Hb2 Hs2 _ G2 L2 R2 O2. fold oid in G2. set (P2 := add_cap _ 2 _) in *. destruct (minted_get n P Kind.Notification 0xf Hs) as [L1 G1].
  assert (Hlv : live P2 (mkCapEntry oid (Z.land 0xf 6) 0 Kind.Notification 0)) by apply live_new.
  assert (Hlr : live P2 (mkCapEntry oid 0xf 0 Kind.Notification 0)) by apply live_new.
  assert (Hin : ∀ (s : KState D) m a, kb P2 s → cap_invoke_in s 2 (zlen (p_tabs P).[2]) m a =
    dispatch_method s 2 Kind.Notification oid (Z.land 0xf 6) m a).
  { intros s m a Hk. by apply (cap_invoke_eq (n + 2) P2 s 2 (zlen (p_tabs P).[2]) m a _ Hk Hs2 ltac:(lia) ltac:(by vm_compute) ltac:(rewrite L2; lia) G2). }
  assert (Hir : ∀ (s : KState D) m a, kb P2 s → cap_invoke_in s 0 (zlen (p_tabs P).[0]) m a =
    dispatch_method s 0 Kind.Notification oid 0xf m a).
  { intros s m a Hk. rewrite <- R2 in L1, G1.
    by apply (cap_invoke_eq (n + 2) P2 s 0 (zlen (p_tabs P).[0]) m a _ Hk Hs2 ltac:(lia) ltac:(by vm_compute) ltac:(rewrite L1; lia) G1). }
  destruct (notify_cycle P2 (bks b2) oid (bs_kb _ _ _ Hb2) (bs_quiet _ _ _ Hb2) Hot) as (K1 & V1 & K2 & V2 & K3 & Ess & Edv & Q3).
  apply wpb_bind. eapply wpb_caps; [rewrite Hin by apply Hb2; apply method_signal; done|].
  apply wpb_bind. eapply wpb_caps; [rewrite Hin by done; apply method_denied; by vm_compute|].
  apply wpb_bind. eapply wpb_caps; [rewrite Hir by done; apply method_poll; done|].
  apply wpb_bind. eapply wpb_caps; [rewrite Hir by done; apply method_poll; done|].
  apply wpb_say. exists P2. split; [|done]. split; [|done| |rewrite R2, L1; lia].
  - apply bst_say; [|by split_and!].
    split; [done|exact (eq_rect_r S (bs_ss _ _ _ Hb2) Ess)|done|exact (eq_rect_r dv (bs_dev _ _ _ Hb2) Edv)|apply Hb2].
  - intros d Hd. apply O2; set_unfold; unfold MAX_DOMAINS; lia.
Qed.
End phases.

(** ** Admission *)

(** At most [k] tasks besides the boot thread, none of them parked, and no tick yet. *)
Record armed (tns k : Z) (st : SState) : Prop := {
  ar_pre : sched_pre (sched st);
  ar_dom : domains_ok (sched st);
  ar_free i : 0 <= i < MAX_TASKS → t_blocked (tasks (sched st)).[i] = false;
  ar_num : num (sched st) <= k + 1;
  ar_cur : current (sched st) = 0;
  ar_ticks : ticks st = 0;
  ar_tns : tick_ns st = tns;
}.

(** Before [sched::init]. *)
Definition unarmed (tns : Z) (st : SState) : Prop := sched st = SCHED0 ∧ ticks st = 0 ∧ tick_ns st = tns.

Lemma armed_mono tns k k' st : armed tns k st → k <= k' → armed tns k' st.
Proof. intros [] Hk. split; try done. lia. Qed.

Section admission.
Context {V : Type} `{VirtioDev V} {VL : VirtioLaws V} `{Bitflags} `{MapperLaws}.
Context {HW : Type} {AH : ApicHw HW} {AL : ApicLaws HW}.
Variable (hhdm : Z) (sel : GdtSelectors) (stacks kstack saved : Z) (apic : HW).
Abbreviation tns := QUANTUM_NS.
Abbreviation D := (Disk V hhdm).
Implicit Types (b : BootSt D) (P : packed).

Lemma bst_mono (S S' : SState → Prop) P b : (∀ st, S st → S' st) → bst S P b → bst S' P b.
Proof. intros HS []. split; auto. Qed.

Lemma armed_now k st : armed tns k st → 0 <= now_ns st < u64_max.
Proof. intros []. apply (clock_now st 0); [done|]. unfold clock_ok. rewrite ar_ticks0, ar_tns0. by vm_compute. Qed.

Lemma armed_pre k P b : bst (armed tns k) P b → k_pre (bks b).
Proof.
  intros [[Hw _ He _] [] _ _ _]. split; [done|done|done|]. rewrite He.
  assert (Hep : ∀ oid, 0 <= oid < OBJECT_TABLE_SIZE → (replicate (Z.to_nat OBJECT_TABLE_SIZE) EP_EMPTY).[oid] = EP_EMPTY).
  { intros oid Ho. by rewrite aget_replicate by (unfold OBJECT_TABLE_SIZE in *; lia). }
  split.
  - intros oid Ho Hne. by rewrite Hep in Hne.
  - intros i Hi _ Hb. by rewrite ar_free0 in Hb.
  - intros oid Ho. by rewrite Hep.
Qed.

(** The window's page is not a granted one: the direct map is not in the low half. *)
Definition lapic_apart : Prop :=
  ∀ va, va ∈ grant_vas → vpn va ≠ vpn (hhdm + Z.land (hw_rdmsr apic IA32_APIC_BASE) APIC_BASE_ADDR_MASK).

Lemma wp_timer P b (Q : bool → BootSt D → Prop) :
  bst (unarmed tns) P b → lapic_apart → (∀ b' ok, bst (unarmed tns) P b' → Q ok b') → wpb (timer_phase hhdm apic) Q b.
Proof.
  intros [Hk (Es & Et & En) Hq Hdv Hl] Hap HQ. unfold timer_phase.
  pose proof (init_timer_keeps (mkApic HW 0 (tick_ns (ss (bks b))) apic (pt (bks b)) (fa (bks b))) hhdm (kw_pt _ (kb_wf _ _ Hk))) as Hi.
  destruct (init_timer _ _) as [a ok] eqn:E. destruct Hi as (Hw & Htk & Ht). cbn [hw ap_ps TICK_NS] in Htk, Ht.
  eapply wpb_caps; [by rewrite E|]. apply HQ. split; [|split; [done|split; [done|]]|done..].
  - destruct Hk as [[] Q2 Q3 Q4]. split; [|done..]. split; try done. cbn [pt domain_maps set_mem set_ss].
    destruct kw_ledger as [L1 L2]. split; [done|]. intros va. rewrite L2.
    split; intros [Hin Hne]; (split; [done|]); by rewrite Ht in * by by apply Hap.
  - cbn [ss set_mem set_ss tick_ns]. rewrite Htk, En. by destruct ok.
Qed.

Lemma wp_init_sched P b :
  bst (unarmed tns) P b → wpb (init_sched hhdm kstack) (λ _ b', bst (armed tns 0) P b') b.
Proof.
  intros [[Hw Hc He Hd] (Es & Et & En) Hq Hdv Hl]. unfold init_sched. eapply wpb_caps; [reflexivity|].
  assert (Hss : armed tns 0 (with_sched (ss (bks b)) (sched_init (stack_top kstack) (sched (ss (bks b)))))).
  { rewrite Es. split; cbn [sched with_sched ticks tick_ns]; [|..|done|done|done|done].
    - split; [done|by repeat constructor|done|done].
    - intros i Hi. apply (Forall_aget (λ t, 0 <= t_domain t < MAX_DOMAINS) _ i); [by repeat constructor|done].
    - intros i Hi. apply (Forall_aget (λ t, t_blocked t = false) _ i); [by repeat constructor|done]. }
  split; [|done..]. split; [by apply set_ss_wf|done..].
Qed.

(** A present task in every slot makes five. *)
Lemma free_slot_room s : sched_pre s → num s <= 4 → is_Some (free_slot s).
Proof.
  intros [Hlen _ Hidle Hnum] Hn. destruct (free_slot s) as [i|] eqn:Hf; [done|]. exfalso.
  pose proof (free_slot_None s Hf) as Hall.
  assert (H0p : t_present (tasks s).[0] = true) by (unfold ready in Hidle; by destruct (t_present _)).
  pose proof (Hall 1 ltac:(by vm_compute)) as H1p. pose proof (Hall 2 ltac:(by vm_compute)) as H2p.
  pose proof (Hall 3 ltac:(by vm_compute)) as H3p. pose proof (Hall 4 ltac:(by vm_compute)) as H4p.
  rewrite Hnum in Hn. destruct (tasks s) as [|t0 [|t1 [|t2 [|t3 [|t4 [|? ?]]]]]];
    try (unfold zlen, MAX_TASKS in Hlen; cbn [length] in Hlen; lia).
  change (t_present t0 = true) in H0p. change (t_present t1 = true) in H1p. change (t_present t2 = true) in H2p.
  change (t_present t3 = true) in H3p. change (t_present t4 = true) in H4p.
  cbn [count_present foldr] in Hn. rewrite H0p, H1p, H2p, H3p, H4p in Hn. cbn in Hn. lia.
Qed.

Lemma admit_check_ok n P (s : KState D) c e :
  kb P s → small n P → n < 256 → 0 <= c < zlen (p_tabs P).[0] → (p_tabs P).[0].[c] = e → live P e →
  submask Rights.INVOKE (rights e) → admit_check s c = StOk.
Proof.
  intros Hk Hs Hn Hc He Hl Hi. pose proof (resolve_packed n P s 0 c M_GRANT_TIME e Hk Hs Hn ltac:(by vm_compute) Hc He Hl Hi) as Hr.
  unfold resolve in Hr. unfold admit_check. by destruct (invoke _ _ _ _ _).
Qed.

Lemma wp_admit k n P b entry st m c e dom period rel budget (Q : option Z → BootSt D → Prop) :
  bst (armed tns k) P b → small n P → n < 256 → k <= 3 → 0 <= c < zlen (p_tabs P).[0] → (p_tabs P).[0].[c] = e → live P e →
  submask Rights.INVOKE (rights e) → 0 <= dom < MAX_DOMAINS → 0 < period → fits 64 period → 0 <= rel →
  (∀ b' i, bst (armed tns (k + 1)) P b' → Q (Some i) b') →
  wpb (kern (λ k, admit_user sel stacks k entry st m c dom period rel budget)) Q b.
Proof.
  intros Hb Hs Hn Hk Hc He Hl Hi Hdom Hper Hfit Hrel HQ. apply wpb_kern.
  pose proof (armed_now _ _ (bs_ss _ _ _ Hb)) as Hnow. pose proof (armed_pre _ _ _ Hb) as Hpre.
  destruct (bs_ss _ _ _ Hb) as [Hsp Hd Hfr Hnum Hcur Htk Htn].
  unfold admit_user. rewrite (proj2 (Z.eqb_neq _ _)) by lia.
  rewrite (admit_check_ok n P _ c e) by (done || apply Hb). rewrite bool_decide_true by done. cbn [negb].
  destruct (free_slot_room (sched (ss (bks b))) Hsp ltac:(lia)) as [i Hf]. unfold sch. change (ks (b_kern b)) with (bks b). rewrite Hf.
  set (fr := build_task_frame_inner _ _ _ _ _ _ _ _).
  destruct (free_slot_Some _ _ Hf) as [Hir Hpr].
  set (t := new_task fr.2 (task_kstack_top stacks i) dom period rel budget (now_ns (ss (bks b)))).
  assert (Hwf : task_wf t) by (apply new_task_wf; [apply Hnow|done|done]).
  destruct (publish_k (bks b) i t Hpre Hir Hpr Hwf eq_refl eq_refl Hdom) as [K1 K2 K3 K4].
  apply HQ. split; [split; [done|apply Hb..]| |apply Hb..].
  change (armed tns (k + 1) (ss (with_sched_k (bks b) (publish_task (sched (ss (bks b))) i t)))).
  split; [done|done| | |done|done|done]; cbn [ss with_sched_k set_ss sched with_sched publish_task tasks num]; [|lia].
  intros j Hj. rewrite aget_aset by (rewrite ?(sp_len _ Hsp); lia). case_decide; [done|by apply Hfr].
Qed.

Lemma setup_kb P (s : KState D) code_va stack_va code p f r :
  kb P s → zlen code <= 4096 → forallb (λ va, negb (vpn va =? vpn code_va) && negb (vpn va =? vpn stack_va)) grant_vas = true →
  setup_user_task (pt s) (fa s) code_va stack_va code = (p, f, r) → kb P (set_mem s f p).
Proof.
  intros Hk Hl Hv Hs. destruct (setup_keeps _ _ _ _ _ _ _ _ (kw_pt _ (kb_wf _ _ Hk)) Hl Hs) as (Hw & _ & Ht).
  destruct Hk as [[] Q2 Q3 Q4]. split; [|done..]. split; try done. cbn [pt domain_maps set_mem].
  destruct kw_ledger as [L1 L2]. split; [done|]. intros va. rewrite L2. rewrite forallb_forall in Hv.
  split; intros [Hin Hne]; (split; [done|]); specialize (Hv va (proj1 (list_elem_of_In _ _) Hin));
    apply andb_true_iff in Hv as [?%negb_true_iff ?%negb_true_iff];
    assert (translate p va = translate (pt s) va) as Et by (apply Ht; lia); congruence.
Qed.

Lemma wp_setup S P b code_va stack_va code (Q : option (Z * Z) → BootSt D → Prop) :
  bst S P b → zlen code <= 4096 →
  forallb (λ va, negb (vpn va =? vpn code_va) && negb (vpn va =? vpn stack_va)) grant_vas = true →
  (∀ b' r, bst S P b' → Q r b') → wpb (setup hhdm code_va stack_va code) Q b.
Proof.
  intros Hb Hl Hv HQ. unfold setup. destruct (setup_user_task (pt (bks b)) (fa (bks b)) code_va stack_va code) as [[p f] r] eqn:E.
  eapply wpb_caps; [by rewrite E|]. apply HQ. eapply bst_upd; [exact Hb| |done..]. eapply setup_kb; [apply Hb|done|done|done].
Qed.

(** The newest time-slice capability admits a task. *)
Lemma wp_admit_new k n P b entry st m dom period rel budget (Q : option Z → BootSt D → Prop) :
  bst (armed tns k) (mint_p P Kind.TimeSlice 4) b → small n P → n < 255 → k <= 3 →
  0 <= dom < MAX_DOMAINS → 0 < period → fits 64 period → 0 <= rel →
  (∀ b' i, bst (armed tns (k + 1)) (mint_p P Kind.TimeSlice 4) b' → Q (Some i) b') →
  wpb (kern (λ k, admit_user sel stacks k entry st m (zlen (p_tabs P).[0]) dom period rel budget)) Q b.
Proof.
  intros Hb Hs Hn Hk Hd Hp Hf Hr HQ. destruct (minted_get n P Kind.TimeSlice 4 Hs) as [L G]. pose proof (zlen_pos (p_tabs P).[0]).
  eapply (wp_admit k (n + 1)); [exact Hb|by apply small_mint|lia|done|rewrite L; lia|exact G|apply mint_p_live|done..].
Qed.

Variable (faulter_code server_code client_code driver_code : list Z).
Hypothesis (Hfc : zlen faulter_code <= 4096) (Hsc : zlen server_code <= 4096).
Hypothesis (Hcc : zlen client_code <= 4096) (Hdc : zlen driver_code <= 4096).

Lemma faulter_phase_ok n P b :
  bst (armed tns 0) P b → small n P → n < 252 → zlen (p_tabs P).[4] = 0 →
  wpb (faulter_phase hhdm sel stacks faulter_code) (phase (armed tns 1) n 3 [1; 2; 3; 5] P) b.
Proof.
  intros Hb Hs Hn H4. unfold faulter_phase. apply wpb_bind. apply (wp_init_root (armed tns 0) n P b); [done|done|lia|]. intros b1 Hb1 _.
  apply wpb_bind. cbn [and_then]. apply (wp_delegate_new hhdm (armed tns 0) n P Kind.Memory 0x2f b1 4 _ 4); [done|done|lia|by vm_compute|done|done|].
  intros b2 Hb2 Hs2 _ _ L2 R2 O2. set (P2 := add_cap _ 4 _) in *. rewrite H4.
  apply wpb_bind. apply (wp_setup (armed tns 0) P2); [done|done|by vm_compute|]. intros b3 r Hb3.
  apply wpb_bind. apply (wp_timeslice (armed tns 0) (n + 2) P2 b3); [done|done|lia|]. intros b4 Hb4 _.
  pose proof (small_mint (n + 2) P2 Kind.TimeSlice 4 Hs2) as Hs3. destruct (minted_get (n + 2) P2 Kind.TimeSlice 4 Hs2) as [L3 _].
  destruct (minted_get n P Kind.Memory 0x2f Hs) as [L1 _].
  assert (Hend : ∀ b', bst (armed tns 1) (mint_p P2 Kind.TimeSlice 4) b' → phase (armed tns 1) n 3 [1; 2; 3; 5] P tt b').
  { intros b' Hb'. apply (phase_intro hhdm (armed tns 1) n 3 _ P _ (mint_p P2 Kind.TimeSlice 4)); [done|by replace (n + 3) with (n + 2 + 1) by lia| |].
    - intros d Hd. rewrite (minted_other (n + 2)) by (done || (set_unfold; unfold MAX_DOMAINS; lia)).
      apply O2; set_unfold; unfold MAX_DOMAINS; lia.
    - rewrite L3, R2, L1. lia. }
  destruct r as [[fe fs]|].
  2:{ apply wpb_say, Hend. apply bst_say; [|done]. eapply bst_mono; [|exact Hb4]. intros. by eapply armed_mono. }
  apply wpb_bind, wpb_kern. apply wpb_bind.
  apply (wp_admit_new 0 (n + 2) P2); [by destruct Hb4; split|done|lia|done|by vm_compute|done|by vm_compute|done|].
  intros b5 i Hb5. apply wpb_say, Hend. by apply bst_say.
Qed.

(** What stays when something else is minted. *)
Lemma minted_old n P kd r c :
  small n P → 0 <= c < zlen (p_tabs P).[0] → (p_tabs (mint_p P kd r)).[0].[c] = (p_tabs P).[0].[c].
Proof.
  intros Hs Hc. rewrite (mint_p_tab n) by (done || by vm_compute). rewrite decide_True by done.
  unfold aget, zlen in *. by rewrite lookup_total_app_l by lia.
Qed.
Lemma live_mint P kd r e : live P e → live (mint_p P kd r) e.
Proof. apply live_add_obj. Qed.

Lemma ipc_admit n P b server_blob client_blob :
  bst (armed tns 1) P b → small n P → n < 253 →
  wpb (admit_ipc hhdm sel stacks (Some 2) (Some 0) (Some 1) server_blob client_blob) (phase (armed tns 3) n 2 [1; 2; 3; 4; 5] P) b.
Proof.
  intros Hb Hs Hn. unfold admit_ipc. pose proof (zlen_pos (p_tabs P).[0]).
  assert (Hinc : wpb (say LIpcIncomplete) (phase (armed tns 3) n 2 [1; 2; 3; 4; 5] P) b).
  { apply wpb_say. apply (phase_intro hhdm (armed tns 3) n 2 _ P _ P); [|apply (small_mono n); [done|lia]|done|lia].
    apply bst_say; [|done]. eapply bst_mono; [|exact Hb]. intros. by eapply armed_mono. }
  destruct server_blob as [[se st]|]; [|done]. destruct client_blob as [[ce ct]|]; [|done]. clear Hinc.
  apply wpb_bind. apply (wp_timeslice (armed tns 1) n P b); [done|done|lia|]. intros b1 Hb1 _.
  destruct (minted_get n P Kind.TimeSlice 4 Hs) as [L1 G1]. pose proof (small_mint n P Kind.TimeSlice 4 Hs) as Hs1.
  pose proof (mint_p_live P Kind.TimeSlice 4) as V1. pose proof (minted_other n P Kind.TimeSlice 4) as O1. set (P1 := mint_p P _ _) in *.
  apply wpb_bind. apply (wp_timeslice (armed tns 1) (n + 1) P1 b1); [done|done|lia|]. intros b2 Hb2 _.
  destruct (minted_get (n + 1) P1 Kind.TimeSlice 4 Hs1) as [L2 _]. pose proof (small_mint (n + 1) P1 Kind.TimeSlice 4 Hs1) as Hs2.
  apply wpb_bind. apply (wp_admit 1 (n + 1 + 1) (mint_p P1 Kind.TimeSlice 4) b2 _ _ _ _ (mkCapEntry (zlen (p_objs P)) 4 0 Kind.TimeSlice 0));
    [done|done|lia|done|lia|rewrite (minted_old (n + 1)) by (done || lia); exact G1|by apply live_mint|done|by vm_compute|done|by vm_compute|done|].
  intros b3 i Hb3.
  apply wpb_bind. apply (wp_admit_new 2 (n + 1) P1); [done|done|lia|done|by vm_compute|done|by vm_compute|done|]. intros b4 j Hb4.
  apply wpb_say. apply (phase_intro hhdm (armed tns 3) n 2 _ P _ (mint_p P1 Kind.TimeSlice 4));
    [apply bst_say; [done|]; by split_and!|by replace (n + 2) with (n + 1 + 1) by lia| |lia].
  intros d Hd. assert (1 <= d < MAX_DOMAINS) by (set_unfold; unfold MAX_DOMAINS; lia).
  rewrite (minted_other (n + 1)), O1 by done. done.
Qed.

Lemma ipc_phase_ok n P b :
  bst (armed tns 1) P b → small n P → n < 248 → zlen (p_tabs P).[1] = 0 → zlen (p_tabs P).[2] = 2 →
  wpb (ipc_phase hhdm sel stacks server_code client_code) (phase (armed tns 3) n 7 [3; 4; 5] P) b.
Proof.
  intros Hb Hs Hn Z1 Z2. unfold ipc_phase. pose proof (zlen_pos (p_tabs P).[0]).
  apply wpb_bind. apply (wp_endpoint (armed tns 1) n P b); [done|done|lia|]. intros b1 Hb1 _.
  destruct (minted_get n P Kind.Endpoint 0x4f Hs) as [L1 G1].
  apply wpb_bind. cbn [and_then]. apply (wp_delegate_new hhdm (armed tns 1) n P Kind.Endpoint 0x4f b1 1 _ 68); [done|done|lia|by vm_compute|done| |].
  { by rewrite rights_union_spec. }
  intros b2 Hb2 Hs2 _ _ L2 R2 O2. set (P2 := add_cap _ 1 _) in *. rewrite <- R2 in L1, G1. rewrite Z1.
  apply wpb_bind. apply (wp_delegate_root hhdm (armed tns 1) (n + 2) P2 b2 2 (zlen (p_tabs P).[0]) _ 4 (zlen (p_objs P)) 0x4f Kind.Endpoint);
    [done|done|lia|by vm_compute|lia|exact G1|done|apply live_new|done|]. intros b3 Hb3 Hs3 _ _ _ T3.
  rewrite (O2 2), Z2 by (done || by vm_compute).
  set (P3 := add_cap P2 2 _) in *. clearbody P3 P2.
  apply wpb_bind. apply (wp_init_root (armed tns 1) (n + 2 + 1) P3 b3); [done|done|lia|]. intros b4 Hb4 _.
  destruct (minted_get (n + 2 + 1) P3 Kind.Memory 0x2f Hs3) as [L4 _].
  apply wpb_bind. cbn [and_then]. apply (wp_delegate_new hhdm (armed tns 1) (n + 2 + 1) P3 Kind.Memory 0x2f b4 1 _ 12); [done|done|lia|by vm_compute|done| |].
  { by rewrite rights_union_spec. }
  intros b5 Hb5 Hs5 _ _ L5 R5 O5. set (P5 := add_cap _ 1 _) in *. rewrite (T3 1), L2, Z1 by done.
  apply wpb_bind. apply (wp_setup (armed tns 1) P5); [done|done|by vm_compute|]. intros b6 r6 Hb6.
  apply wpb_bind. apply (wp_setup (armed tns 1) P5); [done|done|by vm_compute|]. intros b7 r7 Hb7.
  eapply wpb_mono; [apply (ipc_admit (n + 2 + 1 + 2) P5 b7 r6 r7); [done|done|lia]|].
  intros [] b8 [P8 [Hb8 Hs8 T8 R8]]. apply (phase_intro hhdm (armed tns 3) n 7 _ P _ P8); [done|by replace (n + 7) with (n + 2 + 1 + 2 + 2) by lia| |].
  - intros d Hd. assert (3 <= d < MAX_DOMAINS) by (set_unfold; unfold MAX_DOMAINS; lia).
    rewrite T8, O5, T3, O2 by (done || lia || (set_unfold; lia)). done.
  - pose proof (T3 0 ltac:(lia) ltac:(lia)) as E3. rewrite R5, L4, E3 in R8. lia.
Qed.

Lemma gate_test_ok k n P b :
  bst (armed tns k) P b → small n P → n < 253 → wpb (gate_test hhdm saved) (phase (armed tns k) n 2 [1; 2; 4; 5] P) b.
Proof.
  intros Hb Hs Hn. unfold gate_test. pose proof (zlen_pos (p_tabs P).[0]). pose proof (zlen_pos (p_tabs P).[3]).
  apply wpb_bind. apply (wp_endpoint (armed tns k) n P b); [done|done|lia|]. intros b1 Hb1 _.
  destruct (minted_get n P Kind.Endpoint 0x4f Hs) as [L1 _].
  apply wpb_bind. apply (wp_delegate_new hhdm (armed tns k) n P Kind.Endpoint 0x4f b1 3 _ 4); [done|done|lia|by vm_compute|done|done|].
  intros b2 Hb2 Hs2 _ G2 L2 R2 O2. set (P2 := add_cap _ 3 _) in *.
  assert (Hlv : live P2 (mkCapEntry (zlen (p_objs P)) (Z.land 0x4f 4) 0 Kind.Endpoint 0)) by apply live_new. clearbody P2.
  pose proof (resolve_packed (n + 2) P2 (bks b2) 3 (zlen (p_tabs P).[3]) E_SEND _ (bs_kb _ _ _ Hb2) Hs2 ltac:(lia) ltac:(by vm_compute)
    ltac:(rewrite L2; lia) G2 Hlv ltac:(done)) as Hr.
  apply wpb_bind. eapply wpb_caps; [reflexivity|]. set (s3 := set_current_domain hhdm 3 (bks b2)).
  apply wpb_bind. eapply (wpb_caps _ _ _ s3 (IDone 4 0 CPTR_NONE)).
  { change (bks (upd b2 s3)) with s3. unfold cap_invoke_ipc. change (current_domain s3) with 3.
    assert (Hr3 : resolve s3 3 (zlen (p_tabs P).[3]) E_SEND = resolve (bks b2) 3 (zlen (p_tabs P).[3]) E_SEND) by done.
    rewrite Hr3, Hr. cbn [type_tag rights object_id]. change (arm Kind.Endpoint E_SEND Kind.Endpoint E_SEND) with true. cbv iota.
    unfold ep_send. pose proof (sm_objs n P Hs). rewrite (proj2 (Z.leb_gt _ _)) by (unfold OBJECT_TABLE_SIZE; lia).
    by rewrite rights_contains_eq, bool_decide_false by (by vm_compute). }
  apply wpb_bind. eapply wpb_caps; [reflexivity|]. apply wpb_say.
  apply (phase_intro hhdm (armed tns k) n 2 _ P _ P2); [|done| |rewrite R2, L1; lia].
  - apply bst_say; [|done]. destruct Hb2 as [[Hw Hc He Hd] Ha Hq Hdv Hl]. split; [|by destruct Ha; split|done..]. split; [|done..].
    by apply set_ss_wf, set_ss_wf.
  - intros d Hd. apply O2; set_unfold; unfold MAX_DOMAINS; lia.
Qed.

Lemma revoked_test_ok k n P b :
  bst (armed tns k) P b → small n P → n < 253 → wpb (revoked_test hhdm) (phase (armed tns k) n 1 [1; 2; 3; 4; 5] P) b.
Proof.
  intros Hb Hs Hn. unfold revoked_test. pose proof (zlen_pos (p_tabs P).[0]).
  apply wpb_bind. apply (wp_timeslice (armed tns k) n P b); [done|done|lia|]. intros b1 Hb1 _.
  destruct (minted_get n P Kind.TimeSlice 4 Hs) as [L1 G1].
  destruct (revoke_p (n + 1) _ (bks b1) (zlen (p_tabs P).[0]) _ (bs_kb _ _ _ Hb1) (small_mint n P _ _ Hs) ltac:(lia)
    ltac:(rewrite L1; lia) G1 (mint_p_live _ _ _) eq_refl) as (Hl & Hr & Hk & Hs' & Hst).
  apply wpb_bind. unfold revoke_timeslice.
  eapply (wpb_caps _ _ b1 (set_caps (bks b1) (mkSys (revoke (objects (bks b1)) (zlen (p_objs P))).1 (s_tables (caps (bks b1))))) StOk).
  { rewrite Hl. cbn [object_id] in *. destruct (revoke (objects (bks b1)) (zlen (p_objs P))). cbn [snd] in Hr. by subst. }
  apply wpb_bind, wpb_get. apply wpb_say. eapply (phase_intro hhdm (armed tns k) n 1 _ P); [|exact Hs'| |].
  - apply bst_say; [|apply Hst]. exact (bst_upd _ _ _ b1 _ Hb1 Hk eq_refl eq_refl id).
  - intros d Hd. cbn [bump p_tabs]. apply (minted_other n); [done|]. set_unfold. unfold MAX_DOMAINS. lia.
  - cbn [bump p_tabs]. rewrite L1. lia.
Qed.

Lemma devqueue_map_result (s : KState D) d oid :
  oid < OBJECT_TABLE_SIZE → let x := (devqueue_map s d oid).2 in x = (StOk, DQ_BASE) ∨ x = (ErrMethod, 0).
Proof.
  intros Ho. unfold devqueue_map. rewrite (proj2 (Z.leb_gt _ _)) by lia. destruct (_ =? 0); [by right|].
  destruct (map_pages _ _ _) as [s' []]; [by left|by right].
Qed.

(** [DQ_MAP] for the driver, refused without MAP, then the driver's admission. *)
Lemma driver_phase_ok n P b oid c3 :
  bst (armed tns 3) P b → small n P → n < 254 → 0 <= oid < OBJECT_TABLE_SIZE →
  zlen (p_tabs P).[5] = 1 → (p_tabs P).[5].[0] = mkCapEntry oid 39 0 Kind.DeviceQueue 0 →
  0 <= c3 → zlen (p_tabs P).[3] = c3 + 1 → (p_tabs P).[3].[c3] = mkCapEntry oid 7 0 Kind.DeviceQueue 0 →
  (∀ r, live P (mkCapEntry oid r 0 Kind.DeviceQueue 0)) →
  wpb (driver_phase hhdm sel stacks driver_code 0 (Some c3)) (phase (armed tns 4) n 1 [1; 2; 3; 4; 5] P) b.
Proof.
  intros Hb Hs Hn Ho L5 G5 Hc3 L3 G3 Hlv. unfold driver_phase. pose proof (zlen_pos (p_tabs P).[0]).
  apply wpb_bind. eapply (wp_invoke_new hhdm (armed tns 3) n P b 5 0 DQ_MAP 0); [done|done|lia|by vm_compute|lia|done|exact G5|apply Hlv|done|done|].
  intros s1 x1 Hx1 Hb1 _ _. cbn [type_tag object_id rights] in Hx1. rewrite method_dqmap in Hx1 by done.
  pose proof (devqueue_map_result (bks b) 5 oid ltac:(lia)) as Hres. cbv zeta in Hres. rewrite Hx1 in Hres. cbn [snd] in Hres.
  apply wpb_bind. unfold map_do. apply wpb_bind.
  eapply (wp_invoke_new hhdm (armed tns 3) n P _ 3 c3 DQ_MAP 0); [exact Hb1|done|lia|by vm_compute|lia|done|exact G3|apply Hlv|done|done|].
  intros s2 x2 Hx2 Hb2 _ _. rewrite method_denied in Hx2 by (by vm_compute). injection Hx2 as <- <-.
  apply wpb_ret. apply wpb_bind, wpb_say.
  match goal with |- wpb _ _ (mkB _ _ (_ ++ [?l])) => assert (He : expected l) end.
  { cbn [expected]. split; [done|]. destruct Hres as [-> | ->]; [left|right]; done. }
  pose proof (bst_say _ _ _ _ Hb2 He) as Hb3. name_state b3. clear Hb1 Hb2 He Hx1.
  apply wpb_bind. apply (wp_setup (armed tns 3) P); [done|done|by vm_compute|]. intros b4 r4 Hb4.
  apply wpb_bind. apply (wp_timeslice (armed tns 3) n P b4); [done|done|lia|]. intros b5 Hb5 _.
  destruct (minted_get n P Kind.TimeSlice 4 Hs) as [L6 _]. pose proof (small_mint n P Kind.TimeSlice 4 Hs) as Hs6.
  assert (Hend : ∀ b', bst (armed tns 4) (mint_p P Kind.TimeSlice 4) b' → phase (armed tns 4) n 1 [1; 2; 3; 4; 5] P tt b').
  { intros b' Hb'. apply (phase_intro hhdm (armed tns 4) n 1 _ P _ (mint_p P Kind.TimeSlice 4)); [done|done| |lia].
    intros d Hd. apply (minted_other n); [done|]. set_unfold. unfold MAX_DOMAINS. lia. }
  destruct r4 as [[de ds]|].
  2:{ apply wpb_say, Hend, bst_say; [|done]. eapply bst_mono; [|exact Hb5]. intros. by eapply armed_mono. }
  apply wpb_bind. apply (wp_admit_new 3 n P); [done|done|lia|done|by vm_compute|done|by vm_compute|done|]. intros b6 i Hb6.
  apply wpb_say, Hend, bst_say; [done|]. by split.
Qed.

Lemma bd_write_present (d d' : D) lba src : bd_write d lba src = (d', true) → v_present (disk_vb hhdm d') = true.
Proof.
  destruct d as [s Hi]. intros Ew. injection Ew as <- Hok. unfold disk_vb. cbn [proj1_sig] in *. unfold write_lba in *.
  destruct (is_u64 lba) eqn:Hl; [|done]. destruct (Nat.eqb_spec (length src) 512); [|done]. cbn [andb] in *.
  apply (write_sector_present hhdm s lba src Hi); [by apply is_u64_fits|done|done].
Qed.

(** The seed write. *)
Lemma seed_written (d d' : D) ok :
  BlockDev.run (BlockDev.write_sector DQ_SCRATCH_LBA dq_seed) d = (d', ok) → ok = true →
  bd_view d' DQ_SCRATCH_LBA = dq_seed ∧ v_present (disk_vb hhdm d') = true.
Proof.
  intros E ->. assert (Hlen : length dq_seed = 512%nat) by by vm_compute.
  pose proof (@bd_write_law _ _ (disk_laws hhdm) d DQ_SCRATCH_LBA dq_seed Hlen) as (_ & Hw & _).
  revert E Hw. generalize dq_seed as src. intros src E Hw. cbn [BlockDev.write_sector BlockDev.run] in E.
  destruct (bd_write d DQ_SCRATCH_LBA src) as [d1 ok] eqn:Ew. injection E as -> ->.
  split; [by apply Hw|]. by eapply bd_write_present.
Qed.

Lemma submit_result (s : KState D) oid l :
  oid < OBJECT_TABLE_SIZE → let x := (devqueue_submit s oid l).2 in
  x = (StOk, fnv1a (bd_view (dev s) l)) ∨ ∃ st, x = (st, 0) ∧ st ≠ StOk.
Proof.
  intros Ho. unfold devqueue_submit. rewrite (proj2 (Z.leb_gt _ _)) by lia. destruct (_ =? 0); [right; by exists ErrMethod|].
  cbn [BlockDev.read_sector BlockDev.run]. pose proof (@bd_read_law _ _ (disk_laws hhdm) (dev s) l) as (_ & _ & Hr).
  destruct (bd_read (dev s) l) as [d r]. cbn [snd] in Hr. cbn. destruct r as [sect|]; [|right; by exists ErrMethod].
  left. cbn. by rewrite (Hr sect eq_refl).
Qed.

Lemma bake_dv q lba (d : D) : dv d → dv (bake_disk hhdm q lba d).
Proof. unfold bake_disk. case_decide; [|done]. unfold dv, disk_inv, disk_vb. cbn [proj1_sig]. by rewrite bake_vb. Qed.

Lemma wp_create_dq S n P b q (Q : option Z → BootSt D → Prop) :
  bst S P b → small n P → n < 255 → device_queue_desc (disk_vb hhdm (dev (bks b))) = Some q →
  (∀ b', bst S (mint_p P Kind.DeviceQueue 0x2f) b' → dev (bks b') = dev (bks b) → Q (Some (zlen (p_tabs P).[0])) b') →
  wpb (caps_do (λ s, create_device_queue s (disk_vb hhdm (dev s)) DQ_MAGIC DQ_SCRATCH_LBA)) Q b.
Proof.
  intros Hb Hs Hn Hq HQ.
  destruct (create_dq_p n P (bks b) (disk_vb hhdm (dev (bks b))) DQ_MAGIC DQ_SCRATCH_LBA q (bs_kb _ _ _ Hb) Hs Hn Hq (bs_dev _ _ _ Hb))
    as (s' & E & Hk & _ & Ed & Es & En & _).
  eapply wpb_caps; [exact E|]. apply HQ; [|done]. eapply bst_upd; [exact Hb|done|done|done|by rewrite Ed].
Qed.

Lemma drive_queue_ok n P b q :
  bst (armed tns 3) (mint_p P Kind.DeviceQueue 0x2f) b → small n P → n < 250 → zlen (p_tabs P).[5] = 0 →
  bd_view (dev (bks b)) DQ_SCRATCH_LBA = dq_seed →
  wpb (drive_queue hhdm sel stacks driver_code q (zlen (p_tabs P).[0])) (phase (armed tns 4) n 4 [1; 2; 4] P) b.
Proof.
  intros Hb Hs Hn Z5 Hseed. unfold drive_queue. pose proof (zlen_pos (p_tabs P).[0]). pose proof (zlen_pos (p_tabs P).[3]).
  assert (Hot : 0 <= zlen (p_objs P) < OBJECT_TABLE_SIZE).
  { pose proof (sm_objs n P Hs). pose proof (zlen_pos (p_objs P)). unfold OBJECT_TABLE_SIZE. lia. }
  destruct (minted_get n P Kind.DeviceQueue 0x2f Hs) as [L1 G1].
  apply wpb_bind. apply (wp_delegate_new hhdm (armed tns 3) n P Kind.DeviceQueue 0x2f b 5 _ 39); [done|done|lia|by vm_compute|done| |].
  { by rewrite !rights_union_spec. }
  intros b2 Hb2 Hs2 A2 G2 L2 R2 O2. set (P2 := add_cap _ 5 _) in *. rewrite Z5 in *. rewrite <- R2 in L1, G1.
  assert (Hlv : ∀ r, live P2 (mkCapEntry (zlen (p_objs P)) r 0 Kind.DeviceQueue 0)) by (intros r; apply live_new).
  apply wpb_bind. apply (wp_delegate_root hhdm (armed tns 3) (n + 2) P2 b2 3 (zlen (p_tabs P).[0]) _ 7 (zlen (p_objs P)) 0x2f Kind.DeviceQueue);
    [done|done|lia|by vm_compute|lia|exact G1|done|apply Hlv|by rewrite !rights_union_spec|]. intros b3 Hb3 Hs3 A3 G3 L3 T3.
  rewrite (O2 3) in G3, L3 |- * by (done || by vm_compute).
  set (P3 := add_cap P2 3 _) in *. assert (Hlv3 : ∀ r, live P3 (mkCapEntry (zlen (p_objs P)) r 0 Kind.DeviceQueue 0)) by apply Hlv.
  clearbody P3 P2. apply wpb_bind. unfold map_do. apply wpb_bind.
  eapply (wp_invoke_new hhdm (armed tns 3) (n + 2 + 1) P3 b3 3 _ DQ_SUBMIT DQ_SCRATCH_LBA); [done|done|lia|by vm_compute|done|done|exact G3|apply Hlv3|done|done|].
  intros s4 x4 Hx4 Hb4 _ _. cbn [type_tag object_id rights] in Hx4. rewrite method_submit in Hx4 by done.
  pose proof (submit_result (bks b3) (zlen (p_objs P)) DQ_SCRATCH_LBA ltac:(lia)) as Hres.
  cbv zeta in Hres. rewrite Hx4 in Hres. cbn [snd] in Hres.
  assert (Hdev : dev (bks b3) = dev (bks b)) by by rewrite A3, A2. rewrite Hdev, Hseed in Hres.
  apply wpb_ret. apply wpb_bind, wpb_say.
  match goal with |- wpb _ _ (mkB _ _ (_ ++ [?l])) => assert (He : expected l) end.
  { cbn [expected]. destruct Hres as [-> | (st & -> & Hst)]; [left; by apply bool_decide_eq_true|right; by exists st]. }
  pose proof (bst_say _ _ _ _ Hb4 He) as Hb5. name_state b5. clear He Hx4 Hb4 Hres.
  apply wpb_bind. eapply wpb_caps; [reflexivity|].
  assert (Hb6 : bst (armed tns 3) P3 (upd b5 (set_dev (bks b5) (bake_disk hhdm q DQ_SCRATCH_LBA (dev (bks b5)))))).
  { eapply bst_upd; [exact Hb5|apply set_dev_kb, Hb5|done|done|apply bake_dv]. }
  name_state b6. rewrite <- (T3 5) in G2, L2 by lia.
  eapply wpb_mono; [apply (driver_phase_ok (n + 2 + 1) P3 b6 (zlen (p_objs P)) (zlen (p_tabs P).[3])); (done || lia)|].
  intros [] b7 [P7 [Hb7 Hs7 T7 R7]]. apply (phase_intro hhdm (armed tns 4) n 4 _ P _ P7); [done|by replace (n + 4) with (n + 2 + 1 + 1) by lia| |].
  - intros d Hd. assert (d = 1 ∨ d = 2 ∨ d = 4) by (set_unfold; lia). rewrite T7, T3, O2 by (set_unfold; unfold MAX_DOMAINS; lia). done.
  - rewrite (T3 0) in R7 by lia. lia.
Qed.

Lemma devqueue_phase_ok n P b :
  bst (armed tns 3) P b → small n P → n < 250 → zlen (p_tabs P).[5] = 0 →
  wpb (devqueue_phase hhdm sel stacks driver_code) (phase (armed tns 4) n 4 [1; 2; 4] P) b.
Proof.
  intros Hb Hs Hn Z5. unfold devqueue_phase. apply wpb_bind, wpb_io. intros d seeded E.
  pose proof (bst_dev _ _ _ _ _ _ Hb E) as Hb1. pose proof (seed_written _ _ _ E) as Hw. clear E. apply wpb_bind, wpb_get.
  set (b1 := upd b (set_dev (bks b) d)) in *. change (upd b1 (bks b1)) with b1. change d with (dev (bks b1)) in Hw. clearbody b1.
  assert (Hfail : ∀ P' b', bst (armed tns 3) P' b' → small (n + 1) P' → (∀ d, d ∈ [1; 2; 4] → (p_tabs P').[d] = (p_tabs P).[d]) →
    zlen (p_tabs P).[0] <= zlen (p_tabs P').[0] → wpb (say (LDqIncomplete false)) (phase (armed tns 4) n 4 [1; 2; 4] P) b').
  { intros P' b' Hb' Hs' Ht Hz. apply wpb_say. apply (phase_intro hhdm (armed tns 4) n 4 _ P _ P'); [|apply (small_mono (n + 1)); [done|lia]|done|done].
    apply bst_say; [|done]. eapply bst_mono; [|exact Hb']. intros. by eapply armed_mono. }
  apply wpb_bind. destruct (device_queue_desc (disk_vb hhdm (dev (bks b1)))) as [q|] eqn:Hq.
  - apply (wp_create_dq (armed tns 3) n P b1 q); [done|done|lia|done|]. intros b2 Hb2 Hd2.
    destruct (minted_get n P Kind.DeviceQueue 0x2f Hs) as [L1 _]. destruct seeded.
    + apply drive_queue_ok; [done|done|done|done|]. rewrite Hd2. by apply Hw.
    + apply (Hfail (mint_p P Kind.DeviceQueue 0x2f)); [done|by apply small_mint| |lia].
      intros d' Hd'. apply (minted_other n); [done|]. set_unfold. unfold MAX_DOMAINS. lia.
  - eapply (wpb_caps _ _ b1 (bks b1) None); [unfold create_device_queue; by rewrite Hq|].
    destruct seeded.
    + destruct (Hw eq_refl) as [_ Hp]. unfold device_queue_desc in Hq. by rewrite Hp in Hq.
    + apply (Hfail P); [by destruct Hb1; split|apply (small_mono n); [done|lia]|done|lia].
Qed.

(** ** The whole sequence *)

(** The empty capability space. *)
Definition P0 : packed := mkP [] (replicate (Z.to_nat MAX_DOMAINS) []).

Lemma small_P0 : small 0 P0.
Proof.
  split; [done|done|done|]. intros d Hd. unfold P0. cbn [p_tabs]. by rewrite aget_replicate by (unfold MAX_DOMAINS in *; lia).
Qed.

(** How [kmain_main] starts after [memory::init]: the statics as initialised, page tables
    apart from the free frames and without a granted page, and frames and device registers
    within the physical address space. *)
Record boot_start b : Prop := {
  bo_caps : bks b = capspace0 (ss (bks b)) (fa (bks b)) (pt (bks b)) (dev (bks b));
  bo_sched : unarmed tns (ss (bks b)) ∧ current_dom (ss (bks b)) = 0;
  bo_pt : pt_wf (pt (bks b)) (fa (bks b));
  bo_grants va : va ∈ grant_vas → translate (pt (bks b)) va = None;
  bo_frames : frames_fit (fa (bks b));
  bo_dev : dv (dev (bks b));
  bo_lapic : lapic_apart;
  bo_log : b_log b = [];
}.

Lemma boot_start_bst b : boot_start b → bst (unarmed tns) P0 b.
Proof.
  intros [Hc [Hs Hd] Hp Hg _ Hdv _ Hl]. split; [|done| |done|by rewrite Hl].
  - rewrite Hc. split; [by apply capspace0_wf|done|done|done].
  - rewrite Hc. cbn [notify capspace0]. by apply Forall_replicate.
Qed.

Abbreviation main := (kmain_main hhdm sel stacks kstack saved faulter_code server_code client_code driver_code apic).

Lemma P0_tab P d : 0 <= d < MAX_DOMAINS → (p_tabs P).[d] = (p_tabs P0).[d] → zlen (p_tabs P).[d] = 0.
Proof. intros Hd ->. unfold P0. cbn [p_tabs]. by rewrite aget_replicate by (unfold MAX_DOMAINS in *; lia). Qed.

(** From [sched::init] to the end. *)
Lemma armed_phases n P b :
  bst (unarmed tns) P b → small n P → n < 200 → (∀ d, d ∈ [1; 4; 5] → zlen (p_tabs P).[d] = 0) → zlen (p_tabs P).[2] = 2 →
  wpb (init_sched hhdm kstack;; faulter_phase hhdm sel stacks faulter_code;; ipc_phase hhdm sel stacks server_code client_code;;
       gate_test hhdm saved;; revoked_test hhdm;; devqueue_phase hhdm sel stacks driver_code;; say LPreempt;; ret true)
    (λ _ b', ∃ P', bst (armed tns 4) P' b') b.
Proof.
  intros Hb Hs Hn Z Z2. apply wpb_bind. eapply wpb_mono; [apply (wp_init_sched P b Hb)|]. intros [] b1 Hb1.
  assert (Z1 : zlen (p_tabs P).[1] = 0) by (apply Z; set_unfold; lia).
  assert (Z4 : zlen (p_tabs P).[4] = 0) by (apply Z; set_unfold; lia).
  assert (Z5 : zlen (p_tabs P).[5] = 0) by (apply Z; set_unfold; lia). clear Z.
  eapply phase_seq; [apply (faulter_phase_ok n P b1); [done|done|lia|done]|]. intros P2 b2 Hb2 Hs2 T2 _.
  rewrite <- (T2 1) in Z1 by (set_unfold; lia). rewrite <- (T2 2) in Z2 by (set_unfold; lia). rewrite <- (T2 5) in Z5 by (set_unfold; lia).
  eapply phase_seq; [eapply (ipc_phase_ok _ P2 b2); [done|done|lia|done|done]|]. intros P3 b3 Hb3 Hs3 T3 _.
  eapply phase_seq; [eapply (gate_test_ok 3 _ P3 b3); [done|done|lia]|]. intros P4 b4 Hb4 Hs4 T4 _.
  eapply phase_seq; [eapply (revoked_test_ok 3 _ P4 b4); [done|done|lia]|]. intros P5 b5 Hb5 Hs5 T5 _.
  rewrite <- (T3 5), <- (T4 5), <- (T5 5) in Z5 by (set_unfold; lia).
  eapply phase_seq; [eapply (devqueue_phase_ok _ P5 b5); [done|done|lia|done]|]. intros P6 b6 Hb6 _ _ _.
  apply wpb_bind, wpb_say. exists P6. by apply bst_say.
Qed.

Lemma kmain_ok b :
  boot_start b → wpb main (λ on b', ∃ P' S, bst S P' b' ∧ (on = true → ∀ st, S st → armed tns 4 st)) b.
Proof.
  intros Hst. pose proof (boot_start_bst b Hst) as Hb0. pose proof (bo_frames _ Hst) as Hf. pose proof (bo_lapic _ Hst) as Hap. unfold kmain_main.
  apply wpb_bind, wpb_store. intros d st [] E. pose proof (bst_store _ _ _ _ _ _ st Hb0 E) as Hb1. clear E Hb0.
  set (b1 := mkB _ st _) in *. assert (F1 : frames_fit (fa (bks b1))) by exact Hf. clearbody b1. clear Hst Hf b st d.
  apply wpb_bind. eapply wpb_mono; [apply (recover_phase_ok hhdm (unarmed tns) 0 P0 b1); [done|apply small_P0|lia]|].
  intros [] b2 [[P2 [Hb2 Hs2 T2 R2]] F2]. rewrite <- F2 in F1. clear F2.
  eapply phase_seq; [eapply (extent_phase_ok hhdm (unarmed tns) _ P2 b2); [done|done|lia|done]|]. intros P3 b3 Hb3 Hs3 T3 R3. clear F1.
  apply wpb_bind. eapply wpb_mono; [eapply (cap_self_test_ok hhdm (unarmed tns) _ P3 b3); [done|done|lia]|].
  intros [] b4 (P4 & [Hb4 Hs4 T4 _] & R4).
  assert (Z4 : ∀ d, d ∈ [1; 2; 4; 5] → zlen (p_tabs P4).[d] = 0).
  { intros d Hd. apply P0_tab; [set_unfold; unfold MAX_DOMAINS; lia|]. rewrite T4, T3, T2 by (done || (set_unfold; lia)). done. }
  pose proof (zlen_pos (p_tabs P3).[0]). clear T2 T3 T4 R2 R3.
  apply wpb_bind. eapply wpb_mono; [eapply (perdomain_test_ok hhdm (unarmed tns) _ P4 b4); [done|done|lia|]|].
  { rewrite (Z4 2) by (set_unfold; lia). lia. }
  intros [] b5 (P5 & [Hb5 Hs5 T5 _] & L5). rewrite (Z4 2) in L5 by (set_unfold; lia).
  apply wpb_bind. eapply wpb_mono; [eapply (notify_test_ok hhdm (unarmed tns) _ P5 b5); [done|done|lia]|].
  intros [] b6 (P6 & [Hb6 Hs6 T6 _] & L6). rewrite L5 in L6.
  assert (Z6 : ∀ d, d ∈ [1; 4; 5] → zlen (p_tabs P6).[d] = 0).
  { intros d Hd. rewrite T6, T5 by (set_unfold; lia). apply Z4. set_unfold. lia. }
  clear T5 T6 Z4. apply wpb_bind. apply (wp_timer P6 b6); [done|done|]. intros b7 [|] Hb7.
  2:{ apply wpb_bind, wpb_say. exists P6, (unarmed tns). split; [by apply bst_say|done]. }
  eapply wpb_mono; [eapply (armed_phases _ P6 b7 Hb7 Hs6); [lia|done|done]|]. intros on b8 [P8 Hb8]. by exists P8, (armed tns 4).
Qed.

(** [PER_CPU.kernel_rsp0] is still 0 when boot ends; the first tick publishes the stacks
    and the domain of the task it selects. *)
Lemma first_tick k P b rsp :
  bst (armed tns k) P b → k_inv (ks (timer_tick (b_kern b) rsp)).
Proof.
  intros Hb. destruct (armed_pre k P b Hb) as [Kw Ks Kd Kr]. destruct (bs_ss _ _ _ Hb) as [Hp Hd Hfr Hn Hc Ht Htn].
  set (s := set_ss (bks b) (publish_current (ss (bks b)) 0)).
  assert (Hi : k_inv s).
  { split; [by apply set_ss_wf| |done|done]. split; [done| |].
    - unfold current_ok. cbn [s ss set_ss publish_current sched]. rewrite Hc. split; [done|]. split; [|by apply Hfr].
      pose proof (sp_idle _ Hp) as Hr. unfold ready in Hr. by destruct (t_present _).
    - unfold coherent. cbn [s ss set_ss publish_current sched tss_rsp0 kernel_rsp0 current_dom]. by rewrite Hc. }
  pose proof (tick_inv s rsp 1 Hi ltac:(lia)) as Htick. unfold timer_tick, with_ks. cbn [ks].
  assert (E : (schedule_tick (ss (ks (b_kern b))) rsp).1 = (schedule_tick (ss s) rsp).1).
  { unfold schedule_tick. cbn [s ss set_ss publish_current sched ticks tick_ns]. by destruct (_ <=? 1). }
  rewrite E. apply Htick. unfold clock_ok. cbn [s ss set_ss publish_current ticks tick_ns]. rewrite Ht, Htn. by vm_compute.
Qed.


(** C6: boot establishes the kernel invariant. When the boot sequence ends with interrupts
    enabled, after the first timer tick the invariant of the running kernel holds, and it holds after every sequence of
    system calls, faults, ticks and kernel operations that follows. *)
Theorem boot_establishes_invariant b rsp evs :
  boot_start b → (main b).2 = true →
  let k := timer_tick (b_kern (main b).1) rsp in
  k_inv (ks k) ∧
  (kevents_ok sel stacks k evs → clock_ok (ss (ks k)) (zlen evs) → k_inv (ks (krun sel stacks k evs))).
Proof.
  intros Hs Hon k. pose proof (kmain_ok b Hs) as Hw. unfold wpb in Hw. unfold k. destruct (main b) as [b' on].
  destruct Hw as (P & S & Hb & HS). cbn [fst].
  assert (Hi : k_inv (ks (timer_tick (b_kern b') rsp))).
  { apply (first_tick 4 P). eapply bst_mono; [by apply HS|exact Hb]. }
  split; [done|]. intros He Hclk. by apply (krun_ok sel stacks).
Qed.
End admission.

(** ** The ring-3 driver after boot *)

Section end_to_end.
Context {V : Type} `{VirtioDev V} {VL : VirtioLaws V} {VR : VirtioResponsive V} `{Bitflags} `{MapperLaws}.
Variable (hhdm : Z).
Abbreviation D := (Disk V hhdm).

Lemma bake_disk_eq q lba (d : D) :
  device_queue_desc (disk_vb hhdm d) = Some q → proj1_sig (bake_disk hhdm q lba d) = bake hhdm q lba (proj1_sig d).
Proof.
  intros Hq. unfold bake_disk. destruct (decide _) as [|Hn]; [done|]. destruct Hn. by right.
Qed.

(** The pages of the driver's own code and stack are not the granted ones. *)
Lemma driver_pages_apart va :
  va ∈ grant_vas → vpn va ≠ vpn 0x430000 ∧ vpn va ≠ vpn 0x7cf000.
Proof.
  intros Hva. unfold grant_vas in Hva. rewrite !elem_of_cons, elem_of_nil in Hva.
  destruct Hva as [-> |[-> |[-> |[-> |[-> |[-> |[]]]]]]]; by vm_compute.
Qed.

Lemma dq_pages_granted m : Forall (λ pg, pg.1.1.1 ∈ grant_vas) (dq_pages m).
Proof. unfold dq_pages. repeat (apply Forall_cons; split; [set_solver|]). done. Qed.

End end_to_end.

(** ** An instance *)

#[local] Existing Instance l1_mapper.
#[local] Existing Instance l1_mapper_laws.

(** Page tables for the pages of the four programs, the granted ones and, in the direct
    map, the windows of the timer and of a disk and a page of the kernel; 64 free frames. *)
Definition boot_ps : PState :=
  mkPS 0x1000 (<[0x1000 := 0x2007]> (<[0x2000 := 0x3007]> (<[0x3010 := 0x5007]> (<[0x3018 := 0x6007]> (<[0x3040 := 0x4007]>
    (<[0x1800 := 0x7007]> (<[0x7018 := 0x8007]> (<[0x8fb8 := 0x9007]> (<[0x7000 := 0xa007]> (<[0xa040 := 0xb007]>
    (<[0xb080 := 0x1010003]> ∅))))))))))).
Definition boot_memmap : list MemmapEntry := [mkEntry 0x200000 0x40000 0].
Definition boot_fa : FrameAllocator := init 0 fa_empty boot_memmap.

(** The tables of the last level: the indices that lead to one, and its address. *)
Definition boot_l1 : list (Z * Z * Z * Z) := [(0, 0, 2, 0x5000); (0, 0, 3, 0x6000); (0, 0, 8, 0x4000); (256, 3, 503, 0x9000); (256, 0, 8, 0xb000)].

Lemma boot_rd a :
  rd (pmem boot_ps) a = if decide (0x1000 = a) then 0x2007 else if decide (0x2000 = a) then 0x3007
    else if decide (0x3010 = a) then 0x5007 else if decide (0x3018 = a) then 0x6007 else if decide (0x3040 = a) then 0x4007
    else if decide (0x1800 = a) then 0x7007 else if decide (0x7018 = a) then 0x8007 else if decide (0x8fb8 = a) then 0x9007
    else if decide (0x7000 = a) then 0xa007 else if decide (0xa040 = a) then 0xb007 else if decide (0xb080 = a) then 0x1010003 else 0.
Proof. unfold boot_ps. cbn [pmem]. by rewrite !rd_insert. Qed.

(** The entry a table of the walk holds at an index, where it holds one. *)
Lemma boot_entry t va shift e :
  rd (pmem boot_ps) (pte_at t va shift) = e → t ∈ [0x1000; 0x2000; 0x3000; 0x7000; 0x8000; 0xa000] →
  e = 0 ∨ (t, Z.land (Z.shiftr va shift) 0x1ff, e) ∈ [(0x1000, 0, 0x2007); (0x2000, 0, 0x3007); (0x3000, 2, 0x5007);
    (0x3000, 3, 0x6007); (0x3000, 8, 0x4007); (0x1000, 256, 0x7007); (0x7000, 3, 0x8007); (0x8000, 503, 0x9007);
    (0x7000, 0, 0xa007); (0xa000, 8, 0xb007)].
Proof.
  rewrite boot_rd. unfold pte_at. pose proof (index_bound va shift) as Hb. revert Hb.
  generalize (Z.land (Z.shiftr va shift) 0x1ff). intros i Hb <- Ht.
  repeat match goal with |- context [decide (?a = ?b)] => destruct (decide (a = b)) as [?E|]; [right|] end; [..|by left];
    rewrite !elem_of_cons, elem_of_nil in Ht; destruct Ht as [-> |[-> |[-> |[-> |[-> |[-> |[]]]]]]]; try lia;
    first [assert (i = 0) as -> by lia|assert (i = 2) as -> by lia|assert (i = 3) as -> by lia|assert (i = 8) as -> by lia
      |assert (i = 256) as -> by lia|assert (i = 503) as -> by lia]; by repeat constructor.
Qed.

Ltac boot_upper Hb :=
  apply list.Forall_forall; repeat (apply Forall_cons; split; [apply Hb; by repeat constructor|]); by apply Forall_nil.
(** One level of the walk: no entry, or one of those above. *)
Ltac boot_level m va He Hb :=
  match goal with |- context [rd m (pte_at ?t va ?sh)] =>
    let E := fresh "E" in
    destruct (He t sh ltac:(by repeat constructor)) as [-> | E];
      [change (negb (entry_present 0) || entry_huge 0) with true; by (split; [boot_upper Hb|])|];
    rewrite !elem_of_cons, elem_of_nil in E; destruct_or! E; try done; let Hi := fresh "Hi" in let Hv := fresh "Hv" in injection E as Hi Hv; rewrite Hv;
    match type of Hv with _ = ?e =>
      change (negb (entry_present e) || entry_huge e) with false; let p := eval vm_compute in (entry_phys e) in change (entry_phys e) with p
    end; clear Hv
  end.

Lemma boot_walk va :
  (∀ a, a ∈ upper boot_ps va → a < 0x4000 ∨ 0x7000 <= a < 0x9000 ∨ 0xa000 <= a < 0xb000) ∧
  ∀ a, l1_entry boot_ps va = Some a →
    ∃ t, (Z.land (Z.shiftr va 39) 0x1ff, Z.land (Z.shiftr va 30) 0x1ff, Z.land (Z.shiftr va 21) 0x1ff, t) ∈ boot_l1 ∧
      a = t + 8 * Z.land (Z.shiftr va 12) 0x1ff.
Proof.
  assert (Hb : ∀ t shift, t ∈ [0x1000; 0x2000; 0x3000; 0x7000; 0x8000; 0xa000] → pte_at t va shift < 0x4000 ∨ 0x7000 <= pte_at t va shift < 0x9000 ∨
    0xa000 <= pte_at t va shift < 0xb000).
  { intros t shift Ht. unfold pte_at. pose proof (index_bound va shift).
    rewrite !elem_of_cons, elem_of_nil in Ht. destruct Ht as [-> |[-> |[-> |[-> |[-> |[-> |[]]]]]]]; lia. }
  assert (He := λ t sh, boot_entry t va sh _ eq_refl). revert He.
  unfold upper, l1_entry. change (cr3 boot_ps) with 0x1000. generalize (pmem boot_ps). intros m He. cbn [walk_path walk_tables].
  do 3 boot_level m va He Hb.
  all: split; [boot_upper Hb|]; intros a [= <-]; eexists; (split; [|reflexivity]).
  all: repeat match goal with Hi : Z.land (Z.shiftr _ _) _ = _ |- _ => rewrite Hi; clear Hi end; by repeat constructor.
Qed.

Lemma boot_fa_range f : f ∈ mem_set boot_fa → 0x200 <= f < 0x240.
Proof.
  intros (r & Hr & Hf)%elem_of_mem_set.
  assert (Hall : forallb (λ o, match o with
    | Some r => (0x200 <=? r_start r) && (r_end r <=? 0x240) | None => true end) (regions boot_fa) = true) by by vm_compute.
  rewrite forallb_forall in Hall. specialize (Hall _ (proj1 (list_elem_of_In _ _) Hr)).
  cbv beta iota in Hall. bools. lia.
Qed.

Lemma boot_pt_wf : pt_wf boot_ps boot_fa.
Proof.
  split; [|split].
  - apply coalesce_spec, (init_fold 0); [split; [reflexivity|]; by rewrite clear_live|].
    repeat (apply Forall_cons; split; [by vm_compute|]). by apply Forall_nil.
  - intros va va' a Ha. destruct (boot_walk va) as [_ Hl]. destruct (Hl a Ha) as (t & Ht & Hae).
    destruct (boot_walk va') as [Hu' Hl']. pose proof (index_bound va 12). pose proof (index_bound va' 12).
    unfold boot_l1 in Ht, Hl'. rewrite !elem_of_cons, elem_of_nil in Ht. split.
    + intros Hin. specialize (Hu' a Hin). destruct Ht as [[=]|[[=]|[[=]|[[=]|[[=]|[]]]]]]; lia.
    + intros Ha'. destruct (Hl' a Ha') as (t' & Ht' & Hae').
      rewrite !elem_of_cons, elem_of_nil in Ht'. apply index_vpn.
      intros s. rewrite !elem_of_cons, elem_of_nil.
      destruct Ht as [[=]|[[=]|[[=]|[[=]|[[=]|[]]]]]], Ht' as [[=]|[[=]|[[=]|[[=]|[[=]|[]]]]]];
        intros [-> |[-> |[-> |[-> |[]]]]]; lia.
  - intros f Hf%boot_fa_range. split; [lia|]. intros va a Ha.
    destruct (boot_walk va) as [Hu Hl]. pose proof (index_bound va 12).
    destruct Ha as [Ha|Ha]; [specialize (Hu a Ha)|destruct (Hl a Ha) as (t & Ht & Ha')]; [lia|].
    unfold boot_l1 in Ht. rewrite !elem_of_cons, elem_of_nil in Ht. destruct Ht as [[=]|[[=]|[[=]|[[=]|[[=]|[]]]]]]; lia.
Qed.

Definition demo_boot_disk : Disk VirtioDriver.demo_disk demo_hhdm := exist _ demo_state demo_idle.
Definition demo_boot_ss : SState := mkSS SCHED0 0 0 0 0 QUANTUM_NS.
Definition demo_boot : BootSt (Disk VirtioDriver.demo_disk demo_hhdm) :=
  mkB (mkKern _ (capspace0 demo_boot_ss boot_fa boot_ps demo_boot_disk) ∅ 0 CPTR_NULL 0 0 0) store0 [].
(** The timer's window at its usual address. *)
Definition boot_apic : demo_hw := mkHW (λ _, 0) (λ _, 0xFEE00900) (λ _, 0) 0.
Definition demo_kmain : BootSt (Disk VirtioDriver.demo_disk demo_hhdm) * bool :=
  kmain_main demo_hhdm demo_sel demo_stacks 0x200000 0 [0x0f; 0x0b] [0x0f; 0x05] [0x0f; 0x05] [0x0f; 0x05] boot_apic demo_boot.

Lemma demo_boot_start : boot_start demo_hhdm boot_apic demo_boot.
Proof.
  split; [done|done|exact boot_pt_wf| | | | |done].
  - intros va Hva. unfold grant_vas in Hva. rewrite !elem_of_cons, elem_of_nil in Hva.
    destruct Hva as [-> |[-> |[-> |[-> |[-> |[-> |[]]]]]]]; by vm_compute.
  - intros fr Hf%boot_fa_range. lia.
  - repeat split; by vm_compute.
  - intros va Hva. unfold grant_vas in Hva. rewrite !elem_of_cons, elem_of_nil in Hva.
    destruct Hva as [-> |[-> |[-> |[-> |[-> |[-> |[]]]]]]]; by vm_compute.
Qed.


(** The first tick selects the driver, whose period is the shortest. *)
Lemma boot_establishes_invariant_witness :
  let k := timer_tick (b_kern demo_kmain.1) 0x5000 in
  k_inv (ks k) ∧ current (sch k) = 4 ∧ k_inv (ks (krun demo_sel demo_stacks k [KSyscall 1 0 DQ_INFO 0 0 0 CPTR_NONE 0x6000; KTick 0x6000])).
Proof.
  unfold demo_kmain. assert (Hf : zlen [0x0f; 0x0b] <= 4096) by by vm_compute. assert (Hc : zlen [0x0f; 0x05] <= 4096) by by vm_compute.
  assert (Hon : demo_kmain.2 = true) by by vm_compute. unfold demo_kmain in Hon.
  destruct (boot_establishes_invariant demo_hhdm demo_sel demo_stacks 0x200000 0 boot_apic [0x0f; 0x0b] [0x0f; 0x05]
    [0x0f; 0x05] [0x0f; 0x05] Hf Hc Hc Hc demo_boot 0x5000 [KSyscall 1 0 DQ_INFO 0 0 0 CPTR_NONE 0x6000; KTick 0x6000]
    demo_boot_start Hon) as [Hi Hr].
  clear Hon. split; [exact Hi|]. split; [by vm_compute|]. apply Hr; [|by vm_compute].
  split; [|by repeat split]. split; [by vm_compute|done].
Defined.

(** The same disk with the scratch sector seeded, and a DeviceQueue object for it. *)
Definition seeded_state : VState VirtioDriver.demo_disk :=
  mkV _ demo_vb (λ _, 0) (mkDD (Some demo_queue) 0 (λ l, if l =? DQ_SCRATCH_LBA then dq_seed else replicate 512 0)).
Lemma seeded_idle : vb_inv demo_hhdm seeded_state.
Proof. intros Hp. destruct (demo_idle Hp). by split. Qed.
Definition seeded_disk : Disk VirtioDriver.demo_disk demo_hhdm := exist _ seeded_state seeded_idle.
Definition demo_dq_desc : DeviceQueueDesc := mkDQD 0x100000 0x101000 0x102000 0x103000 (v_doorbell_phys demo_vb) 16.
Definition seeded_k : KState (Disk VirtioDriver.demo_disk demo_hhdm) :=
  let s := capspace0 demo_boot_ss boot_fa boot_ps seeded_disk in
  set_devqueues s (devqueues s).[0 := dq_meta demo_vb DQ_MAGIC DQ_SCRATCH_LBA].
Definition mapped_k : KState (Disk VirtioDriver.demo_disk demo_hhdm) :=
  (devqueue_map (set_dev seeded_k (bake_disk demo_hhdm demo_dq_desc DQ_SCRATCH_LBA (dev seeded_k))) 5 0).1.
Definition driver_setup := setup_user_task (pt mapped_k) (fa mapped_k) 0x430000 0x7cf000 [0x0f; 0x05].
Definition driver_pt : PState := driver_setup.1.1.

Lemma seeded_k_wf : k_wf seeded_k.
Proof.
  apply set_devqueues_wf; [|split; by vm_compute].
  apply capspace0_wf; [exact boot_pt_wf|exact (bo_grants _ _ _ demo_boot_start)].
Qed.

Lemma pair_snd {A B} (x : A * B) b : x.2 = b → x = (x.1, b).
Proof. destruct x. by intros <-. Qed.

Lemma mapped_k_eq :
  devqueue_map (set_dev seeded_k (bake_disk demo_hhdm demo_dq_desc DQ_SCRATCH_LBA (dev seeded_k))) 5 0 = (mapped_k, (StOk, DQ_BASE)).
Proof. unfold mapped_k. apply pair_snd. by vm_compute. Qed.

Lemma triple_eta {A B C} (x : A * B * C) : x = (x.1.1, x.1.2, x.2).
Proof. by destruct x as [[? ?] ?]. Qed.

