(* ===== verification/Start.v ===== *)
(** * From the entry point to the store ([kernel/src/main.rs])

    The part of [kmain_main] before [objstore::mount]: the stack guard, the frame
    allocator from the loader's memory map, the bus scan and the disk driver with its
    self-test, on the machine as the loader leaves it. Together with [Boot] it is the
    whole of [kmain_main] from power on: the state it reaches is one from which the boot
    sequence of [Boot] does what it promises.

    [gdt::init] is [Gdt.init_gdt], whose selectors admission uses; [init_idt] and
    [syscall::init], in [Idt] and [Gdt], touch nothing of this state. The heap is the
    allocator crate's. *)

From S2P Require Import Prelude Capability CapTable Authority FrameSpec Memory Paging Apic Sched Gdt Context BlockDev ObjStore VirtioBlk VirtioDriver Pci VirtioInit Capspace Kernel User Boot.

(** ** The hardware phase *)

Section start.
Context {B V : Type} `{PciConf B} `{VirtioDev V} `{Mapper}.
Variable (hhdm kstack MEMMAP_USABLE : Z).
Implicit Types (x : VInit B V).

(** The page below the stack is unmapped. *)
Definition arm_guard x : VInit B V * bool :=
  let '(ps, armed) := unmap_page (vi_ps x) (stack_guard_base kstack) in
  (mkVI B V (vi_pci x) ps (vi_fa x) (vi_s x), armed).

(** [memory::init], or [init_hhdm] when the loader gave no map. *)
Definition init_memory (memmap : option (list MemmapEntry)) x : VInit B V :=
  match memmap with
  | Some mm => mkVI B V (vi_pci x) (vi_ps x) (Memory.init MEMMAP_USABLE (vi_fa x) mm) (vi_s x)
  | None => x
  end.

(** What the phase prints: whether the guard is armed, the bus and the disk's self-test. *)
Definition hw_phase (memmap : option (list MemmapEntry)) x : VInit B V * (bool * list Line * option (bool * bool)) :=
  let '(x, armed) := arm_guard x in
  let x := init_memory memmap x in
  let '(p, lines) := scan (vi_pci x) in
  let '(x, disk) := smoke_test hhdm (with_pci x p) in
  (x, (armed, lines, disk)).

(** The statics when [objstore::mount] is called, the disk behind its driver. *)
Definition boot_state x (d : Disk V hhdm) : BootSt (Disk V hhdm) :=
  mkB (mkKern _ (capspace0 (mkSS SCHED0 (stack_top kstack) 0 0 0 QUANTUM_NS) (vi_fa x) (vi_ps x) d) ∅ 0 CPTR_NULL 0 0 0) store0 [].
End start.

(** ** The machine at power on *)

Section power_on.
Context {B V : Type} `{PciConf B} {PL : PciLaws B} `{VirtioCommon V} {CL : VirtioCommonLaws V} {VL : VirtioLaws V}.
Context `{Bitflags} {M : Mapper} {ML : MapperLaws} {HW : Type} {AH : ApicHw HW} {AL : ApicLaws HW}.
Variable (hhdm kstack MEMMAP_USABLE : Z) (apic : HW).
Implicit Types (x : VInit B V).

(** What the loader hands over: sound page tables, none of them in memory it calls
    usable, and without a granted page; usable memory that is RAM; the statics as
    initialised; a disk, if there is one, that describes itself, with windows off the
    granted pages and the stack guard. *)
Record power_on (memmap : option (list MemmapEntry)) x : Prop := {
  po_entries : Forall entry_ok (default [] memmap);
  po_usable e f : e ∈ default [] memmap → usable_frame MEMMAP_USABLE e f →
    f < 2 ^ 40 ∧ no_table (vi_ps x) f ∧ ∀ a, f * 4096 <= a < f * 4096 + 4096 → vd_mmio a = false;
  po_tree : table_tree (vi_ps x);
  po_fa : vi_fa x = fa_empty;
  po_vb : vb (vi_s x) = VBLK0;
  po_grants va : va ∈ grant_vas → translate (vi_ps x) va = None ∧ vpn va ≠ vpn (stack_guard_base kstack);
  po_described : device_described (with_pci x (scan (vi_pci x)).1);
  po_apart va : va ∈ stack_guard_base kstack :: grant_vas → device_apart hhdm (with_pci x (scan (vi_pci x)).1) va;
  po_queue : 3 <= vc_qmax;
  po_doorbell : fits 52 (vc_nbase + vc_noff * vc_nmul);
}.

Lemma fa_empty_inv : mem_inv fa_empty.
Proof.
  assert (E : omap id (regions fa_empty) = []) by by vm_compute.
  split; [by vm_compute|]. rewrite E. split; constructor.
Qed.

(** The allocator holds usable frames only. *)
Lemma init_memory_frames memmap x :
  Forall entry_ok (default [] memmap) → vi_fa x = fa_empty →
  let fa := vi_fa (init_memory MEMMAP_USABLE memmap x) in
  mem_inv fa ∧ ∀ f, f ∈ mem_set fa → ∃ e, e ∈ default [] memmap ∧ usable_frame MEMMAP_USABLE e f.
Proof.
  intros He Hfa. destruct memmap as [mm|]; cbn [init_memory vi_fa default] in *; rewrite Hfa.
  - destruct (init_exact MEMMAP_USABLE fa_empty mm) as (I1 & I2 & _); [by vm_compute|done|]. split; [done|exact I2].
  - split; [apply fa_empty_inv|]. intros f Hf. exfalso. revert Hf. by assert (mem_set fa_empty = ∅) as -> by by vm_compute.
Qed.

(** Before the disk is looked for: tables sound, guard armed, granted pages free. *)
Lemma ready_for_disk memmap x :
  power_on memmap x →
  let x1 := init_memory MEMMAP_USABLE memmap (arm_guard kstack x).1 in
  let x2 := with_pci x1 (scan (vi_pci x1)).1 in
  bootable x2 ∧ v_present (vb (vi_s x2)) = false ∧ vb (vi_s x2) = VBLK0 ∧
  (∀ va, va ∈ stack_guard_base kstack :: grant_vas → device_apart hhdm x2 va ∧ translate (vi_ps x2) va = None).
Proof.
  intros Hp. cbv zeta. destruct (init_memory_frames memmap x (po_entries _ _ Hp) (po_fa _ _ Hp)) as [Hinv Hus].
  unfold arm_guard. destruct (unmap_page (vi_ps x) (stack_guard_base kstack)) as [ps armed] eqn:Eg. cbn [fst].
  set (x1 := init_memory _ _ _). assert (Ex : vi_pci x1 = vi_pci x ∧ vi_s x1 = vi_s x ∧ vi_ps x1 = ps ∧
    vi_fa x1 = vi_fa (init_memory MEMMAP_USABLE memmap x)) by by destruct memmap.
  destruct Ex as (E1 & E2 & E3 & E4). rewrite E1. rewrite <- E4 in Hinv, Hus.
  assert (Hwf : pt_wf (vi_ps x) (vi_fa x1)).
  { split; [done|]. split; [apply Hp|]. intros f Hf. destruct (Hus f Hf) as (e & He & Hu).
    destruct (po_usable _ _ Hp e f He Hu) as (F1 & F2 & _). split; [lia|done]. }
  destruct (unmap_page_effect _ _ _ _ _ Hwf Eg) as (Hwf' & Hg & Ho). split; [|split; [|split]].
  - split; cbn [with_pci vi_ps vi_fa]; [by rewrite E3| | |apply Hp].
    + intros f Hf. destruct (Hus f Hf) as (e & He & Hu). destruct (po_usable _ _ Hp e f He Hu) as (F1 & _ & F3).
      destruct Hu as (_ & Hu & _). split; [lia|done].
    + exact (po_described _ _ Hp).
  - cbn [with_pci vi_s]. by rewrite E2, (po_vb _ _ Hp).
  - cbn [with_pci vi_s]. by rewrite E2, (po_vb _ _ Hp).
  - intros va Hva. split; [exact (po_apart _ _ Hp va Hva)|]. cbn [with_pci vi_ps]. rewrite E3.
    apply elem_of_cons in Hva as [-> |Hva]; [done|]. destruct (po_grants _ _ Hp va Hva). by rewrite Ho.
Qed.

(** What the driver records fits the device-queue object. *)
Lemma rings_fit F v v' :
  frames_are_ram F → fits 52 (vc_nbase + vc_noff * vc_nmul) →
  v = VBLK0 ∨ rings_in F v ∧ v_doorbell_phys v = vc_nbase + vc_noff * vc_nmul → vb_kept v v' → dq_fits (dq_meta v' 0 0).
Proof.
  intros HF Hd Hv Hk. assert (Hfit : dq_fits (dq_meta v 0 0)).
  { destruct Hv as [-> |[Hr Hb]]; [by repeat split|]. unfold rings_in in Hr. rewrite !Forall_cons in Hr.
    destruct Hr as ((f1 & F1 & D1) & (f2 & F2 & D2) & (f3 & F3 & D3) & (f4 & F4 & D4) & _).
    pose proof (proj1 (HF _ F1)). pose proof (proj1 (HF _ F2)). pose proof (proj1 (HF _ F3)). pose proof (proj1 (HF _ F4)).
    unfold dq_fits, dq_meta. cbn. rewrite Hb, D1, D2, D3, D4. unfold fits in *. lia. }
  by destruct Hk as [-> | ->].
Qed.

(** The hardware phase leaves a machine from which [Boot] starts, and the stack guarded. *)
Lemma hw_phase_ok memmap x :
  power_on memmap x → lapic_apart hhdm apic →
  let x' := (hw_phase hhdm kstack MEMMAP_USABLE memmap x).1 in
  translate (vi_ps x') (stack_guard_base kstack) = None ∧
  ∃ d : Disk V hhdm, proj1_sig d = vi_s x' ∧ boot_start hhdm apic (boot_state hhdm kstack x' d).
Proof.
  intros Hp Hap. destruct (ready_for_disk memmap x Hp) as (Hb & Hoff & Hvb & Hva). unfold hw_phase.
  destruct (arm_guard kstack x) as [x0 armed]. cbn [fst] in *. set (x1 := init_memory _ _ _) in *.
  destruct (scan (vi_pci x1)) as [p lines]. cbn [fst] in *. set (x2 := with_pci x1 p) in *.
  pose proof (smoke_keeps hhdm x2 Hb Hoff) as Hs. destruct (smoke_test hhdm x2) as [x3 r].
  destruct Hs as ((Hwf & Hsub & Ht) & Hi & v & Hk & Hv). cbn [fst].
  assert (Hnone : ∀ va, va ∈ stack_guard_base kstack :: grant_vas → translate (vi_ps x3) va = None).
  { intros va Hin. destruct (Hva va Hin) as [Ha Hn]. by rewrite Ht. }
  split; [apply Hnone, elem_of_cons; by left|]. exists (exist _ (vi_s x3) Hi). split; [done|].
  split; [done|done|exact Hwf| | | |exact Hap|done].
  - intros va Hin. apply Hnone, elem_of_cons. by right.
  - intros f Hf. by apply (bo_ram _ Hb), Hsub.
  - rewrite Hvb in Hv. exact (rings_fit _ _ _ (bo_ram _ Hb) (po_doorbell _ _ Hp) Hv Hk).
Qed.

End power_on.

(** ** A machine

    The disk of [VirtioInit] behind its bus, and the page tables of [Boot]. *)

#[local] Existing Instance l1_mapper.
#[local] Existing Instance l1_mapper_laws.
#[local] Existing Instance slot_gdt.

Definition start_stack : Z := 0xffff800001010000.
Definition start_machine : VInit (Z → Z) live_disk :=
  mkVI (Z → Z) live_disk (mkPci (Z → Z) 0 live_conf) boot_ps fa_empty
    (mkV live_disk VBLK0 (λ _, 0) (mkLD live_reset false 0 (λ l, replicate 512 (l mod 256)))).

Definition start_scanned : VInit (Z → Z) live_disk := with_pci start_machine (scan (vi_pci start_machine)).1.
Definition start_conf : Z → Z := conf (enable_bus_master (find_virtio_blk (vi_pci start_scanned)).1 0 3 0).

(** The disk is function 00:03.0. *)
Lemma start_found p bus dev func :
  find_virtio_blk (vi_pci start_scanned) = (p, Some (bus, dev, func)) →
  (bus, dev, func) = (0, 3, 0) ∧ conf (enable_bus_master p bus dev func) = start_conf.
Proof.
  intros Hf. assert (Hr : (find_virtio_blk (vi_pci start_scanned)).2 = Some (0, 3, 0)) by by vm_compute.
  unfold start_conf. rewrite Hf in Hr |- *. clear Hf. by injection Hr as -> -> ->.
Qed.

Lemma start_caps : cap_list 48 start_conf 0 3 0 (Z.land (cfg_byte start_conf 0 3 0 0x34) 0xFC) = [0x40; 0x54].
Proof. by vm_compute. Qed.

Lemma start_apart va :
  va ∈ start_stack :: grant_vas → Forall (window_apart demo_hhdm start_conf 0 3 0 va) [0x40; 0x54].
Proof.
  intros Hva. assert (Hne : vpn va ≠ vpn (demo_hhdm + 0x1000000) ∧ vpn va ≠ vpn (demo_hhdm + 0x1001000)).
  { unfold grant_vas in Hva. rewrite !elem_of_cons, elem_of_nil in Hva.
    destruct Hva as [-> |[-> |[-> |[-> |[-> |[-> |[-> |[]]]]]]]]; by vm_compute. }
  destruct Hne as [N1 N2]. clear Hva. repeat (apply Forall_cons; split); [| |by apply Forall_nil]; intros _ q.
  - assert (window_phys start_conf 0 3 0 0x40 = 0x1000000) as -> by by vm_compute.
    assert (reg32 start_conf 0 3 0 (0x40 + 12) = 0x1000) as -> by by vm_compute.
    change (0x1000000 / 4096 <= q <= (0x1000000 + 0x1000 - 1) / 4096) with (0x1000 <= q <= 0x1000).
    intros Hq. replace q with 0x1000 by lia. by apply not_eq_sym.
  - assert (window_phys start_conf 0 3 0 0x54 = 0x1001000) as -> by by vm_compute.
    assert (reg32 start_conf 0 3 0 (0x54 + 12) = 0x1000) as -> by by vm_compute.
    change (0x1001000 / 4096 <= q <= (0x1001000 + 0x1000 - 1) / 4096) with (0x1001 <= q <= 0x1001).
    intros Hq. replace q with 0x1001 by lia. by apply not_eq_sym.
Qed.

(** The usable frames are those of [boot_fa]. *)
Lemma start_usable e f : e ∈ boot_memmap → usable_frame 0 e f → 0x200 <= f < 0x240 ∧ no_table boot_ps f.
Proof.
  intros He Hu. destruct (init_exact 0 fa_empty boot_memmap) as (_ & _ & Hin); [by vm_compute| |].
  { repeat (apply Forall_cons; split; [by vm_compute|]). by apply Forall_nil. }
  specialize (Hin ltac:(by vm_compute) e f He Hu). split; [by apply boot_fa_range|].
  by apply (proj2 (proj2 boot_pt_wf)).
Qed.

Lemma start_described : device_described start_scanned.
Proof.
  intros p bus dev func Hf. destruct (start_found p bus dev func Hf) as [Hb Hc]. clear Hf. injection Hb as -> -> ->.
  cbv zeta. rewrite Hc, start_caps. apply Forall_cons. split; [|apply Forall_singleton]; intros _; vm_compute; repeat split; done.
Qed.

Lemma start_device_apart va : va ∈ start_stack :: grant_vas → device_apart demo_hhdm start_scanned va.
Proof.
  intros Hva p bus dev func Hf. destruct (start_found p bus dev func Hf) as [Hb Hc]. clear Hf. injection Hb as -> -> ->.
  cbv zeta. rewrite Hc, start_caps. by apply start_apart.
Qed.

Lemma start_power_on : power_on demo_hhdm start_stack 0 (Some boot_memmap) start_machine.
Proof.
  split; [| |apply boot_pt_wf|reflexivity|reflexivity| | | |by vm_compute|by vm_compute].
  - repeat (apply Forall_cons; split; [by vm_compute|]). by apply Forall_nil.
  - intros e f He Hu. destruct (start_usable e f He Hu) as [Hf Hn]. split; [lia|]. split; [exact Hn|].
    intros a Ha. cbn [vd_mmio live_dev]. apply andb_false_iff. left. apply Z.leb_gt. unfold live_base. lia.
  - intros va Hva. split; [by apply (bo_grants _ _ _ demo_boot_start)|]. unfold grant_vas in Hva. rewrite !elem_of_cons, elem_of_nil in Hva.
    destruct Hva as [-> |[-> |[-> |[-> |[-> |[-> |[]]]]]]]; by vm_compute.
  - exact start_described.
  - intros va Hva. exact (start_device_apart va Hva).
Qed.

Lemma start_lapic : lapic_apart demo_hhdm boot_apic.
Proof. exact (bo_lapic _ _ _ demo_boot_start). Qed.

(** On that machine the guard is armed, the disk passes its test, all self-tests pass and
    the kernel runs. *)
Definition start_run := hw_phase demo_hhdm start_stack 0 (Some boot_memmap) start_machine.

